(* ===== verification/_CoqProject ===== *)
-Q . S2P
Prelude.v
Types.v
BurnRate.v
Runtime.v
Lamports.v
ProgramTools.v
Rules.v
Total.v
Borsh.v
Selectors.v
State.v
RdAccounts.v
Steps.v
RdTotal.v
RdClient.v
RdConfig.v
RdDistribution.v
RdRewards.v
RdDebt.v
RdSwap.v
RdIntegration.v
Lifecycle.v
Invariants.v
Books.v
Funds.v
Preservation.v
Instruction.v
Program.v
Progress.v
Executions.v
Canonical.v
Solvency.v
Accounting.v
Sequences.v
MockSwap.v
MockIntegration.v
PassportInstruction.v
PassportState.v
PassportMessage.v
PassportClient.v
PassportProcessor.v
PassportRules.v
PassportAccess.v
PassportExecutions.v
Simulator.v
Scenario.v
ExamplesData.v
ExamplesHandlers.v
History.v
PassportHistory.v
MockHistory.v
