(* ===== verification/Prelude.v ===== *)
(** * Verification of the DoubleZero programs on Solana

    This library models the on-chain programs of the repository --
    [programs/revenue-distribution] and [programs/passport] --, the crate
    [crates/program-tools] they are written with, the account lists their
    clients send, and the two mock programs of the integration tests.  It proves
    what each instruction does, and what holds of every ledger the programs
    reach.

    ** The programs

    Revenue distribution.  Once per epoch a _distribution_ account is created.
    A debt accountant posts the Merkle root of what Solana validators owe, in
    SOL; a rewards accountant posts the Merkle root of the shares of network
    contributors.  Validators pay from _deposit_ accounts into the _journal_ (or
    their debt is written off); an external swap program buys that SOL for 2Z
    tokens; the _sweep_ of a distribution collects the 2Z bought with its debt;
    _rewards integrations_ (other programs) add 2Z of their own.  Once swept and
    collected, each contributor's share is split into a part that is burned (the
    largest of three burn rates) and a part paid to the contributor's
    recipients.  The _program config_ holds the keys of the authorities, the
    pause flag and the parameters, among them the community burn rate, which
    grows from epoch to epoch up to a limit.

    Passport.  A user pays a deposit to open an _access request_; a sentinel
    grants it (the deposit less a fee goes back to the payer) or denies it.

    ** Files

    Shared by all programs:
    - [Prelude]: results with errors and panics, integers at their width, bytes
      and bits, record updates, tactics.
    - [Runtime]: what the programs get from outside the repository, as classes
      (below); accounts and the ledger.  [Lamports]: sums over the
      accounts of a ledger.
    - [ProgramTools]: [crates/program-tools] -- the monad of handlers, account
      iteration, zero-copy views with their borrows, the recipes that create
      accounts, the upgrade authority; [wlp], the partial-correctness
      predicate; [executes], what a sequence of CPIs leaves.
    - [Rules], [Total]: one rule per primitive of the monad, for [wlp] and for
      [twp] (total correctness); the tactics [step_with] and [tstep_with] apply
      them.
    - [Borsh], [Selectors]: encoders and decoders as codecs, each a record of
      its two functions and of the laws of the round trip; instruction
      selectors.

    The revenue-distribution program:
    - [Types]: [src/types.rs] -- epochs, unit shares, leaves, byte flags.
      [BurnRate]: [state/program_config/community_burn_rate.rs].  [State]:
      [state/*.rs] -- the six account structs with their accessors.
    - [RdAccounts]: contents of the program's accounts, well-formed ledgers, the
      bitmap of processed leaves, the guards at the end of [processor.rs].
    - [Steps], [RdTotal]: the tactics [step]/[astep] and [tstep] for its handlers.
    - [RdConfig], [RdDistribution], [RdRewards], [RdDebt], [RdSwap],
      [RdIntegration]: the handlers of [processor.rs], one definition per
      function, named as in the source; a long function is cut into consecutive
      stages, and the handler is their sequence.  [RdIntegration] also holds
      [src/integration.rs].
    - [RdClient]: [instruction/account.rs], a Module per struct ([t], [new],
      [metas]).  [Instruction]: [instruction/mod.rs], the wire format.
      [Program]: [try_process_instruction].
    - [Lifecycle]: a distribution as a state machine, whose steps are what the
      handlers do to one, refined by two tables (debts, rewards).
    - [Invariants], [Books], [Funds], [Preservation]: the invariant of the ledger;
      what it records twice, amounts and sequences; the funds it must hold; the
      rules by which a change of the ledger keeps these, and that the handlers
      do, or how they add to them.
    - [Progress], [Executions], [Canonical], [Solvency], [Accounting],
      [Sequences]: theorems about histories (below).

    The passport program: [PassportInstruction], [PassportState],
    [PassportMessage], [PassportClient], [PassportProcessor] (the source); [PassportRules]
    (tactics), [PassportAccess] (handlers), [PassportExecutions] (histories).

    The mocks: [MockSwap], [MockIntegration] -- [src/mock], over the same runtime,
    with the interfaces of the program on the other side of their CPIs.

    Instances: [Simulator] (addresses, hashes, the System program), [Scenario]
    (a runtime for the revenue-distribution program), [ExamplesData],
    [ExamplesHandlers], and three histories evaluated instruction by instruction,
    [History], [PassportHistory] and [MockHistory].  The main theorems are applied
    there at concrete inputs where their hypotheses hold.

    ** How the code is modelled

    A handler is a function of the state [St]: the ledger (a finite map from
    keys to accounts), the account iterator, the stack of live borrows, the
    return data of the last CPI and the trace of CPIs issued.  Its result is
    [Ok], [Err] with the [ProgramError] returned by [?], or [Panic].  Accounts
    are shared by key: the same key may be passed several times, and a view
    reads and writes the ledger, so aliasing of accounts is modelled; a second
    borrow conflicting with a live mutable one fails as in the source
    ([zc_try_next_accounts], [zc_mut_try_next_accounts]), and [drop] is
    [drop_view].  [run] executes a handler on a ledger and keeps the new ledger
    and the trace of CPIs when it succeeds (a failing instruction has no effect).

    The contents of an account are a type per program ([RdData], [PpData],
    [MsData], [MiData]): zero-filled, or one of its structs followed by the
    remaining bytes, or foreign bytes.  The class [ZeroCopy] is what views need
    of such a type.  The bitmaps of processed leaves live in the remaining bytes
    of a distribution and are modelled as bytes.

    Integers are [Z] with the width written in each operation.  The operators
    [+], [-] and [+=] are [arith_add] and [arith_sub]: they panic or wrap
    according to the [BuildProfile], over which everything is quantified.
    Indexing, slicing, [unwrap] and [expect] panic.

    ** Parameters and their laws

    [Runtime] collects what the code calls and the repository does not contain:
    CPIs into other programs, PDA derivation ([Pda]: bump seeds are bytes, and
    an address found is created again from its seeds and bump, [create_found]),
    Merkle root computation and its hash ([SvmHash]; [ProofCodec] is the Borsh
    format of a proof), unpacking of SPL token accounts and instructions, the
    state of the upgradeable loader, rent, the clock, the stack height, resizing,
    the sibling instruction.  Numbers these return fit their Rust types.

    [RuntimeLaws] states what the theorems use of the Solana runtime: a CPI
    changes neither data nor owner of an account of the calling program and never
    debits it, unless the program calls itself; the System program creates,
    allocates, assigns and transfers as its instructions say, and debits only its
    own accounts.  [ResizeLaws]: resizing keeps the contents, appends zeros and
    respects the maximal length.  [RdLaws] adds, for the revenue-distribution
    program, that a self-invocation with data that is no instruction fails, that
    other programs leave ledgers well formed and cannot forge the program's
    accounts, and that a CPI keeps the sum of lamports; [PpLaws] is its
    counterpart for the passport program.  [Simulator], [Scenario],
    [PassportHistory] and [MockHistory] satisfy them.

    ** Theorems

    - Numbers and data ([Types], [BurnRate], [State], [RdAccounts]): packing and
      encodings are faithful; unit shares cannot overflow; the rate schedule has
      a closed form, keeps its invariant and reaches its limit; the rate
      never falls; a split reward burns at the highest of its rates, adds up,
      and contributors cannot overdraw; a leaf is processed once.
    - Handlers: for each instruction, [<name>_spec] says what a successful run
      implies of the ledger before (who signed, which guards hold, which proof
      was given) and what the ledger is after, field by field, with the CPIs
      issued and the accounts left alone.  Where a handler does something with
      what a CPI left (distributing, sweeping, initializing a distribution, the
      mock's purchase), the ledgers in between are tied to it by [executes]:
      the CPIs start from the stated ledger and what the runtime makes of them
      is what the rest of the handler starts from.
    - Errors and totality: which settings are accepted, rejected or panic; the
      migration always succeeds on migratable accounts; a debt that is open and
      covered can be paid, a pending request decided.
    - The whole program ([Program], [Instruction]): dispatch, authorities, pause;
      the wire format is a bijection.
    - Histories ([Executions]).  A step is an instruction with any accounts and
      data, under any runtime that obeys the laws, or whatever other programs do
      meanwhile.  All ledgers reached satisfy [ledger_inv]: structs well formed,
      accounts at their derived addresses with canonical bump seeds, bitmaps
      inside their data and disjoint, counters equal to the number of marked
      leaves.  Along any history a distribution refines two tables, one of debts
      (open, paid, written off), one of rewards; nothing finalized changes; no
      debt is settled and no reward distributed twice.
    - [Canonical]: the accounts a successful instruction reads are, position by
      position, those the client's constructors derive for some arguments, but
      for the five that the program leaves to the swap program (a sweep) and to
      an integration program (a collection).
    - [Solvency]: when every instruction keeps the sum of lamports, as the runtime
      checks ([balanced_step]), the journal holds the SOL it records and a
      finalized distribution the relay fees of its outstanding rewards.
    - [Accounting]: in every ledger reached, what the distributions collected in
      SOL is what the journal holds, what is swapped and what was swept, and the
      2Z paid for it is in the swap destination or with a swept distribution.
    - [Sequences]: distributions, swept distributions and integrations are
      numbered without gaps up to the counters of the config and the journal;
      in particular distributions are swept in the order of their epochs.
    - Passport: requests are opened, granted or denied as the three handlers'
      specifications say; over histories of balanced steps ([pp_step]) the account of
      a request only moves as these allow, a pending one keeps its contents and
      never loses lamports but to a decision, and accounts stay consistent.  The
      message signed off chain determines what is requested.
    - Mocks: the registry of fills is a queue until its head moves; a dequeue
      serves the sweep whose debt it is for; a purchase transfers the 2Z offered
      and feeds the withdrawal of the SOL asked, which finds that amount; an
      integration pays exactly when the interface allows.

    Fuel: the only loops are over lists (structural) and the migration, whose
    fuel is the number of accounts left to read; each turn reads one, and
    [migrate_program_accounts_total] shows the loop never runs out.

    ** Not modelled

    [crates/program-tools/src/system.rs], which no module of its crate includes;
    the entrypoint macro, [msg!] and [Display] (the text of a public key is a
    parameter, [PubkeyText]); the tests.  The discriminators of accounts are the
    constructors of the contents' types, not hashes; instruction selectors are
    the constants their hashes evaluate to.  Padding and storage gaps are kept
    only where the code observes them. *)

From Stdlib Require Import ZArith Lia String Ascii.
From stdpp Require Export base tactics numbers list gmap.

Open Scope Z_scope.

(** ** Public keys

    A [Pubkey] is a 32-byte array; it is kept as the 256-bit number whose
    little-endian bytes it is.  [Pubkey::default()] is the zero key. *)
Abbreviation Pubkey := Z (only parsing).
Definition pubkey_default : Pubkey := 0.

(** ** Results

    [Err] is an early return with a [ProgramError]; [Panic] is a Rust panic
    ([unwrap], [expect], index out of range, division by zero, arithmetic
    overflow when overflow checks are compiled in). *)
Inductive ProgramError : Type :=
  | IncorrectProgramId
  | InvalidInstructionData
  | InvalidAccountData
  | InvalidAccountOwner
  | InvalidSeeds
  | InvalidRealloc
  | NotEnoughAccountKeys
  | MissingRequiredSignature
  | AccountDataTooSmall
  | AccountBorrowFailed
  | ArithmeticOverflow
  | OtherError (code : Z).

#[export] Instance ProgramError_eq_dec : EqDecision ProgramError.
Proof. solve_decision. Defined.

Inductive Res (A : Type) : Type :=
  | Ok (a : A)
  | Err (e : ProgramError)
  | Panic.
Arguments Ok {A} a.
Arguments Err {A} e.
Arguments Panic {A}.

(** The monad of fallible computations, with stdpp's notation
    [x ← m; k] (the [?] operator of the source). *)
#[export] Instance Res_ret : MRet Res := fun A a => Ok a.
#[export] Instance Res_bind : MBind Res := fun A B k m =>
  match m with
  | Ok a => k a
  | Err e => Err e
  | Panic => Panic
  end.

(** [Option::ok_or] and [Option::unwrap]. *)
Definition ok_or {A : Type} (o : option A) (e : ProgramError) : Res A :=
  match o with Some a => Ok a | None => Err e end.

Definition unwrap {A : Type} (o : option A) : Res A :=
  match o with Some a => Ok a | None => Panic end.

Definition require (b : bool) (e : ProgramError) : Res unit :=
  if b then Ok tt else Err e.

Definition is_ok {A : Type} (m : Res A) : bool :=
  match m with Ok _ => true | _ => false end.

Lemma res_bind_ok {A B : Type} (m : Res A) (k : A -> Res B) (b : B) :
  m ≫= k = Ok b <-> exists a, m = Ok a /\ k a = Ok b.
Proof. destruct m; unfold mbind; cbn; naive_solver. Qed.

Lemma ok_or_ok {A : Type} (o : option A) e (a : A) : ok_or o e = Ok a <-> o = Some a.
Proof. destruct o; naive_solver. Qed.

Lemma unwrap_ok {A : Type} (o : option A) (a : A) : unwrap o = Ok a <-> o = Some a.
Proof. destruct o; naive_solver. Qed.

Lemma require_ok b e u : require b e = Ok u <-> b = true.
Proof. destruct u, b; naive_solver. Qed.

(** ** Build profile

    [overflow-checks] and [debug-assertions] are settings of the cargo
    profile.  The workspace defines no release profile, so both are off in the
    deployed build and on in a debug build; the definitions take them as a
    parameter and the theorems hold for either.  The cargo feature
    [development] selects the 2Z mint. *)
Class BuildProfile : Type := {
  overflow_checks : bool;
  debug_assertions : bool;
  feature_development : bool
}.

Definition release_profile : BuildProfile :=
  {| overflow_checks := false; debug_assertions := false; feature_development := false |}.
Definition debug_profile : BuildProfile :=
  {| overflow_checks := true; debug_assertions := true; feature_development := false |}.

(** ** Machine integers

    A w-bit unsigned integer is a [Z] in [0, 2^w). *)
Definition umax (w : Z) : Z := 2 ^ w - 1.
Definition fits (w x : Z) : Prop := 0 <= x < 2 ^ w.
Definition wrap (w x : Z) : Z := x mod 2 ^ w.

#[export] Instance fits_dec w x : Decision (fits w x).
Proof. unfold fits. apply _. Defined.

Lemma fits_nonneg w x : fits w x -> 0 <= x.
Proof. by intros []. Qed.

Definition checked_add (w a b : Z) : option Z :=
  if a + b <? 2 ^ w then Some (a + b) else None.
Definition checked_sub (a b : Z) : option Z :=
  if b <=? a then Some (a - b) else None.
Definition saturating_add (w a b : Z) : Z := Z.min (a + b) (umax w).
Definition saturating_sub (a b : Z) : Z := Z.max (a - b) 0.
Definition saturating_mul (w a b : Z) : Z := Z.min (a * b) (umax w).
(** Unsigned division; [saturating_div] panics on a zero divisor. *)
Definition saturating_div (a b : Z) : Res Z :=
  if b =? 0 then Panic else Ok (a / b).
(** [TryFrom] between unsigned integers. *)
Definition try_into (w x : Z) : option Z := if x <? 2 ^ w then Some x else None.

(** The operators [+], [-] (and their assigning forms): wrapping when overflow
    checks are off, a panic when they are on. *)
Section Arith.
Context `{BuildProfile}.

Definition arith_add (w a b : Z) : Res Z :=
  if a + b <? 2 ^ w then Ok (a + b)
  else if overflow_checks then Panic else Ok (wrap w (a + b)).

Definition arith_sub (w a b : Z) : Res Z :=
  if b <=? a then Ok (a - b)
  else if overflow_checks then Panic else Ok (wrap w (a - b)).

Lemma arith_add_wrap w a b r :
  0 <= w -> 0 <= a -> 0 <= b -> arith_add w a b = Ok r -> r = wrap w (a + b).
Proof.
  unfold arith_add, wrap. intros. destruct (Z.ltb_spec (a + b) (2 ^ w)).
  - simplify_eq. rewrite Z.mod_small; lia.
  - destruct overflow_checks; naive_solver.
Qed.

Lemma arith_sub_wrap w a b r :
  0 <= w -> 0 <= b -> fits w a -> arith_sub w a b = Ok r -> r = wrap w (a - b).
Proof.
  unfold arith_sub, wrap, fits. intros. destruct (Z.leb_spec b a).
  - simplify_eq. rewrite Z.mod_small; lia.
  - destruct overflow_checks; naive_solver.
Qed.

(** An addition or subtraction wraps at most once. *)
Lemma arith_add_cases w a b r :
  0 <= w -> fits w a -> fits w b -> arith_add w a b = Ok r ->
  r = a + b \/ (2 ^ w <= a + b /\ r = a + b - 2 ^ w).
Proof.
  unfold fits. intros Hw Ha Hb Hr. apply arith_add_wrap in Hr as ->; [|lia..]. unfold wrap.
  destruct (Z.ltb_spec (a + b) (2 ^ w)); [left; apply Z.mod_small; lia|right].
  split; [lia|]. symmetry. apply (Z.mod_unique _ _ 1); lia.
Qed.

Lemma arith_add_exact w a b :
  a + b < 2 ^ w -> arith_add w a b = Ok (a + b).
Proof. intros. unfold arith_add. by rewrite (proj2 (Z.ltb_lt _ _)). Qed.

Lemma arith_sub_exact w a b : b <= a -> arith_sub w a b = Ok (a - b).
Proof. intros. unfold arith_sub. by rewrite (proj2 (Z.leb_le _ _)). Qed.

Lemma arith_add_fits w a b r :
  0 <= w -> 0 <= a -> 0 <= b -> arith_add w a b = Ok r -> fits w r.
Proof.
  intros Hw Ha Hb ->%arith_add_wrap; try done.
  apply Z.mod_pos_bound. apply Z.pow_pos_nonneg; lia.
Qed.

Lemma arith_sub_fits w a b r :
  0 <= w -> 0 <= b -> fits w a -> arith_sub w a b = Ok r -> fits w r.
Proof.
  intros Hw Hb Ha ->%arith_sub_wrap; try done.
  apply Z.mod_pos_bound. apply Z.pow_pos_nonneg; lia.
Qed.
End Arith.

Lemma checked_add_Some w a b r :
  checked_add w a b = Some r <-> r = a + b /\ a + b < 2 ^ w.
Proof. unfold checked_add. destruct (Z.ltb_spec (a + b) (2 ^ w)); naive_solver lia. Qed.

Lemma checked_sub_Some a b r : checked_sub a b = Some r <-> r = a - b /\ b <= a.
Proof. unfold checked_sub. destruct (Z.leb_spec b a); naive_solver lia. Qed.

Lemma saturating_sub_spec a b : saturating_sub a b = Z.max 0 (a - b).
Proof. unfold saturating_sub. lia. Qed.

(** ** Bits of fixed-width integers

    [bit] and [set_bit] of [ruint::Uint<BITS, _>] (and of a primitive integer
    masked with [1 << i]): a position at or beyond [BITS] reads as [false] and
    is ignored by [set_bit]. *)
Definition uint_bit (bits x i : Z) : bool := (i <? bits) && Z.testbit x i.
Definition uint_set_bit (bits x i : Z) (v : bool) : Z :=
  if i <? bits then (if v then Z.setbit x i else Z.clearbit x i) else x.

Lemma uint_bit_set_eq bits x i v :
  0 <= i < bits -> uint_bit bits (uint_set_bit bits x i v) i = v.
Proof.
  intros [? ?]. unfold uint_bit, uint_set_bit.
  rewrite (proj2 (Z.ltb_lt i bits)) by lia. cbn [andb].
  destruct v; [by rewrite Z.setbit_eq | by rewrite Z.clearbit_eq].
Qed.

Lemma uint_bit_set_ne bits x i j v :
  0 <= i -> 0 <= j -> i <> j -> uint_bit bits (uint_set_bit bits x i v) j = uint_bit bits x j.
Proof.
  intros. unfold uint_bit, uint_set_bit. destruct (i <? bits); [|done]. f_equal.
  destruct v; [by rewrite Z.setbit_neq | by rewrite Z.clearbit_neq].
Qed.

Lemma testbit_above x w i : fits w x -> w <= i -> Z.testbit x i = false.
Proof.
  intros [? ?] ?. destruct (Z.ltb_spec w 0).
  { rewrite Z.pow_neg_r in * by lia. lia. }
  destruct (decide (x = 0)) as [->|]; [apply Z.bits_0|].
  apply Z.bits_above_log2; [lia|]. apply Z.lt_le_trans with w; [|done].
  apply Z.log2_lt_pow2; lia.
Qed.

(** A natural number with no bit at or above [w] is a w-bit number. *)
Lemma fits_by_bits w x :
  0 <= w -> 0 <= x -> (forall i, w <= i -> Z.testbit x i = false) -> fits w x.
Proof.
  intros Hw Hx Hb. split; [done|]. destruct (Z.ltb_spec x (2 ^ w)); [done|].
  assert (x <> 0) by (pose proof (Z.pow_pos_nonneg 2 w); lia).
  assert (w <= Z.log2 x) as Hlog by (apply Z.log2_le_pow2; lia).
  apply Hb in Hlog. rewrite Z.bit_log2 in Hlog; [done|lia].
Qed.

Lemma uint_set_bit_fits bits x i v :
  0 <= i -> 0 <= bits -> fits bits x -> fits bits (uint_set_bit bits x i v).
Proof.
  intros Hi Hb Hx. unfold uint_set_bit. destruct (Z.ltb_spec i bits); [|done].
  apply fits_by_bits; [done| |].
  - destruct Hx. destruct v.
    + unfold Z.setbit. apply Z.lor_nonneg. rewrite Z.shiftl_nonneg. lia.
    + unfold Z.clearbit. apply Z.ldiff_nonneg. lia.
  - intros j Hj. destruct v.
    + rewrite Z.setbit_neq by lia. by eapply testbit_above.
    + rewrite Z.clearbit_neq by lia. by eapply testbit_above.
Qed.

(** ** Little-endian bytes *)
Fixpoint to_le_bytes (n : nat) (z : Z) : list Z :=
  match n with
  | O => []
  | S n' => z mod 256 :: to_le_bytes n' (z / 256)
  end.

Fixpoint from_le_bytes (bs : list Z) : Z :=
  match bs with
  | [] => 0
  | b :: bs' => b + 256 * from_le_bytes bs'
  end.

Lemma length_to_le_bytes n z : length (to_le_bytes n z) = n.
Proof. revert z; induction n; intros; cbn; auto. Qed.

Lemma from_to_le_bytes n z : fits (8 * Z.of_nat n) z -> from_le_bytes (to_le_bytes n z) = z.
Proof.
  revert z. induction n as [|n IH]; intros z [? Hz]; cbn [to_le_bytes from_le_bytes].
  { change (2 ^ (8 * Z.of_nat 0)) with 1 in Hz. lia. }
  rewrite IH; [pose proof (Z.div_mod z 256); lia|].
  split; [apply Z.div_pos; lia|]. apply Z.div_lt_upper_bound; [lia|].
  replace (8 * Z.of_nat (S n)) with (8 + 8 * Z.of_nat n) in Hz by lia.
  rewrite Z.pow_add_r in Hz by lia. change (2 ^ 8) with 256 in Hz. lia.
Qed.

Lemma to_le_bytes_inj n x y :
  fits (8 * Z.of_nat n) x -> fits (8 * Z.of_nat n) y ->
  to_le_bytes n x = to_le_bytes n y -> x = y.
Proof.
  intros Hx Hy E. rewrite <- (from_to_le_bytes n x), <- (from_to_le_bytes n y); congruence.
Qed.

(** ** Byte strings of the source *)
Fixpoint bytes_of_string (s : string) : list Z :=
  match s with
  | EmptyString => []
  | String c s' => Z.of_N (N_of_ascii c) :: bytes_of_string s'
  end.

(** ** Lengths and sums of lists *)
Definition lenZ {A} (l : list A) : Z := Z.of_nat (length l).

Definition sumZ {A : Type} (f : A -> Z) (l : list A) : Z := foldr (fun a s => f a + s) 0 l.

Lemma sumZ_nil {A} (f : A -> Z) : sumZ f [] = 0.
Proof. done. Qed.

Lemma sumZ_cons {A} (f : A -> Z) a l : sumZ f (a :: l) = f a + sumZ f l.
Proof. done. Qed.

Lemma sumZ_app {A} (f : A -> Z) l1 l2 : sumZ f (l1 ++ l2) = sumZ f l1 + sumZ f l2.
Proof. induction l1; rewrite ?app_nil_l, <- ?app_comm_cons, ?sumZ_cons; cbn; lia. Qed.

Lemma sumZ_nonneg {A} (f : A -> Z) l : (forall a, a ∈ l -> 0 <= f a) -> 0 <= sumZ f l.
Proof.
  induction l as [|a l IH]; intros Hf; [done|]. rewrite sumZ_cons.
  pose proof (Hf a ltac:(left)). assert (0 <= sumZ f l) by (apply IH; intros; apply Hf; by right).
  lia.
Qed.

(** Floors of shares never add up to more than the whole: the arithmetic core
    of every split of an amount by unit shares. *)
Lemma sum_shares_le {A} (share : A -> Z) (l : list A) (amount m : Z) :
  0 < m -> 0 <= amount -> (forall a, a ∈ l -> 0 <= share a) -> sumZ share l <= m ->
  sumZ (fun a => share a * amount / m) l <= amount.
Proof.
  intros Hm Ha Hs Hsum.
  assert (m * sumZ (fun a => share a * amount / m) l <= sumZ share l * amount) as Hle.
  { clear Hsum. induction l as [|a l IH]; [cbn; lia|]. rewrite !sumZ_cons.
    assert (m * sumZ (fun a => share a * amount / m) l <= sumZ share l * amount)
      by (apply IH; intros; apply Hs; by right).
    pose proof (Z.mul_div_le (share a * amount) m). lia. }
  nia.
Qed.

(** ** Record updates

    [r <| f := v |>] is [r] with field [f] set to [v].  A record type declares
    its eta-expansion once ([Eta]); the updater of each projection is found by
    abstracting that projection from it. *)
Class Eta (R : Type) := eta : R -> R.
Class Update {R A : Type} (p : R -> A) := update : (A -> A) -> R -> R.
Arguments update {R A} p {_} f r.

Ltac solve_update :=
  lazymatch goal with
  | |- @Update ?R ?A ?p =>
      let inst := constr:(_ : Eta R) in
      let body := eval hnf in inst in
      lazymatch eval pattern p in body with
      | ?k _ => exact (fun f => k (fun r => f (p r)))
      end
  end.
#[export] Hint Extern 0 (Update _) => solve_update : typeclass_instances.

Notation "r <| f := v |>" := (update f (fun _ => v) r)
  (at level 1, f at next level, v at level 200, left associativity,
   format "r  <| f  :=  v |>").

(** ** Automation *)

(** Boolean tests to propositions. *)
Ltac bool_to_prop :=
  repeat match goal with
  | H : (_ <? _) = true |- _ => apply Z.ltb_lt in H
  | H : (_ <? _) = false |- _ => apply Z.ltb_ge in H
  | H : (_ <=? _) = true |- _ => apply Z.leb_le in H
  | H : (_ <=? _) = false |- _ => apply Z.leb_gt in H
  | H : (_ =? _) = true |- _ => apply Z.eqb_eq in H
  | H : (_ =? _) = false |- _ => apply Z.eqb_neq in H
  | H : negb _ = true |- _ => apply negb_true_iff in H
  | H : negb _ = false |- _ => apply negb_false_iff in H
  | H : _ && _ = true |- _ => apply andb_true_iff in H as [? ?]
  | H : _ || _ = false |- _ => apply orb_false_iff in H as [? ?]
  | H : bool_decide _ = true |- _ => apply bool_decide_eq_true in H
  | H : bool_decide _ = false |- _ => apply bool_decide_eq_false in H
  end.

(** Inversion of a successful [Res] computation. *)
Ltac res_inv :=
  repeat match goal with
  | H : _ ≫= _ = Ok _ |- _ => apply res_bind_ok in H as (? & ? & ?)
  | H : mret _ = Ok _ |- _ => unfold mret, Res_ret in H
  | H : Ok _ = Ok _ |- _ => injection H as ?; subst
  | H : Err _ = Ok _ |- _ => discriminate H
  | H : Panic = Ok _ |- _ => discriminate H
  | H : ok_or _ _ = Ok _ |- _ => apply ok_or_ok in H
  | H : unwrap _ = Ok _ |- _ => apply unwrap_ok in H
  | H : require _ _ = Ok _ |- _ => apply require_ok in H
  | H : checked_add _ _ _ = Some _ |- _ => apply checked_add_Some in H as [? ?]; subst
  | H : checked_sub _ _ = Some _ |- _ => apply checked_sub_Some in H as [? ?]; subst
  end.

Create HintDb dz discriminated.
Create Rewrite HintDb dz.
#[export] Hint Resolve length_to_le_bytes uint_set_bit_fits : dz.
#[export] Hint Rewrite @sumZ_nil @sumZ_cons @sumZ_app : dz.
