(* ===== verification/Types.v ===== *)
(** * Scalar types of the revenue-distribution program

    [programs/revenue-distribution/src/types.rs]: DoubleZero epochs, unit
    shares (the macro [impl_unit_share] and its two instances), the Merkle leaf
    types [SolanaValidatorDebt] and [RewardShare], and [ByteFlags]. *)

From Stdlib Require Import ZArith Lia String.
From S2P Require Import Prelude.

(** ** Epochs: a newtype of [u64] *)
Abbreviation DoubleZeroEpoch := Z (only parsing).
Abbreviation EpochDuration := Z (only parsing).

Module Epoch.
Definition as_seed (epoch : DoubleZeroEpoch) : list Z := to_le_bytes 8 epoch.

Definition saturating_add_duration (epoch : DoubleZeroEpoch) (d : EpochDuration) : DoubleZeroEpoch :=
  saturating_add 64 epoch d.

Definition checked_sub_duration (epoch : DoubleZeroEpoch) (d : EpochDuration) : option DoubleZeroEpoch :=
  checked_sub epoch d.
End Epoch.

(** ** Unit shares

    The macro [impl_unit_share!] over the inner integer type ([inner_bits]
    wide) and the constant [MAX] ([max_value]); a share is its inner value. *)
Module UnitShare.
Section UnitShare.
Variables inner_bits max_value : Z.

Definition MIN : Z := 0.
Definition MAX : Z := max_value.

Definition new (value : Z) : option Z := if value <=? MAX then Some value else None.

(** [mul_scalar::<T>] for an unsigned [T] of [t_bits] bits: the [expect] on
    the conversion back is a panic. *)
Definition mul_scalar (t_bits self x : Z) : Res Z :=
  result ← saturating_div (saturating_mul 128 self x) MAX;
  unwrap (try_into t_bits result).

Definition checked_add (self other : Z) : option Z :=
  value ← Prelude.checked_add inner_bits self other;
  if value <=? MAX then Some value else None.

Definition checked_sub (self other : Z) : option Z := Prelude.checked_sub self other.

Definition saturating_add (self other : Z) : Z :=
  Z.min (Prelude.saturating_add inner_bits self other) MAX.

Definition saturating_sub (self other : Z) : Z := Prelude.saturating_sub self other.

(** [TryFrom<u64>]; both error strings collapse to [None]. *)
Definition try_from (value : Z) : option Z :=
  inner_value ← try_into inner_bits value;
  new inner_value.
End UnitShare.
End UnitShare.

Module UnitShare16.
Definition MAX : Z := 10000.
Definition new : Z -> option Z := UnitShare.new MAX.
Definition mul_scalar : Z -> Z -> Res Z := UnitShare.mul_scalar MAX 64.
Definition checked_add : Z -> Z -> option Z := UnitShare.checked_add 16 MAX.
End UnitShare16.

Module UnitShare32.
Definition MAX : Z := 1000000000.
Definition new : Z -> option Z := UnitShare.new MAX.
Definition mul_scalar : Z -> Z -> Res Z := UnitShare.mul_scalar MAX 64.
Definition saturating_sub : Z -> Z -> Z := UnitShare.saturating_sub.
Definition try_from : Z -> option Z := UnitShare.try_from 32 MAX.
End UnitShare32.

(** [ValidatorFee = UnitShare16], [BurnRate = UnitShare32]. *)
Abbreviation ValidatorFee := Z (only parsing).
Abbreviation BurnRate := Z (only parsing).

(** ** Merkle leaves *)
Record SolanaValidatorDebt : Type := MkSolanaValidatorDebt {
  debt_node_id : Pubkey;
  debt_amount : Z
}.

Definition DEBT_LEAF_PREFIX : list Z := bytes_of_string "solana_validator_debt".

(** The [Pod] bytes of a [#[repr(C)]] debt: key then little-endian amount. *)
Definition debt_leaf_bytes (d : SolanaValidatorDebt) : list Z :=
  to_le_bytes 32 (debt_node_id d) ++ to_le_bytes 8 (debt_amount d).

Record RewardShare : Type := MkRewardShare {
  contributor_key : Pubkey;
  unit_share : Z;
  remaining_bytes : list Z
}.
#[export] Instance RewardShare_eta : Eta RewardShare := fun r =>
  MkRewardShare (contributor_key r) (unit_share r) (remaining_bytes r).

Definition REWARD_LEAF_PREFIX : list Z := bytes_of_string "reward_share".

Definition reward_leaf_bytes (r : RewardShare) : list Z :=
  to_le_bytes 32 (contributor_key r) ++ to_le_bytes 4 (unit_share r) ++ remaining_bytes r.

Module Reward.
Definition FLAG_IS_BLOCKED_BIT : Z := 31.
Definition FLAG_IS_BLOCKED_MASK : Z := Z.shiftl 1 FLAG_IS_BLOCKED_BIT.
Definition ECONOMIC_BURN_RATE_MASK : Z := 0x3FFFFFFF.

(** [!x] on a [u32]. *)
Definition not32 (x : Z) : Z := Z.lxor x (umax 32).

Definition new (key : Pubkey) (share : Z) (should_block : bool) (economic_burn_rate : Z)
    : option RewardShare :=
  share ← UnitShare32.new share;
  rate ← UnitShare32.new economic_burn_rate;
  let combined_value :=
    if should_block then Z.lor rate FLAG_IS_BLOCKED_MASK else rate in
  Some (MkRewardShare key share (to_le_bytes 4 combined_value)).

Definition checked_unit_share (r : RewardShare) : option Z := UnitShare32.new (unit_share r).

Definition is_blocked (r : RewardShare) : bool :=
  negb (Z.land (from_le_bytes (remaining_bytes r)) FLAG_IS_BLOCKED_MASK =? 0).

Definition set_is_blocked (r : RewardShare) (should_block : bool) : RewardShare :=
  let combined_value := from_le_bytes (remaining_bytes r) in
  let combined_value :=
    if should_block then Z.lor combined_value FLAG_IS_BLOCKED_MASK
    else Z.land combined_value (not32 FLAG_IS_BLOCKED_MASK) in
  r <| remaining_bytes := to_le_bytes 4 combined_value |>.

Definition economic_burn_rate (r : RewardShare) : Z :=
  Z.land (from_le_bytes (remaining_bytes r)) ECONOMIC_BURN_RATE_MASK.

Definition checked_economic_burn_rate (r : RewardShare) : option Z :=
  UnitShare32.new (economic_burn_rate r).

Definition set_economic_burn_rate (r : RewardShare) (rate : Z) : RewardShare :=
  let combined_value := from_le_bytes (remaining_bytes r) in
  let combined_value := Z.land combined_value (not32 ECONOMIC_BURN_RATE_MASK) in
  let combined_value := Z.lor combined_value rate in
  r <| remaining_bytes := to_le_bytes 4 combined_value |>.
End Reward.

(** ** ByteFlags: eight flags in a byte *)
Module ByteFlags.
Definition bit (b index : Z) : bool :=
  if 8 <=? index then false else negb (Z.land b (Z.shiftl 1 index) =? 0).

Definition set_bit (b index : Z) (value : bool) : Z :=
  if index <? 8 then
    if value then Z.lor b (Z.shiftl 1 index)
    else Z.land b (Z.lxor (Z.shiftl 1 index) (umax 8))
  else b.
End ByteFlags.

(** ** Lemmas: unit shares *)
Section UnitShareLemmas.
Context (inner_bits max_value : Z).

Lemma unit_share_new_Some v s : UnitShare.new max_value v = Some s <-> s = v /\ v <= max_value.
Proof. unfold UnitShare.new, UnitShare.MAX. destruct (Z.leb_spec v max_value); naive_solver lia. Qed.

Hypothesis Hmax : 0 < max_value < 2 ^ 64.

(** A valid share of a [u64] is the exact floor: nothing saturates and the
    conversion back never panics. *)
Lemma unit_share_mul_scalar self x :
  0 <= self <= max_value -> fits 64 x ->
  UnitShare.mul_scalar max_value 64 self x = Ok (self * x / max_value) /\
  0 <= self * x / max_value <= x.
Proof.
  intros [? ?] [? ?].
  assert (0 <= self * x / max_value <= x) as Hle.
  { split; [apply Z.div_pos; nia|]. apply Z.div_le_upper_bound; nia. }
  split; [|done].
  unfold UnitShare.mul_scalar, saturating_mul, saturating_div, UnitShare.MAX, umax.
  rewrite Z.min_l.
  2:{ enough (self * x < 2 ^ 64 * 2 ^ 64) by (rewrite <- Z.pow_add_r in * by lia; cbn in *; lia). nia. }
  rewrite (proj2 (Z.eqb_neq max_value 0)) by lia. cbn [mbind Res_bind].
  unfold try_into. rewrite (proj2 (Z.ltb_lt _ _)) by lia. done.
Qed.

Lemma unit_share_checked_add_Some a b s :
  UnitShare.checked_add inner_bits max_value a b = Some s ->
  s = a + b /\ a + b <= max_value.
Proof.
  unfold UnitShare.checked_add, UnitShare.MAX. intros H.
  destruct (checked_add inner_bits a b) as [v|] eqn:E; cbn in H; [|done].
  apply checked_add_Some in E as [-> _].
  destruct (Z.leb_spec (a + b) max_value); naive_solver.
Qed.

Lemma unit_share_checked_add_intro a b :
  max_value < 2 ^ inner_bits -> a + b <= max_value ->
  UnitShare.checked_add inner_bits max_value a b = Some (a + b).
Proof.
  intros. unfold UnitShare.checked_add, checked_add, UnitShare.MAX.
  rewrite (proj2 (Z.ltb_lt _ _)) by lia. cbn. by rewrite (proj2 (Z.leb_le _ _)).
Qed.
End UnitShareLemmas.

Definition valid16 (x : Z) : Prop := 0 <= x <= UnitShare16.MAX.
Definition valid32 (x : Z) : Prop := 0 <= x <= UnitShare32.MAX.

Lemma mul_scalar16 self x :
  valid16 self -> fits 64 x ->
  UnitShare16.mul_scalar self x = Ok (self * x / UnitShare16.MAX) /\
  0 <= self * x / UnitShare16.MAX <= x.
Proof. intros. apply unit_share_mul_scalar; [unfold UnitShare16.MAX; lia|done|done]. Qed.

Lemma mul_scalar32 self x :
  valid32 self -> fits 64 x ->
  UnitShare32.mul_scalar self x = Ok (self * x / UnitShare32.MAX) /\
  0 <= self * x / UnitShare32.MAX <= x.
Proof. intros. apply unit_share_mul_scalar; [unfold UnitShare32.MAX; lia|done|done]. Qed.

Lemma new16_Some v s : UnitShare16.new v = Some s <-> s = v /\ v <= UnitShare16.MAX.
Proof. apply unit_share_new_Some. Qed.

Lemma new32_Some v s : UnitShare32.new v = Some s <-> s = v /\ v <= UnitShare32.MAX.
Proof. apply unit_share_new_Some. Qed.

#[export] Hint Resolve mul_scalar16 mul_scalar32 : dz.

(** ** Lemmas: bit masks *)
Lemma land_bit_nonzero x i : 0 <= i -> negb (Z.land x (Z.shiftl 1 i) =? 0) = Z.testbit x i.
Proof.
  intros Hi. rewrite Z.shiftl_1_l. destruct (Z.testbit x i) eqn:E.
  - apply negb_true_iff, Z.eqb_neq. intros H0.
    assert (Z.testbit (Z.land x (2 ^ i)) i = true) as Hb
      by (rewrite Z.land_spec, Z.pow2_bits_true, E; done).
    by rewrite H0, Z.bits_0 in Hb.
  - apply negb_false_iff, Z.eqb_eq. apply Z.bits_inj'. intros j Hj.
    rewrite Z.land_spec, Z.bits_0. destruct (decide (j = i)) as [->|].
    + by rewrite E.
    + by rewrite Z.pow2_bits_false, andb_false_r by lia.
Qed.

Lemma umax_bits w i : 0 <= w -> 0 <= i -> Z.testbit (umax w) i = (i <? w).
Proof.
  intros. unfold umax. replace (2 ^ w - 1) with (Z.ones w) by (rewrite Z.ones_equiv; lia).
  destruct (Z.ltb_spec i w); [by rewrite Z.ones_spec_low|by rewrite Z.ones_spec_high].
Qed.

Lemma byte_set_bit b i v j :
  fits 8 b -> 0 <= i < 8 -> 0 <= j ->
  Z.testbit (ByteFlags.set_bit b i v) j = if j =? i then v else Z.testbit b j.
Proof.
  intros Hb Hi Hj. unfold ByteFlags.set_bit. rewrite (proj2 (Z.ltb_lt i 8)) by lia.
  rewrite Z.shiftl_1_l. destruct v.
  - rewrite Z.lor_spec. destruct (Z.eqb_spec j i) as [->|].
    + rewrite Z.pow2_bits_true by lia. by rewrite orb_true_r.
    + rewrite Z.pow2_bits_false by lia. by rewrite orb_false_r.
  - rewrite Z.land_spec, Z.lxor_spec, umax_bits by lia. destruct (Z.eqb_spec j i) as [->|].
    + rewrite Z.pow2_bits_true, (proj2 (Z.ltb_lt i 8)) by lia. by rewrite andb_false_r.
    + rewrite Z.pow2_bits_false by lia. destruct (Z.ltb_spec j 8); cbn.
      * by rewrite andb_true_r.
      * by rewrite (testbit_above b 8 j).
Qed.

Lemma byte_set_bit_fits b i v : fits 8 b -> 0 <= i -> fits 8 (ByteFlags.set_bit b i v).
Proof.
  intros Hb Hi. destruct (Z.ltb_spec i 8).
  2:{ unfold ByteFlags.set_bit. by rewrite (proj2 (Z.ltb_ge i 8)). }
  apply fits_by_bits; [done| |].
  - unfold ByteFlags.set_bit. rewrite (proj2 (Z.ltb_lt i 8)) by lia. destruct Hb, v.
    + apply Z.lor_nonneg. rewrite Z.shiftl_nonneg. lia.
    + apply Z.land_nonneg. lia.
  - intros j Hj. rewrite byte_set_bit by (done || lia).
    rewrite (proj2 (Z.eqb_neq j i)) by lia. by eapply testbit_above.
Qed.

Lemma byte_bit_spec b i : 0 <= i -> ByteFlags.bit b i = (i <? 8) && Z.testbit b i.
Proof.
  intros. unfold ByteFlags.bit. destruct (Z.leb_spec 8 i).
  - by rewrite (proj2 (Z.ltb_ge i 8)).
  - rewrite (proj2 (Z.ltb_lt i 8)) by lia. by rewrite land_bit_nonzero.
Qed.

Lemma land_ones_mask w x : 0 <= w -> Z.land x (umax w) = x mod 2 ^ w.
Proof.
  intros. unfold umax. replace (2 ^ w - 1) with (Z.ones w) by (rewrite Z.ones_equiv; lia).
  by apply Z.land_ones.
Qed.

(** ** Theorems: reward shares and leaves *)
Definition reward_wf (r : RewardShare) : Prop :=
  length (remaining_bytes r) = 4%nat /\ fits 32 (from_le_bytes (remaining_bytes r)).

Definition flag_mask : Z := 2 ^ 31.

Lemma flag_mask_eq : Reward.FLAG_IS_BLOCKED_MASK = flag_mask.
Proof. reflexivity. Qed.

Lemma rate_mask_eq : Reward.ECONOMIC_BURN_RATE_MASK = umax 30.
Proof. reflexivity. Qed.

Lemma is_blocked_bit r : Reward.is_blocked r = Z.testbit (from_le_bytes (remaining_bytes r)) 31.
Proof. unfold Reward.is_blocked, Reward.FLAG_IS_BLOCKED_MASK. by apply land_bit_nonzero. Qed.

Lemma economic_burn_rate_bits r i :
  0 <= i ->
  Z.testbit (Reward.economic_burn_rate r) i =
  Z.testbit (from_le_bytes (remaining_bytes r)) i && (i <? 30).
Proof.
  intros. unfold Reward.economic_burn_rate. rewrite rate_mask_eq, Z.land_spec, umax_bits by lia. done.
Qed.

(** The 32-bit word holding flag and rate, described by its bits. *)
Definition packs (z : Z) (blocked : bool) (rate : Z) : Prop :=
  forall i, 0 <= i -> Z.testbit z i = (if i =? 31 then blocked else if i <? 30 then Z.testbit rate i else Z.testbit z i).

Lemma packed_read r blocked rate :
  fits 30 rate -> packs (from_le_bytes (remaining_bytes r)) blocked rate ->
  Reward.is_blocked r = blocked /\ Reward.economic_burn_rate r = rate.
Proof.
  intros Hr Hp. split.
  - rewrite is_blocked_bit. by rewrite (Hp 31) by lia.
  - apply Z.bits_inj'. intros i Hi. rewrite economic_burn_rate_bits, (Hp i) by lia.
    destruct (Z.eqb_spec i 31) as [->|]; [by rewrite (testbit_above rate 30), andb_false_r by (done || lia)|].
    destruct (Z.ltb_spec i 30); [by rewrite andb_true_r|].
    rewrite andb_false_r. symmetry. apply (testbit_above rate 30); [done|lia].
Qed.

Lemma lor_fits w x y : 0 <= w -> fits w x -> fits w y -> fits w (Z.lor x y).
Proof.
  intros Hw Hx Hy. apply fits_by_bits; [done|apply Z.lor_nonneg; split; [apply Hx|apply Hy]|].
  intros. by rewrite Z.lor_spec, (testbit_above x w), (testbit_above y w).
Qed.

Lemma land_fits w x y : 0 <= w -> fits w x -> 0 <= y -> fits w (Z.land x y).
Proof.
  intros Hw Hx Hy. apply fits_by_bits; [done|apply Z.land_nonneg; by right|].
  intros. by rewrite Z.land_spec, (testbit_above x w).
Qed.

Lemma fits_mono w1 w2 x : 0 <= w1 <= w2 -> fits w1 x -> fits w2 x.
Proof. intros ? [? ?]. split; [done|]. pose proof (Z.pow_le_mono_r 2 w1 w2). lia. Qed.

Lemma valid32_fits rate : valid32 rate -> fits 30 rate.
Proof. unfold valid32, UnitShare32.MAX, fits. lia. Qed.

#[export] Hint Resolve lor_fits land_fits valid32_fits : dz.

Ltac word_bits :=
  repeat first
    [ rewrite Z.lor_spec | rewrite Z.land_spec | rewrite Z.lxor_spec
    | rewrite umax_bits by lia ];
  repeat match goal with
  | |- context [Z.testbit flag_mask ?i] =>
      unfold flag_mask;
      first [rewrite (Z.pow2_bits_false 31 i) by lia | rewrite (Z.pow2_bits_true 31) by lia]
  end.

Lemma reward_new_share key share blocked rate r :
  Reward.new key share blocked rate = Some r -> unit_share r = share.
Proof.
  unfold Reward.new. destruct (UnitShare32.new share) as [s|] eqn:E; [|done].
  apply new32_Some in E as [-> _]. cbn. destruct (UnitShare32.new rate); cbn; [|done].
  destruct blocked; by injection 1 as <-.
Qed.

(** [RewardShare::new] is a faithful packing: when it succeeds every field
    reads back as given (key, unit share, blocked flag, economic burn rate),
    for every valid share and rate; and it succeeds exactly when both the share
    and the rate are at most 100%. *)
Theorem reward_share_new_roundtrip (key share rate : Z) (blocked : bool) :
  0 <= share -> 0 <= rate ->
  (valid32 share /\ valid32 rate ->
   exists r, Reward.new key share blocked rate = Some r /\
     contributor_key r = key /\ Reward.checked_unit_share r = Some share /\
     Reward.is_blocked r = blocked /\ Reward.checked_economic_burn_rate r = Some rate /\
     reward_wf r) /\
  (~ (valid32 share /\ valid32 rate) -> Reward.new key share blocked rate = None).
Proof.
  intros Hs Hr. split.
  - intros [Vs Vr]. pose proof (valid32_fits rate Vr) as Fr.
    set (v := if blocked then Z.lor rate Reward.FLAG_IS_BLOCKED_MASK else rate).
    assert (fits 32 v) as Fv.
    { subst v. assert (fits 32 rate) by (apply (fits_mono 30); [lia|done]).
      destruct blocked; [|done]. apply lor_fits; [lia|done|]. split; done. }
    exists (MkRewardShare key share (to_le_bytes 4 v)).
    assert (from_le_bytes (to_le_bytes 4 v) = v) as Ev by (by apply from_to_le_bytes).
    destruct (packed_read (MkRewardShare key share (to_le_bytes 4 v)) blocked rate Fr) as [Hb He].
    { cbn [remaining_bytes]. rewrite Ev. intros i Hi. subst v.
      destruct (Z.eqb_spec i 31) as [->|]; destruct blocked; rewrite ?flag_mask_eq; word_bits.
      - by rewrite orb_true_r.
      - apply (testbit_above rate 30); [done|lia].
      - rewrite orb_false_r. by destruct (i <? 30).
      - by destruct (i <? 30). }
    assert (UnitShare32.new share = Some share) as Es by (apply new32_Some; split; [done|apply Vs]).
    assert (UnitShare32.new rate = Some rate) as Er by (apply new32_Some; split; [done|apply Vr]).
    split; [unfold Reward.new; by rewrite Es, Er|].
    unfold Reward.checked_unit_share, Reward.checked_economic_burn_rate, reward_wf.
    rewrite He. cbn [contributor_key unit_share remaining_bytes]. rewrite Ev.
    auto 10 using length_to_le_bytes.
  - intros Hn. unfold Reward.new.
    destruct (UnitShare32.new share) eqn:E1; [|done].
    destruct (UnitShare32.new rate) eqn:E2; [|done].
    apply new32_Some in E1 as [-> ?], E2 as [-> ?]. destruct Hn. split; split; done.
Qed.

(** The two setters touch only their own bits: setting the blocked flag
    keeps the rate, setting a valid rate keeps the flag, and each reads back. *)
Theorem reward_share_setters (r : RewardShare) (b : bool) (rate : Z) :
  reward_wf r -> valid32 rate ->
  Reward.is_blocked (Reward.set_is_blocked r b) = b /\
  Reward.economic_burn_rate (Reward.set_is_blocked r b) = Reward.economic_burn_rate r /\
  Reward.is_blocked (Reward.set_economic_burn_rate r rate) = Reward.is_blocked r /\
  Reward.economic_burn_rate (Reward.set_economic_burn_rate r rate) = rate.
Proof.
  intros [_ Hf] Hv. set (w := from_le_bytes (remaining_bytes r)) in *.
  pose proof (valid32_fits rate Hv) as Fr.
  assert (fits 30 (Reward.economic_burn_rate r)) as Fe.
  { unfold Reward.economic_burn_rate. rewrite rate_mask_eq, land_ones_mask by lia.
    apply Z.mod_pos_bound. lia. }
  assert (fits 32 flag_mask) as Fm by (split; done).
  destruct (packed_read (Reward.set_is_blocked r b) b (Reward.economic_burn_rate r) Fe) as [H1 H2].
  { unfold Reward.set_is_blocked. cbn [update remaining_bytes]. fold w.
    rewrite from_to_le_bytes.
    2:{ destruct b; [by apply lor_fits|apply land_fits; [lia|done|]]. done. }
    intros i Hi. rewrite economic_burn_rate_bits by lia. fold w.
    unfold Reward.not32. rewrite flag_mask_eq.
    destruct (Z.eqb_spec i 31) as [->|]; destruct b; word_bits.
    - by rewrite orb_true_r.
    - by rewrite andb_false_r.
    - rewrite orb_false_r. destruct (i <? 30); [by rewrite andb_true_r|done].
    - destruct (Z.ltb_spec i 30); [rewrite (proj2 (Z.ltb_lt i 32)) by lia; by rewrite !andb_true_r|].
      done. }
  destruct (packed_read (Reward.set_economic_burn_rate r rate) (Reward.is_blocked r) rate Fr) as [H3 H4].
  { unfold Reward.set_economic_burn_rate. cbn [update remaining_bytes]. fold w.
    rewrite from_to_le_bytes.
    2:{ apply lor_fits; [lia|apply land_fits; [lia|done|done]|apply (fits_mono 30); [lia|done]]. }
    intros i Hi. rewrite is_blocked_bit. fold w.
    unfold Reward.not32. rewrite rate_mask_eq. word_bits.
    destruct (Z.eqb_spec i 31) as [->|].
    - rewrite (testbit_above rate 30) by (done || lia). cbn. by rewrite andb_true_r, orb_false_r.
    - destruct (Z.ltb_spec i 30); [|done].
      rewrite (proj2 (Z.ltb_lt i 32)) by lia. cbn. by rewrite andb_false_r. }
  done.
Qed.

(** The leaf encodings are injective: distinct debts (node, amount) and
    distinct reward shares (contributor, share, flag and rate bytes) have
    distinct leaf bytes, so a Merkle leaf determines what it pays. *)
Theorem leaf_bytes_injective (d1 d2 : SolanaValidatorDebt) (r1 r2 : RewardShare) :
  fits 256 (debt_node_id d1) -> fits 256 (debt_node_id d2) ->
  fits 64 (debt_amount d1) -> fits 64 (debt_amount d2) ->
  fits 256 (contributor_key r1) -> fits 256 (contributor_key r2) ->
  fits 32 (unit_share r1) -> fits 32 (unit_share r2) ->
  (debt_leaf_bytes d1 = debt_leaf_bytes d2 -> d1 = d2) /\
  (reward_leaf_bytes r1 = reward_leaf_bytes r2 -> r1 = r2).
Proof.
  intros. split; intros E.
  - apply app_inj_1 in E as [E1 E2]; [|by rewrite !length_to_le_bytes].
    apply to_le_bytes_inj in E1, E2; try done. destruct d1, d2; cbn in *; congruence.
  - apply app_inj_1 in E as [E1 E2]; [|by rewrite !length_to_le_bytes].
    apply app_inj_1 in E2 as [E2 E3]; [|by rewrite !length_to_le_bytes].
    apply to_le_bytes_inj in E1, E2; try done. destruct r1, r2; cbn in *; congruence.
Qed.
