(* ===== verification/BurnRate.v ===== *)
(** * Community burn rate

    [programs/revenue-distribution/src/state/program_config/community_burn_rate.rs]:
    the parameters, the per-epoch computation [checked_compute] and the
    reconfiguration [checked_update].  [checked_compute] is executed once per
    initialized distribution; the theorems give its exact schedule, its
    invariant under any interleaving of computations and updates, and its
    convergence to the limit. *)

From Stdlib Require Import ZArith Lia.
From S2P Require Import Prelude Types.

Record CommunityBurnRateParameters : Type := MkCbr {
  limit : BurnRate;
  dz_epochs_to_increasing : EpochDuration;
  dz_epochs_to_limit : EpochDuration;
  cached_slope_numerator : BurnRate;
  cached_slope_denominator : EpochDuration;
  cached_next_burn_rate : BurnRate
}.
#[export] Instance Cbr_eta : Eta CommunityBurnRateParameters := fun p =>
  MkCbr (limit p) (dz_epochs_to_increasing p) (dz_epochs_to_limit p)
        (cached_slope_numerator p) (cached_slope_denominator p) (cached_next_burn_rate p).

Definition cbr_default : CommunityBurnRateParameters := MkCbr 0 0 0 0 0 0.

Inductive CommunityBurnRateMode : Type := Static | Increasing | Limit.

Module Cbr.
Definition next_burn_rate (p : CommunityBurnRateParameters) : option BurnRate :=
  if cached_next_burn_rate p =? UnitShare.MIN then None else Some (cached_next_burn_rate p).

Definition slope (p : CommunityBurnRateParameters) : BurnRate * EpochDuration :=
  (cached_slope_numerator p, cached_slope_denominator p).

Definition mode (p : CommunityBurnRateParameters) : CommunityBurnRateMode :=
  if negb (dz_epochs_to_increasing p =? 0) then Static
  else if negb (dz_epochs_to_limit p =? 0) then Increasing
  else Limit.

(** [&mut self] with an [Option] result; a failed update changes nothing. *)
Definition checked_update (p : CommunityBurnRateParameters)
    (new_limit : BurnRate) (new_dz_epochs_to_increasing new_dz_epochs_to_limit : EpochDuration)
    : option ((BurnRate * EpochDuration) * CommunityBurnRateParameters) :=
  if new_limit <? cached_next_burn_rate p then None
  else if new_dz_epochs_to_increasing =? 0 then None
  else if new_dz_epochs_to_limit <? new_dz_epochs_to_increasing then None
  else
    let slope_numerator := UnitShare32.saturating_sub new_limit (cached_next_burn_rate p) in
    let slope_denominator :=
      saturating_add 32 (saturating_sub new_dz_epochs_to_limit new_dz_epochs_to_increasing) 1 in
    Some ((slope_numerator, slope_denominator),
      p <| limit := new_limit |>
        <| dz_epochs_to_increasing := new_dz_epochs_to_increasing |>
        <| dz_epochs_to_limit := new_dz_epochs_to_limit |>
        <| cached_slope_numerator := slope_numerator |>
        <| cached_slope_denominator := slope_denominator |>).

Definition new (initial_rate limit : BurnRate)
    (dz_epochs_to_increasing dz_epochs_to_limit : EpochDuration)
    : option CommunityBurnRateParameters :=
  if initial_rate =? UnitShare.MIN then None
  else
    match checked_update (cbr_default <| cached_next_burn_rate := initial_rate |>)
            limit dz_epochs_to_increasing dz_epochs_to_limit with
    | Some (_, params) => Some params
    | None => None
    end.

(** The recalculation of the cached rate while increasing; [None] is the
    early return of [?] on the checked addition or the conversion, and the
    division panics on a zero denominator. *)
Definition increased_rate (p : CommunityBurnRateParameters) : Res (option BurnRate) :=
  match checked_add 64
          (saturating_mul 64 (cached_next_burn_rate p) (cached_slope_denominator p))
          (cached_slope_numerator p) with
  | None => mret None
  | Some sum =>
      new_burn_rate ← saturating_div sum (cached_slope_denominator p);
      mret (match UnitShare32.try_from new_burn_rate with
            | Some burn_rate => Some (Z.min burn_rate (limit p))
            | None => None
            end)
  end.

(** The pair of the returned option and the mutated [self]. *)
Definition checked_compute `{BuildProfile} (p : CommunityBurnRateParameters)
    : Res (option BurnRate * CommunityBurnRateParameters) :=
  match next_burn_rate p with
  | None => mret (None, p)
  | Some next =>
      let p := p <| dz_epochs_to_limit := saturating_sub (dz_epochs_to_limit p) 1 |> in
      let p := p <| dz_epochs_to_increasing := saturating_sub (dz_epochs_to_increasing p) 1 |> in
      if dz_epochs_to_limit p =? 0 then
        (if debug_assertions && negb (dz_epochs_to_increasing p =? 0) then Panic else mret tt);;
        mret (Some next, p <| cached_next_burn_rate := limit p |>)
      else if dz_epochs_to_increasing p =? 0 then
        new_rate ← increased_rate p;
        mret (match new_rate with
              | None => (None, p)
              | Some r => (Some next, p <| cached_next_burn_rate := r |>)
              end)
      else mret (Some next, p)
  end.

(** [n] successive computations: the rates returned and the final state. *)
Fixpoint compute_n `{BuildProfile} (n : nat) (p : CommunityBurnRateParameters)
    : Res (list (option BurnRate) * CommunityBurnRateParameters) :=
  match n with
  | O => mret ([], p)
  | S n' =>
      '(r, p1) ← checked_compute p;
      '(rs, p2) ← compute_n n' p1;
      mret (r :: rs, p2)
  end.
End Cbr.

(** ** Invariant *)

(** The per-epoch increment while increasing. *)
Definition cbr_increment (p : CommunityBurnRateParameters) : Z :=
  cached_slope_numerator p / cached_slope_denominator p.

(** Configured parameters: the rate is positive and at most the limit, and the
    increments still to come cannot take it past the limit. *)
Record cbr_inv (p : CommunityBurnRateParameters) : Prop := {
  cbr_limit : limit p <= UnitShare32.MAX;
  cbr_next : 0 < cached_next_burn_rate p <= limit p;
  cbr_epochs : 0 <= dz_epochs_to_increasing p <= dz_epochs_to_limit p;
  cbr_width : dz_epochs_to_limit p < 2 ^ 32;
  cbr_num : 0 <= cached_slope_numerator p <= UnitShare32.MAX;
  cbr_den : 1 <= cached_slope_denominator p < 2 ^ 32;
  cbr_room :
    cached_next_burn_rate p
    + (dz_epochs_to_limit p - Z.max (dz_epochs_to_increasing p) 1) * cbr_increment p
    <= limit p
}.

(** Unconfigured parameters have no next rate. *)
Definition cbr_ok (p : CommunityBurnRateParameters) : Prop :=
  cached_next_burn_rate p = 0 \/ cbr_inv p.

Lemma cbr_increment_nonneg p : cbr_inv p -> 0 <= cbr_increment p.
Proof. intros []. apply Z.div_pos; lia. Qed.

Lemma next_burn_rate_inv p : cbr_inv p -> Cbr.next_burn_rate p = Some (cached_next_burn_rate p).
Proof. intros []. unfold Cbr.next_burn_rate, UnitShare.MIN. by rewrite (proj2 (Z.eqb_neq _ _)) by lia. Qed.

(** The 64-bit computation of the increased rate neither overflows nor
    saturates: it is the rate plus the increment, clamped to the limit. *)
Lemma increased_rate_exact p :
  0 <= cached_next_burn_rate p <= UnitShare32.MAX ->
  0 <= cached_slope_numerator p <= UnitShare32.MAX ->
  1 <= cached_slope_denominator p < 2 ^ 32 ->
  cached_next_burn_rate p + cbr_increment p <= UnitShare32.MAX ->
  Cbr.increased_rate p = Ok (Some (Z.min (cached_next_burn_rate p + cbr_increment p) (limit p))).
Proof.
  unfold UnitShare32.MAX. intros Hn Hnum Hden Hle.
  unfold Cbr.increased_rate, saturating_mul, umax.
  rewrite Z.min_l by nia. unfold checked_add. rewrite (proj2 (Z.ltb_lt _ _)) by nia.
  unfold saturating_div. rewrite (proj2 (Z.eqb_neq _ _)) by lia.
  rewrite Z.div_add_l by lia. fold (cbr_increment p). cbn [mbind Res_bind].
  unfold UnitShare32.try_from, UnitShare.try_from, try_into.
  assert (0 <= cbr_increment p) by (apply Z.div_pos; lia).
  rewrite (proj2 (Z.ltb_lt _ _)) by lia. cbn [mbind option_bind].
  unfold UnitShare.new, UnitShare.MAX, UnitShare32.MAX. by rewrite (proj2 (Z.leb_le _ _)) by lia.
Qed.

(** The state after one computation, case by case. *)
Lemma checked_compute_inv `{BuildProfile} p :
  cbr_inv p ->
  exists p', Cbr.checked_compute p = Ok (Some (cached_next_burn_rate p), p') /\ cbr_inv p' /\
    limit p' = limit p /\
    cached_slope_numerator p' = cached_slope_numerator p /\
    cached_slope_denominator p' = cached_slope_denominator p /\
    dz_epochs_to_limit p' = Z.max 0 (dz_epochs_to_limit p - 1) /\
    dz_epochs_to_increasing p' = Z.max 0 (dz_epochs_to_increasing p - 1) /\
    cached_next_burn_rate p' =
      (if dz_epochs_to_limit p <=? 1 then limit p
       else if dz_epochs_to_increasing p <=? 1 then cached_next_burn_rate p + cbr_increment p
       else cached_next_burn_rate p).
Proof.
  intros Hinv. pose proof (cbr_increment_nonneg p Hinv) as Hq.
  unfold Cbr.checked_compute. rewrite next_burn_rate_inv by done.
  destruct p as [lim dti dtl num den next]. cbn [update limit dz_epochs_to_increasing dz_epochs_to_limit
    cached_slope_numerator cached_slope_denominator cached_next_burn_rate].
  destruct Hinv as [Hlim Hnext Hep Hw Hnum Hden Hroom]. unfold cbr_increment in *.
  cbn [limit dz_epochs_to_increasing dz_epochs_to_limit
    cached_slope_numerator cached_slope_denominator cached_next_burn_rate] in *.
  unfold saturating_sub. destruct (Z.leb_spec dtl 1).
  { rewrite (proj2 (Z.eqb_eq (Z.max (dtl - 1) 0) 0)) by lia.
    rewrite (proj2 (Z.eqb_eq (Z.max (dti - 1) 0) 0)) by lia.
    rewrite andb_false_r. eexists. split; [reflexivity|]. cbn.
    split_and!; try lia. constructor; cbn; unfold cbr_increment; cbn; nia. }
  rewrite (proj2 (Z.eqb_neq (Z.max (dtl - 1) 0) 0)) by lia. destruct (Z.leb_spec dti 1).
  - rewrite (proj2 (Z.eqb_eq (Z.max (dti - 1) 0) 0)) by lia.
    assert (next + num / den <= lim) by nia.
    rewrite increased_rate_exact; cbn; unfold cbr_increment; cbn; try lia.
    rewrite Z.min_l by lia. eexists. split; [reflexivity|]. cbn.
    split_and!; try lia. constructor; cbn; unfold cbr_increment; cbn; lia.
  - rewrite (proj2 (Z.eqb_neq (Z.max (dti - 1) 0) 0)) by lia.
    eexists. split; [reflexivity|]. cbn. split_and!; try lia.
    constructor; cbn; unfold cbr_increment; cbn; lia.
Qed.

Lemma checked_update_Some p lim dti dtl s p' :
  Cbr.checked_update p lim dti dtl = Some (s, p') ->
  cached_next_burn_rate p <= lim /\ dti <> 0 /\ dti <= dtl /\
  s = (Z.max 0 (lim - cached_next_burn_rate p), Z.min (Z.max 0 (dtl - dti) + 1) (umax 32)) /\
  p' = MkCbr lim dti dtl s.1 s.2 (cached_next_burn_rate p).
Proof.
  unfold Cbr.checked_update, UnitShare32.saturating_sub, UnitShare.saturating_sub,
    saturating_sub, saturating_add. intros H.
  destruct (Z.ltb_spec lim (cached_next_burn_rate p)); [done|].
  destruct (Z.eqb_spec dti 0); [done|]. destruct (Z.ltb_spec dtl dti); [done|].
  injection H as <- <-. rewrite (Z.max_comm (lim - _)), (Z.max_comm (dtl - dti)). done.
Qed.

(** A successful update of a configured rate re-establishes the invariant with
    the slope restarted from the current rate. *)
Lemma checked_update_inv p lim dti dtl s p' :
  0 < cached_next_burn_rate p -> lim <= UnitShare32.MAX -> 0 <= dti -> dtl < 2 ^ 32 ->
  Cbr.checked_update p lim dti dtl = Some (s, p') ->
  cbr_inv p' /\ cached_next_burn_rate p' = cached_next_burn_rate p /\
  limit p' = lim /\ dz_epochs_to_increasing p' = dti /\ dz_epochs_to_limit p' = dtl /\
  cached_slope_numerator p' = lim - cached_next_burn_rate p /\
  cached_slope_denominator p' = dtl - dti + 1 /\ 1 <= dti.
Proof.
  intros Hn Hl Hd Hw (H1 & H2 & H3 & -> & ->)%checked_update_Some. cbn.
  unfold umax, UnitShare32.MAX in *. split_and!; try lia.
  constructor; cbn; unfold cbr_increment, UnitShare32.MAX; cbn; try lia.
  rewrite (Z.max_r 0 (lim - _)), (Z.max_r 0 (dtl - dti)), Z.min_l, Z.max_l by lia.
  pose proof (Z.mul_div_le (lim - cached_next_burn_rate p) (dtl - dti + 1)).
  assert (0 <= (lim - cached_next_burn_rate p) / (dtl - dti + 1)) by (apply Z.div_pos; lia).
  nia.
Qed.

(** ** The schedule of a freshly configured rate *)

(** Reference definition: the rate of the [k]-th epoch after configuration.
    It is constant for [dz_epochs_to_increasing] epochs, then grows by the
    increment every epoch, and is the limit from epoch [dz_epochs_to_limit]. *)
Definition scheduled_rate (p : CommunityBurnRateParameters) (k : Z) : BurnRate :=
  if k <? dz_epochs_to_increasing p then cached_next_burn_rate p
  else if k <? dz_epochs_to_limit p then
    cached_next_burn_rate p + (k - dz_epochs_to_increasing p + 1) * cbr_increment p
  else limit p.

Definition state_at (p : CommunityBurnRateParameters) (k : Z) : CommunityBurnRateParameters :=
  MkCbr (limit p) (Z.max 0 (dz_epochs_to_increasing p - k)) (Z.max 0 (dz_epochs_to_limit p - k))
    (cached_slope_numerator p) (cached_slope_denominator p) (scheduled_rate p k).

Lemma state_at_0 p : cbr_inv p -> 1 <= dz_epochs_to_increasing p -> state_at p 0 = p.
Proof.
  intros [] ?. unfold state_at, scheduled_rate. rewrite (proj2 (Z.ltb_lt 0 _)) by lia.
  destruct p; cbn in *. f_equal; lia.
Qed.

Lemma state_at_step `{BuildProfile} p k :
  0 <= k -> 1 <= dz_epochs_to_increasing p -> cbr_inv (state_at p k) ->
  Cbr.checked_compute (state_at p k) = Ok (Some (scheduled_rate p k), state_at p (k + 1)) /\
  cbr_inv (state_at p (k + 1)).
Proof.
  intros Hk Hd Hinv.
  destruct (checked_compute_inv _ Hinv) as (p' & -> & Hinv' & H1 & H2 & H3 & H4 & H5 & H6).
  enough (p' = state_at p (k + 1)) as -> by done.
  change (cbr_increment (state_at p k)) with (cbr_increment p) in H6.
  destruct p' as [lim dti dtl num den next], p as [lim0 dti0 dtl0 num0 den0 next0].
  destruct Hinv as [_ _ Hep _ _ _ _]. unfold state_at, scheduled_rate in *.
  cbn [limit dz_epochs_to_increasing dz_epochs_to_limit
    cached_slope_numerator cached_slope_denominator cached_next_burn_rate] in *.
  subst. f_equal; try lia.
  repeat match goal with |- context [(?a <? ?b)] => destruct (Z.ltb_spec a b)
    | |- context [(?a <=? ?b)] => destruct (Z.leb_spec a b) end; try lia.
  replace (k + 1 - dti0 + 1) with 1 by lia. lia.
Qed.

Lemma compute_n_state_at `{BuildProfile} p n k :
  0 <= k -> 1 <= dz_epochs_to_increasing p -> cbr_inv (state_at p k) ->
  Cbr.compute_n n (state_at p k) =
    Ok ((fun i => Some (scheduled_rate p (k + Z.of_nat i))) <$> seq 0 n,
        state_at p (k + Z.of_nat n)).
Proof.
  revert k. induction n as [|n IH]; intros k Hk Hd Hinv; cbn [Cbr.compute_n].
  { rewrite Z.add_0_r. done. }
  destruct (state_at_step p k Hk Hd Hinv) as [-> Hinv']. cbn [mbind Res_bind].
  rewrite IH by (done || lia). cbn [mbind Res_bind]. unfold mret, Res_ret.
  f_equal. f_equal; [|f_equal; lia]. cbn [seq fmap list_fmap]. f_equal.
  { by rewrite Z.add_0_r. }
  rewrite <- (fmap_S_seq 0 n), <- list_fmap_compose. apply list_fmap_ext. intros i x _. cbn.
  do 2 f_equal. lia.
Qed.

(** C23: the community burn rate follows its published schedule exactly.  After
    any accepted (re)configuration of a positive current rate, [n] computations
    neither panic nor fail, in either build profile, and the rate of epoch [k]
    is: the current rate while static, then current + (k - static + 1) times
    the slope's integer increment, then the limit from epoch
    [dz_epochs_to_limit] on. *)
Theorem community_burn_rate_schedule `{BuildProfile} p0 lim dti dtl s p n :
  0 < cached_next_burn_rate p0 -> lim <= UnitShare32.MAX -> 0 <= dti -> dtl < 2 ^ 32 ->
  Cbr.checked_update p0 lim dti dtl = Some (s, p) ->
  exists p', Cbr.compute_n n p =
      Ok ((fun k => Some (scheduled_rate p (Z.of_nat k))) <$> seq 0 n, p') /\
    Cbr.next_burn_rate p' = Some (scheduled_rate p (Z.of_nat n)).
Proof.
  intros Hn Hl Hd Hw Hu.
  destruct (checked_update_inv _ _ _ _ _ _ Hn Hl Hd Hw Hu) as (Hinv & _ & _ & Hdti & _ & _ & _ & H1).
  pose proof (compute_n_state_at p n 0) as Hc. rewrite state_at_0 in Hc by (done || lia).
  specialize (Hc ltac:(lia) ltac:(lia) Hinv). eexists. split; [apply Hc|].
  assert (cbr_inv (state_at p (Z.of_nat n))) as Hf.
  { clear Hc. induction n as [|n IHn]; [by rewrite state_at_0 by (done || lia)|].
    replace (Z.of_nat (S n)) with (Z.of_nat n + 1) by lia. apply state_at_step; [lia|lia|done]. }
  rewrite Z.add_0_l. by rewrite next_burn_rate_inv.
Qed.

(** ** Any interleaving of computations and updates *)
Inductive cbr_step `{BuildProfile} :
    CommunityBurnRateParameters -> CommunityBurnRateParameters -> Prop :=
  | cbr_step_compute p r p' : Cbr.checked_compute p = Ok (r, p') -> cbr_step p p'
  | cbr_step_update p lim dti dtl s p' :
      valid32 lim -> fits 32 dti -> fits 32 dtl ->
      Cbr.checked_update p lim dti dtl = Some (s, p') -> cbr_step p p'.

Lemma cbr_step_inv `{BuildProfile} p p' :
  cbr_inv p -> cbr_step p p' -> cbr_inv p' /\ cached_next_burn_rate p <= cached_next_burn_rate p'.
Proof.
  intros Hinv Hstep. destruct Hstep as [p r p' Hc|p lim dti dtl s p' [? ?] [? ?] [? ?] Hu].
  - destruct (checked_compute_inv p Hinv) as (p2 & Hc2 & Hinv2 & _ & _ & _ & _ & _ & Hnext).
    rewrite Hc2 in Hc. simplify_eq. split; [done|]. rewrite Hnext.
    pose proof (cbr_increment_nonneg p Hinv). destruct Hinv.
    repeat case_match; lia.
  - pose proof (cbr_next _ Hinv).
    destruct (checked_update_inv p lim dti dtl s p') as (? & -> & _); [lia|done|done|done|done|].
    split; [done|lia].
Qed.

Lemma cbr_steps_inv `{BuildProfile} p p' :
  cbr_inv p -> rtc cbr_step p p' ->
  cbr_inv p' /\ cached_next_burn_rate p <= cached_next_burn_rate p'.
Proof.
  intros Hinv Hrtc. induction Hrtc as [p|p p1 p2 Hstep _ IH]; [done|].
  apply cbr_step_inv in Hstep as [? ?]; [|done]. destruct IH; [done|]. split; [done|lia].
Qed.

(** C24: in every state reached from an accepted initial configuration by any
    sequence of computations and updates, the parameters satisfy their
    invariant (positive rate, at most the limit, at most 100%); the rate never
    decreases: it is at least the initial one, and no later state has a smaller
    one; the next computation returns the cached rate without panicking or
    failing, in either build profile, keeps the limit and caches a rate between
    the returned one and the limit, the limit itself in the last epoch before it
    and after; an update keeps the rate and is refused below it. *)
Theorem community_burn_rate_invariant `{BuildProfile} init lim dti dtl p0 p :
  valid32 init -> valid32 lim -> fits 32 dti -> fits 32 dtl ->
  Cbr.new init lim dti dtl = Some p0 -> rtc cbr_step p0 p ->
  cbr_inv p /\ init <= cached_next_burn_rate p <= UnitShare32.MAX /\
  (forall q, rtc cbr_step p q -> cached_next_burn_rate p <= cached_next_burn_rate q) /\
  (exists p', Cbr.checked_compute p = Ok (Some (cached_next_burn_rate p), p') /\
     limit p' = limit p /\ cached_next_burn_rate p <= cached_next_burn_rate p' <= limit p /\
     (dz_epochs_to_limit p <= 1 -> cached_next_burn_rate p' = limit p)) /\
  (forall lim' dti' dtl' s p', Cbr.checked_update p lim' dti' dtl' = Some (s, p') ->
     cached_next_burn_rate p' = cached_next_burn_rate p /\ cached_next_burn_rate p <= lim' /\
     limit p' = lim').
Proof.
  intros [? ?] [? ?] [? ?] [? ?] Hnew Hrtc. unfold Cbr.new, UnitShare.MIN in Hnew.
  destruct (Z.eqb_spec init 0); [done|].
  destruct (Cbr.checked_update _ lim dti dtl) as [[s p1]|] eqn:Hu; [|done]. simplify_eq.
  apply checked_update_inv in Hu as (Hinv0 & Hn0 & _); [|change (0 < init); lia|lia|lia|lia].
  change (cached_next_burn_rate p0 = init) in Hn0.
  destruct (cbr_steps_inv _ _ Hinv0 Hrtc) as [Hinv Hle]. split; [done|].
  split; [destruct Hinv; lia|]. split; [intros q Hq; by apply cbr_steps_inv|]. split.
  - destruct (checked_compute_inv p Hinv) as (p' & Hc & Hinv' & Hlim & _ & _ & _ & _ & Hnext).
    exists p'. split; [done|]. split; [done|].
    pose proof (cbr_step_inv p p' Hinv (cbr_step_compute _ _ _ Hc)) as [_ ?].
    destruct Hinv'. split; [lia|]. intros Hl. by rewrite (proj2 (Z.leb_le _ _)) in Hnext.
  - intros lim' dti' dtl' s' p' (? & _ & _ & _ & ->)%checked_update_Some. done.
Qed.

Lemma compute_at_limit `{BuildProfile} p :
  cbr_inv p -> dz_epochs_to_limit p = 0 -> cached_next_burn_rate p = limit p ->
  Cbr.checked_compute p = Ok (Some (limit p), p).
Proof.
  intros Hinv Hdtl Heq.
  destruct (checked_compute_inv p Hinv) as (p' & -> & _ & H1 & H2 & H3 & H4 & H5 & H6).
  rewrite Heq. do 2 f_equal. destruct Hinv as [_ _ Hep _ _ _ _].
  rewrite Hdtl in H6. cbn in H6. destruct p, p'; cbn in *. f_equal; lia.
Qed.

(** C25: convergence.  From any state satisfying the invariant, after
    [max 1 dz_epochs_to_limit] or more computations the rate is the limit, the
    mode is [Limit], and every further computation returns the limit and
    changes nothing. *)
Theorem community_burn_rate_converges `{BuildProfile} p n :
  cbr_inv p -> 1 <= Z.of_nat n -> dz_epochs_to_limit p <= Z.of_nat n ->
  exists rs p', Cbr.compute_n n p = Ok (rs, p') /\
    cached_next_burn_rate p' = limit p /\ Cbr.mode p' = Limit /\
    Cbr.checked_compute p' = Ok (Some (limit p), p').
Proof.
  revert p. induction n as [|n IH]; intros p Hinv Hn1 Hn; [lia|]. cbn [Cbr.compute_n].
  destruct (checked_compute_inv p Hinv) as (p' & -> & Hinv' & H1 & _ & _ & H4 & H5 & H6).
  cbn [mbind Res_bind]. destruct (decide (n = O)) as [->|].
  - cbn. eexists _, p'. split; [reflexivity|].
    rewrite (proj2 (Z.leb_le _ 1)) in H6 by lia. split; [done|].
    pose proof (cbr_epochs _ Hinv). assert (dz_epochs_to_limit p' = 0) as E by lia. split.
    + unfold Cbr.mode. by rewrite E, (proj2 (Z.eqb_eq _ 0)) by lia.
    + rewrite <- H1. apply compute_at_limit; congruence.
  - destruct (IH p' Hinv') as (rs & p'' & -> & ? & ? & ?); [lia|lia|].
    cbn. eexists _, p''. split; [reflexivity|]. rewrite <- H1. done.
Qed.
