(* ===== verification/Runtime.v ===== *)
(** * The Solana runtime as the programs see it

    The data the loader hands to a program (account metas over a shared
    ledger, so that an account passed twice is one account), the RefCell
    borrows of account data, the state-and-error monad of an instruction, and
    the interfaces of the code that is not in this repository: address
    derivation, sysvars, the CPI syscall, the SPL token account layout, the
    loader state, and the Merkle hash.  Those are classes: parameters of every
    definition that uses them.  [RuntimeLaws] names the documented behaviour
    some theorems rely on.

    Not modelled: log messages; compute budget; the checks the runtime makes
    after the instruction returns (lamport balance, rent state, writes to
    read-only accounts). *)

From Stdlib Require Import ZArith Lia String Ascii.
From S2P Require Import Prelude.

(** ** Accounts and the ledger *)
Record AccountInfo : Type := MkInfo {
  key : Pubkey;
  is_signer : bool;
  is_writable : bool
}.

(** [AccountMeta::new] and [AccountMeta::new_readonly]: what a client asks for an
    account is what the loader hands to the program. *)
Definition meta_new (pubkey : Pubkey) (is_signer : bool) : AccountInfo := MkInfo pubkey is_signer true.
Definition meta_new_readonly (pubkey : Pubkey) (is_signer : bool) : AccountInfo :=
  MkInfo pubkey is_signer false.

Record Account (D : Type) : Type := MkAccount {
  lamports : Z;
  owner : Pubkey;
  executable : bool;
  data : D
}.
Arguments MkAccount {D}.
Arguments lamports {D}.
Arguments owner {D}.
Arguments executable {D}.
Arguments data {D}.
#[export] Instance Account_eta {D} : Eta (Account D) := fun a =>
  MkAccount (lamports a) (owner a) (executable a) (data a).

Abbreviation Ledger D := (gmap Z (Account D)).

(** The runtime's limit on the length of account data. *)
Definition MAX_PERMITTED_DATA_LENGTH : Z := 10485760.

(** ** Interfaces *)

(** [Pubkey::find_program_address], [Pubkey::create_program_address] and
    [get_associated_token_address]. *)
Class Pda : Type := {
  find_program_address : list (list Z) -> Pubkey -> Pubkey * Z;
  bump_u8 : forall seeds program, fits 8 (find_program_address seeds program).2;
  create_program_address : list (list Z) -> Pubkey -> option Pubkey;
  (** The address found is the one its bump seed creates. *)
  create_found : forall seeds program k bump,
    find_program_address seeds program = (k, bump) ->
    create_program_address (seeds ++ [[bump]]) program = Some k;
  get_associated_token_address : Pubkey -> Pubkey -> Pubkey
}.

(** Addresses of programs outside the repository. *)
Class KnownPrograms : Type := {
  system_program_id : Pubkey;
  spl_token_id : Pubkey
}.

(** [svm_hash]: an indexed or plain Merkle proof, and the root it computes for
    a leaf's bytes under a prefix. *)
Class SvmHash : Type := {
  MerkleProof : Type;
  leaf_index : MerkleProof -> option Z;
  leaf_index_u32 : forall proof l, leaf_index proof = Some l -> fits 32 l;
  root_from_leaf : MerkleProof -> list Z -> list Z -> Z
}.

(** The view of an SPL token account the programs use. *)
Record TokenAccount : Type := MkTokenAccount {
  token_owner : Pubkey;
  token_amount : Z
}.

(** The decoded SPL token instruction of a sibling: the code distinguishes
    [TransferChecked] only. *)
Inductive TokenInstruction : Type :=
  | TransferChecked (amount decimals : Z)
  | OtherTokenInstruction.

Record SiblingInstruction : Type := MkSibling {
  sibling_program_id : Pubkey;
  sibling_accounts : list Pubkey;
  sibling_data : list Z
}.

(** [bincode] of an upgradeable loader account: program data with its upgrade
    authority, or anything else. *)
Inductive LoaderState : Type :=
  | ProgramData (upgrade_authority_address : option Pubkey)
  | OtherLoaderState.

(** Instructions passed to [invoke_signed_unchecked].  Those of the System and
    SPL Token programs are built by their interface crates and kept symbolic;
    the others carry the accounts and the bytes the source builds. *)
Inductive Instruction : Type :=
  | SystemCreateAccount (from to : Pubkey) (lamports space : Z) (new_owner : Pubkey)
  | SystemAllocate (account : Pubkey) (space : Z)
  | SystemAssign (account new_owner : Pubkey)
  | SystemTransfer (from to : Pubkey) (lamports : Z)
  | TokenInitializeAccount3 (account mint account_owner : Pubkey)
  | TokenTransfer (source destination authority : Pubkey) (amount : Z)
  | TokenTransferChecked (source mint destination authority : Pubkey) (amount decimals : Z)
  | TokenBurn (account mint authority : Pubkey) (amount : Z)
  | ProgramInstruction (program : Pubkey) (metas : list AccountInfo) (ix_data : list Z).

(** Signer seeds of the PDAs that sign a CPI. *)
Abbreviation SignerSeeds := (list (list (list Z))) (only parsing).

Class Runtime (D : Type) : Type := {
  rt_profile :: BuildProfile;
  rt_pda :: Pda;
  rt_programs :: KnownPrograms;
  rt_hash :: SvmHash;
  (** [Rent::get().unwrap().minimum_balance] and [Clock::get().unwrap()]. *)
  minimum_balance : Z -> Z;
  minimum_balance_u64 : forall n, fits 64 (minimum_balance n);
  unix_timestamp : Z;
  (** [get_stack_height()]: 1 at transaction level, one more per CPI. *)
  get_stack_height : Z;
  (** [invoke_signed_unchecked] by program [caller]: the callee's effect on the
      ledger and the return data it leaves. *)
  invoke_cpi : forall (caller : Pubkey) (ix : Instruction) (accounts : list AccountInfo)
                 (seeds : SignerSeeds) (ledger : Ledger D),
      Res (Ledger D * option (Pubkey * list Z));
  invoke_cpi_bytes : forall caller ix accounts seeds L L' ret,
    invoke_cpi caller ix accounts seeds L = Ok (L', ret) ->
    match ret with Some (_, bytes) => Forall (fits 8) bytes | None => True end;
  (** [spl_token_interface::state::Account::unpack]. *)
  unpack_token_account : D -> Res TokenAccount;
  unpack_token_account_u64 : forall d a, unpack_token_account d = Ok a -> fits 64 (token_amount a);
  unpack_token_instruction : list Z -> option TokenInstruction;
  unpack_token_instruction_u64 : forall bytes amount decimals,
    unpack_token_instruction bytes = Some (TransferChecked amount decimals) -> fits 64 amount;
  (** [get_processed_sibling_instruction(0)]. *)
  sibling_instruction : option SiblingInstruction;
  deserialize_loader_state : D -> option LoaderState;
  (** [AccountInfo::resize] to a new data length: zero-fills, and refuses to
      grow by more than the permitted increase. *)
  resize_data : D -> Z -> Res D
}.

(** ** Account data of a program

    [D] is the type of account contents; [T] is one of the zero-copy account
    types stored in it.  [zc_read] is [Some] exactly when the bytes are long
    enough and start with the discriminator of [T], and returns the struct and
    the bytes after it. *)
Class AccountData (D : Type) : Type := {
  data_len : D -> Z;
  empty_data : D;
  has_zero_discriminator : D -> bool
}.

Definition DISCRIMINATOR_LEN : Z := 8.

Class ZeroCopy (D T : Type) `{AccountData D} : Type := {
  size_of : Z;
  zc_read : D -> option (T * list Z);
  zc_write : T -> list Z -> D;
  zc_zeroed : T;
  zc_read_write : forall t rest, zc_read (zc_write t rest) = Some (t, rest)
}.
Arguments size_of {D} T {_ _}.
Arguments zc_read {D} T {_ _}.
Arguments zc_zeroed {D} T {_ _}.

Definition data_end {D} (T : Type) `{ZeroCopy D T} : Z := DISCRIMINATOR_LEN + size_of (D := D) T.

(** ** The ledger *)
Section LedgerOps.
Context {D : Type} `{AccountData D} `{KnownPrograms}.

(** An address with no account reads as an empty system account. *)
Definition empty_account : Account D := MkAccount 0 system_program_id false empty_data.

Definition acct (L : Ledger D) (k : Pubkey) : Account D := default empty_account (L !! k).

Definition set_acct (L : Ledger D) (k : Pubkey) (a : Account D) : Ledger D := <[k := a]> L.

Definition set_data (L : Ledger D) (k : Pubkey) (d : D) : Ledger D :=
  set_acct L k ((acct L k) <| data := d |>).

Definition set_lamports (L : Ledger D) (k : Pubkey) (n : Z) : Ledger D :=
  set_acct L k ((acct L k) <| lamports := n |>).

Lemma acct_set_eq L k a : acct (set_acct L k a) k = a.
Proof. unfold acct, set_acct. by rewrite lookup_insert_eq. Qed.

Lemma acct_set_ne L k k' a : k <> k' -> acct (set_acct L k a) k' = acct L k'.
Proof. intros. unfold acct, set_acct. by rewrite lookup_insert_ne. Qed.

Lemma acct_set_data_ne L k k' d : k <> k' -> acct (set_data L k d) k' = acct L k'.
Proof. intros. unfold set_data. by rewrite acct_set_ne. Qed.

Lemma acct_set_lamports_ne L k k' n : k <> k' -> acct (set_lamports L k n) k' = acct L k'.
Proof. intros. unfold set_lamports. by rewrite acct_set_ne. Qed.

Lemma set_data_set_data L k d d' : set_data (set_data L k d) k d' = set_data L k d'.
Proof.
  unfold set_data. rewrite acct_set_eq. unfold set_acct. by rewrite insert_insert_eq.
Qed.

Lemma data_set_data_eq L k d : data (acct (set_data L k d) k) = d.
Proof. unfold set_data. by rewrite acct_set_eq. Qed.

Lemma data_set_data_ne L k k' d : k <> k' -> data (acct (set_data L k d) k') = data (acct L k').
Proof. intros. unfold set_data. by rewrite acct_set_ne. Qed.

Lemma lamports_set_data L k k' d : lamports (acct (set_data L k d) k') = lamports (acct L k').
Proof.
  unfold set_data. destruct (decide (k = k')) as [->|].
  - by rewrite acct_set_eq.
  - by rewrite acct_set_ne.
Qed.

Lemma owner_set_data L k k' d : owner (acct (set_data L k d) k') = owner (acct L k').
Proof.
  unfold set_data. destruct (decide (k = k')) as [->|].
  - by rewrite acct_set_eq.
  - by rewrite acct_set_ne.
Qed.

Lemma lamports_set_lamports_eq L k n : lamports (acct (set_lamports L k n) k) = n.
Proof. unfold set_lamports. by rewrite acct_set_eq. Qed.

Lemma lamports_set_lamports_ne L k k' n :
  k <> k' -> lamports (acct (set_lamports L k n) k') = lamports (acct L k').
Proof. intros. unfold set_lamports. by rewrite acct_set_ne. Qed.

Lemma data_set_lamports L k k' n : data (acct (set_lamports L k n) k') = data (acct L k').
Proof.
  unfold set_lamports. destruct (decide (k = k')) as [->|].
  - by rewrite acct_set_eq.
  - by rewrite acct_set_ne.
Qed.

Lemma owner_set_lamports L k k' n : owner (acct (set_lamports L k n) k') = owner (acct L k').
Proof.
  unfold set_lamports. destruct (decide (k = k')) as [->|].
  - by rewrite acct_set_eq.
  - by rewrite acct_set_ne.
Qed.
End LedgerOps.

#[export] Hint Rewrite @acct_set_eq @data_set_data_eq @lamports_set_data @owner_set_data
  @lamports_set_lamports_eq @data_set_lamports @owner_set_lamports : dz.
#[export] Hint Rewrite @acct_set_ne @data_set_data_ne @lamports_set_lamports_ne
  using (congruence || lia) : dz.

(** A program invoking itself: the one re-entrancy the runtime allows. *)
Definition self_invocation (caller : Pubkey) (ix : Instruction) : bool :=
  match ix with
  | ProgramInstruction program _ _ => program =? caller
  | _ => false
  end.

(** ** Laws of the runtime

    Documented behaviour of the Solana runtime that some theorems use. *)
Class RuntimeLaws (D : Type) `{AccountData D} (R : Runtime D) : Prop := {
  (** Only an account's owner may change its data, its owner or debit it, and
      a program cannot be re-entered unless it invokes itself: any other CPI
      leaves the data and owner of the caller's accounts alone and never debits
      them. *)
  cpi_frame : forall caller ix accounts seeds (L L' : Ledger D) ret k,
    invoke_cpi caller ix accounts seeds L = Ok (L', ret) ->
    caller <> system_program_id -> self_invocation caller ix = false ->
    owner (acct L k) = caller ->
    data (acct L' k) = data (acct L k) /\ owner (acct L' k) = caller /\
    lamports (acct L k) <= lamports (acct L' k);
  (** [SystemProgram::create_account] sets the owner and funds a new account;
      [allocate] and [assign] move no lamports, and [assign] sets the owner. *)
  cpi_system_create : forall caller from to n space new_owner accounts seeds (L L' : Ledger D) ret,
    invoke_cpi caller (SystemCreateAccount from to n space new_owner) accounts seeds L = Ok (L', ret) ->
    owner (acct L' to) = new_owner /\ lamports (acct L' to) = n;
  cpi_system_allocate : forall caller account space accounts seeds (L L' : Ledger D) ret,
    invoke_cpi caller (SystemAllocate account space) accounts seeds L = Ok (L', ret) ->
    lamports (acct L' account) = lamports (acct L account);
  cpi_system_assign : forall caller account new_owner accounts seeds (L L' : Ledger D) ret,
    invoke_cpi caller (SystemAssign account new_owner) accounts seeds L = Ok (L', ret) ->
    owner (acct L' account) = new_owner /\
    lamports (acct L' account) = lamports (acct L account);
  (** [SystemProgram::transfer] moves lamports between two accounts; it can only
      debit its own. *)
  cpi_system_transfer : forall caller from to n accounts seeds (L L' : Ledger D) ret,
    invoke_cpi caller (SystemTransfer from to n) accounts seeds L = Ok (L', ret) ->
    n <= lamports (acct L from) /\
    (0 < n -> owner (acct L from) = system_program_id) /\
    (from <> to -> lamports (acct L' from) = lamports (acct L from) - n /\
                   lamports (acct L' to) = lamports (acct L to) + n)
}.

(** What an account's own program can count on across CPIs. *)
Definition cpi_preserves {D} `{AccountData D} `{KnownPrograms} (caller : Pubkey) (L L' : Ledger D)
    : Prop :=
  forall k, owner (acct L k) = caller ->
    data (acct L' k) = data (acct L k) /\ owner (acct L' k) = caller.

Lemma preserved_data {D} `{AccountData D} `{KnownPrograms} {caller} (L L' : Ledger D) k :
  cpi_preserves caller L L' -> owner (acct L k) = caller -> data (acct L' k) = data (acct L k).
Proof. intros Hp Hk. by apply Hp. Qed.

Lemma preserved_owner {D} `{AccountData D} `{KnownPrograms} {caller} (L L' : Ledger D) k :
  cpi_preserves caller L L' -> owner (acct L k) = caller -> owner (acct L' k) = caller.
Proof. intros Hp Hk. by apply Hp. Qed.

Lemma cpi_preserves_trans {D} `{AccountData D} `{KnownPrograms} caller (L1 L2 L3 : Ledger D) :
  cpi_preserves caller L1 L2 -> cpi_preserves caller L2 L3 -> cpi_preserves caller L1 L3.
Proof.
  intros H1 H2 k Hk. destruct (H1 k Hk) as [E1 O1], (H2 k O1) as [E2 O2]. split; congruence.
Qed.

Lemma invoke_cpi_preserves {D} `{AccountData D} (R : Runtime D) `{!RuntimeLaws D R}
    caller ix accounts seeds (L L' : Ledger D) ret :
  caller <> system_program_id -> self_invocation caller ix = false ->
  invoke_cpi caller ix accounts seeds L = Ok (L', ret) -> cpi_preserves caller L L'.
Proof.
  intros Hc Hs Hi k Hk. destruct (cpi_frame _ _ _ _ _ _ _ k Hi Hc Hs Hk) as (? & ? & _). done.
Qed.

(** A relation between ledgers that holds across every CPI of [caller] other
    than into itself, and across sequences of them. *)
Definition cpi_closed {D} `{Runtime D} (caller : Pubkey) (P : Ledger D -> Ledger D -> Prop) : Prop :=
  (forall ix accounts seeds (L L' : Ledger D) ret, self_invocation caller ix = false ->
     invoke_cpi caller ix accounts seeds L = Ok (L', ret) -> P L L') /\
  (forall L1 L2 L3, P L1 L2 -> P L2 L3 -> P L1 L3).

Lemma cpi_closed_step {D} `{Runtime D} caller (P : Ledger D -> Ledger D -> Prop) :
  cpi_closed caller P -> forall ix accounts seeds (L L' : Ledger D) ret,
  invoke_cpi caller ix accounts seeds L = Ok (L', ret) ->
  self_invocation caller ix = false -> P L L'.
Proof. intros HP ix accounts seeds L L' ret Hi Hs. by eapply (proj1 HP). Qed.

Lemma cpi_closed_trans {D} `{Runtime D} caller (P : Ledger D -> Ledger D -> Prop) :
  cpi_closed caller P -> forall L1 L2 L3, P L1 L2 -> P L2 L3 -> P L1 L3.
Proof. intros HP. exact (proj2 HP). Qed.

Lemma cpi_closed_preserves {D} `{AccountData D} (R : Runtime D) `{!RuntimeLaws D R} caller :
  caller <> system_program_id -> cpi_closed caller (cpi_preserves (D := D) caller).
Proof.
  intros Hc. split.
  - intros. by eapply invoke_cpi_preserves.
  - apply cpi_preserves_trans.
Qed.
