(* ===== verification/Lamports.v ===== *)
(** * Sums over a ledger

    The sum of a measure of its accounts, and what a change of one account does
    to it; in particular the sum of all balances. *)

From Stdlib Require Import ZArith Lia.
From S2P Require Import Prelude Runtime.

Section Sums.
Context {D : Type} `{AccountData D} `{KnownPrograms}.
Context (f : Account D -> Z).

Definition account_sum (L : Ledger D) : Z := map_fold (fun _ a n => f a + n) 0 L.

Lemma account_sum_insert_fresh (L : Ledger D) k a :
  L !! k = None -> account_sum (<[k := a]> L) = f a + account_sum L.
Proof.
  intros Hk. unfold account_sum.
  apply (map_fold_insert_L (fun _ (a : Account D) n => f a + n)); [lia|done].
Qed.

(** Accounts that do not exist count for nothing. *)
Context (Hempty : f empty_account = 0).

Lemma account_sum_delete (L : Ledger D) k :
  account_sum L = f (acct L k) + account_sum (delete k L).
Proof.
  unfold acct. destruct (L !! k) as [a|] eqn:E; cbn.
  - rewrite <- (insert_id L k a E) at 1. rewrite <- (insert_delete_eq L k a).
    by rewrite account_sum_insert_fresh by apply lookup_delete_eq.
  - by rewrite Hempty, delete_id.
Qed.

Lemma account_sum_set_acct (L : Ledger D) k a :
  account_sum (set_acct L k a) = account_sum L - f (acct L k) + f a.
Proof.
  rewrite (account_sum_delete (set_acct L k a) k), (account_sum_delete L k), acct_set_eq.
  unfold set_acct. rewrite delete_insert_eq. lia.
Qed.

Lemma acct_delete (L : Ledger D) k k' :
  acct (delete k L) k' = if decide (k = k') then empty_account else acct L k'.
Proof.
  unfold acct. destruct (decide (k = k')) as [->|Hne]; [by rewrite lookup_delete_eq|].
  by rewrite lookup_delete_ne.
Qed.

(** The sum only depends on the measures. *)
Lemma account_sum_ext (L L' : Ledger D) :
  (forall k, f (acct L' k) = f (acct L k)) -> account_sum L' = account_sum L.
Proof.
  revert L'. induction L as [|k a L E IH] using map_ind; intros L' Heq.
  - clear -Heq Hempty. induction L' as [|k a L' E IH] using map_ind; [done|].
    rewrite account_sum_insert_fresh by done. rewrite IH.
    + specialize (Heq k). unfold acct in Heq. rewrite lookup_insert_eq, lookup_empty in Heq.
      cbn in Heq. rewrite Hempty in Heq. unfold account_sum. rewrite map_fold_empty. lia.
    + intros k'. destruct (decide (k = k')) as [<-|Hne]; [unfold acct; by rewrite E|].
      specialize (Heq k'). unfold acct in *. by rewrite lookup_insert_ne in Heq.
  - rewrite (account_sum_delete L' k), (account_sum_delete (<[k := a]> L) k), Heq.
    rewrite delete_insert_id by done. f_equal. apply IH. intros k'. rewrite acct_delete.
    destruct (decide (k = k')) as [<-|Hne]; [unfold acct; by rewrite E|].
    rewrite Heq. unfold acct. by rewrite lookup_insert_ne.
Qed.

(** All the accounts that count: one. *)
Lemma account_sum_single (L : Ledger D) k :
  (forall k', k' <> k -> f (acct L k') = 0) -> account_sum L = f (acct L k).
Proof.
  intros Hz. rewrite (account_sum_delete L k).
  rewrite (account_sum_ext ∅ (delete k L)); [unfold account_sum; rewrite map_fold_empty; lia|].
  intros k'. rewrite acct_delete. change (acct ∅ k') with (@empty_account D _ _).
  destruct (decide (k = k')); [done|]. by rewrite Hz, Hempty by congruence.
Qed.
End Sums.

(** The sum of a difference. *)
Lemma account_sum_sub {D : Type} `{AccountData D} `{KnownPrograms} (f g h : Account D -> Z) (L : Ledger D) :
  (forall a, h a = f a - g a) -> account_sum h L = account_sum f L - account_sum g L.
Proof.
  intros E. induction L as [|k a L Hk IH] using map_ind.
  - unfold account_sum. by rewrite !map_fold_empty.
  - rewrite !account_sum_insert_fresh, IH, E by done. lia.
Qed.

Section Lamports.
Context {D : Type} `{AccountData D} `{KnownPrograms}.

Definition total_lamports (L : Ledger D) : Z := account_sum lamports L.

Lemma total_insert_fresh (L : Ledger D) k a :
  L !! k = None -> total_lamports (<[k := a]> L) = lamports a + total_lamports L.
Proof. apply account_sum_insert_fresh. Qed.

Lemma total_set_acct (L : Ledger D) k a :
  total_lamports (set_acct L k a) = total_lamports L - lamports (acct L k) + lamports a.
Proof. by apply account_sum_set_acct. Qed.

Lemma total_set_lamports (L : Ledger D) k n :
  total_lamports (set_lamports L k n) = total_lamports L - lamports (acct L k) + n.
Proof. apply total_set_acct. Qed.

Lemma total_set_data (L : Ledger D) k d : total_lamports (set_data L k d) = total_lamports L.
Proof. unfold set_data. rewrite total_set_acct. cbn. lia. Qed.

Lemma total_nonneg (L : Ledger D) : map_Forall (fun _ a => 0 <= lamports a) L -> 0 <= total_lamports L.
Proof.
  induction L as [|k a L E IH] using map_ind; [done|]. intros [Ha HL]%map_Forall_insert; [|done].
  rewrite total_insert_fresh by done. specialize (IH HL). lia.
Qed.

(** Every balance is non-negative. *)
Definition solvent (L : Ledger D) : Prop := forall k, 0 <= lamports (acct L k).

Lemma solvent_total (L : Ledger D) : solvent L -> 0 <= total_lamports L.
Proof.
  intros HL. apply total_nonneg. intros k a E. specialize (HL k). unfold acct in HL. by rewrite E in HL.
Qed.

Lemma solvent_set (L : Ledger D) k n : solvent L -> 0 <= n -> solvent (set_lamports L k n).
Proof.
  intros HL Hn k'. destruct (decide (k = k')) as [->|].
  - by rewrite lamports_set_lamports_eq.
  - by rewrite lamports_set_lamports_ne.
Qed.

Lemma lamports_le_total (L : Ledger D) k : solvent L -> lamports (acct L k) <= total_lamports L.
Proof.
  intros HL. pose proof (total_set_lamports L k 0).
  pose proof (solvent_total _ (solvent_set L k 0 HL ltac:(done))). lia.
Qed.

Lemma lamports_pair_le_total (L : Ledger D) k k' :
  solvent L -> k <> k' -> lamports (acct L k) + lamports (acct L k') <= total_lamports L.
Proof.
  intros HL Hne. pose proof (total_set_lamports L k 0).
  pose proof (lamports_le_total _ k' (solvent_set L k 0 HL ltac:(done))) as Hle.
  rewrite lamports_set_lamports_ne in Hle by done. lia.
Qed.
End Lamports.
