(* ===== verification/ProgramTools.v ===== *)
(** * The program-tools crate

    [crates/program-tools/src]: walking the account list
    ([account_info/iter.rs]), typed zero-copy views of account data with their
    discriminator and owner checks ([zero_copy/]), the upgrade authority
    ([account_info/upgrade_authority.rs]) and the account-creation recipes
    ([recipe/]); with the instruction monad they run in, its postcondition
    calculus [wlp], and the relation [executes] of a sequence of CPIs to the
    ledger it leaves. *)

From Stdlib Require Import ZArith Lia.
From S2P Require Import Prelude Runtime.

(** ** The instruction monad

    State of a running instruction: the ledger, the account iterator (its
    index and the accounts left), the RefCell borrows of account data that are
    live ([true] for a mutable one), the return data of the last CPI, and the
    CPIs issued so far. *)
Record St (D : Type) : Type := MkSt {
  st_ledger : Ledger D;
  st_index : nat;
  st_iter : list AccountInfo;
  st_borrows : list (Pubkey * bool);
  st_return : option (Pubkey * list Z);
  st_trace : list Instruction
}.
Arguments MkSt {D}.
Arguments st_ledger {D}.
Arguments st_index {D}.
Arguments st_iter {D}.
Arguments st_borrows {D}.
Arguments st_return {D}.
Arguments st_trace {D}.

Definition M (D A : Type) : Type := St D -> Res (A * St D).

#[export] Instance M_ret {D} : MRet (M D) := fun A a s => Ok (a, s).
#[export] Instance M_bind {D} : MBind (M D) := fun A B k m s =>
  match m s with
  | Ok (a, s') => k a s'
  | Err e => Err e
  | Panic => Panic
  end.

Definition lift {D A : Type} (r : Res A) : M D A := fun s =>
  match r with
  | Ok a => Ok (a, s)
  | Err e => Err e
  | Panic => Panic
  end.

Definition fail {D A : Type} (e : ProgramError) : M D A := fun _ => Err e.
Definition panic {D A : Type} : M D A := fun _ => Panic.
(** [if !b { return Err(e) }]. *)
Definition ensure {D : Type} (b : bool) (e : ProgramError) : M D unit := lift (require b e).

(** ** Postconditions

    [wlp m Q s]: if [m] returns normally from [s], the result and final state
    satisfy [Q]. *)
Definition wlp {D A : Type} (m : M D A) (Q : A -> St D -> Prop) (s : St D) : Prop :=
  forall a s', m s = Ok (a, s') -> Q a s'.

Section Wlp.
Context {D : Type}.

Lemma wlp_ret {A} (a : A) (Q : A -> St D -> Prop) s : Q a s -> wlp (mret a) Q s.
Proof. intros ? a' s' ?. unfold mret, M_ret in *. naive_solver. Qed.

Lemma wlp_bind {A B} (m : M D A) (k : A -> M D B) Q s :
  wlp m (fun a s' => wlp (k a) Q s') s -> wlp (m ≫= k) Q s.
Proof.
  intros Hm b s'' Hk. unfold mbind, M_bind in Hk.
  destruct (m s) as [[a s']| |] eqn:E; [|done|done]. by eapply Hm.
Qed.

Lemma wlp_lift {A} (r : Res A) (Q : A -> St D -> Prop) s :
  (forall a, r = Ok a -> Q a s) -> wlp (lift r) Q s.
Proof. intros Hr a s' H. unfold lift in H. destruct r; naive_solver. Qed.

Lemma wlp_fail {A} e (Q : A -> St D -> Prop) s : wlp (fail e) Q s.
Proof. by intros ? ?. Qed.

Lemma wlp_panic {A} (Q : A -> St D -> Prop) s : wlp panic Q s.
Proof. by intros ? ?. Qed.

Lemma wlp_ensure b e (Q : unit -> St D -> Prop) s :
  (b = true -> Q tt s) -> wlp (ensure b e) Q s.
Proof. intros Hb. apply wlp_lift. intros [] ?%require_ok. auto. Qed.

Lemma wlp_mono {A} (m : M D A) (Q Q' : A -> St D -> Prop) s :
  (forall a s', Q a s' -> Q' a s') -> wlp m Q s -> wlp m Q' s.
Proof. intros HQ Hm a s' H. by eapply HQ, Hm. Qed.
End Wlp.

(** ** Program data addresses: [lib.rs] *)

(** [bpf_loader_upgradeable::ID]. *)
Definition BPF_LOADER_UPGRADEABLE : Pubkey :=
  883533107495002676474663961082504938510645313192135278659618391840958466.
Definition get_program_data_address `{Pda} (loader program_id : Pubkey) : Pubkey * Z :=
  find_program_address [to_le_bytes 32 program_id] loader.

(** ** The account iterator: [account_info/iter.rs] *)
Record NextAccountOptions : Type := MkOpts {
  must_be_signer : bool;
  must_be_writable : bool;
  must_be_executable : bool;
  owned_by : option Pubkey
}.
#[export] Instance Opts_eta : Eta NextAccountOptions := fun o =>
  MkOpts (must_be_signer o) (must_be_writable o) (must_be_executable o) (owned_by o).
Definition default_options : NextAccountOptions := MkOpts false false false None.

Section Tools.
Context {D : Type} `{AccountData D} `{Runtime D}.

Definition get_ledger : M D (Ledger D) := fun s => Ok (st_ledger s, s).
Definition put_ledger (L : Ledger D) : M D unit := fun s =>
  Ok (tt, MkSt L (st_index s) (st_iter s) (st_borrows s) (st_return s) (st_trace s)).

(** [accounts.iter().enumerate()]. *)
Definition start_iter (accounts : list AccountInfo) : M D unit := fun s =>
  Ok (tt, MkSt (st_ledger s) 0 accounts (st_borrows s) (st_return s) (st_trace s)).

Definition iter_next : M D (nat * AccountInfo) := fun s =>
  match st_iter s with
  | [] => Err NotEnoughAccountKeys
  | info :: rest =>
      Ok ((st_index s, info),
          MkSt (st_ledger s) (S (st_index s)) rest (st_borrows s) (st_return s) (st_trace s))
  end.

(** [accounts_iter.len()]. *)
Definition iter_len : M D nat := fun s => Ok (length (st_iter s), s).

Definition owned_by_ok (L : Ledger D) (info : AccountInfo) (o : option Pubkey) : bool :=
  match o with
  | None => true
  | Some expected_owner => owner (acct L (key info)) =? expected_owner
  end.

Definition try_next_enumerated_account (opts : NextAccountOptions) : M D (nat * AccountInfo) :=
  '(index, account_info) ← iter_next;
  L ← get_ledger;
  ensure (negb (must_be_signer opts && negb (is_signer account_info))) MissingRequiredSignature;;
  ensure (negb (must_be_writable opts && negb (is_writable account_info))) InvalidAccountData;;
  ensure (negb (must_be_executable opts && negb (executable (acct L (key account_info)))))
    InvalidAccountData;;
  ensure (owned_by_ok L account_info (owned_by opts)) InvalidAccountOwner;;
  mret (index, account_info).

(** ** RefCell borrows of account data *)
Definition borrowed_mut (k : Pubkey) (bs : list (Pubkey * bool)) : bool :=
  existsb (fun b => (b.1 =? k) && b.2) bs.
Definition borrowed (k : Pubkey) (bs : list (Pubkey * bool)) : bool :=
  existsb (fun b => b.1 =? k) bs.
Fixpoint release (k : Pubkey) (bs : list (Pubkey * bool)) : list (Pubkey * bool) :=
  match bs with
  | [] => []
  | b :: bs' => if b.1 =? k then bs' else b :: release k bs'
  end.

(** [try_borrow_data] and [try_borrow_mut_data] of [account_info/mod.rs]; the
    borrow lives until it is dropped or the handler returns. *)
Definition try_borrow_data (k : Pubkey) : M D unit := fun s =>
  if borrowed_mut k (st_borrows s) then Err AccountBorrowFailed
  else Ok (tt, MkSt (st_ledger s) (st_index s) (st_iter s) ((k, false) :: st_borrows s)
                 (st_return s) (st_trace s)).

Definition try_borrow_mut_data (k : Pubkey) : M D unit := fun s =>
  if borrowed k (st_borrows s) then Err AccountBorrowFailed
  else Ok (tt, MkSt (st_ledger s) (st_index s) (st_iter s) ((k, true) :: st_borrows s)
                 (st_return s) (st_trace s)).

(** [drop] of a view. *)
Definition drop_view (k : Pubkey) : M D unit := fun s =>
  Ok (tt, MkSt (st_ledger s) (st_index s) (st_iter s) (release k (st_borrows s))
            (st_return s) (st_trace s)).

(** [info.data.borrow()], a panicking borrow for the time of a read. *)
Definition peek_data (k : Pubkey) : M D D := fun s =>
  if borrowed_mut k (st_borrows s) then Panic else Ok (data (acct (st_ledger s) k), s).

(** ** Zero-copy views: [zero_copy/account_info.rs]

    A view is the account's key; the struct behind it is read ([deref],
    [remaining_data]) and changed ([modify], [modify_remaining]) in place in
    the ledger, as through the [Ref]/[RefMut]. *)
Section ZeroCopyView.
Context (T : Type) `{ZeroCopy D T}.

(** The part [try_from_account_info] has in common for a shared and a
    mutable view: length ([RefSplit::try_new]) and discriminator. *)
Definition check_layout (k : Pubkey) : M D unit :=
  L ← get_ledger;
  let d := data (acct L k) in
  ensure (negb (data_len d <? data_end (D := D) T)) AccountDataTooSmall;;
  ensure (if zc_read T d is Some _ then true else false) InvalidAccountData.

Definition try_from_account_info (info : AccountInfo) (program_id : option Pubkey) : M D unit :=
  L ← get_ledger;
  ensure (owned_by_ok L info program_id) InvalidAccountOwner;;
  try_borrow_data (key info);;
  check_layout (key info).

Definition zc_try_next_accounts (program_id : option Pubkey) : M D Pubkey :=
  '(_, info) ← try_next_enumerated_account default_options;
  try_from_account_info info program_id;;
  mret (key info).

Definition try_from_account_info_mut (info : AccountInfo) (program_id : option Pubkey) : M D unit :=
  ensure (is_writable info) InvalidAccountData;;
  L ← get_ledger;
  ensure (owned_by_ok L info program_id) InvalidAccountOwner;;
  try_borrow_mut_data (key info);;
  check_layout (key info).

Definition zc_mut_try_next_accounts (program_id : option Pubkey) : M D Pubkey :=
  '(_, info) ← try_next_enumerated_account default_options;
  try_from_account_info_mut info program_id;;
  mret (key info).

Definition deref (k : Pubkey) : M D T :=
  L ← get_ledger;
  '(t, _) ← lift (unwrap (zc_read T (data (acct L k))));
  mret t.

Definition remaining_data (k : Pubkey) : M D (list Z) :=
  L ← get_ledger;
  '(_, rest) ← lift (unwrap (zc_read T (data (acct L k))));
  mret rest.

Definition modify (k : Pubkey) (f : T -> T) : M D unit :=
  L ← get_ledger;
  '(t, rest) ← lift (unwrap (zc_read T (data (acct L k))));
  put_ledger (set_data L k (zc_write (f t) rest)).

Definition modify_remaining (k : Pubkey) (f : list Z -> list Z) : M D unit :=
  L ← get_ledger;
  '(t, rest) ← lift (unwrap (zc_read T (data (acct L k))));
  put_ledger (set_data L k (zc_write t (f rest))).

(** [zero_copy::try_initialize]: the account must be long enough and not
    have a discriminator; its struct is then the zeroed one and the data
    after it is zero. *)
Definition try_initialize (info : AccountInfo) : M D Pubkey :=
  let k := key info in
  try_borrow_mut_data k;;
  L ← get_ledger;
  let d := data (acct L k) in
  ensure (negb (data_len d <? data_end (D := D) T)) AccountDataTooSmall;;
  ensure (has_zero_discriminator d) InvalidAccountData;;
  put_ledger (set_data L k
    (zc_write (zc_zeroed T)
       (replicate (Z.to_nat (data_len d - data_end (D := D) T)) 0)));;
  mret k.
End ZeroCopyView.

(** ** Lamports *)
Definition get_lamports (k : Pubkey) : M D Z :=
  L ← get_ledger; mret (lamports (acct L k)).

(** [**info.lamports.borrow_mut() += n] and [-= n] on a [u64]. *)
Definition add_lamports (k : Pubkey) (n : Z) : M D unit :=
  L ← get_ledger;
  l ← lift (arith_add 64 (lamports (acct L k)) n);
  put_ledger (set_lamports L k l).

Definition sub_lamports (k : Pubkey) (n : Z) : M D unit :=
  L ← get_ledger;
  l ← lift (arith_sub 64 (lamports (acct L k)) n);
  put_ledger (set_lamports L k l).

(** [info.data_len()] and [info.resize(new_len)?]. *)
Definition get_data_len (k : Pubkey) : M D Z :=
  d ← peek_data k; mret (data_len d).

Definition resize (k : Pubkey) (new_len : Z) : M D unit := fun s =>
  if borrowed k (st_borrows s) then Err AccountBorrowFailed
  else (L ← get_ledger;
        d ← lift (resize_data (data (acct L k)) new_len);
        put_ledger (set_data L k d)) s.

(** ** Cross-program invocation *)
Definition invoke_signed (caller : Pubkey) (ix : Instruction) (accounts : list AccountInfo)
    (seeds : SignerSeeds) : M D unit := fun s =>
  match invoke_cpi caller ix accounts seeds (st_ledger s) with
  | Ok (L, ret) =>
      Ok (tt, MkSt L (st_index s) (st_iter s) (st_borrows s) ret (st_trace s ++ [ix]))
  | Err e => Err e
  | Panic => Panic
  end.

Definition get_return_data : M D (option (Pubkey * list Z)) := fun s => Ok (st_return s, s).

(** ** Recipes: [recipe/create_account.rs], [recipe/create_token_account.rs] *)
Inductive Invoker : Type :=
  | Signer (key : Pubkey)
  | PdaSigner (key : Pubkey) (signer_seeds : list (list Z)).

Definition invoker_key (i : Invoker) : Pubkey :=
  match i with Signer k => k | PdaSigner k _ => k end.

(** The signer seeds an invoker contributes to a CPI. *)
Definition invoker_seeds (i : Invoker) : SignerSeeds :=
  match i with Signer _ => [] | PdaSigner _ s => [s] end.

Definition try_create_account (caller : Pubkey) (payer new_account : Invoker)
    (current_lamports data_len : Z) (program_id : Pubkey) (accounts : list AccountInfo)
    (additional_lamports : option Z) : M D unit :=
  let rent_exemption_lamports := minimum_balance data_len in
  let lamports := saturating_add 64 (default 0 additional_lamports) rent_exemption_lamports in
  if current_lamports =? 0 then
    invoke_signed caller
      (SystemCreateAccount (invoker_key payer) (invoker_key new_account) lamports data_len program_id)
      accounts (invoker_seeds payer ++ invoker_seeds new_account)
  else
    invoke_signed caller (SystemAllocate (invoker_key new_account) data_len) accounts
      (invoker_seeds new_account);;
    invoke_signed caller (SystemAssign (invoker_key new_account) program_id) accounts
      (invoker_seeds new_account);;
    let lamport_diff := saturating_sub lamports current_lamports in
    if negb (lamport_diff =? 0) then
      invoke_signed caller
        (SystemTransfer (invoker_key payer) (invoker_key new_account) lamport_diff) accounts
        (invoker_seeds payer)
    else mret tt.

(** [spl_token_interface::state::Account::LEN]. *)
Definition TOKEN_ACCOUNT_LEN : Z := 165.

Definition try_create_token_account (caller : Pubkey) (payer new_token_account : Invoker)
    (mint_key token_owner_key : Pubkey) (current_lamports : Z) (accounts : list AccountInfo)
    : M D unit :=
  try_create_account caller payer new_token_account current_lamports TOKEN_ACCOUNT_LEN
    spl_token_id accounts None;;
  invoke_signed caller
    (TokenInitializeAccount3 (invoker_key new_token_account) mint_key token_owner_key) accounts [].

(** ** The upgrade authority: [account_info/upgrade_authority.rs] *)
Definition upgrade_authority_try_next_accounts (loader program_id : Pubkey)
    : M D (AccountInfo * AccountInfo) :=
  '(_, program_data_info) ← try_next_enumerated_account default_options;
  ensure (key program_data_info =? (get_program_data_address loader program_id).1) InvalidAccountData;;
  '(_, owner_info) ← try_next_enumerated_account (default_options <| must_be_signer := true |>);
  program_data_info_data ← peek_data (key program_data_info);
  match deserialize_loader_state program_data_info_data with
  | Some (ProgramData (Some authority)) =>
      ensure (key owner_info =? authority) InvalidAccountData;;
      mret (program_data_info, owner_info)
  | _ => fail InvalidAccountData
  end.

(** ** Running an instruction: the ledger it leaves and the CPIs it issued *)
Definition initial_state (L : Ledger D) : St D := MkSt L 0 [] [] None [].

Definition run (handler : M D unit) (L : Ledger D) : Res (Ledger D * list Instruction) :=
  match handler (initial_state L) with
  | Ok (_, s) => Ok (st_ledger s, st_trace s)
  | Err e => Err e
  | Panic => Panic
  end.
End Tools.

(** ** Theorems: account creation *)
Section CreateAccount.
Context {D : Type} `{AccountData D} `{R : Runtime D} `{!RuntimeLaws D R}.
Context (caller : Pubkey) (payer new_account : Invoker).
Context (current_lamports len : Z) (program_id : Pubkey) (accounts : list AccountInfo).
Context (additional : option Z).

(** The lamports the new account must end with, and the CPIs that get it
    there: a single creation for an address without lamports, otherwise an
    allocation, an assignment and a transfer of what is missing, if anything. *)
Definition wanted_lamports : Z :=
  saturating_add 64 (default 0 additional) (minimum_balance len).

Definition create_account_ixs : list Instruction :=
  let payer_key := invoker_key payer in
  let new_key := invoker_key new_account in
  if current_lamports =? 0
  then [SystemCreateAccount payer_key new_key wanted_lamports len program_id]
  else
    [SystemAllocate new_key len; SystemAssign new_key program_id] ++
    (if wanted_lamports <=? current_lamports then []
     else [SystemTransfer payer_key new_key (wanted_lamports - current_lamports)]).

Lemma invoke_signed_ok ix seeds (s s' : St D) u :
  invoke_signed caller ix accounts seeds s = Ok (u, s') ->
  exists ret, invoke_cpi caller ix accounts seeds (st_ledger s) = Ok (st_ledger s', ret) /\
    s' = MkSt (st_ledger s') (st_index s) (st_iter s) (st_borrows s) ret (st_trace s ++ [ix]).
Proof.
  unfold invoke_signed. destruct (invoke_cpi caller ix accounts seeds (st_ledger s))
    as [[L' ret]| |] eqn:E; [|done|done]. intros [= <- <-]. eauto.
Qed.

Lemma M_bind_ok {A B} (m : M D A) (k : A -> M D B) s b s' :
  (m ≫= k) s = Ok (b, s') <-> exists a s1, m s = Ok (a, s1) /\ k a s1 = Ok (b, s').
Proof. unfold mbind, M_bind. destruct (m s) as [[a s1]| |]; naive_solver. Qed.

Hypothesis Hcaller : caller <> system_program_id.

Lemma transfer_amount :
  saturating_sub wanted_lamports current_lamports =
  if wanted_lamports <=? current_lamports then 0 else wanted_lamports - current_lamports.
Proof. unfold saturating_sub. destruct (Z.leb_spec wanted_lamports current_lamports); lia. Qed.

(** A successful creation issues exactly these CPIs and keeps the rest of the
    state; a new account of the caller is owned by the caller. *)
Lemma create_account_run s s' u :
  try_create_account caller payer new_account current_lamports len program_id accounts additional s
    = Ok (u, s') ->
  (exists ret, s' = MkSt (st_ledger s') (st_index s) (st_iter s) (st_borrows s) ret
                      (st_trace s ++ create_account_ixs)) /\
  (forall P, cpi_closed caller P -> P (st_ledger s) (st_ledger s')) /\
  (program_id = caller -> owner (acct (st_ledger s') (invoker_key new_account)) = caller).
Proof.
  unfold try_create_account, create_account_ixs. cbv zeta. fold wanted_lamports.
  destruct (current_lamports =? 0).
  - intros (ret & Hi & ->)%invoke_signed_ok. cbn. split; [eauto|].
    split; [intros P HP; exact (cpi_closed_step caller P HP _ _ _ _ _ _ Hi eq_refl)|]. intros <-. by eapply cpi_system_create in Hi as [? _].
  - intros (? & s1 & (r1 & Hi1 & ->)%invoke_signed_ok & Hk)%M_bind_ok.
    apply M_bind_ok in Hk as (? & s2 & (r2 & Hi2 & ->)%invoke_signed_ok & Hk).
    rewrite transfer_amount in Hk. cbn in Hi1, Hi2.
    pose proof (fun P HP => cpi_closed_step caller P HP _ _ _ _ _ _ Hi1 eq_refl) as P1.
    pose proof (fun P HP => cpi_closed_trans caller P HP _ _ _ (P1 P HP)
                              (cpi_closed_step caller P HP _ _ _ _ _ _ Hi2 eq_refl)) as P2.
    apply cpi_system_assign in Hi2 as [Ho _].
    destruct (Z.leb_spec wanted_lamports current_lamports).
    + injection Hk as _ <-. cbn. rewrite <- !(assoc_L (++)). split_and!; [eauto|exact P2|congruence].
    + rewrite (proj2 (Z.eqb_neq _ _)) in Hk by lia. cbn [negb] in Hk.
      apply invoke_signed_ok in Hk as (r3 & Hi3 & ->). cbn in Hi3 |- *.
      pose proof (fun P HP => cpi_closed_step caller P HP _ _ _ _ _ _ Hi3 eq_refl) as P3.
      rewrite <- !(assoc_L (++)). split_and!; [eauto| |].
      * intros P HP. by apply (cpi_closed_trans caller P HP _ _ _ (P2 P HP)), P3.
      * intros E. destruct (P3 _ (cpi_closed_preserves R caller Hcaller) (invoker_key new_account));
          [congruence|done].
Qed.

Lemma create_account_lamports s s' u :
  (forall n, additional = Some n -> 0 <= n) ->
  current_lamports = lamports (acct (st_ledger s) (invoker_key new_account)) ->
  program_id <> system_program_id ->
  0 <= current_lamports ->
  try_create_account caller payer new_account current_lamports len program_id accounts additional s
    = Ok (u, s') ->
  lamports (acct (st_ledger s') (invoker_key new_account)) = Z.max wanted_lamports current_lamports.
Proof.
  intros Hadd Hcur Hprogram Hpos Hrun.
  assert (0 <= wanted_lamports) as Hwanted.
  { unfold wanted_lamports, saturating_add, umax. pose proof (minimum_balance_u64 len) as [? _].
    destruct additional; cbn; [pose proof (Hadd _ eq_refl)|]; lia. }
  unfold try_create_account in Hrun. cbv zeta in Hrun. fold wanted_lamports in Hrun.
  destruct (Z.eqb_spec current_lamports 0) as [E0|].
  - apply invoke_signed_ok in Hrun as (ret & Hi & ->). apply cpi_system_create in Hi as [_ Hl].
    cbn. lia.
  - apply M_bind_ok in Hrun as (? & s1 & (r1 & Hi1 & ->)%invoke_signed_ok & Hk).
    apply M_bind_ok in Hk as (? & s2 & (r2 & Hi2 & ->)%invoke_signed_ok & Hk).
    rewrite transfer_amount in Hk. cbn in Hi1, Hi2, Hk.
    apply cpi_system_allocate in Hi1. apply cpi_system_assign in Hi2 as [Ho2 Hi2].
    destruct (Z.leb_spec wanted_lamports current_lamports).
    + injection Hk as _ <-. cbn. lia.
    + rewrite (proj2 (Z.eqb_neq _ _)) in Hk by lia. cbn [negb] in Hk.
      apply invoke_signed_ok in Hk as (r3 & Hi3 & ->). cbn in Hi3 |- *.
      apply cpi_system_transfer in Hi3 as (_ & Ho3 & Ht). specialize (Ho3 ltac:(lia)).
      destruct (Ht ltac:(congruence)) as [_ ->]. lia.
Qed.

(** Account creation always leaves the new account with the lamports it
    must have: whether the address is fresh or was funded beforehand, it ends
    with its rent exemption plus what was asked on top (or with the larger
    balance it already had), and the CPIs issued are the creation, or the
    allocation, the assignment and a transfer of exactly what was missing. *)
Theorem create_account_funding s s' u :
  (forall n, additional = Some n -> 0 <= n) ->
  current_lamports = lamports (acct (st_ledger s) (invoker_key new_account)) ->
  program_id <> system_program_id ->
  0 <= current_lamports ->
  try_create_account caller payer new_account current_lamports len program_id accounts additional s
    = Ok (u, s') ->
  lamports (acct (st_ledger s') (invoker_key new_account)) = Z.max wanted_lamports current_lamports /\
  st_trace s' = st_trace s ++ create_account_ixs.
Proof.
  intros Hadd Hcur Hprogram Hpos Hrun. split; [by eapply create_account_lamports|].
  by destruct (create_account_run _ _ _ Hrun) as ((ret & ->) & _).
Qed.
End CreateAccount.

(** The CPIs of [try_create_token_account]. *)
Definition create_token_account_ixs {D} `{Runtime D} (payer new_token_account : Invoker)
    (mint_key token_owner_key : Pubkey) (current_lamports : Z) : list Instruction :=
  create_account_ixs payer new_token_account current_lamports TOKEN_ACCOUNT_LEN spl_token_id None
  ++ [TokenInitializeAccount3 (invoker_key new_token_account) mint_key token_owner_key].

Lemma create_token_account_run {D} `{AccountData D} `{R : Runtime D} `{!RuntimeLaws D R}
    caller payer new mint token_owner cur accounts (s s' : St D) u :
  caller <> system_program_id ->
  try_create_token_account caller payer new mint token_owner cur accounts s = Ok (u, s') ->
  (exists ret, s' = MkSt (st_ledger s') (st_index s) (st_iter s) (st_borrows s) ret
                      (st_trace s ++ create_token_account_ixs payer new mint token_owner cur)) /\
  (forall P, cpi_closed caller P -> P (st_ledger s) (st_ledger s')).
Proof.
  intros Hc Hrun. apply M_bind_ok in Hrun as (? & s1 & H1 & (r2 & Hi2 & ->)%invoke_signed_ok).
  apply create_account_run in H1 as ((r1 & E1) & P1 & _); [|done].
  cbn. split.
  - exists r2. rewrite E1. cbn. unfold create_token_account_ixs. by rewrite (assoc_L (++)).
  - intros P HP. exact (cpi_closed_trans caller P HP _ _ _ (P1 P HP)
      (cpi_closed_step caller P HP _ _ _ _ _ _ Hi2 eq_refl)).
Qed.

(** ** Executing CPIs

    What the runtime makes of the CPIs a program issues, in order, each with the
    seeds it is signed with: from the ledger and return data they start on to
    those the last one leaves.  The theorems tie the ledgers between two parts of
    a handler with this relation. *)
Abbreviation Call := (Instruction * SignerSeeds)%type (only parsing).

Inductive executes {D} `{Runtime D} (caller : Pubkey) (accounts : list AccountInfo)
    : list Call -> Ledger D * option (Pubkey * list Z) -> Ledger D * option (Pubkey * list Z) -> Prop :=
  | executes_nil s : executes caller accounts [] s s
  | executes_cons ix seeds calls L r s s' :
      invoke_cpi caller ix accounts seeds L = Ok s ->
      executes caller accounts calls s s' ->
      executes caller accounts ((ix, seeds) :: calls) (L, r) s'.

(** CPIs signed with the same seeds. *)
Definition signed_with (seeds : SignerSeeds) (ixs : list Instruction) : list Call :=
  (fun ix => (ix, seeds)) <$> ixs.

Section Executes.
Context {D : Type} `{Runtime D} (caller : Pubkey) (accounts : list AccountInfo).

Lemma executes_one ix seeds L r s :
  executes caller accounts [(ix, seeds)] (L, r) s <->
  invoke_cpi caller ix accounts seeds L = Ok s.
Proof.
  split; [|intros Hi; econstructor; [exact Hi|constructor]].
  inversion 1 as [|???????? Hn]; subst. by inversion Hn; subst.
Qed.

Lemma executes_app calls1 calls2 s1 s2 s3 :
  executes caller accounts calls1 s1 s2 -> executes caller accounts calls2 s2 s3 ->
  executes caller accounts (calls1 ++ calls2) s1 s3.
Proof. induction 1; [done|]. intros. econstructor; eauto. Qed.

(** What CPIs leave is determined by what they start from. *)
Lemma executes_det calls s s1 s2 :
  executes caller accounts calls s s1 -> executes caller accounts calls s s2 -> s1 = s2.
Proof.
  intros H1. revert s2. induction H1 as [|ix seeds calls L r s s' Hi _ IH]; intros s2; inversion 1; subst.
  - done.
  - apply IH. by replace s with s0 by congruence.
Qed.
End Executes.

(** The CPIs of [try_create_account] with the seeds that sign them. *)
Definition create_account_calls {D} `{Runtime D} (payer new_account : Invoker)
    (current_lamports len : Z) (program_id : Pubkey) (additional : option Z) : list Call :=
  let wanted := wanted_lamports len additional in
  let payer_key := invoker_key payer in
  let new_key := invoker_key new_account in
  if current_lamports =? 0
  then [(SystemCreateAccount payer_key new_key wanted len program_id,
         invoker_seeds payer ++ invoker_seeds new_account)]
  else
    signed_with (invoker_seeds new_account)
      [SystemAllocate new_key len; SystemAssign new_key program_id] ++
    (if wanted <=? current_lamports then []
     else [(SystemTransfer payer_key new_key (wanted - current_lamports), invoker_seeds payer)]).

Definition create_token_account_calls {D} `{Runtime D} (payer new_token_account : Invoker)
    (mint_key token_owner_key : Pubkey) (current_lamports : Z) : list Call :=
  create_account_calls payer new_token_account current_lamports TOKEN_ACCOUNT_LEN spl_token_id None
  ++ [(TokenInitializeAccount3 (invoker_key new_token_account) mint_key token_owner_key, [])].

Section CreateCalls.
Context {D : Type} `{Runtime D} (caller : Pubkey) (payer new : Invoker) (cur : Z)
        (accounts : list AccountInfo).

Lemma create_account_calls_ixs len pid extra :
  fst <$> create_account_calls payer new cur len pid extra
  = create_account_ixs payer new cur len pid extra.
Proof. unfold create_account_calls, create_account_ixs. by repeat case_match. Qed.

Lemma create_token_account_calls_ixs mint token_owner :
  fst <$> create_token_account_calls payer new mint token_owner cur
  = create_token_account_ixs payer new mint token_owner cur.
Proof.
  unfold create_token_account_calls, create_token_account_ixs.
  by rewrite fmap_app, create_account_calls_ixs.
Qed.

Lemma create_account_executes len pid extra (s s' : St D) u :
  try_create_account caller payer new cur len pid accounts extra s = Ok (u, s') ->
  executes caller accounts (create_account_calls payer new cur len pid extra)
    (st_ledger s, st_return s) (st_ledger s', st_return s').
Proof.
  unfold try_create_account, create_account_calls. cbv zeta. fold (wanted_lamports len extra).
  destruct (cur =? 0).
  - intros (ret & Hi & ->)%invoke_signed_ok. by apply executes_one.
  - intros (? & s1 & (r1 & Hi1 & ->)%invoke_signed_ok & Hk)%M_bind_ok.
    apply M_bind_ok in Hk as (? & s2 & (r2 & Hi2 & ->)%invoke_signed_ok & Hk).
    rewrite transfer_amount in Hk. cbn in Hi1, Hi2, Hk |- *.
    do 2 (econstructor; [eassumption|]).
    destruct (Z.leb_spec (wanted_lamports len extra) cur).
    + injection Hk as _ <-. constructor.
    + rewrite (proj2 (Z.eqb_neq _ _)) in Hk by lia. cbn [negb] in Hk.
      apply invoke_signed_ok in Hk as (r3 & Hi3 & ->). cbn in Hi3 |- *. by apply executes_one.
Qed.

Lemma create_token_account_executes mint token_owner (s s' : St D) u :
  try_create_token_account caller payer new mint token_owner cur accounts s = Ok (u, s') ->
  executes caller accounts (create_token_account_calls payer new mint token_owner cur)
    (st_ledger s, st_return s) (st_ledger s', st_return s').
Proof.
  intros (? & s1 & H1%create_account_executes & (r2 & Hi2 & ->)%invoke_signed_ok)%M_bind_ok.
  eapply executes_app; [exact H1|]. by apply executes_one.
Qed.
End CreateCalls.
