(* ===== verification/Rules.v ===== *)
(** * Rules for the instruction monad

    One rule per primitive of the instruction monad, on an explicit state
    [MkSt ledger index accounts borrows return trace], for any program: what
    its accounts contain is a parameter. *)

From Stdlib Require Import ZArith Lia.
From S2P Require Import Prelude Runtime ProgramTools.

#[global] Arguments borrowed_mut : simpl never.
#[global] Arguments borrowed : simpl never.
#[global] Arguments release : simpl never.
#[global] Arguments acct : simpl never.
#[global] Arguments set_data : simpl never.
#[global] Arguments set_lamports : simpl never.
#[global] Arguments try_next_enumerated_account : simpl never.

Section Rules.
Context {D : Type} `{AccountData D} `{R : Runtime D}.
Context (L : Ledger D) (i : nat) (infos : list AccountInfo) (b : list (Pubkey * bool))
        (r : option (Pubkey * list Z)) (t : list Instruction).
Abbreviation s := (MkSt L i infos b r t).

Lemma wlp_start_iter accounts (Q : unit -> St D -> Prop) :
  Q tt (MkSt L 0 accounts b r t) -> wlp (start_iter accounts) Q s.
Proof. intros ? ? ? [= <- <-]. done. Qed.

Lemma wlp_get_ledger (Q : Ledger D -> St D -> Prop) : Q L s -> wlp get_ledger Q s.
Proof. intros ? ? ? [= <- <-]. done. Qed.

Lemma wlp_put_ledger L' (Q : unit -> St D -> Prop) :
  Q tt (MkSt L' i infos b r t) -> wlp (put_ledger L') Q s.
Proof. intros ? ? ? [= <- <-]. done. Qed.

Lemma wlp_iter_len (Q : nat -> St D -> Prop) : Q (length infos) s -> wlp iter_len Q s.
Proof. intros ? ? ? [= <- <-]. done. Qed.

Lemma wlp_get_return_data (Q : option (Pubkey * list Z) -> St D -> Prop) :
  Q r s -> wlp get_return_data Q s.
Proof. intros ? ? ? [= <- <-]. done. Qed.

Lemma wlp_get_lamports k (Q : Z -> St D -> Prop) :
  Q (lamports (acct L k)) s -> wlp (get_lamports k) Q s.
Proof. intros ? ? ? [= <- <-]. done. Qed.

Lemma wlp_drop_view k (Q : unit -> St D -> Prop) :
  Q tt (MkSt L i infos (release k b) r t) -> wlp (drop_view k) Q s.
Proof. intros ? ? ? [= <- <-]. done. Qed.

Lemma wlp_peek_data k (Q : D -> St D -> Prop) :
  (borrowed_mut k b = false -> Q (data (acct L k)) s) -> wlp (peek_data k) Q s.
Proof.
  intros HQ a s'. unfold peek_data. cbn. destruct (borrowed_mut k b); [done|].
  intros [= <- <-]. auto.
Qed.

Lemma wlp_get_data_len k (Q : Z -> St D -> Prop) :
  Q (data_len (data (acct L k))) s -> wlp (get_data_len k) Q s.
Proof. intros HQ. apply wlp_bind, wlp_peek_data. intros _. by apply wlp_ret. Qed.

Lemma wlp_invoke_signed caller ix accounts seeds (Q : unit -> St D -> Prop) :
  (forall L' r', invoke_cpi caller ix accounts seeds L = Ok (L', r') ->
     Q tt (MkSt L' i infos b r' (t ++ [ix]))) ->
  wlp (invoke_signed caller ix accounts seeds) Q s.
Proof.
  intros HQ a s'. unfold invoke_signed. cbn.
  destruct (invoke_cpi caller ix accounts seeds L) as [[L' r']| |] eqn:E; [|done|done].
  intros [= <- <-]. auto.
Qed.

Lemma wlp_invoke_executes caller ix accounts seeds (Q : unit -> St D -> Prop) :
  (forall L' r', invoke_cpi caller ix accounts seeds L = Ok (L', r') ->
     executes caller accounts [(ix, seeds)] (L, r) (L', r') ->
     Q tt (MkSt L' i infos b r' (t ++ [ix]))) ->
  wlp (invoke_signed caller ix accounts seeds) Q s.
Proof. intros HQ. apply wlp_invoke_signed. intros. apply HQ; [done|by apply executes_one]. Qed.

Lemma wlp_add_lamports k n (Q : unit -> St D -> Prop) :
  (forall l, arith_add 64 (lamports (acct L k)) n = Ok l ->
     Q tt (MkSt (set_lamports L k l) i infos b r t)) ->
  wlp (add_lamports k n) Q s.
Proof.
  intros HQ. apply wlp_bind, wlp_get_ledger, wlp_bind, wlp_lift. intros l Hl.
  intros ? ? [= <- <-]. auto.
Qed.

Lemma wlp_sub_lamports k n (Q : unit -> St D -> Prop) :
  (forall l, arith_sub 64 (lamports (acct L k)) n = Ok l ->
     Q tt (MkSt (set_lamports L k l) i infos b r t)) ->
  wlp (sub_lamports k n) Q s.
Proof.
  intros HQ. apply wlp_bind, wlp_get_ledger, wlp_bind, wlp_lift. intros l Hl.
  intros ? ? [= <- <-]. auto.
Qed.

Lemma wlp_resize k n (Q : unit -> St D -> Prop) :
  (forall d, borrowed k b = false -> resize_data (data (acct L k)) n = Ok d ->
     Q tt (MkSt (set_data L k d) i infos b r t)) ->
  wlp (resize k n) Q s.
Proof.
  intros HQ a s'. unfold resize. cbn. destruct (borrowed k b) eqn:Eb; [done|].
  unfold mbind, M_bind, get_ledger, lift, put_ledger. cbn.
  destruct (resize_data (data (acct L k)) n) eqn:E; [|done|done]. intros [= <- <-]. auto.
Qed.
End Rules.

Section NextRules.
Context {D : Type} `{AccountData D} `{R : Runtime D}.
Context (L : Ledger D) (i : nat) (info : AccountInfo) (infos : list AccountInfo)
        (b : list (Pubkey * bool)) (r : option (Pubkey * list Z)) (t : list Instruction).

Lemma wlp_next opts (Q : nat * AccountInfo -> St D -> Prop) :
  ((must_be_signer opts = true -> is_signer info = true) ->
   (must_be_writable opts = true -> is_writable info = true) ->
   (must_be_executable opts = true -> executable (acct L (key info)) = true) ->
   Q (i, info) (MkSt L (S i) infos b r t)) ->
  wlp (try_next_enumerated_account opts) Q (MkSt L i (info :: infos) b r t).
Proof.
  intros HQ. apply wlp_bind. intros ? ? [= <- <-]. cbn.
  apply wlp_bind, wlp_get_ledger, wlp_bind, wlp_ensure. intros H1.
  apply wlp_bind, wlp_ensure. intros H2. apply wlp_bind, wlp_ensure. intros H3.
  apply wlp_bind, wlp_ensure. intros H4. apply wlp_ret. apply HQ.
  - intros E. rewrite E in H1. by destruct (is_signer info).
  - intros E. rewrite E in H2. by destruct (is_writable info).
  - intros E. rewrite E in H3. by destruct (executable (acct L (key info))).
Qed.

Lemma wlp_next_default (Q : nat * AccountInfo -> St D -> Prop) :
  Q (i, info) (MkSt L (S i) infos b r t) ->
  wlp (try_next_enumerated_account default_options) Q (MkSt L i (info :: infos) b r t).
Proof. intros. by apply wlp_next. Qed.

Lemma wlp_next_signer (Q : nat * AccountInfo -> St D -> Prop) :
  (is_signer info = true -> Q (i, info) (MkSt L (S i) infos b r t)) ->
  wlp (try_next_enumerated_account (default_options <| must_be_signer := true |>)) Q
    (MkSt L i (info :: infos) b r t).
Proof. intros HQ. apply wlp_next. cbn. auto. Qed.

Lemma wlp_next_writable (Q : nat * AccountInfo -> St D -> Prop) :
  (is_writable info = true -> Q (i, info) (MkSt L (S i) infos b r t)) ->
  wlp (try_next_enumerated_account (default_options <| must_be_writable := true |>)) Q
    (MkSt L i (info :: infos) b r t).
Proof. intros HQ. apply wlp_next. cbn. auto. Qed.

Lemma wlp_next_executable (Q : nat * AccountInfo -> St D -> Prop) :
  (executable (acct L (key info)) = true -> Q (i, info) (MkSt L (S i) infos b r t)) ->
  wlp (try_next_enumerated_account (default_options <| must_be_executable := true |>)) Q
    (MkSt L i (info :: infos) b r t).
Proof. intros HQ. apply wlp_next. cbn. auto. Qed.

Lemma wlp_next_nil opts (Q : nat * AccountInfo -> St D -> Prop) :
  wlp (try_next_enumerated_account opts) Q (MkSt L i [] b r t).
Proof. by intros ? ?. Qed.
End NextRules.

(** ** Typed views *)
Section ViewRules.
Context {D : Type} `{AccountData D} `{R : Runtime D} (T : Type) `{ZeroCopy D T}.

Lemma wlp_check_layout k (Q : unit -> St D -> Prop) L i infos b r t :
  (forall x rest, zc_read T (data (acct L k)) = Some (x, rest) -> Q tt (MkSt L i infos b r t)) ->
  wlp (check_layout T k) Q (MkSt L i infos b r t).
Proof.
  intros HQ. apply wlp_bind, wlp_get_ledger, wlp_bind, wlp_ensure. intros _. apply wlp_ensure.
  destruct (zc_read T (data (acct L k))) as [[x rest]|] eqn:E; [|done]. intros _. by eapply HQ.
Qed.

Lemma wlp_try_from_account_info info program_id (Q : unit -> St D -> Prop) L i infos b r t :
  (forall x rest,
     zc_read T (data (acct L (key info))) = Some (x, rest) ->
     owner (acct L (key info)) = program_id -> borrowed_mut (key info) b = false ->
     Q tt (MkSt L i infos ((key info, false) :: b) r t)) ->
  wlp (try_from_account_info T info (Some program_id)) Q (MkSt L i infos b r t).
Proof.
  intros HQ. apply wlp_bind, wlp_get_ledger, wlp_bind, wlp_ensure. cbn. intros Ho%Z.eqb_eq.
  apply wlp_bind. intros u s'. unfold try_borrow_data. cbn.
  destruct (borrowed_mut (key info) b) eqn:Eb; [done|]. intros [= <- <-].
  apply wlp_check_layout. intros x rest Hr. by eapply HQ.
Qed.

Lemma wlp_try_from_account_info_mut info program_id (Q : unit -> St D -> Prop) L i infos b r t :
  (forall x rest,
     zc_read T (data (acct L (key info))) = Some (x, rest) ->
     owner (acct L (key info)) = program_id -> borrowed (key info) b = false ->
     is_writable info = true ->
     Q tt (MkSt L i infos ((key info, true) :: b) r t)) ->
  wlp (try_from_account_info_mut T info (Some program_id)) Q (MkSt L i infos b r t).
Proof.
  intros HQ. apply wlp_bind, wlp_ensure. intros Hw.
  apply wlp_bind, wlp_get_ledger, wlp_bind, wlp_ensure. cbn. intros Ho%Z.eqb_eq.
  apply wlp_bind. intros u s'. unfold try_borrow_mut_data. cbn.
  destruct (borrowed (key info) b) eqn:Eb; [done|]. intros [= <- <-].
  apply wlp_check_layout. intros x rest Hr. by eapply HQ.
Qed.

Lemma wlp_zc info program_id (Q : Pubkey -> St D -> Prop) L i infos b r t :
  (forall x rest,
     zc_read T (data (acct L (key info))) = Some (x, rest) ->
     owner (acct L (key info)) = program_id -> borrowed_mut (key info) b = false ->
     Q (key info) (MkSt L (S i) infos ((key info, false) :: b) r t)) ->
  wlp (zc_try_next_accounts T (Some program_id)) Q (MkSt L i (info :: infos) b r t).
Proof.
  intros HQ. apply wlp_bind, wlp_next_default, wlp_bind, wlp_try_from_account_info.
  intros. apply wlp_ret. by eapply HQ.
Qed.

Lemma wlp_zc_mut info program_id (Q : Pubkey -> St D -> Prop) L i infos b r t :
  (forall x rest,
     zc_read T (data (acct L (key info))) = Some (x, rest) ->
     owner (acct L (key info)) = program_id -> borrowed (key info) b = false ->
     is_writable info = true ->
     Q (key info) (MkSt L (S i) infos ((key info, true) :: b) r t)) ->
  wlp (zc_mut_try_next_accounts T (Some program_id)) Q (MkSt L i (info :: infos) b r t).
Proof.
  intros HQ. apply wlp_bind, wlp_next_default, wlp_bind, wlp_try_from_account_info_mut.
  intros. apply wlp_ret. by eapply HQ.
Qed.

Lemma wlp_zc_nil program_id (Q : Pubkey -> St D -> Prop) L i b r t :
  wlp (zc_try_next_accounts T program_id) Q (MkSt L i [] b r t).
Proof. by intros ? ?. Qed.

Lemma wlp_zc_mut_nil program_id (Q : Pubkey -> St D -> Prop) L i b r t :
  wlp (zc_mut_try_next_accounts T program_id) Q (MkSt L i [] b r t).
Proof. by intros ? ?. Qed.

(** Reads and writes through a view whose contents are known. *)
Lemma wlp_deref k x rest (Q : T -> St D -> Prop) L i infos b r t :
  zc_read T (data (acct L k)) = Some (x, rest) ->
  Q x (MkSt L i infos b r t) -> wlp (deref T k) Q (MkSt L i infos b r t).
Proof.
  intros E HQ. apply wlp_bind, wlp_get_ledger, wlp_bind, wlp_lift. rewrite E. intros ? [= <-].
  by apply wlp_ret.
Qed.

Lemma wlp_remaining_data k x rest (Q : list Z -> St D -> Prop) L i infos b r t :
  zc_read T (data (acct L k)) = Some (x, rest) ->
  Q rest (MkSt L i infos b r t) -> wlp (remaining_data T k) Q (MkSt L i infos b r t).
Proof.
  intros E HQ. apply wlp_bind, wlp_get_ledger, wlp_bind, wlp_lift. rewrite E. intros ? [= <-].
  by apply wlp_ret.
Qed.

Lemma wlp_modify k f x rest (Q : unit -> St D -> Prop) L i infos b r t :
  zc_read T (data (acct L k)) = Some (x, rest) ->
  Q tt (MkSt (set_data L k (zc_write (f x) rest)) i infos b r t) ->
  wlp (modify T k f) Q (MkSt L i infos b r t).
Proof.
  intros E HQ. apply wlp_bind, wlp_get_ledger, wlp_bind, wlp_lift. rewrite E. intros ? [= <-].
  by apply wlp_put_ledger.
Qed.

Lemma wlp_modify_remaining k f x rest (Q : unit -> St D -> Prop) L i infos b r t :
  zc_read T (data (acct L k)) = Some (x, rest) ->
  Q tt (MkSt (set_data L k (zc_write x (f rest))) i infos b r t) ->
  wlp (modify_remaining T k f) Q (MkSt L i infos b r t).
Proof.
  intros E HQ. apply wlp_bind, wlp_get_ledger, wlp_bind, wlp_lift. rewrite E. intros ? [= <-].
  by apply wlp_put_ledger.
Qed.

Lemma wlp_try_initialize info (Q : Pubkey -> St D -> Prop) L i infos b r t :
  (forall rest,
     borrowed (key info) b = false -> has_zero_discriminator (data (acct L (key info))) = true ->
     rest = replicate (Z.to_nat (data_len (data (acct L (key info))) - data_end (D := D) T)) 0 ->
     Q (key info)
       (MkSt (set_data L (key info) (zc_write (zc_zeroed T) rest)) i infos
          ((key info, true) :: b) r t)) ->
  wlp (try_initialize T info) Q (MkSt L i infos b r t).
Proof.
  intros HQ. apply wlp_bind. intros u s'. unfold try_borrow_mut_data. cbn.
  destruct (borrowed (key info) b) eqn:Eb; [done|]. intros [= <- <-].
  apply wlp_bind, wlp_get_ledger, wlp_bind, wlp_ensure. intros _.
  apply wlp_bind, wlp_ensure. intros Hz. apply wlp_bind, wlp_put_ledger, wlp_ret. by eapply HQ.
Qed.
End ViewRules.

(** A successful run satisfies what its body's postcondition says. *)
Lemma run_wlp {D} `{AccountData D} `{R : Runtime D} (h : M D unit) (L L' : Ledger D) trace
    (P : Ledger D -> list Instruction -> Prop) :
  wlp h (fun _ s => P (st_ledger s) (st_trace s)) (MkSt L 0 [] [] None []) ->
  run h L = Ok (L', trace) -> P L' trace.
Proof.
  intros Hw. unfold run, initial_state.
  destruct (h (MkSt L 0 [] [] None [])) as [[u s]| |] eqn:E; [|done|done].
  intros [= <- <-]. by apply (Hw u s).
Qed.

Lemma run_post {D} `{AccountData D} `{R : Runtime D} (h : M D unit) (L L' : Ledger D) trace
    (P : Ledger D -> Prop) :
  run h L = Ok (L', trace) -> wlp h (fun _ s => P (st_ledger s)) (MkSt L 0 [] [] None []) -> P L'.
Proof. intros Hr Hw. exact (run_wlp h L L' trace (fun L' _ => P L') Hw Hr). Qed.

(** Account creation, by the owner of the new account or for another program. *)
Section CreateRules.
Context {D : Type} `{AccountData D} `{R : Runtime D} `{!RuntimeLaws D R}.
Context (caller : Pubkey) (Hcaller : caller <> system_program_id).
Context (L : Ledger D) (i : nat) (infos : list AccountInfo) (b : list (Pubkey * bool))
        (r : option (Pubkey * list Z)) (t : list Instruction).

Lemma wlp_try_create_account payer new cur len pid accounts extra (Q : unit -> St D -> Prop) :
  (forall L' r', (forall P, cpi_closed caller P -> P L L') ->
     (pid = caller -> owner (acct L' (invoker_key new)) = caller) ->
     Q tt (MkSt L' i infos b r' (t ++ create_account_ixs payer new cur len pid extra))) ->
  wlp (try_create_account caller payer new cur len pid accounts extra) Q (MkSt L i infos b r t).
Proof.
  intros HQ [] s' Hrun.
  apply create_account_run in Hrun as ((ret & ->) & Hp & Ho); [|exact Hcaller].
  cbn in Ho, Hp. by apply HQ.
Qed.

(** The same, with the balance the new account ends with. *)
Lemma wlp_try_create_account_funded payer new cur len pid accounts extra (Q : unit -> St D -> Prop) :
  cur = lamports (acct L (invoker_key new)) -> 0 <= cur -> pid <> system_program_id ->
  (forall n, extra = Some n -> 0 <= n) ->
  (forall L' r', (forall P, cpi_closed caller P -> P L L') ->
     (pid = caller -> owner (acct L' (invoker_key new)) = caller) ->
     lamports (acct L' (invoker_key new)) = Z.max (wanted_lamports len extra) cur ->
     Q tt (MkSt L' i infos b r' (t ++ create_account_ixs payer new cur len pid extra))) ->
  wlp (try_create_account caller payer new cur len pid accounts extra) Q (MkSt L i infos b r t).
Proof.
  intros Hcur Hpos Hpid Hextra HQ [] s' Hrun. pose proof Hrun as Hrun'.
  apply create_account_run in Hrun as ((ret & ->) & Hp & Ho); [|exact Hcaller].
  cbn in Ho, Hp. apply HQ; [exact Hp|exact Ho|].
  by apply create_account_lamports in Hrun'.
Qed.

Lemma wlp_try_create_token_account payer new mint token_owner cur accounts (Q : unit -> St D -> Prop) :
  (forall L' r', (forall P, cpi_closed caller P -> P L L') ->
     Q tt (MkSt L' i infos b r' (t ++ create_token_account_ixs payer new mint token_owner cur))) ->
  wlp (try_create_token_account caller payer new mint token_owner cur accounts) Q (MkSt L i infos b r t).
Proof.
  intros HQ [] s' Hrun.
  apply create_token_account_run in Hrun as ((ret & ->) & Hp); [|exact Hcaller].
  cbn in Hp. by apply HQ.
Qed.
End CreateRules.

(** ** Tactics for any program *)

(** Reading through updates: owners and (for data) lamports go through
    unconditionally; a data fact through an update of another key needs the
    keys to differ, which the types of the contents show. *)
Ltac ledger_fact H :=
  repeat (first
    [ rewrite data_set_data_eq in H
    | rewrite owner_set_data in H
    | rewrite owner_set_lamports in H
    | rewrite data_set_lamports in H
    | match type of H with
      | context [data (acct (set_data ?L ?k ?d) ?k')] =>
          let Hne := fresh "Hne" in
          assert (k <> k') as Hne
            by (first [ congruence
                      | let E := fresh "E" in
                        intros E; rewrite E, data_set_data_eq in H; discriminate H ]);
          rewrite (data_set_data_ne L k k' d Hne) in H
      end ]).

Ltac ledger :=
  repeat first
    [ rewrite data_set_data_eq
    | rewrite owner_set_data
    | rewrite owner_set_lamports
    | rewrite data_set_lamports
    | rewrite lamports_set_data
    | rewrite lamports_set_lamports_eq
    | rewrite data_set_data_ne by congruence
    | rewrite lamports_set_lamports_ne by congruence
    | rewrite acct_set_data_ne by congruence
    | rewrite acct_set_lamports_ne by congruence ].

(** Reads of lamports in the hypotheses, through the updates. *)
Ltac lamports_norm :=
  repeat match goal with
  | H : context [lamports (acct (set_data _ _ _) _)] |- _ => rewrite lamports_set_data in H
  | H : context [lamports (acct (set_lamports _ ?k _) ?k)] |- _ => rewrite lamports_set_lamports_eq in H
  | H : context [lamports (acct (set_lamports ?L ?k ?n) ?k')] |- _ =>
      rewrite (lamports_set_lamports_ne L k k' n) in H by congruence
  end.

(** The conjuncts of a goal that are known or syntactic equalities (without
    weak-head reduction or unification up to conversion of the others). *)
Ltac conjs :=
  repeat match goal with |- _ /\ _ => split end;
  try match goal with
      | H : ?P |- ?Q => constr_eq P Q; exact H
      | |- ?x = ?y => constr_eq x y; reflexivity
      end.

(** Turns [run h L = Ok (L', trace) -> P] into the weakest precondition of [h]. *)
Ltac start_run :=
  lazymatch goal with
  | |- run ?h ?L = Ok (?L', ?tr) -> ?G =>
      let P := eval pattern L', tr in G in
      lazymatch P with ?f _ _ => apply (run_wlp h L L' tr f) end
  end.

(** Reads after CPIs, for an account of the program. *)
Ltac own :=
  ledger;
  first
    [ assumption
    | match goal with
      | H : cpi_preserves ?caller ?L ?L' |- owner (acct ?L' ?k) = ?caller =>
          apply (preserved_owner L L' k H); own
      end ].
Ltac cpi_read :=
  repeat match goal with
  | H : cpi_preserves ?caller ?L ?L' |- context [data (acct ?L' ?k)] =>
      rewrite (preserved_data L L' k H) by own; ledger
  end.

(** The contents of a view: through the updates, then by the known fact. *)
Ltac view_read :=
  ledger; cpi_read;
  repeat match goal with H : data (acct _ _) = _ |- _ => rewrite H end;
  reflexivity.

(** One primitive of a handler.  [norm] turns the typed reads of the context into
    equations on account data, [view_read] proves what a view holds, [simplify]
    reduces the data written, [note H] draws conclusions from a CPI [H]. *)
Ltac step_with norm view_read simplify note :=
  lazymatch goal with
  | |- wlp (mret _) _ _ => apply wlp_ret
  | |- wlp (_ ≫= _) _ _ => apply wlp_bind
  | |- wlp (start_iter _) _ _ => apply wlp_start_iter
  | |- wlp iter_len _ _ => apply wlp_iter_len
  | |- wlp get_return_data _ _ => apply wlp_get_return_data
  | |- wlp (get_lamports _) _ _ => apply wlp_get_lamports
  | |- wlp (get_data_len _) _ _ => apply wlp_get_data_len
  | |- wlp (drop_view _) _ _ => apply wlp_drop_view
  | |- wlp (peek_data _) _ _ => apply wlp_peek_data; intros ?
  | |- wlp (invoke_signed _ _ _ _) _ _ =>
      apply wlp_invoke_executes;
      let L' := fresh "L" in let r := fresh "r" in let H := fresh "Hcpi" in
      let Hret := fresh "Hreturn" in
      let Hx := fresh "Hexec" in
      intros L' r H Hx; pose proof (invoke_cpi_bytes _ _ _ _ _ _ _ H) as Hret; note H
  | |- wlp (add_lamports _ _) _ _ => apply wlp_add_lamports; intros ? ?
  | |- wlp (sub_lamports _ _) _ _ => apply wlp_sub_lamports; intros ? ?
  | |- wlp (resize _ _) _ _ => apply wlp_resize; intros ? ? ?
  | |- wlp (try_next_enumerated_account _) _ (MkSt _ _ [] _ _ _) => apply wlp_next_nil
  | |- wlp (try_next_enumerated_account default_options) _ _ => apply wlp_next_default
  | |- wlp (try_next_enumerated_account (default_options <| must_be_signer := true |>)) _ _ =>
      apply wlp_next_signer; intros ?
  | |- wlp (try_next_enumerated_account (default_options <| must_be_writable := true |>)) _ _ =>
      apply wlp_next_writable; intros ?
  | |- wlp (try_next_enumerated_account (default_options <| must_be_executable := true |>)) _ _ =>
      apply wlp_next_executable; intros ?
  | |- wlp (zc_try_next_accounts _ _) _ (MkSt _ _ [] _ _ _) => apply wlp_zc_nil
  | |- wlp (zc_mut_try_next_accounts _ _) _ (MkSt _ _ [] _ _ _) => apply wlp_zc_mut_nil
  | |- wlp (zc_try_next_accounts _ _) _ _ =>
      apply wlp_zc;
      let x := fresh "x" in let rest := fresh "rest" in
      let H := fresh "Hdata" in let Ho := fresh "Howner" in let Hb := fresh "Hborrow" in
      intros x rest H Ho Hb; norm; ledger_fact H; ledger_fact Ho
  | |- wlp (zc_mut_try_next_accounts _ _) _ _ =>
      apply wlp_zc_mut;
      let x := fresh "x" in let rest := fresh "rest" in let Hw := fresh "Hwritable" in
      let H := fresh "Hdata" in let Ho := fresh "Howner" in let Hb := fresh "Hborrow" in
      intros x rest H Ho Hb Hw; norm; ledger_fact H; ledger_fact Ho
  | |- wlp (deref _ _) _ _ => eapply wlp_deref; [view_read|]
  | |- wlp (remaining_data _ _) _ _ => eapply wlp_remaining_data; [view_read|]
  | |- wlp (modify _ _ _) _ _ => eapply wlp_modify; [view_read|]; simplify
  | |- wlp (modify_remaining _ _ _) _ _ => eapply wlp_modify_remaining; [view_read|]; simplify
  | |- wlp (try_initialize _ _) _ _ => apply wlp_try_initialize;
      let Hb := fresh "Hborrow" in let Hz := fresh "Hzero" in let Hr := fresh "Htail" in
      intros ? Hb Hz Hr; simplify
  | |- wlp (ensure _ _) _ _ => apply wlp_ensure; let H := fresh "H" in intros H; bool_to_prop
  | |- wlp (lift _) _ _ =>
      apply wlp_lift;
      let x := fresh "v" in let H := fresh "H" in intros x H; res_inv; bool_to_prop
  | |- wlp (fail _) _ _ => apply wlp_fail
  | |- wlp panic _ _ => apply wlp_panic
  end; cbn beta.
