(* ===== verification/Total.v ===== *)
(** * Total correctness

    [twp m Q s]: [m] returns normally from [s], and its result and final state
    satisfy [Q].  The rules execute a handler forwards from what its accounts
    hold, so that a theorem can say that an instruction succeeds. *)

From Stdlib Require Import ZArith Lia.
From S2P Require Import Prelude Runtime ProgramTools Rules.

Definition twp {D A : Type} (m : M D A) (Q : A -> St D -> Prop) (s : St D) : Prop :=
  exists a s', m s = Ok (a, s') /\ Q a s'.

Lemma twp_run {D} `{AccountData D} `{R : Runtime D} (h : M D unit) (L L' : Ledger D) trace :
  twp h (fun _ s => st_ledger s = L' /\ st_trace s = trace) (MkSt L 0 [] [] None []) ->
  run h L = Ok (L', trace).
Proof. intros (u & s & E & <- & <-). unfold run, initial_state. by rewrite E. Qed.

Lemma twp_run_exists {D} `{AccountData D} `{R : Runtime D} (h : M D unit) (L : Ledger D)
    (Q : Ledger D -> list Instruction -> Prop) :
  twp h (fun _ s => Q (st_ledger s) (st_trace s)) (MkSt L 0 [] [] None []) ->
  exists L' trace, run h L = Ok (L', trace) /\ Q L' trace.
Proof.
  intros (u & s & E & HQ). exists (st_ledger s), (st_trace s).
  by rewrite (twp_run h L _ _ ltac:(by exists u, s)).
Qed.

Section Rules.
Context {D : Type} `{AccountData D} `{R : Runtime D}.
Context (L : Ledger D) (i : nat) (infos : list AccountInfo) (b : list (Pubkey * bool))
        (r : option (Pubkey * list Z)) (t : list Instruction).
Abbreviation s := (MkSt L i infos b r t).

Lemma twp_ret {A} (a : A) (Q : A -> St D -> Prop) : Q a s -> twp (mret a) Q s.
Proof. intros. by exists a, s. Qed.

Lemma twp_bind {A B} (m : M D A) (k : A -> M D B) Q :
  twp m (fun a s' => twp (k a) Q s') s -> twp (m ≫= k) Q s.
Proof. intros (a & s1 & E1 & c & s2 & E2 & HQ). exists c, s2. split; [|done]. apply M_bind_ok. eauto. Qed.

Lemma twp_lift {A} (x : Res A) a (Q : A -> St D -> Prop) :
  x = Ok a -> Q a s -> twp (lift x) Q s.
Proof. intros -> HQ. by exists a, s. Qed.

Lemma twp_ensure c e (Q : unit -> St D -> Prop) : c = true -> Q tt s -> twp (ensure c e) Q s.
Proof. intros -> HQ. by exists tt, s. Qed.

Lemma twp_start_iter accounts (Q : unit -> St D -> Prop) :
  Q tt (MkSt L 0 accounts b r t) -> twp (start_iter accounts) Q s.
Proof. intros HQ. by eexists _, _. Qed.

Lemma twp_iter_len (Q : nat -> St D -> Prop) : Q (length infos) s -> twp iter_len Q s.
Proof. intros HQ. by eexists _, _. Qed.

Lemma twp_get_lamports k (Q : Z -> St D -> Prop) :
  Q (lamports (acct L k)) s -> twp (get_lamports k) Q s.
Proof. intros HQ. by eexists _, _. Qed.

Lemma twp_drop_view k (Q : unit -> St D -> Prop) :
  Q tt (MkSt L i infos (release k b) r t) -> twp (drop_view k) Q s.
Proof. intros HQ. by eexists _, _. Qed.

Lemma twp_peek_data k (Q : D -> St D -> Prop) :
  borrowed_mut k b = false -> Q (data (acct L k)) s -> twp (peek_data k) Q s.
Proof. intros E HQ. eexists _, _. unfold peek_data. cbn. by rewrite E. Qed.

Lemma twp_invoke_signed caller ix accounts seeds L' ret (Q : unit -> St D -> Prop) :
  invoke_cpi caller ix accounts seeds L = Ok (L', ret) ->
  Q tt (MkSt L' i infos b ret (t ++ [ix])) -> twp (invoke_signed caller ix accounts seeds) Q s.
Proof. intros E HQ. eexists _, _. split; [|exact HQ]. unfold invoke_signed. cbn. by rewrite E. Qed.

Lemma twp_add_lamports k n l (Q : unit -> St D -> Prop) :
  arith_add 64 (lamports (acct L k)) n = Ok l ->
  Q tt (MkSt (set_lamports L k l) i infos b r t) -> twp (add_lamports k n) Q s.
Proof.
  intros E HQ. eexists _, _. split; [|exact HQ]. apply M_bind_ok. eexists _, _. split; [done|].
  cbn. rewrite E. done.
Qed.

Lemma twp_sub_lamports k n l (Q : unit -> St D -> Prop) :
  arith_sub 64 (lamports (acct L k)) n = Ok l ->
  Q tt (MkSt (set_lamports L k l) i infos b r t) -> twp (sub_lamports k n) Q s.
Proof.
  intros E HQ. eexists _, _. split; [|exact HQ]. apply M_bind_ok. eexists _, _. split; [done|].
  cbn. rewrite E. done.
Qed.

Lemma twp_next opts info (Q : nat * AccountInfo -> St D -> Prop) :
  (must_be_signer opts = true -> is_signer info = true) ->
  (must_be_writable opts = true -> is_writable info = true) ->
  must_be_executable opts = false -> owned_by opts = None ->
  Q (i, info) (MkSt L (S i) infos b r t) ->
  twp (try_next_enumerated_account opts) Q (MkSt L i (info :: infos) b r t).
Proof.
  intros H1 H2 H3 H4 HQ. eexists _, _. split; [|exact HQ].
  unfold try_next_enumerated_account. apply M_bind_ok. eexists _, _. split; [reflexivity|].
  cbn. rewrite H3, H4. cbn.
  destruct (must_be_signer opts); [rewrite H1 by done|]; cbn;
    (destruct (must_be_writable opts); [rewrite H2 by done|]; reflexivity).
Qed.
End Rules.

(** ** Typed views *)

(** The account types whose struct is shorter than its account. *)
Class FitsLayout {D} (T : Type) `{ZeroCopy D T} : Prop :=
  layout_len : forall d x rest, zc_read T d = Some (x, rest) ->
    data_end (D := D) T <= data_len d.

Section ViewRules.
Context {D : Type} `{AccountData D} `{R : Runtime D} (T : Type) `{!ZeroCopy D T} `{!FitsLayout T}.

Lemma check_layout_ok k x rest L i infos b r t :
  zc_read T (data (acct L k)) = Some (x, rest) ->
  check_layout T k (MkSt L i infos b r t) = Ok (tt, MkSt L i infos b r t).
Proof.
  intros E. pose proof (layout_len _ _ _ E) as Hl. apply M_bind_ok. eexists _, _. split; [done|].
  cbv beta zeta. apply M_bind_ok. eexists tt, _. unfold ensure, require, lift. cbn [st_ledger].
  rewrite (proj2 (Z.ltb_ge _ _) Hl), E. done.
Qed.

Lemma twp_try_from_account_info info program_id x rest (Q : unit -> St D -> Prop) L i infos b r t :
  zc_read T (data (acct L (key info))) = Some (x, rest) ->
  owner (acct L (key info)) = program_id -> borrowed_mut (key info) b = false ->
  Q tt (MkSt L i infos ((key info, false) :: b) r t) ->
  twp (try_from_account_info T info (Some program_id)) Q (MkSt L i infos b r t).
Proof.
  intros E Ho Hb HQ. eexists _, _. split; [|exact HQ].
  apply M_bind_ok. eexists _, _. split; [done|]. cbn. rewrite Ho, Z.eqb_refl. cbn.
  apply M_bind_ok. eexists _, _. split; [done|].
  apply M_bind_ok. eexists _, _. unfold try_borrow_data. cbn. rewrite Hb. split; [done|].
  by eapply check_layout_ok.
Qed.

Lemma twp_zc info program_id x rest (Q : Pubkey -> St D -> Prop) L i infos b r t :
  zc_read T (data (acct L (key info))) = Some (x, rest) ->
  owner (acct L (key info)) = program_id -> borrowed_mut (key info) b = false ->
  Q (key info) (MkSt L (S i) infos ((key info, false) :: b) r t) ->
  twp (zc_try_next_accounts T (Some program_id)) Q (MkSt L i (info :: infos) b r t).
Proof.
  intros E Ho Hb HQ. apply twp_bind, twp_next; [done..|]. cbv beta iota. apply twp_bind.
  eapply twp_try_from_account_info; [done..|]. by apply twp_ret.
Qed.

Lemma twp_zc_mut info program_id x rest (Q : Pubkey -> St D -> Prop) L i infos b r t :
  zc_read T (data (acct L (key info))) = Some (x, rest) ->
  owner (acct L (key info)) = program_id -> borrowed (key info) b = false ->
  is_writable info = true ->
  Q (key info) (MkSt L (S i) infos ((key info, true) :: b) r t) ->
  twp (zc_mut_try_next_accounts T (Some program_id)) Q (MkSt L i (info :: infos) b r t).
Proof.
  intros E Ho Hb Hw HQ. apply twp_bind, twp_next; [done..|]. cbv beta iota. apply twp_bind.
  eexists _, _. split; [|by apply twp_ret, HQ].
  apply M_bind_ok. eexists tt, _. rewrite Hw. split; [done|].
  apply M_bind_ok. eexists _, _. split; [done|]. cbn. rewrite Ho, Z.eqb_refl. cbn.
  apply M_bind_ok. eexists _, _. split; [done|].
  apply M_bind_ok. eexists _, _. unfold try_borrow_mut_data. cbn. rewrite Hb. split; [done|].
  by eapply check_layout_ok.
Qed.

Lemma twp_deref k x rest (Q : T -> St D -> Prop) L i infos b r t :
  zc_read T (data (acct L k)) = Some (x, rest) ->
  Q x (MkSt L i infos b r t) -> twp (deref T k) Q (MkSt L i infos b r t).
Proof.
  intros E HQ. eexists _, _. split; [|exact HQ]. apply M_bind_ok. eexists _, _. split; [done|].
  cbn [st_ledger]. rewrite E. done.
Qed.

Lemma twp_remaining_data k x rest (Q : list Z -> St D -> Prop) L i infos b r t :
  zc_read T (data (acct L k)) = Some (x, rest) ->
  Q rest (MkSt L i infos b r t) -> twp (remaining_data T k) Q (MkSt L i infos b r t).
Proof.
  intros E HQ. eexists _, _. split; [|exact HQ]. apply M_bind_ok. eexists _, _. split; [done|].
  cbn [st_ledger]. rewrite E. done.
Qed.

Lemma twp_modify k f x rest (Q : unit -> St D -> Prop) L i infos b r t :
  zc_read T (data (acct L k)) = Some (x, rest) ->
  Q tt (MkSt (set_data L k (zc_write (f x) rest)) i infos b r t) ->
  twp (modify T k f) Q (MkSt L i infos b r t).
Proof.
  intros E HQ. eexists _, _. split; [|exact HQ]. apply M_bind_ok. eexists _, _. split; [done|].
  cbn [st_ledger]. rewrite E. done.
Qed.

Lemma twp_modify_remaining k f x rest (Q : unit -> St D -> Prop) L i infos b r t :
  zc_read T (data (acct L k)) = Some (x, rest) ->
  Q tt (MkSt (set_data L k (zc_write x (f rest))) i infos b r t) ->
  twp (modify_remaining T k f) Q (MkSt L i infos b r t).
Proof.
  intros E HQ. eexists _, _. split; [|exact HQ]. apply M_bind_ok. eexists _, _. split; [done|].
  cbn [st_ledger]. rewrite E. done.
Qed.
End ViewRules.

Lemma release_head k m b : release k ((k, m) :: b) = b.
Proof. cbv [release]. cbn [fst]. by rewrite Z.eqb_refl. Qed.

(** Borrows that the keys of the context rule out. *)
Ltac not_borrowed :=
  unfold borrowed, borrowed_mut; cbn [existsb fst snd];
  repeat first
    [ reflexivity
    | match goal with |- context [?a =? ?c] => rewrite (proj2 (Z.eqb_neq a c)) by congruence; cbn [andb orb] end
    | rewrite andb_false_r; cbn [orb] ].

(** One forward step; what cannot be settled from the context is left. *)
Ltac tstep_with simplify :=
  lazymatch goal with
  | |- twp (mret _) _ _ => apply twp_ret
  | |- twp (_ ≫= _) _ _ => apply twp_bind
  | |- twp (start_iter _) _ _ => apply twp_start_iter
  | |- twp iter_len _ _ => apply twp_iter_len
  | |- twp (get_lamports _) _ _ => apply twp_get_lamports
  | |- twp (drop_view _) _ _ => apply twp_drop_view
  | |- twp (peek_data _) _ _ => apply twp_peek_data; [not_borrowed|]
  | |- twp (add_lamports _ _) _ _ => eapply twp_add_lamports
  | |- twp (sub_lamports _ _) _ _ => eapply twp_sub_lamports
  | |- twp (try_next_enumerated_account _) _ _ => apply twp_next; cbn; [done..|]
  | |- twp (zc_try_next_accounts _ _) _ _ =>
      eapply twp_zc; [apply _|view_read|ledger; assumption|not_borrowed|]
  | |- twp (zc_mut_try_next_accounts _ _) _ _ =>
      eapply twp_zc_mut; [apply _|view_read|ledger; assumption|not_borrowed|assumption|]
  | |- twp (deref _ _) _ _ => eapply twp_deref; [view_read|]
  | |- twp (remaining_data _ _) _ _ => eapply twp_remaining_data; [view_read|]
  | |- twp (modify _ _ _) _ _ => eapply twp_modify; [view_read|]; simplify
  | |- twp (modify_remaining _ _ _) _ _ => eapply twp_modify_remaining; [view_read|]; simplify
  | |- twp (ensure _ _) _ _ => apply twp_ensure
  | |- twp (lift _) _ _ => eapply twp_lift
  end; cbn beta iota zeta.
