(* ===== verification/Borsh.v ===== *)
(** * Borsh codecs

    The part of the Borsh format the instruction data uses.  A [Codec] is an
    encoder, a decoder that returns the bytes left, the values it is meant for
    and the two laws that tie them: decoding an encoding gives the value back,
    and every decoded byte string is the canonical encoding of its value. *)

From Stdlib Require Import ZArith Lia.
From S2P Require Import Prelude.

Definition is_byte (b : Z) : Prop := 0 <= b < 256.
Abbreviation bytes_ok := (Forall is_byte).

Record Codec (A : Type) : Type := MkCodec {
  enc : A -> list Z;
  dec : list Z -> option (A * list Z);
  valid : A -> Prop;
  dec_enc : forall a rest, valid a -> dec (enc a ++ rest) = Some (a, rest);
  enc_dec : forall bs a rest, bytes_ok bs -> dec bs = Some (a, rest) -> valid a /\ bs = enc a ++ rest
}.
Arguments MkCodec {A}.
Arguments enc {A}.
Arguments dec {A}.
Arguments valid {A}.
Arguments dec_enc {A}.
Arguments enc_dec {A}.

(** [try_from_slice]: no byte may be left. *)
Definition try_from_slice {A} (c : Codec A) (bs : list Z) : option A :=
  match dec c bs with
  | Some (a, []) => Some a
  | _ => None
  end.

(** ** Byte helpers *)
Definition take_bytes (n : nat) (bs : list Z) : option (list Z * list Z) :=
  if (length bs <? n)%nat then None else Some (take n bs, drop n bs).

Lemma take_bytes_app n bs rest : length bs = n -> take_bytes n (bs ++ rest) = Some (bs, rest).
Proof.
  intros <-. unfold take_bytes. rewrite (proj2 (Nat.ltb_ge _ _)) by (rewrite length_app; lia).
  by rewrite take_app_length, drop_app_length.
Qed.

Lemma take_bytes_inv n bs x rest :
  take_bytes n bs = Some (x, rest) -> length x = n /\ bs = x ++ rest.
Proof.
  unfold take_bytes. destruct (Nat.ltb_spec (length bs) n); [done|]. intros [= <- <-].
  split; [rewrite length_take; lia|by rewrite take_drop].
Qed.

Lemma from_le_bytes_fits bs : bytes_ok bs -> fits (8 * Z.of_nat (length bs)) (from_le_bytes bs).
Proof.
  induction 1 as [|b bs Hb _ [? ?]]; [done|]. unfold is_byte in Hb. cbn [from_le_bytes length].
  replace (8 * Z.of_nat (S (length bs))) with (8 + 8 * Z.of_nat (length bs)) by lia.
  unfold fits. rewrite Z.pow_add_r by lia. change (2 ^ 8) with 256. lia.
Qed.

Lemma to_from_le_bytes bs : bytes_ok bs -> to_le_bytes (length bs) (from_le_bytes bs) = bs.
Proof.
  induction 1 as [|b bs Hb _ IH]; [done|]. unfold is_byte in Hb. cbn [from_le_bytes length to_le_bytes].
  rewrite (Z.mul_comm 256), Z.mod_add, Z.mod_small, Z.div_add, Z.div_small, Z.add_0_l by lia.
  by rewrite IH.
Qed.

Lemma to_le_bytes_ok n z : bytes_ok (to_le_bytes n z).
Proof.
  revert z. induction n; intros; cbn; constructor; [|done]. apply Z.mod_pos_bound. lia.
Qed.

(** ** Codecs *)
Definition uint_dec (n : nat) (bs : list Z) : option (Z * list Z) :=
  '(x, rest) ← take_bytes n bs; Some (from_le_bytes x, rest).

(** An unsigned integer of [n] bytes (a [Pubkey] or [Hash] is one of 32). *)
Program Definition uint (n : nat) : Codec Z :=
  MkCodec (to_le_bytes n) (uint_dec n) (fits (8 * Z.of_nat n)) _ _.
Next Obligation.
  intros n a rest Ha. unfold uint_dec. rewrite take_bytes_app by apply length_to_le_bytes. cbn.
  by rewrite from_to_le_bytes.
Qed.
Next Obligation.
  intros n bs a rest Hb. unfold uint_dec. destruct (take_bytes n bs) as [[x r]|] eqn:E; [|done].
  apply take_bytes_inv in E as [<- ->]. intros [= <- <-]. apply Forall_app in Hb as [Hx _].
  split; [by apply from_le_bytes_fits|by rewrite to_from_le_bytes].
Qed.

Definition u8 : Codec Z := uint 1.
Definition u16 : Codec Z := uint 2.
Definition u32 : Codec Z := uint 4.
Definition u64 : Codec Z := uint 8.
Definition pubkey : Codec Z := uint 32.

(** A fixed-size byte array. *)
Program Definition byte_array (n : nat) : Codec (list Z) :=
  MkCodec (fun bs => bs) (take_bytes n) (fun bs => length bs = n /\ bytes_ok bs) _ _.
Next Obligation. intros n a rest [Ha _]. by apply take_bytes_app. Qed.
Next Obligation.
  intros n bs a rest Hb H. apply take_bytes_inv in H as [Hl ->]. by apply Forall_app in Hb as [? _].
Qed.

Definition tag_dec (bs : list Z) : option (Z * list Z) :=
  match bs with [] => None | b :: rest => Some (b, rest) end.

Program Definition boolean : Codec bool :=
  MkCodec (fun b : bool => [if b then 1 else 0])
    (fun bs =>
       '(t, rest) ← tag_dec bs;
       if t =? 0 then Some (false, rest) else if t =? 1 then Some (true, rest) else None)
    (fun _ => True) _ _.
Next Obligation. by intros [] rest _. Qed.
Next Obligation.
  intros [|t bs] a rest Hb; cbn; [done|]. destruct (Z.eqb_spec t 0) as [->|]; [naive_solver|].
  destruct (Z.eqb_spec t 1) as [->|]; naive_solver.
Qed.

Section Combinators.
Context {A B : Type} (ca : Codec A) (cb : Codec B).

Definition pair_dec (bs : list Z) : option ((A * B) * list Z) :=
  '(a, bs) ← dec ca bs;
  '(b, bs) ← dec cb bs;
  Some ((a, b), bs).

Program Definition pair : Codec (A * B) :=
  MkCodec (fun p => enc ca p.1 ++ enc cb p.2) pair_dec (fun p => valid ca p.1 /\ valid cb p.2) _ _.
Next Obligation.
  intros [a b] rest [Ha Hb]. unfold pair_dec. cbn [fst snd]. rewrite <- (assoc_L (++)), dec_enc by done.
  cbn. by rewrite dec_enc.
Qed.
Next Obligation.
  intros bs [a b] rest Hb. unfold pair_dec.
  destruct (dec ca bs) as [[x bs1]|] eqn:E1; cbn; [|done].
  apply enc_dec in E1 as [Hx ->]; [|done]. apply Forall_app in Hb as [_ Hb].
  destruct (dec cb bs1) as [[y bs2]|] eqn:E2; cbn; [|done].
  apply enc_dec in E2 as [Hy ->]; [|done]. intros [= <- <- <-]. by rewrite <- (assoc_L (++)).
Qed.

Definition option_enc (o : option A) : list Z :=
  match o with None => [0] | Some a => 1 :: enc ca a end.
Definition option_dec (bs : list Z) : option (option A * list Z) :=
  '(t, bs) ← tag_dec bs;
  if t =? 0 then Some (None, bs)
  else if t =? 1 then '(a, bs) ← dec ca bs; Some (Some a, bs) else None.

Program Definition optional : Codec (option A) :=
  MkCodec option_enc option_dec (fun o => match o with Some a => valid ca a | None => True end) _ _.
Next Obligation. intros [a|] rest Ha; cbn; [|done]. by rewrite dec_enc. Qed.
Next Obligation.
  intros [|t bs] o rest Hb; cbn; [done|]. apply Forall_cons in Hb as [_ Hb].
  destruct (Z.eqb_spec t 0) as [->|]; [naive_solver|].
  destruct (Z.eqb_spec t 1) as [->|]; [|done].
  destruct (dec ca bs) as [[x bs1]|] eqn:E1; cbn; [|done].
  apply enc_dec in E1 as [Hx ->]; [|done]. naive_solver.
Qed.

Fixpoint list_dec (n : nat) (bs : list Z) : option (list A * list Z) :=
  match n with
  | O => Some ([], bs)
  | S n' =>
      '(a, bs) ← dec ca bs;
      '(l, bs) ← list_dec n' bs;
      Some (a :: l, bs)
  end.

Definition vec_dec (bs : list Z) : option (list A * list Z) :=
  '(n, bs) ← dec u32 bs; list_dec (Z.to_nat n) bs.

Lemma list_dec_enc l rest :
  Forall (valid ca) l -> list_dec (length l) (concat (enc ca <$> l) ++ rest) = Some (l, rest).
Proof.
  induction 1 as [|a l Ha _ IH]; cbn; [done|].
  rewrite <- (assoc_L (++)), dec_enc by done. cbn in *. by rewrite IH.
Qed.

Lemma list_enc_dec n bs l rest :
  bytes_ok bs -> list_dec n bs = Some (l, rest) ->
  Forall (valid ca) l /\ length l = n /\ bs = concat (enc ca <$> l) ++ rest.
Proof.
  revert bs l rest. induction n as [|n IH]; intros bs l rest Hb; cbn; [naive_solver|].
  destruct (dec ca bs) as [[x bs1]|] eqn:E1; cbn; [|done].
  apply enc_dec in E1 as [Hx ->]; [|done]. apply Forall_app in Hb as [_ Hb].
  destruct (list_dec n bs1) as [[y bs2]|] eqn:E2; cbn; [|done].
  apply IH in E2 as (? & <- & ->); [|done]. intros [= <- <-].
  split_and!; [by constructor|done|cbn; by rewrite <- (assoc_L (++))].
Qed.

(** [Vec<A>]: a [u32] length, then the elements. *)
Program Definition vec : Codec (list A) :=
  MkCodec (fun l => enc u32 (Z.of_nat (length l)) ++ concat (enc ca <$> l)) vec_dec
    (fun l => fits 32 (Z.of_nat (length l)) /\ Forall (valid ca) l) _ _.
Next Obligation.
  intros l rest [Hn Hl]. unfold vec_dec. rewrite <- (assoc_L (++)), dec_enc by done.
  cbn -[u32]. rewrite Nat2Z.id. by apply list_dec_enc.
Qed.
Next Obligation.
  intros bs l rest Hb. unfold vec_dec.
  destruct (dec u32 bs) as [[n bs1]|] eqn:E1; cbn -[u32]; [|done].
  apply enc_dec in E1 as [Hn ->]; [|done]. apply Forall_app in Hb as [_ Hb].
  intros E2. apply list_enc_dec in E2 as (Hl & Hlen & ->); [|done].
  assert (Z.of_nat (length l) = n) as -> by (destruct Hn; lia).
  split; [done|by rewrite <- (assoc_L (++))].
Qed.
End Combinators.

(** A codec through a pair of mutually inverse maps. *)
Section Iso.
Context {A B : Type} (ca : Codec A) (f : A -> B) (g : B -> A).
Hypotheses (fg : forall b, f (g b) = b) (gf : forall a, g (f a) = a).

Program Definition iso : Codec B :=
  MkCodec (fun b => enc ca (g b)) (fun bs => '(a, bs) ← dec ca bs; Some (f a, bs))
    (fun b => valid ca (g b)) _ _.
Next Obligation. intros b rest Hb. cbn. rewrite dec_enc by done. cbn. by rewrite fg. Qed.
Next Obligation.
  intros bs b rest Hb. cbn. destruct (dec ca bs) as [[x bs1]|] eqn:E1; cbn; [|done].
  apply enc_dec in E1 as [Hx ->]; [|done]. intros [= <- <-]. by rewrite gf.
Qed.
End Iso.

Lemma try_from_slice_enc {A} (c : Codec A) a : valid c a -> try_from_slice c (enc c a) = Some a.
Proof.
  intros Ha. unfold try_from_slice. pose proof (dec_enc c a [] Ha) as E.
  rewrite app_nil_r in E. by rewrite E.
Qed.

Lemma try_from_slice_canonical {A} (c : Codec A) bs a :
  bytes_ok bs -> try_from_slice c bs = Some a -> valid c a /\ bs = enc c a.
Proof.
  unfold try_from_slice. intros Hb. destruct (dec c bs) as [[x [|]]|] eqn:E; [|done|done].
  intros [= <-]. apply enc_dec in E as [? E]; [|done]. by rewrite app_nil_r in E.
Qed.

Lemma try_from_slice_trailing {A} (c : Codec A) a b bs :
  valid c a -> try_from_slice c (enc c a ++ b :: bs) = None.
Proof. intros Ha. unfold try_from_slice. by rewrite dec_enc. Qed.

(** ** Enums

    A variant is a tag, then a payload. *)
(** Decoding a payload with [c] and injecting it with [f]. *)
Definition payload {A B} (c : Codec A) (f : A -> B) (bs : list Z) : option (B * list Z) :=
  '(a, bs) ← dec c bs; Some (f a, bs).

Lemma payload_enc {A B} (c : Codec A) (f : A -> B) a rest :
  valid c a -> payload c f (enc c a ++ rest) = Some (f a, rest).
Proof. intros. unfold payload. by rewrite dec_enc. Qed.

Lemma payload_inv {A B} (c : Codec A) (f : A -> B) bs b rest :
  bytes_ok bs -> payload c f bs = Some (b, rest) ->
  exists a, b = f a /\ valid c a /\ bs = enc c a ++ rest.
Proof.
  unfold payload. intros Hb. destruct (dec c bs) as [[a r]|] eqn:E; cbn; [|done].
  apply enc_dec in E as [? ->]; naive_solver.
Qed.

Ltac payload_solve :=
  repeat match goal with
  | H : Some _ = Some _ |- _ => injection H as <- <-
  | H : None = Some _ |- _ => discriminate H
  | H : payload _ _ _ = Some _ |- _ => apply payload_inv in H as (? & -> & ? & ->); [|done]
  | p : (_ * _)%type |- _ => destruct p
  end; cbn in *; intuition.

(** ** Instructions by selector

    A fixed-length selector, then the fields the selector announces. *)
Section Selected.
Context {S I : Type} (find : list Z -> option S) (bytes : S -> list Z) (n : nat).
Context (selector : I -> S) (fields_enc : I -> list Z).
Context (fields_dec : S -> list Z -> option (I * list Z)) (ok : I -> Prop).

Definition selected_enc (ix : I) : list Z := bytes (selector ix) ++ fields_enc ix.

Definition selected_dec (bs : list Z) : option (I * list Z) :=
  '(sel, bs) ← take_bytes n bs;
  s ← find sel;
  fields_dec s bs.

Lemma selected_dec_enc :
  (forall s, find (bytes s) = Some s) -> (forall s, length (bytes s) = n) ->
  (forall ix rest, ok ix -> fields_dec (selector ix) (fields_enc ix ++ rest) = Some (ix, rest)) ->
  forall ix rest, ok ix -> selected_dec (selected_enc ix ++ rest) = Some (ix, rest).
Proof.
  intros Hfind Hlen Hfields ix rest Hix. unfold selected_dec, selected_enc.
  rewrite <- (assoc_L (++)), take_bytes_app by apply Hlen. cbn. rewrite Hfind. cbn. by apply Hfields.
Qed.

Lemma selected_enc_dec :
  (forall sel s, find sel = Some s -> bytes s = sel) ->
  (forall s bs ix rest, bytes_ok bs -> fields_dec s bs = Some (ix, rest) ->
     ok ix /\ selector ix = s /\ bs = fields_enc ix ++ rest) ->
  forall bs ix rest, bytes_ok bs -> selected_dec bs = Some (ix, rest) ->
  ok ix /\ bs = selected_enc ix ++ rest.
Proof.
  intros Hfind Hfields bs ix rest Hb. unfold selected_dec.
  destruct (take_bytes n bs) as [[sel bs1]|] eqn:E; cbn; [|done].
  apply take_bytes_inv in E as [_ ->]. apply Forall_app in Hb as [_ Hb].
  destruct (find sel) as [s|] eqn:E; cbn; [|done]. intros Hd.
  apply Hfind in E as <-. apply Hfields in Hd as (? & <- & ->); [|done].
  split; [done|]. unfold selected_enc. by rewrite <- (assoc_L (++)).
Qed.
End Selected.
