(* ===== verification/Selectors.v ===== *)
(** * Instruction selectors

    The selector constants of [instruction/mod.rs], by which the program
    recognises its instructions. *)

From Stdlib Require Import ZArith.
From S2P Require Import Prelude.

(** ** Selectors

    One constructor per selector constant of the source; [selector_bytes] is
    the constant. *)
Inductive Selector : Type :=
  | INITIALIZE_PROGRAM
  | MIGRATE_PROGRAM_ACCOUNTS
  | SET_ADMIN
  | CONFIGURE_PROGRAM
  | INITIALIZE_JOURNAL
  | INITIALIZE_DISTRIBUTION
  | CONFIGURE_DISTRIBUTION_DEBT
  | FINALIZE_DISTRIBUTION_DEBT
  | CONFIGURE_DISTRIBUTION_REWARDS
  | FINALIZE_DISTRIBUTION_REWARDS
  | DISTRIBUTE_REWARDS
  | INITIALIZE_CONTRIBUTOR_REWARDS
  | SET_REWARDS_MANAGER
  | CONFIGURE_CONTRIBUTOR_REWARDS
  | VERIFY_DISTRIBUTION_MERKLE_ROOT
  | INITIALIZE_SOLANA_VALIDATOR_DEPOSIT
  | PAY_SOLANA_VALIDATOR_DEBT
  | ENABLE_SOLANA_VALIDATOR_DEBT_WRITE_OFF
  | WRITE_OFF_SOLANA_VALIDATOR_DEBT
  | INITIALIZE_SWAP_DESTINATION
  | WITHDRAW_SOL
  | SET_DISTRIBUTION_ECONOMIC_BURN_RATE
  | WITHDRAW_SOLANA_VALIDATOR_DEPOSIT
  | INITIALIZE_REWARDS_INTEGRATION
  | COLLECT_INTEGRATION_REWARDS
  | SWEEP_DISTRIBUTION_TOKENS_V1.

#[export] Instance Selector_eq_dec : EqDecision Selector.
Proof. solve_decision. Defined.

Definition selector_bytes (s : Selector) : list Z :=
  match s with
  | INITIALIZE_PROGRAM => (* "dz::ix::initialize_program" *)
      [27; 176; 143; 199; 249; 234; 240; 52]
  | MIGRATE_PROGRAM_ACCOUNTS => (* "dz::ix::migrate_program_accounts" *)
      [55; 131; 9; 61; 45; 132; 2; 51]
  | SET_ADMIN => (* "dz::ix::set_admin" *)
      [234; 22; 39; 185; 124; 120; 175; 144]
  | CONFIGURE_PROGRAM => (* "dz::ix::configure_program" *)
      [177; 36; 32; 8; 91; 3; 238; 53]
  | INITIALIZE_JOURNAL => (* "dz::ix::initialize_journal" *)
      [94; 204; 196; 186; 208; 231; 234; 8]
  | INITIALIZE_DISTRIBUTION => (* "dz::ix::initialize_distribution" *)
      [21; 227; 3; 179; 186; 104; 12; 31]
  | CONFIGURE_DISTRIBUTION_DEBT => (* "dz::ix::configure_distribution_debt" *)
      [74; 50; 66; 84; 21; 94; 0; 156]
  | FINALIZE_DISTRIBUTION_DEBT => (* "dz::ix::finalize_distribution_debt" *)
      [10; 52; 29; 32; 119; 7; 16; 45]
  | CONFIGURE_DISTRIBUTION_REWARDS => (* "dz::ix::configure_distribution_rewards" *)
      [97; 172; 24; 88; 77; 174; 234; 224]
  | FINALIZE_DISTRIBUTION_REWARDS => (* "dz::ix::finalize_distribution_rewards" *)
      [80; 138; 206; 33; 91; 233; 58; 123]
  | DISTRIBUTE_REWARDS => (* "dz::ix::distribute_rewards" *)
      [239; 240; 138; 132; 131; 66; 48; 174]
  | INITIALIZE_CONTRIBUTOR_REWARDS => (* "dz::ix::initialize_contributor_rewards" *)
      [65; 187; 14; 10; 78; 119; 30; 255]
  | SET_REWARDS_MANAGER => (* "dz::ix::set_rewards_manager" *)
      [3; 34; 104; 168; 224; 61; 73; 191]
  | CONFIGURE_CONTRIBUTOR_REWARDS => (* "dz::ix::configure_contributor_rewards" *)
      [126; 131; 158; 140; 222; 132; 73; 237]
  | VERIFY_DISTRIBUTION_MERKLE_ROOT => (* "dz::ix::verify_distribution_merkle_root" *)
      [51; 33; 47; 93; 190; 194; 89; 89]
  | INITIALIZE_SOLANA_VALIDATOR_DEPOSIT => (* "dz::ix::initialize_solana_validator_deposit" *)
      [9; 175; 73; 177; 235; 206; 48; 101]
  | PAY_SOLANA_VALIDATOR_DEBT => (* "dz::ix::pay_solana_validator_debt" *)
      [241; 133; 139; 196; 246; 18; 113; 59]
  | ENABLE_SOLANA_VALIDATOR_DEBT_WRITE_OFF => (* "dz::ix::enable_solana_validator_debt_write_off" *)
      [67; 208; 183; 234; 13; 241; 157; 39]
  | WRITE_OFF_SOLANA_VALIDATOR_DEBT => (* "dz::ix::write_off_solana_validator_debt" *)
      [166; 106; 67; 150; 186; 190; 28; 109]
  | INITIALIZE_SWAP_DESTINATION => (* "dz::ix::initialize_swap_destination" *)
      [255; 135; 3; 254; 97; 253; 136; 207]
  | WITHDRAW_SOL => (* "dz::ix::withdraw_sol" *)
      [122; 132; 40; 170; 61; 93; 253; 179]
  | SET_DISTRIBUTION_ECONOMIC_BURN_RATE => (* "dz::ix::set_distribution_economic_burn_rate" *)
      [140; 117; 124; 192; 12; 1; 169; 13]
  | WITHDRAW_SOLANA_VALIDATOR_DEPOSIT => (* "dz::ix::withdraw_solana_validator_deposit" *)
      [35; 6; 31; 138; 170; 203; 118; 93]
  | INITIALIZE_REWARDS_INTEGRATION => (* "dz::ix::initialize_rewards_integration" *)
      [138; 166; 120; 164; 24; 233; 175; 172]
  | COLLECT_INTEGRATION_REWARDS => (* "dz::ix::collect_integration_rewards" *)
      [243; 210; 195; 100; 226; 16; 105; 147]
  | SWEEP_DISTRIBUTION_TOKENS_V1 => (* "dz::ix::sweep_distribution_tokens::v1" *)
      [176; 23; 42; 132; 108; 228; 77; 87]
  end.

Definition all_selectors : list Selector :=
  [INITIALIZE_PROGRAM;
   MIGRATE_PROGRAM_ACCOUNTS;
   SET_ADMIN;
   CONFIGURE_PROGRAM;
   INITIALIZE_JOURNAL;
   INITIALIZE_DISTRIBUTION;
   CONFIGURE_DISTRIBUTION_DEBT;
   FINALIZE_DISTRIBUTION_DEBT;
   CONFIGURE_DISTRIBUTION_REWARDS;
   FINALIZE_DISTRIBUTION_REWARDS;
   DISTRIBUTE_REWARDS;
   INITIALIZE_CONTRIBUTOR_REWARDS;
   SET_REWARDS_MANAGER;
   CONFIGURE_CONTRIBUTOR_REWARDS;
   VERIFY_DISTRIBUTION_MERKLE_ROOT;
   INITIALIZE_SOLANA_VALIDATOR_DEPOSIT;
   PAY_SOLANA_VALIDATOR_DEBT;
   ENABLE_SOLANA_VALIDATOR_DEBT_WRITE_OFF;
   WRITE_OFF_SOLANA_VALIDATOR_DEBT;
   INITIALIZE_SWAP_DESTINATION;
   WITHDRAW_SOL;
   SET_DISTRIBUTION_ECONOMIC_BURN_RATE;
   WITHDRAW_SOLANA_VALIDATOR_DEPOSIT;
   INITIALIZE_REWARDS_INTEGRATION;
   COLLECT_INTEGRATION_REWARDS;
   SWEEP_DISTRIBUTION_TOKENS_V1].
Definition find_selector (bs : list Z) : option Selector :=
  snd <$> list_find (fun s => selector_bytes s = bs) all_selectors.

Lemma find_selector_bytes s : find_selector (selector_bytes s) = Some s.
Proof. by destruct s; vm_compute. Qed.

Lemma find_selector_inv bs s : find_selector bs = Some s -> selector_bytes s = bs.
Proof.
  unfold find_selector. destruct (list_find _ _) as [[i x]|] eqn:E; [|done].
  intros [= <-]. apply list_find_Some in E. naive_solver.
Qed.

Lemma length_selector_bytes s : length (selector_bytes s) = 8%nat.
Proof. by destruct s. Qed.
