(* ===== verification/State.v ===== *)
(** * Account state of the revenue-distribution program

    [programs/revenue-distribution/src/state/] with [lib.rs] and [env.rs]: the
    structs stored in the program's accounts, a Module each, with their flag
    and PDA helpers, and [RecipientShares].  Padding and storage gaps are kept
    only where the code can observe them (equality of
    [SolanaValidatorFeeParameters]); all of them stay zero. *)

From Stdlib Require Import ZArith Lia String.
From S2P Require Import Prelude Types BurnRate Runtime.

(** ** Program constants: [lib.rs], [env.rs]

    Keys are the little-endian numbers of the base-58 strings in the source. *)
Definition ID : Pubkey :=
  63945005165078844721306156046212591533289201302531820951967283412685737392649.
Definition mainnet_DOUBLEZERO_MINT_KEY : Pubkey :=
  21136512870427662787337890816568406377449246012841190118962120120962630161662.
Definition development_DOUBLEZERO_MINT_KEY : Pubkey :=
  18106141733302179169142743706960541863597519456130023238642393218479257445129.
Definition DOUBLEZERO_MINT_KEY `{BuildProfile} : Pubkey :=
  if feature_development then development_DOUBLEZERO_MINT_KEY else mainnet_DOUBLEZERO_MINT_KEY.
Definition DOUBLEZERO_MINT_DECIMALS : Z := 8.

(** Merkle roots: [svm_hash::sha2::Hash], 32 bytes as a number. *)
Abbreviation Hash := Z (only parsing).
Definition hash_default : Hash := 0.

Definition key_seed (k : Pubkey) : list Z := to_le_bytes 32 k.

(** ** Shared PDAs: [state/mod.rs] *)
Definition SWAP_AUTHORITY_SEED_PREFIX : list Z := bytes_of_string "swap_authority".
Definition TOKEN_2Z_PDA_SEED_PREFIX : list Z := bytes_of_string "2z_token".
Definition WITHDRAW_SOL_AUTHORITY_SEED_PREFIX : list Z := bytes_of_string "withdraw_sol".

Section SharedPdas.
Context `{Pda}.

Definition find_2z_token_pda_address (token_owner : Pubkey) : Pubkey * Z :=
  find_program_address [TOKEN_2Z_PDA_SEED_PREFIX; key_seed token_owner] ID.

Definition checked_2z_token_pda_address (token_owner : Pubkey) (bump_seed : Z) : option Pubkey :=
  create_program_address [TOKEN_2Z_PDA_SEED_PREFIX; key_seed token_owner; [bump_seed]] ID.

Definition find_swap_authority_address : Pubkey * Z :=
  find_program_address [SWAP_AUTHORITY_SEED_PREFIX] ID.

Definition find_withdraw_sol_authority_address (sol_2z_swap_program_id : Pubkey) : Pubkey * Z :=
  find_program_address [WITHDRAW_SOL_AUTHORITY_SEED_PREFIX] sol_2z_swap_program_id.
End SharedPdas.

(** [types::Flags]: a 64-bit [ruint]. *)
Module Flags.
Definition bit (flags i : Z) : bool := uint_bit 64 flags i.
Definition set_bit (flags i : Z) (v : bool) : Z := uint_set_bit 64 flags i v.

Lemma bit_set_bit flags i j v :
  0 <= i < 64 -> 0 <= j -> bit (set_bit flags i v) j = if j =? i then v else bit flags j.
Proof.
  intros Hi Hj. unfold bit, set_bit. destruct (Z.eqb_spec j i) as [->|].
  - by apply uint_bit_set_eq.
  - apply uint_bit_set_ne; lia.
Qed.
End Flags.

(** ** Parameters in the program config *)
Record SolanaValidatorFeeParameters : Type := MkFees {
  base_block_rewards_pct : ValidatorFee;
  priority_block_rewards_pct : ValidatorFee;
  inflation_rewards_pct : ValidatorFee;
  jito_tips_pct : ValidatorFee;
  fixed_sol_amount : Z
}.
#[export] Instance Fees_eta : Eta SolanaValidatorFeeParameters := fun p =>
  MkFees (base_block_rewards_pct p) (priority_block_rewards_pct p) (inflation_rewards_pct p)
    (jito_tips_pct p) (fixed_sol_amount p).
#[export] Instance Fees_eq_dec : EqDecision SolanaValidatorFeeParameters.
Proof. solve_decision. Defined.
Definition fees_default : SolanaValidatorFeeParameters := MkFees 0 0 0 0 0.

Record DistributionParameters : Type := MkDistributionParameters {
  calculation_grace_period_minutes : Z;
  initialization_grace_period_minutes : Z;
  minimum_epoch_duration_to_finalize_rewards : Z;
  community_burn_rate_parameters : CommunityBurnRateParameters;
  solana_validator_fee_parameters : SolanaValidatorFeeParameters
}.
#[export] Instance DistributionParameters_eta : Eta DistributionParameters := fun p =>
  MkDistributionParameters (calculation_grace_period_minutes p)
    (initialization_grace_period_minutes p) (minimum_epoch_duration_to_finalize_rewards p)
    (community_burn_rate_parameters p) (solana_validator_fee_parameters p).

Record RelayParameters : Type := MkRelay {
  placeholder_lamports : Z;
  distribute_rewards_lamports : Z
}.
#[export] Instance Relay_eta : Eta RelayParameters := fun p =>
  MkRelay (placeholder_lamports p) (distribute_rewards_lamports p).
Definition MIN_LAMPORTS : Z := 5001.

(** ** Well-formed structs: every field is a number of its width *)
Definition fields_fit (l : list (Z * Z)) : Prop := Forall (fun p => fits p.1 p.2) l.
#[export] Instance fields_fit_dec l : Decision (fields_fit l).
Proof. unfold fields_fit. apply _. Defined.

Definition fees_fields (f : SolanaValidatorFeeParameters) : list (Z * Z) :=
  [(16, base_block_rewards_pct f); (16, priority_block_rewards_pct f);
   (16, inflation_rewards_pct f); (16, jito_tips_pct f); (32, fixed_sol_amount f)].

Definition cbr_fields (c : CommunityBurnRateParameters) : list (Z * Z) :=
  [(32, limit c); (32, dz_epochs_to_increasing c); (32, dz_epochs_to_limit c);
   (32, cached_slope_numerator c); (32, cached_slope_denominator c); (32, cached_next_burn_rate c)].

Definition parameters_fields (q : DistributionParameters) : list (Z * Z) :=
  [(16, calculation_grace_period_minutes q); (16, initialization_grace_period_minutes q);
   (8, minimum_epoch_duration_to_finalize_rewards q)]
  ++ cbr_fields (community_burn_rate_parameters q) ++ fees_fields (solana_validator_fee_parameters q).

Lemma fields_fit_in l w x : fields_fit l -> In (w, x) l -> fits w x.
Proof. intros Hl Hin. by apply (proj1 (List.Forall_forall _ _) Hl (w, x)). Qed.

(** ** Program config: [state/program_config/mod.rs] *)
Module Config.
Record ProgramConfig : Type := MkProgramConfig {
  flags : Z;
  next_completed_dz_epoch : DoubleZeroEpoch;
  bump_seed : Z;
  reserve_2z_bump_seed : Z;
  swap_authority_bump_seed : Z;
  swap_destination_2z_bump_seed : Z;
  withdraw_sol_authority_bump_seed : Z;
  admin_key : Pubkey;
  debt_accountant_key : Pubkey;
  rewards_accountant_key : Pubkey;
  contributor_manager_key : Pubkey;
  placeholder_key : Pubkey;
  sol_2z_swap_program_id : Pubkey;
  distribution_parameters : DistributionParameters;
  relay_parameters : RelayParameters;
  last_initialized_distribution_timestamp : Z;
  debt_write_off_feature_activation_epoch : DoubleZeroEpoch
}.
#[export] Instance eta_config : Eta ProgramConfig := fun p =>
  MkProgramConfig (flags p) (next_completed_dz_epoch p) (bump_seed p) (reserve_2z_bump_seed p)
    (swap_authority_bump_seed p) (swap_destination_2z_bump_seed p)
    (withdraw_sol_authority_bump_seed p) (admin_key p) (debt_accountant_key p)
    (rewards_accountant_key p) (contributor_manager_key p) (placeholder_key p)
    (sol_2z_swap_program_id p) (distribution_parameters p) (relay_parameters p)
    (last_initialized_distribution_timestamp p) (debt_write_off_feature_activation_epoch p).

Definition zeroed : ProgramConfig :=
  MkProgramConfig 0 0 0 0 0 0 0 0 0 0 0 0 0
    (MkDistributionParameters 0 0 0 cbr_default fees_default) (MkRelay 0 0) 0 0.

Definition fields (p : ProgramConfig) : list (Z * Z) :=
  [(64, flags p); (64, next_completed_dz_epoch p); (8, bump_seed p); (8, reserve_2z_bump_seed p);
   (8, swap_authority_bump_seed p); (8, swap_destination_2z_bump_seed p);
   (8, withdraw_sol_authority_bump_seed p); (256, admin_key p); (256, debt_accountant_key p);
   (256, rewards_accountant_key p); (256, contributor_manager_key p); (256, placeholder_key p);
   (256, sol_2z_swap_program_id p)]
  ++ parameters_fields (distribution_parameters p)
  ++ [(32, placeholder_lamports (relay_parameters p));
      (32, distribute_rewards_lamports (relay_parameters p));
      (32, last_initialized_distribution_timestamp p);
      (64, debt_write_off_feature_activation_epoch p)].
Definition wf (p : ProgramConfig) : Prop := fields_fit (fields p).

Definition SEED_PREFIX : list Z := bytes_of_string "program_config".
Definition FLAG_IS_PAUSED_BIT : Z := 0.
Definition FLAG_IS_MIGRATED_BIT : Z := 1.

Definition find_address `{Pda} : Pubkey * Z := find_program_address [SEED_PREFIX] ID.

Definition checked_reserve_2z_address `{Pda} (p : ProgramConfig) : option Pubkey :=
  if reserve_2z_bump_seed p =? 0 then None
  else
    key ← create_program_address [SEED_PREFIX; [bump_seed p]] ID;
    checked_2z_token_pda_address key (reserve_2z_bump_seed p).

Definition checked_swap_authority_address `{Pda} (p : ProgramConfig) : option Pubkey :=
  if swap_authority_bump_seed p =? 0 then None
  else create_program_address [SWAP_AUTHORITY_SEED_PREFIX; [swap_authority_bump_seed p]] ID.

Definition checked_swap_destination_2z_address `{Pda} (p : ProgramConfig) : option Pubkey :=
  swap_authority_key ← checked_swap_authority_address p;
  checked_2z_token_pda_address swap_authority_key (swap_destination_2z_bump_seed p).

Definition checked_withdraw_sol_authority_address `{Pda} (p : ProgramConfig) : option Pubkey :=
  if sol_2z_swap_program_id p =? pubkey_default then None
  else create_program_address
         [WITHDRAW_SOL_AUTHORITY_SEED_PREFIX; [withdraw_sol_authority_bump_seed p]]
         (sol_2z_swap_program_id p).

Definition is_paused (p : ProgramConfig) : bool := Flags.bit (flags p) FLAG_IS_PAUSED_BIT.
Definition set_is_paused (p : ProgramConfig) (v : bool) : ProgramConfig :=
  p <| flags := Flags.set_bit (flags p) FLAG_IS_PAUSED_BIT v |>.
Definition is_migrated (p : ProgramConfig) : bool := Flags.bit (flags p) FLAG_IS_MIGRATED_BIT.
Definition set_is_migrated (p : ProgramConfig) (v : bool) : ProgramConfig :=
  p <| flags := Flags.set_bit (flags p) FLAG_IS_MIGRATED_BIT v |>.

Definition checked_solana_validator_fee_parameters (p : ProgramConfig)
    : option SolanaValidatorFeeParameters :=
  Some (solana_validator_fee_parameters (distribution_parameters p)).

Definition checked_distribute_rewards_relay_lamports (p : ProgramConfig) : option Z :=
  let lamports := distribute_rewards_lamports (relay_parameters p) in
  if lamports =? 0 then None else Some lamports.

Definition checked_minimum_epoch_duration_to_finalize_rewards (p : ProgramConfig)
    : option EpochDuration :=
  let duration := minimum_epoch_duration_to_finalize_rewards (distribution_parameters p) in
  if duration =? 0 then None else Some duration.

(** [u32::from(u16) * 60] cannot overflow. *)
Definition checked_calculation_grace_period_seconds (p : ProgramConfig) : option Z :=
  let grace_period := calculation_grace_period_minutes (distribution_parameters p) in
  if grace_period =? 0 then None else Some (grace_period * 60).

Definition checked_distribution_initialization_grace_period_seconds (p : ProgramConfig) : option Z :=
  let grace_period := initialization_grace_period_minutes (distribution_parameters p) in
  if grace_period =? 0 then None else Some (grace_period * 60).

Definition last_completed_epoch (p : ProgramConfig) : option DoubleZeroEpoch :=
  Epoch.checked_sub_duration (next_completed_dz_epoch p) 1.

Definition is_debt_write_off_feature_activated (p : ProgramConfig) : bool :=
  let activation_epoch := debt_write_off_feature_activation_epoch p in
  negb (activation_epoch =? 0) && (activation_epoch <=? next_completed_dz_epoch p).
End Config.
Export (hints) Config.
Abbreviation ProgramConfig := Config.ProgramConfig.

(** ** Distribution: [state/distribution.rs] *)
Module Dist.
Record Distribution : Type := MkDistribution {
  dz_epoch : DoubleZeroEpoch;
  flags : Z;
  community_burn_rate : BurnRate;
  bump_seed : Z;
  token_2z_pda_bump_seed : Z;
  fee_parameters : SolanaValidatorFeeParameters;
  solana_validator_debt_merkle_root : Hash;
  total_solana_validators : Z;
  solana_validator_payments_count : Z;
  total_solana_validator_debt : Z;
  collected_solana_validator_payments : Z;
  rewards_merkle_root : Hash;
  total_contributors : Z;
  distributed_rewards_count : Z;
  collected_prepaid_2z_payments : Z;
  collected_2z_converted_from_sol : Z;
  uncollectible_sol_debt : Z;
  processed_solana_validator_debt_start_index : Z;
  processed_solana_validator_debt_end_index : Z;
  processed_rewards_start_index : Z;
  processed_rewards_end_index : Z;
  distribute_rewards_relay_lamports : Z;
  calculation_allowed_timestamp : Z;
  distributed_2z_amount : Z;
  burned_2z_amount : Z;
  processed_solana_validator_debt_write_off_start_index : Z;
  processed_solana_validator_debt_write_off_end_index : Z;
  solana_validator_write_off_count : Z;
  economic_burn_rate : BurnRate;
  integrations_count_snapshot : Z;
  integrations_collected_count : Z;
  collected_integrations_bitmap : Z;
  collected_2z_from_integrations : Z
}.
#[export] Instance eta_distribution : Eta Distribution := fun d =>
  MkDistribution (dz_epoch d) (flags d) (community_burn_rate d) (bump_seed d)
    (token_2z_pda_bump_seed d) (fee_parameters d) (solana_validator_debt_merkle_root d)
    (total_solana_validators d) (solana_validator_payments_count d)
    (total_solana_validator_debt d) (collected_solana_validator_payments d)
    (rewards_merkle_root d) (total_contributors d) (distributed_rewards_count d)
    (collected_prepaid_2z_payments d) (collected_2z_converted_from_sol d)
    (uncollectible_sol_debt d) (processed_solana_validator_debt_start_index d)
    (processed_solana_validator_debt_end_index d) (processed_rewards_start_index d)
    (processed_rewards_end_index d) (distribute_rewards_relay_lamports d)
    (calculation_allowed_timestamp d) (distributed_2z_amount d) (burned_2z_amount d)
    (processed_solana_validator_debt_write_off_start_index d)
    (processed_solana_validator_debt_write_off_end_index d)
    (solana_validator_write_off_count d) (economic_burn_rate d)
    (integrations_count_snapshot d) (integrations_collected_count d)
    (collected_integrations_bitmap d) (collected_2z_from_integrations d).

Definition zeroed : Distribution :=
  MkDistribution 0 0 0 0 0 fees_default 0 0 0 0 0 0 0 0 0 0 0 0 0 0 0 0 0 0 0 0 0 0 0 0 0 0 0.

Definition fields (d : Distribution) : list (Z * Z) :=
  [(64, dz_epoch d); (64, flags d); (32, community_burn_rate d); (8, bump_seed d);
   (8, token_2z_pda_bump_seed d)]
  ++ fees_fields (fee_parameters d)
  ++ [(256, solana_validator_debt_merkle_root d); (32, total_solana_validators d);
      (32, solana_validator_payments_count d); (64, total_solana_validator_debt d);
      (64, collected_solana_validator_payments d); (256, rewards_merkle_root d);
      (32, total_contributors d); (32, distributed_rewards_count d);
      (64, collected_prepaid_2z_payments d); (64, collected_2z_converted_from_sol d);
      (64, uncollectible_sol_debt d); (32, processed_solana_validator_debt_start_index d);
      (32, processed_solana_validator_debt_end_index d); (32, processed_rewards_start_index d);
      (32, processed_rewards_end_index d); (32, distribute_rewards_relay_lamports d);
      (32, calculation_allowed_timestamp d); (64, distributed_2z_amount d);
      (64, burned_2z_amount d); (32, processed_solana_validator_debt_write_off_start_index d);
      (32, processed_solana_validator_debt_write_off_end_index d);
      (32, solana_validator_write_off_count d); (32, economic_burn_rate d);
      (16, integrations_count_snapshot d); (16, integrations_collected_count d);
      (512, collected_integrations_bitmap d); (64, collected_2z_from_integrations d)].
Definition wf (d : Distribution) : Prop := fields_fit (fields d).

Definition SEED_PREFIX : list Z := bytes_of_string "distribution".
Definition FLAG_IS_DEBT_CALCULATION_FINALIZED_BIT : Z := 1.
Definition FLAG_IS_REWARDS_CALCULATION_FINALIZED_BIT : Z := 2.
Definition FLAG_HAS_SWEPT_2Z_TOKENS_BIT : Z := 3.
Definition FLAG_IS_SOLANA_VALIDATOR_DEBT_WRITE_OFF_ENABLED_BIT : Z := 4.

Definition find_address `{Pda} (dz_epoch : DoubleZeroEpoch) : Pubkey * Z :=
  find_program_address [SEED_PREFIX; Epoch.as_seed dz_epoch] ID.

Definition is_debt_calculation_finalized (d : Distribution) : bool :=
  Flags.bit (flags d) FLAG_IS_DEBT_CALCULATION_FINALIZED_BIT.
Definition set_is_debt_calculation_finalized (d : Distribution) (v : bool) : Distribution :=
  d <| flags := Flags.set_bit (flags d) FLAG_IS_DEBT_CALCULATION_FINALIZED_BIT v |>.

Definition is_rewards_calculation_finalized (d : Distribution) : bool :=
  Flags.bit (flags d) FLAG_IS_REWARDS_CALCULATION_FINALIZED_BIT.
Definition set_is_rewards_calculation_finalized (d : Distribution) (v : bool) : Distribution :=
  d <| flags := Flags.set_bit (flags d) FLAG_IS_REWARDS_CALCULATION_FINALIZED_BIT v |>.

Definition is_solana_validator_debt_write_off_enabled (d : Distribution) : bool :=
  Flags.bit (flags d) FLAG_IS_SOLANA_VALIDATOR_DEBT_WRITE_OFF_ENABLED_BIT.
Definition set_is_solana_validator_debt_write_off_enabled (d : Distribution) (v : bool)
    : Distribution :=
  d <| flags := Flags.set_bit (flags d) FLAG_IS_SOLANA_VALIDATOR_DEBT_WRITE_OFF_ENABLED_BIT v |>.

Definition has_swept_2z_tokens (d : Distribution) : bool :=
  Flags.bit (flags d) FLAG_HAS_SWEPT_2Z_TOKENS_BIT.
Definition set_has_swept_2z_tokens (d : Distribution) (v : bool) : Distribution :=
  d <| flags := Flags.set_bit (flags d) FLAG_HAS_SWEPT_2Z_TOKENS_BIT v |>.

Lemma finalized_set_enabled d v :
  is_debt_calculation_finalized (set_is_solana_validator_debt_write_off_enabled d v)
  = is_debt_calculation_finalized d.
Proof. apply (Flags.bit_set_bit (flags d) 4 1); lia. Qed.

Definition checked_total_sol_debt (d : Distribution) : option Z :=
  checked_sub (total_solana_validator_debt d) (uncollectible_sol_debt d).

Definition total_collected_2z_tokens (d : Distribution) : Res Z :=
  x ← unwrap (checked_add 64 (collected_prepaid_2z_payments d) (collected_2z_converted_from_sol d));
  unwrap (checked_add 64 x (collected_2z_from_integrations d)).

Definition are_all_integrations_collected (d : Distribution) : bool :=
  integrations_count_snapshot d <=? integrations_collected_count d.

Definition BITMAP_BITS : Z := 512.

Definition checked_is_integration_collected (d : Distribution) (index : Z) : option bool :=
  if BITMAP_BITS <=? index then None
  else Some (uint_bit BITMAP_BITS (collected_integrations_bitmap d) index).

Definition checked_set_integration_collected (d : Distribution) (index : Z) : option Distribution :=
  if BITMAP_BITS <=? index then None
  else Some (d <| collected_integrations_bitmap :=
                    uint_set_bit BITMAP_BITS (collected_integrations_bitmap d) index true |>).

Definition burn_rate (d : Distribution) (contributor_economic_burn_rate : BurnRate) : BurnRate :=
  Z.max (Z.max contributor_economic_burn_rate (economic_burn_rate d)) (community_burn_rate d).

(** The option of the source inside the [Res] of its possible panics. *)
Definition split_2z_amount `{BuildProfile} (d : Distribution) (reward_share : RewardShare)
    : Res (option (Z * Z)) :=
  match Reward.checked_unit_share reward_share with
  | None => mret None
  | Some share =>
      let contributor_economic_burn_rate :=
        default 0 (Reward.checked_economic_burn_rate reward_share) in
      let burn_rate := burn_rate d contributor_economic_burn_rate in
      total_amount ← total_collected_2z_tokens d;
      share_amount ← UnitShare32.mul_scalar share total_amount;
      burn_share_amount ← UnitShare32.mul_scalar burn_rate share_amount;
      rest ← arith_sub 64 share_amount burn_share_amount;
      mret (Some (burn_share_amount, rest))
  end.

Definition checked_calculation_allowed_timestamp (d : Distribution) : option Z :=
  let allowed_timestamp := calculation_allowed_timestamp d in
  if allowed_timestamp =? 0 then None else Some allowed_timestamp.

Definition processed_solana_validator_debt_bitmap_range (d : Distribution) : Z * Z :=
  (processed_solana_validator_debt_start_index d, processed_solana_validator_debt_end_index d).
Definition processed_rewards_bitmap_range (d : Distribution) : Z * Z :=
  (processed_rewards_start_index d, processed_rewards_end_index d).
Definition processed_solana_validator_debt_write_off_bitmap_range (d : Distribution) : Z * Z :=
  (processed_solana_validator_debt_write_off_start_index d,
   processed_solana_validator_debt_write_off_end_index d).

Definition is_all_solana_validator_debt_processed (d : Distribution) : bool :=
  saturating_sub
    (saturating_sub (total_solana_validators d) (solana_validator_payments_count d))
    (solana_validator_write_off_count d) =? 0.

Definition are_all_rewards_distributed (d : Distribution) : bool :=
  saturating_sub (total_contributors d) (distributed_rewards_count d) =? 0.
End Dist.
Export (hints) Dist.
Abbreviation Distribution := Dist.Distribution.

(** ** Journal: [state/journal.rs] *)
Module Jrnl.
Record Journal : Type := MkJournal {
  bump_seed : Z;
  token_2z_pda_bump_seed : Z;
  integrations_count : Z;
  total_sol_balance : Z;
  total_2z_balance : Z;
  swap_2z_destination_balance : Z;
  swapped_sol_amount : Z;
  next_dz_epoch_to_sweep_tokens : DoubleZeroEpoch;
  lifetime_swapped_2z_amount : Z
}.
#[export] Instance eta_journal : Eta Journal := fun j =>
  MkJournal (bump_seed j) (token_2z_pda_bump_seed j) (integrations_count j) (total_sol_balance j)
    (total_2z_balance j) (swap_2z_destination_balance j) (swapped_sol_amount j)
    (next_dz_epoch_to_sweep_tokens j) (lifetime_swapped_2z_amount j).
Definition zeroed : Journal := MkJournal 0 0 0 0 0 0 0 0 0.
Definition fields (j : Journal) : list (Z * Z) :=
  [(8, bump_seed j); (8, token_2z_pda_bump_seed j); (16, integrations_count j);
   (64, total_sol_balance j); (64, total_2z_balance j); (64, swap_2z_destination_balance j);
   (64, swapped_sol_amount j); (64, next_dz_epoch_to_sweep_tokens j);
   (128, lifetime_swapped_2z_amount j)].
Definition wf (j : Journal) : Prop := fields_fit (fields j).
Definition SEED_PREFIX : list Z := bytes_of_string "journal".
Definition find_address `{Pda} : Pubkey * Z := find_program_address [SEED_PREFIX] ID.
End Jrnl.
Export (hints) Jrnl.
Abbreviation Journal := Jrnl.Journal.

(** ** Solana validator deposit: [state/solana_validator_deposit.rs] *)
Module Depo.
Record SolanaValidatorDeposit : Type := MkSolanaValidatorDeposit {
  node_id : Pubkey;
  written_off_sol_debt : Z
}.
#[export] Instance eta_deposit : Eta SolanaValidatorDeposit := fun d =>
  MkSolanaValidatorDeposit (node_id d) (written_off_sol_debt d).
Definition zeroed : SolanaValidatorDeposit := MkSolanaValidatorDeposit 0 0.
Definition wf (d : SolanaValidatorDeposit) : Prop :=
  fields_fit [(256, node_id d); (64, written_off_sol_debt d)].
Definition SEED_PREFIX : list Z := bytes_of_string "solana_validator_deposit".
Definition find_address `{Pda} (node_id : Pubkey) : Pubkey * Z :=
  find_program_address [SEED_PREFIX; key_seed node_id] ID.
End Depo.
Export (hints) Depo.
Abbreviation SolanaValidatorDeposit := Depo.SolanaValidatorDeposit.

(** ** Rewards integration: [state/rewards_integration.rs] *)
Module Integ.
Record RewardsIntegration : Type := MkRewardsIntegration {
  program_id : Pubkey;
  bump_seed : Z;
  registration_index : Z
}.
#[export] Instance eta_integration : Eta RewardsIntegration := fun r =>
  MkRewardsIntegration (program_id r) (bump_seed r) (registration_index r).
Definition zeroed : RewardsIntegration := MkRewardsIntegration 0 0 0.
Definition wf (r : RewardsIntegration) : Prop :=
  fields_fit [(256, program_id r); (8, bump_seed r); (16, registration_index r)].
Definition SEED_PREFIX : list Z := bytes_of_string "rewards_integration".
Definition find_address `{Pda} (program_id : Pubkey) : Pubkey * Z :=
  find_program_address [SEED_PREFIX; key_seed program_id] ID.
End Integ.
Export (hints) Integ.
Abbreviation RewardsIntegration := Integ.RewardsIntegration.

(** ** Contributor rewards: [state/contributor_rewards/] *)
Record RecipientShare : Type := MkRecipientShare {
  recipient_key : Pubkey;
  share : Z
}.
Definition recipient_default : RecipientShare := MkRecipientShare pubkey_default UnitShare.MIN.
Definition MAX_RECIPIENTS : nat := 8.

(** The array of eight shares. *)
Abbreviation RecipientShares := (list RecipientShare) (only parsing).

Module Recipients.
(** The loop of [new] from position [i] on, over the array and the running
    total built so far. *)
Fixpoint new_loop (recipients : list (Pubkey * Z)) (i : nat) (out : RecipientShares)
    (total_share : Z) : option (RecipientShares * Z) :=
  match recipients with
  | [] => Some (out, total_share)
  | (recipient_key, value) :: rest =>
      if recipient_key =? pubkey_default then None
      else
        share ← UnitShare16.new value;
        if share =? UnitShare.MIN then None
        else
          total_share ← UnitShare16.checked_add total_share share;
          new_loop rest (S i) (<[i := MkRecipientShare recipient_key share]> out) total_share
  end.

Definition new (recipients : list (Pubkey * Z)) : option RecipientShares :=
  if (MAX_RECIPIENTS <? length recipients)%nat then None
  else
    match new_loop recipients 0 (replicate MAX_RECIPIENTS recipient_default) UnitShare.MIN with
    | Some (out, total_share) =>
        if negb (total_share =? UnitShare16.MAX) then None else Some out
    | None => None
    end.

Definition active (shares : RecipientShares) : list RecipientShare :=
  List.filter (fun s => negb (recipient_key s =? pubkey_default)) shares.
End Recipients.

Module Contrib.
Record ContributorRewards : Type := MkContributorRewards {
  rewards_manager_key : Pubkey;
  service_key : Pubkey;
  flags : Z;
  recipient_shares : RecipientShares
}.
#[export] Instance eta_contributor_rewards : Eta ContributorRewards := fun c =>
  MkContributorRewards (rewards_manager_key c) (service_key c) (flags c) (recipient_shares c).
Definition zeroed : ContributorRewards :=
  MkContributorRewards 0 0 0 (replicate MAX_RECIPIENTS recipient_default).
Definition wf (c : ContributorRewards) : Prop :=
  fields_fit ([(256, rewards_manager_key c); (256, service_key c); (64, flags c)]
              ++ flat_map (fun s => [(256, recipient_key s); (16, share s)]) (recipient_shares c)).
Definition SEED_PREFIX : list Z := bytes_of_string "contributor_rewards".
Definition FLAG_IS_SET_REWARDS_MANAGER_BLOCKED_BIT : Z := 0.
Definition find_address `{Pda} (service_key : Pubkey) : Pubkey * Z :=
  find_program_address [SEED_PREFIX; key_seed service_key] ID.
Definition is_set_rewards_manager_blocked (c : ContributorRewards) : bool :=
  Flags.bit (flags c) FLAG_IS_SET_REWARDS_MANAGER_BLOCKED_BIT.
Definition set_is_set_rewards_manager_blocked (c : ContributorRewards) (v : bool)
    : ContributorRewards :=
  c <| flags := Flags.set_bit (flags c) FLAG_IS_SET_REWARDS_MANAGER_BLOCKED_BIT v |>.
End Contrib.
Export (hints) Contrib.
Abbreviation ContributorRewards := Contrib.ContributorRewards.

(** ** Lemmas: splitting a distribution's 2Z *)

(** The rates stored in a distribution are valid burn rates. *)
Definition rates_ok (d : Distribution) : Prop :=
  valid32 (Dist.economic_burn_rate d) /\ valid32 (Dist.community_burn_rate d).

(** The rate a reward share carries, and the one it is burned at. *)
Definition contributor_rate (r : RewardShare) : BurnRate :=
  default 0 (Reward.checked_economic_burn_rate r).
Definition applied_rate (d : Distribution) (r : RewardShare) : BurnRate :=
  Dist.burn_rate d (contributor_rate r).

Lemma contributor_rate_valid r : valid32 (contributor_rate r).
Proof.
  unfold contributor_rate, Reward.checked_economic_burn_rate.
  destruct (UnitShare32.new _) eqn:E; cbn; [|unfold valid32, UnitShare32.MAX; lia].
  apply new32_Some in E as [-> ?]. split; [|done].
  apply Z.land_nonneg. right. by unfold Reward.ECONOMIC_BURN_RATE_MASK.
Qed.

Lemma applied_rate_valid d r : rates_ok d -> valid32 (applied_rate d r).
Proof.
  intros [[? ?] [? ?]]. pose proof (contributor_rate_valid r) as [? ?].
  unfold applied_rate, Dist.burn_rate, valid32 in *. lia.
Qed.

Lemma total_collected_ok d total :
  Dist.wf d -> Dist.total_collected_2z_tokens d = Ok total ->
  fits 64 total /\
  total = Dist.collected_prepaid_2z_payments d + Dist.collected_2z_converted_from_sol d
          + Dist.collected_2z_from_integrations d.
Proof.
  intros Hwf. unfold Dist.total_collected_2z_tokens. intros H. res_inv.
  repeat match goal with
  | H : unwrap (checked_add _ _ _) = Ok _ |- _ => apply unwrap_ok, checked_add_Some in H as [-> ?]
  | H : checked_add _ _ _ = Some _ |- _ => apply checked_add_Some in H as [-> ?]
  end.
  assert (forall w x, In (w, x) (Dist.fields d) -> 0 <= x) as Hf.
  { intros w x Hin. eapply fits_nonneg, (fields_fit_in _ w x Hwf Hin). }
  split; [|done]. split; [|done].
  assert (0 <= Dist.collected_prepaid_2z_payments d) by (apply (Hf 64); cbn; tauto).
  assert (0 <= Dist.collected_2z_converted_from_sol d) by (apply (Hf 64); cbn; tauto).
  assert (0 <= Dist.collected_2z_from_integrations d) by (apply (Hf 64); cbn; tauto).
  lia.
Qed.

(** The amount a reward share is worth. *)
Definition share_value (r : RewardShare) (total : Z) : Z := unit_share r * total / UnitShare32.MAX.

Lemma split_2z_amount_ok `{BuildProfile} d r total :
  rates_ok d -> 0 <= unit_share r <= UnitShare32.MAX ->
  Dist.total_collected_2z_tokens d = Ok total -> fits 64 total ->
  let value := share_value r total in
  let burned := applied_rate d r * value / UnitShare32.MAX in
  Dist.split_2z_amount d r = Ok (Some (burned, value - burned)) /\
  0 <= burned <= value /\ 0 <= value <= total.
Proof.
  intros Hr [? Hle] Ht Hfit value burned.
  destruct (mul_scalar32 (unit_share r) total) as [E1 B1]; [done|done|].
  destruct (mul_scalar32 (applied_rate d r) value) as [E2 B2].
  { by apply applied_rate_valid. }
  { unfold fits, value, share_value in *. lia. }
  unfold Dist.split_2z_amount, Reward.checked_unit_share.
  destruct (new32_Some (unit_share r) (unit_share r)) as [_ ->]; [|done].
  rewrite Ht. cbn [mbind Res_bind]. rewrite E1. cbn [mbind Res_bind].
  fold (contributor_rate r). fold (applied_rate d r). fold (share_value r total). fold value.
  rewrite E2. cbn [mbind Res_bind]. fold burned. rewrite arith_sub_exact by (unfold burned; lia).
  done.
Qed.

Lemma split_2z_amount_inv `{BuildProfile} d r burned paid :
  Dist.wf d -> rates_ok d -> 0 <= unit_share r ->
  Dist.split_2z_amount d r = Ok (Some (burned, paid)) ->
  exists total, Dist.total_collected_2z_tokens d = Ok total /\
    burned + paid = share_value r total /\ 0 <= burned /\ 0 <= paid /\ fits 64 (burned + paid).
Proof.
  intros Hwf Hr Hs Hsplit. pose proof Hsplit as H0. unfold Dist.split_2z_amount in H0.
  destruct (Reward.checked_unit_share r) as [s|] eqn:Es; [|done].
  unfold Reward.checked_unit_share in Es. apply new32_Some in Es as [-> Hmax].
  apply res_bind_ok in H0 as (total & Ht & _). exists total.
  pose proof (total_collected_ok _ _ Hwf Ht) as [Hfit _].
  destruct (split_2z_amount_ok d r total Hr (conj Hs Hmax) Ht Hfit) as (E & ? & ?).
  rewrite E in Hsplit. injection Hsplit as <- <-. unfold fits in *. split_and!; [done|lia..].
Qed.

(** ** Lemmas: recipient shares *)

(** What is accepted as one recipient. *)
Definition recipient_ok (r : Pubkey * Z) : bool :=
  negb (r.1 =? pubkey_default) && (0 <? r.2) && (r.2 <=? UnitShare16.MAX).

Definition to_share (r : Pubkey * Z) : RecipientShare := MkRecipientShare r.1 r.2.

(** The array holding the given recipients first. *)
Definition packed (recipients : list (Pubkey * Z)) : RecipientShares :=
  (to_share <$> recipients) ++ replicate (MAX_RECIPIENTS - length recipients) recipient_default.

Lemma insert_next (pre : RecipientShares) n x :
  <[length pre := x]> (pre ++ replicate (S n) recipient_default)
  = (pre ++ [x]) ++ replicate n recipient_default.
Proof.
  rewrite insert_app_r_alt by lia. rewrite Nat.sub_diag. cbn. by rewrite <- app_assoc.
Qed.

Lemma new_loop_spec recipients pre n total :
  (length recipients <= n)%nat -> 0 <= total -> Forall (fun r => 0 <= r.2) recipients ->
  Recipients.new_loop recipients (length pre) (pre ++ replicate n recipient_default) total =
  if forallb recipient_ok recipients && (total + sumZ snd recipients <=? UnitShare16.MAX) then
    Some (pre ++ (to_share <$> recipients) ++ replicate (n - length recipients) recipient_default,
          total + sumZ snd recipients)
  else if bool_decide (recipients = []) then Some (pre ++ replicate n recipient_default, total)
  else None.
Proof.
  revert pre n total. induction recipients as [|[k v] recipients IH]; intros pre n total Hn Ht Hl.
  - cbn. rewrite Z.add_0_r. case_match; [by rewrite Nat.sub_0_r|done].
  - inversion_clear Hl as [|? ? Hv Hl']. cbn in Hv. destruct n as [|n]; [cbn in Hn; lia|].
    cbn [Recipients.new_loop forallb length fmap list_fmap]. rewrite sumZ_cons. cbn [snd].
    unfold recipient_ok at 1. cbn [fst snd].
    destruct (Z.eqb_spec k pubkey_default) as [->|Hk]; [done|]. cbn [negb andb].
    assert (0 <= sumZ snd recipients) as Hpos.
    { apply sumZ_nonneg. intros a Ha. rewrite Forall_forall in Hl'. by apply Hl'. }
    destruct (UnitShare16.new v) as [s|] eqn:Es; cbn [mbind option_bind].
    2:{ assert (UnitShare16.MAX < v).
        { apply Z.nle_gt. intros Hle. by rewrite (proj2 (new16_Some v v) (conj eq_refl Hle)) in Es. }
        rewrite (proj2 (Z.leb_gt v _)) by lia. by rewrite andb_false_r. }
    apply new16_Some in Es as [-> Hmax]. rewrite (proj2 (Z.leb_le v _)) by lia.
    unfold UnitShare.MIN. destruct (Z.eqb_spec v 0) as [->|Hv0]; [done|].
    rewrite (proj2 (Z.ltb_lt 0 v)) by lia. cbn [andb].
    destruct (UnitShare16.checked_add total v) as [t|] eqn:Et; cbn [mbind option_bind].
    + apply unit_share_checked_add_Some in Et as [-> Hle]; [|unfold UnitShare16.MAX; lia].
      rewrite insert_next. replace (S (length pre)) with (length (pre ++ [MkRecipientShare k v]))
        by (rewrite length_app; cbn; lia).
      rewrite IH by (cbn in Hn; lia || done). rewrite <- Z.add_assoc, <- app_assoc. cbn [app].
      replace (S n - S (length recipients))%nat with (n - length recipients)%nat by lia.
      destruct (forallb recipient_ok recipients && _) eqn:E; [done|].
      case_bool_decide; [|done]. subst. apply Z.leb_gt in E. cbn in E. unfold UnitShare16.MAX in *. lia.
    + assert (UnitShare16.MAX < total + v).
      { apply Z.nle_gt. intros Hle. unfold UnitShare16.checked_add, UnitShare16.MAX in *.
        by rewrite unit_share_checked_add_intro in Et by lia. }
      rewrite (proj2 (Z.leb_gt (total + _) _)) by lia. by rewrite andb_false_r.
Qed.

Lemma recipients_new_eq recipients :
  Forall (fun r => 0 <= r.2) recipients ->
  Recipients.new recipients =
  if (length recipients <=? MAX_RECIPIENTS)%nat && forallb recipient_ok recipients
     && (sumZ snd recipients =? UnitShare16.MAX)
  then Some (packed recipients) else None.
Proof.
  intros Hl. unfold Recipients.new. destruct (Nat.ltb_spec MAX_RECIPIENTS (length recipients)) as [Hn|Hn].
  { by rewrite (proj2 (Nat.leb_gt _ _)). }
  rewrite (proj2 (Nat.leb_le _ _)) by done. cbn [andb].
  pose proof (new_loop_spec recipients [] MAX_RECIPIENTS 0 Hn ltac:(lia) Hl) as E. cbn [length app] in E.
  unfold UnitShare.MIN. rewrite E. rewrite Z.add_0_l. unfold packed.
  destruct (forallb recipient_ok recipients); cbn [andb]; [|case_bool_decide; subst; done].
  destruct (Z.leb_spec (sumZ snd recipients) UnitShare16.MAX).
  - by destruct (Z.eqb_spec (sumZ snd recipients) UnitShare16.MAX).
  - rewrite (proj2 (Z.eqb_neq _ _)) by lia. case_bool_decide; subst; done.
Qed.

Lemma active_packed recipients :
  Forall (fun r => recipient_ok r = true) recipients ->
  Recipients.active (packed recipients) = to_share <$> recipients.
Proof.
  intros H. unfold Recipients.active, packed. rewrite List.filter_app.
  assert (forall n, List.filter (fun s => negb (recipient_key s =? pubkey_default))
            (replicate n recipient_default) = []) as -> by (by induction n).
  rewrite app_nil_r. induction H as [|[k v] l Hk Hl IH]; [done|]. cbn.
  unfold recipient_ok in Hk. cbn in Hk. destruct (negb (k =? pubkey_default)); [|done].
  cbn. by f_equal.
Qed.

(** Recipient shares a contributor can have: none at all, or shares that add
    up to 100%. *)
Definition shares_ok (shares : RecipientShares) : Prop :=
  Forall (fun s => valid16 (share s)) (Recipients.active shares) /\
  sumZ share (Recipients.active shares) <= UnitShare16.MAX.

Lemma sumZ_fmap {A B} (f : B -> Z) (g : A -> B) l : sumZ f (g <$> l) = sumZ (fun a => f (g a)) l.
Proof. induction l as [|a l IH]; [done|]. cbn [fmap list_fmap]. by rewrite !sumZ_cons, IH. Qed.

Lemma shares_ok_new recipients shares :
  Forall (fun r => 0 <= r.2) recipients -> Recipients.new recipients = Some shares -> shares_ok shares.
Proof.
  intros Hl. rewrite recipients_new_eq by done.
  destruct (_ && _) eqn:E; [|done]. injection 1 as <-. rewrite !andb_true_iff in E.
  destruct E as [[_ Hok] Hsum]. bool_to_prop.
  assert (Forall (fun r => recipient_ok r = true) recipients) as Hall
    by (apply Forall_forall; intros r Hr; eapply forallb_forall; [exact Hok|by apply list_elem_of_In]).
  unfold shares_ok. rewrite active_packed, sumZ_fmap by done. split.
  - apply Forall_fmap. eapply Forall_impl; [exact Hall|]. intros [k v] Hr.
    unfold recipient_ok in Hr. rewrite !andb_true_iff in Hr. cbn in *. destruct Hr as [[_ ?] ?].
    unfold valid16. lia.
  - unfold to_share. cbn. change (sumZ snd recipients <= UnitShare16.MAX). lia.
Qed.

(** ** Theorems *)

Lemma contributor_rate_eq r :
  contributor_rate r =
  if Reward.economic_burn_rate r <=? UnitShare32.MAX then Reward.economic_burn_rate r else 0.
Proof.
  unfold contributor_rate, Reward.checked_economic_burn_rate, UnitShare32.new, UnitShare.new.
  change (UnitShare.MAX _) with UnitShare32.MAX. by case_match.
Qed.

Lemma applied_rate_eq d r :
  applied_rate d r =
  Z.max (Dist.community_burn_rate d) (Z.max (Dist.economic_burn_rate d) (contributor_rate r)).
Proof. unfold applied_rate, Dist.burn_rate. lia. Qed.

(** C22: splitting a reward.  For a distribution with valid rates whose collected
    2Z fits a [u64], a share above 100% is refused; any other share is worth
    the floor of its part of the total, of which the floor at the highest of the
    three burn rates (the distribution's community and economic rates and the
    contributor's, which counts as zero when it is above 100%) is burned and the
    rest paid: no saturation, no panic, nothing lost, in either build profile. *)
Theorem split_2z_amount_spec `{BuildProfile} (d : Distribution) (r : RewardShare) total :
  Dist.wf d -> rates_ok d -> 0 <= unit_share r -> Dist.total_collected_2z_tokens d = Ok total ->
  let contributor :=
    if Reward.economic_burn_rate r <=? UnitShare32.MAX then Reward.economic_burn_rate r else 0 in
  let rate := Z.max (Dist.community_burn_rate d) (Z.max (Dist.economic_burn_rate d) contributor) in
  let value := unit_share r * total / UnitShare32.MAX in
  let burned := rate * value / UnitShare32.MAX in
  if unit_share r <=? UnitShare32.MAX then
    Dist.split_2z_amount d r = Ok (Some (burned, value - burned)) /\
    0 <= rate <= UnitShare32.MAX /\ 0 <= burned <= value /\ value <= total
  else Dist.split_2z_amount d r = Ok None.
Proof.
  intros Hwf Hr Hs Ht. cbv zeta. rewrite <- contributor_rate_eq, <- applied_rate_eq.
  fold (share_value r total). pose proof (total_collected_ok _ _ Hwf Ht) as [Hfit _].
  destruct (Z.leb_spec (unit_share r) UnitShare32.MAX) as [Hle|Hgt].
  - destruct (split_2z_amount_ok d r total Hr (conj Hs Hle) Ht Hfit) as (-> & ? & ?).
    pose proof (applied_rate_valid d r Hr) as [? ?]. unfold share_value in *. split_and!; try done; lia.
  - unfold Dist.split_2z_amount, Reward.checked_unit_share.
    destruct (UnitShare32.new (unit_share r)) eqn:E; [|done]. apply new32_Some in E. lia.
Qed.

(** The contributors cannot overdraw a distribution: when their shares add
    up to at most 100%, the amounts their splits pay and burn add up to at most
    the 2Z the distribution collected. *)
Theorem split_2z_within_total `{BuildProfile} (d : Distribution) (rs : list RewardShare) total :
  Dist.wf d -> rates_ok d -> Dist.total_collected_2z_tokens d = Ok total ->
  Forall (fun r => 0 <= unit_share r) rs -> sumZ unit_share rs <= UnitShare32.MAX ->
  exists splits,
    mapM (Dist.split_2z_amount d) rs = Ok (Some <$> splits) /\
    sumZ (fun s => s.1 + s.2) splits <= total.
Proof.
  intros Hwf Hr Ht Hnn Hsum. pose proof (total_collected_ok _ _ Hwf Ht) as [Hfit _].
  pose proof (sum_shares_le unit_share rs total UnitShare32.MAX) as Hle.
  specialize (Hle ltac:(done) (proj1 Hfit)). rewrite Forall_forall in Hnn.
  specialize (Hle Hnn Hsum).
  enough (exists splits, mapM (Dist.split_2z_amount d) rs = Ok (Some <$> splits) /\
            sumZ (fun s => s.1 + s.2) splits = sumZ (fun r => share_value r total) rs)
    as (splits & ? & E) by (exists splits; split; [done|rewrite E; exact Hle]).
  clear Hle. induction rs as [|r rs IH]; [by exists []|]. rewrite sumZ_cons in Hsum.
  assert (0 <= sumZ unit_share rs) by (apply sumZ_nonneg; intros; apply Hnn; by right).
  assert (0 <= unit_share r) by (apply Hnn; left).
  destruct IH as (splits & E & Es); [intros; apply Hnn; by right|lia|].
  destruct (split_2z_amount_ok d r total Hr ltac:(lia) Ht Hfit) as (Er & _).
  eexists (_ :: splits). cbn [mapM]. rewrite Er. cbn [mbind Res_bind]. rewrite E.
  split; [reflexivity|]. rewrite !sumZ_cons, Es. cbn [fst snd]. lia.
Qed.

(** C39: recipients.  The shares of a contributor are accepted exactly when there
    are at most eight, each names a recipient and is positive and at most 100%,
    and together they make exactly 100%; the stored array then holds them first
    and in order, and they are its active entries. *)
Theorem recipient_shares_new_spec (recipients : list (Pubkey * Z)) (shares : RecipientShares) :
  Forall (fun r => 0 <= r.2) recipients ->
  Recipients.new recipients = Some shares <->
  (length recipients <= 8)%nat /\
  (forall k v, (k, v) ∈ recipients -> k <> pubkey_default /\ 0 < v <= 10000) /\
  sumZ snd recipients = 10000 /\
  shares = to_share <$> recipients ++ replicate (8 - length recipients) (pubkey_default, 0) /\
  Recipients.active shares = to_share <$> recipients.
Proof.
  intros Hl. rewrite recipients_new_eq by done.
  assert (packed recipients
          = to_share <$> recipients ++ replicate (8 - length recipients) (pubkey_default, 0)) as E.
  { unfold packed. by rewrite fmap_app, fmap_replicate. }
  assert (forallb recipient_ok recipients = true <->
          forall k v, (k, v) ∈ recipients -> k <> pubkey_default /\ 0 < v <= 10000) as Hok.
  { rewrite forallb_forall. unfold recipient_ok, UnitShare16.MAX. split.
    - intros Hf k v Hin%list_elem_of_In%Hf. rewrite !andb_true_iff in Hin. bool_to_prop. cbn in *.
      split; [|lia]. by destruct Hin as [[?%negb_true_iff%Z.eqb_neq _] _].
    - intros Hf [k v] Hin%list_elem_of_In%Hf. cbn. rewrite !andb_true_iff, negb_true_iff.
      rewrite Z.eqb_neq, Z.ltb_lt, Z.leb_le. naive_solver. }
  split.
  - destruct (_ && _) eqn:Ec; [|done]. injection 1 as <-. rewrite !andb_true_iff in Ec.
    destruct Ec as [[Hn Hall] Hsum]. bool_to_prop. split_and!.
    + apply Nat.leb_le. done.
    + by apply Hok.
    + done.
    + done.
    + apply active_packed, Forall_forall. intros r Hr.
      eapply forallb_forall; [exact Hall|by apply list_elem_of_In].
  - intros (Hn & Hall & Hsum & -> & _). unfold MAX_RECIPIENTS.
    by rewrite (proj2 (Nat.leb_le _ _) Hn), (proj2 Hok Hall), Hsum, E.
Qed.
