(* ===== verification/RdAccounts.v ===== *)
(** * Account handling of the revenue-distribution program

    The typed contents of the program's accounts, and the account-info helpers
    at the end of [programs/revenue-distribution/src/processor.rs]: the
    authorities, the 2Z mint / token PDA / token program accounts, the
    [try_require_*] guards and the leaf bitmap. *)

From Stdlib Require Import ZArith Lia String.
From S2P Require Import Prelude Types BurnRate Borsh Selectors Runtime Lamports ProgramTools State.

(** ** Account contents

    An account of the program is zero-filled (just allocated) or carries the
    discriminator of one of its six types, the struct, and the bytes after it.
    [Foreign] is the data of an account of another program; every typed read
    checks the owner first. *)
Inductive RdData : Type :=
  | Zeroed (len : Z)
  | ConfigData (p : ProgramConfig) (rest : list Z)
  | DistributionData (d : Distribution) (rest : list Z)
  | JournalData (j : Journal) (rest : list Z)
  | ContributorData (c : ContributorRewards) (rest : list Z)
  | DepositData (d : SolanaValidatorDeposit) (rest : list Z)
  | IntegrationData (r : RewardsIntegration) (rest : list Z)
  | Foreign (bytes : list Z).

(** [size_of] of each struct; four of them are asserted in the source. *)
Definition SIZE_ProgramConfig : Z := 600.
Definition SIZE_Distribution : Z := 448.
Definition SIZE_Journal : Z := 64.
Definition SIZE_ContributorRewards : Z := 600.
Definition SIZE_SolanaValidatorDeposit : Z := 96.
Definition SIZE_RewardsIntegration : Z := 176.

Definition rd_data_len (d : RdData) : Z :=
  match d with
  | Zeroed len => len
  | ConfigData _ rest => DISCRIMINATOR_LEN + SIZE_ProgramConfig + lenZ rest
  | DistributionData _ rest => DISCRIMINATOR_LEN + SIZE_Distribution + lenZ rest
  | JournalData _ rest => DISCRIMINATOR_LEN + SIZE_Journal + lenZ rest
  | ContributorData _ rest => DISCRIMINATOR_LEN + SIZE_ContributorRewards + lenZ rest
  | DepositData _ rest => DISCRIMINATOR_LEN + SIZE_SolanaValidatorDeposit + lenZ rest
  | IntegrationData _ rest => DISCRIMINATOR_LEN + SIZE_RewardsIntegration + lenZ rest
  | Foreign bytes => lenZ bytes
  end.

#[export] Instance RdData_account : AccountData RdData := {
  data_len := rd_data_len;
  empty_data := Zeroed 0;
  has_zero_discriminator d :=
    match d with
    | Zeroed _ => true
    | Foreign bytes => forallb (Z.eqb 0) (take 8 bytes)
    | _ => false
    end
}.

(** Well-formed contents: numbers of their widths, bytes after the struct. *)
Definition wf_data (d : RdData) : Prop :=
  match d with
  | Zeroed len => 0 <= len
  | ConfigData p rest => Config.wf p /\ bytes_ok rest
  | DistributionData d rest => Dist.wf d /\ bytes_ok rest
  | JournalData j rest => Jrnl.wf j /\ bytes_ok rest
  | ContributorData c rest => Contrib.wf c /\ bytes_ok rest
  | DepositData d rest => Depo.wf d /\ bytes_ok rest
  | IntegrationData r rest => Integ.wf r /\ bytes_ok rest
  | Foreign bytes => bytes_ok bytes
  end.

Definition wf_account (a : Account RdData) : Prop :=
  wf_data (data a) /\ rd_data_len (data a) <= MAX_PERMITTED_DATA_LENGTH /\ fits 64 (lamports a).

(** The ledger holds well-formed accounts: the type invariant of the data. *)
Definition ledger_wf (L : Ledger RdData) : Prop := map_Forall (fun _ a => wf_account a) L.

#[export] Instance ledger_wf_dec L : Decision (ledger_wf L).
Proof.
  apply map_Forall_dec. intros _ a. unfold wf_account, wf_data, is_byte.
  destruct (data a); unfold Config.wf, Dist.wf, Jrnl.wf, Contrib.wf, Depo.wf, Integ.wf, is_byte;
    apply _.
Defined.

Ltac zero_copy_instance size read write zero :=
  refine (Build_ZeroCopy _ _ _ size read write zero (fun _ _ => eq_refl)).

#[export] Instance zc_config : ZeroCopy RdData ProgramConfig.
Proof.
  zero_copy_instance SIZE_ProgramConfig
    (fun d => match d with ConfigData p rest => Some (p, rest) | _ => None end)
    ConfigData Config.zeroed.
Defined.
#[export] Instance zc_distribution : ZeroCopy RdData Distribution.
Proof.
  zero_copy_instance SIZE_Distribution
    (fun d => match d with DistributionData p rest => Some (p, rest) | _ => None end)
    DistributionData Dist.zeroed.
Defined.
#[export] Instance zc_journal : ZeroCopy RdData Journal.
Proof.
  zero_copy_instance SIZE_Journal
    (fun d => match d with JournalData p rest => Some (p, rest) | _ => None end)
    JournalData Jrnl.zeroed.
Defined.
#[export] Instance zc_contributor : ZeroCopy RdData ContributorRewards.
Proof.
  zero_copy_instance SIZE_ContributorRewards
    (fun d => match d with ContributorData p rest => Some (p, rest) | _ => None end)
    ContributorData Contrib.zeroed.
Defined.
#[export] Instance zc_deposit : ZeroCopy RdData SolanaValidatorDeposit.
Proof.
  zero_copy_instance SIZE_SolanaValidatorDeposit
    (fun d => match d with DepositData p rest => Some (p, rest) | _ => None end)
    DepositData Depo.zeroed.
Defined.
#[export] Instance zc_integration : ZeroCopy RdData RewardsIntegration.
Proof.
  zero_copy_instance SIZE_RewardsIntegration
    (fun d => match d with IntegrationData p rest => Some (p, rest) | _ => None end)
    IntegrationData Integ.zeroed.
Defined.

Lemma zc_config_inv d p rest : zc_read ProgramConfig d = Some (p, rest) <-> d = ConfigData p rest.
Proof. destruct d; cbn; naive_solver. Qed.
Lemma zc_distribution_inv d p rest : zc_read Distribution d = Some (p, rest) <-> d = DistributionData p rest.
Proof. destruct d; cbn; naive_solver. Qed.
Lemma zc_journal_inv d p rest : zc_read Journal d = Some (p, rest) <-> d = JournalData p rest.
Proof. destruct d; cbn; naive_solver. Qed.
Lemma zc_contributor_inv d p rest : zc_read ContributorRewards d = Some (p, rest) <-> d = ContributorData p rest.
Proof. destruct d; cbn; naive_solver. Qed.
Lemma zc_deposit_inv d p rest : zc_read SolanaValidatorDeposit d = Some (p, rest) <-> d = DepositData p rest.
Proof. destruct d; cbn; naive_solver. Qed.
Lemma zc_integration_inv d p rest : zc_read RewardsIntegration d = Some (p, rest) <-> d = IntegrationData p rest.
Proof. destruct d; cbn; naive_solver. Qed.

Lemma ledger_wf_acct `{KnownPrograms} L k : ledger_wf L -> wf_account (acct L k).
Proof.
  intros Hwf. unfold acct. destruct (L !! k) as [a|] eqn:E; cbn.
  - by eapply (map_Forall_lookup_1 _ L) in Hwf.
  - unfold wf_account, MAX_PERMITTED_DATA_LENGTH. cbn. repeat split; lia.
Qed.

Lemma ledger_wf_data `{KnownPrograms} L k d : ledger_wf L -> data (acct L k) = d -> wf_data d.
Proof. intros Hwf <-. by apply ledger_wf_acct. Qed.

Lemma ledger_wf_lamports `{KnownPrograms} L k : ledger_wf L -> fits 64 (lamports (acct L k)).
Proof. intros. by apply ledger_wf_acct. Qed.

Lemma ledger_wf_rest `{KnownPrograms} L k d rest :
  ledger_wf L -> data (acct L k) = DistributionData d rest -> lenZ rest < 2 ^ 31.
Proof.
  intros Hwf E. destruct (ledger_wf_acct L k Hwf) as (_ & Hl & _). rewrite E in Hl.
  cbn [rd_data_len] in Hl. unfold MAX_PERMITTED_DATA_LENGTH, DISCRIMINATOR_LEN, SIZE_Distribution in Hl.
  lia.
Qed.

(** Contents with a discriminator of the program. *)
Definition typed (d : RdData) : bool :=
  match d with Zeroed _ | Foreign _ => false | _ => true end.

(** A well-formed ledger on which only accounts of the program are typed. *)
Definition ledger_typed `{KnownPrograms} (L : Ledger RdData) : Prop :=
  ledger_wf L /\ forall k, typed (data (acct L k)) = true -> owner (acct L k) = ID.

(** What other programs can do to a ledger, in a CPI or in transactions of
    their own: the data and owners of the program's accounts stay, they are not
    debited, and the accounts the program comes to own are not typed. *)
Definition foreign_step `{KnownPrograms} (L L' : Ledger RdData) : Prop :=
  cpi_preserves ID L L' /\
  (forall k, owner (acct L k) = ID -> lamports (acct L k) <= lamports (acct L' k)) /\
  (ledger_typed L ->
   ledger_typed L' /\
   forall k, typed (data (acct L' k)) = true -> owner (acct L k) = ID).

(** [AccountInfo::resize] of a distribution keeps the struct and zero-fills;
    account data is bounded. *)
Class ResizeLaws (R : Runtime RdData) : Prop := {
  resize_distribution : forall d rest n d',
    resize_data (DistributionData d rest) n = Ok d' ->
    rd_data_len (DistributionData d rest) <= n ->
    d' = DistributionData d
           (rest ++ replicate (Z.to_nat (n - rd_data_len (DistributionData d rest))) 0);
  resize_bound : forall d n d', resize_data d n = Ok d' -> n <= MAX_PERMITTED_DATA_LENGTH
}.

(** Instruction data that carries no selector of the program. *)
Definition not_an_instruction (ix : Instruction) : bool :=
  match ix with
  | ProgramInstruction _ _ bytes =>
      match find_selector (take 8 bytes) with None => true | Some _ => false end
  | _ => true
  end.

(** What the theorems about handlers that invoke other programs rely on,
    besides the laws of the runtime: the program refuses, like any caller's,
    its own instructions without a selector ([try_process_instruction]); the
    ledger stays well-formed across a CPI, an account given to the program by
    another one has zero data, as assigning it requires, and the runtime checks
    that no instruction creates or destroys lamports. *)
Class RdLaws (R : Runtime RdData) : Prop := {
  rd_laws :: RuntimeLaws RdData R;
  rd_resize :: ResizeLaws R;
  rd_id_not_system : ID <> system_program_id;
  rd_self_refused : forall ix accounts seeds (L L' : Ledger RdData) ret,
    invoke_cpi ID ix accounts seeds L = Ok (L', ret) -> self_invocation ID ix = true ->
    not_an_instruction ix = false;
  rd_cpi_typed : forall ix accounts seeds (L L' : Ledger RdData) ret,
    invoke_cpi ID ix accounts seeds L = Ok (L', ret) -> self_invocation ID ix = false ->
    ledger_typed L ->
    ledger_typed L' /\ forall k, typed (data (acct L' k)) = true -> owner (acct L k) = ID;
  rd_cpi_balanced : forall ix accounts seeds (L L' : Ledger RdData) ret,
    invoke_cpi ID ix accounts seeds L = Ok (L', ret) -> total_lamports L' = total_lamports L
}.

Lemma ledger_wf_set L k a : ledger_wf L -> wf_account a -> ledger_wf (set_acct L k a).
Proof. intros. by apply map_Forall_insert_2. Qed.

Lemma ledger_typed_set `{KnownPrograms} L k a :
  ledger_typed L -> wf_account a -> (typed (data a) = true -> owner a = ID) ->
  ledger_typed (set_acct L k a).
Proof.
  intros [Hwf Ht] Ha Hd. split; [by apply ledger_wf_set|]. intros k'.
  destruct (decide (k = k')) as [->|Hne]; [by rewrite acct_set_eq|].
  rewrite acct_set_ne by done. apply Ht.
Qed.

Lemma foreign_preserves `{KnownPrograms} (L L' : Ledger RdData) :
  foreign_step L L' -> cpi_preserves ID L L'.
Proof. by intros [? _]. Qed.

Lemma foreign_step_refl `{KnownPrograms} (L : Ledger RdData) : foreign_step L L.
Proof. split_and!; [by intros k|done|]. intros [Hwf Ht]. done. Qed.

Lemma foreign_step_trans `{KnownPrograms} (L1 L2 L3 : Ledger RdData) :
  foreign_step L1 L2 -> foreign_step L2 L3 -> foreign_step L1 L3.
Proof.
  intros (P1 & B1 & T1) (P2 & B2 & T2). split_and!; [by eapply cpi_preserves_trans|..].
  { intros k Hk. specialize (B1 k Hk). specialize (B2 k (proj2 (P1 k Hk))). lia. }
  intros Hty.
  destruct (T1 Hty) as [H2 K1]. destruct (T2 H2) as [H3 K2]. split; [done|].
  intros k Hk. apply K1. pose proof (K2 k Hk) as Ho. destruct (P2 k Ho) as [<- _]. done.
Qed.

Lemma cpi_foreign `{R : Runtime RdData} `{!RdLaws R} ix accounts seeds (L L' : Ledger RdData) ret :
  invoke_cpi ID ix accounts seeds L = Ok (L', ret) -> self_invocation ID ix = false ->
  foreign_step L L'.
Proof.
  intros Hi Hs. split_and!.
  - exact (invoke_cpi_preserves R _ _ _ _ _ _ _ rd_id_not_system Hs Hi).
  - intros k Hk. by destruct (cpi_frame _ _ _ _ _ _ _ k Hi rd_id_not_system Hs Hk) as (_ & _ & ?).
  - by eapply rd_cpi_typed.
Qed.

Lemma cpi_foreign_step `{R : Runtime RdData} `{!RdLaws R} ix accounts seeds (L L' : Ledger RdData) ret :
  invoke_cpi ID ix accounts seeds L = Ok (L', ret) -> not_an_instruction ix = true ->
  foreign_step L L'.
Proof.
  intros Hi Hn. destruct (self_invocation ID ix) eqn:Hs.
  - pose proof (rd_self_refused _ _ _ _ _ _ Hi Hs). congruence.
  - by eapply cpi_foreign.
Qed.

Lemma cpi_closed_foreign `{R : Runtime RdData, !RdLaws R} : cpi_closed ID foreign_step.
Proof.
  split; [|apply foreign_step_trans]. intros ix accounts seeds L L' ret Hs Hi.
  by eapply cpi_foreign.
Qed.

(** ** The leaf bitmap

    [try_process_remaining_data_leaf_index]: the bit of a leaf must be inside
    the slice and clear; it is then set. *)
Definition try_process_remaining_data_leaf_index (processed_leaf_data : list Z) (leaf_index : Z)
    : Res (list Z) :=
  let leaf_byte_index := Z.to_nat (leaf_index / 8) in
  leaf_byte ← ok_or (processed_leaf_data !! leaf_byte_index) InvalidInstructionData;
  let leaf_bit := leaf_index mod 8 in
  require (negb (ByteFlags.bit leaf_byte leaf_bit)) InvalidAccountData;;
  mret (<[leaf_byte_index := ByteFlags.set_bit leaf_byte leaf_bit true]> processed_leaf_data).

(** [&mut data[range]] and [&data[range]]: slicing panics when the range is
    not inside the data; writing through the slice leaves the rest alone. *)
Definition slice (data : list Z) (range : Z * Z) : Res (list Z) :=
  let '(s, e) := range in
  if (s <=? e) && (e <=? lenZ data)
  then Ok (take (Z.to_nat (e - s)) (drop (Z.to_nat s) data)) else Panic.

Definition splice (data : list Z) (range : Z * Z) (sub : list Z) : list Z :=
  take (Z.to_nat range.1) data ++ sub ++ drop (Z.to_nat range.2) data.

(** Marking a leaf in the range of the remaining data that holds its bitmap. *)
Definition mark_leaf (rest : list Z) (range : Z * Z) (leaf : Z) : Res (list Z) :=
  bits ← slice rest range;
  bits ← try_process_remaining_data_leaf_index bits leaf;
  mret (splice rest range bits).

(** ** Lemmas: the leaf bitmap *)

(** Bit [i] of a byte string, counting from the least significant bit of the
    first byte; [false] outside. *)
Definition leaf_bit (data : list Z) (i : Z) : bool :=
  match data !! Z.to_nat (i / 8) with
  | Some b => Z.testbit b (i mod 8)
  | None => false
  end.

Lemma leaf_bits_insert data i b j :
  0 <= i -> 0 <= j -> bytes_ok data -> data !! Z.to_nat (i / 8) = Some b ->
  leaf_bit (<[Z.to_nat (i / 8) := ByteFlags.set_bit b (i mod 8) true]> data) j =
  if j =? i then true else leaf_bit data j.
Proof.
  intros Hi Hj Hd Hb. unfold leaf_bit.
  assert (0 <= i mod 8 < 8 /\ 0 <= j mod 8 < 8) as [Hmi Hmj] by (split; apply Z.mod_pos_bound; lia).
  assert (fits 8 b) as Hfit by (eapply Forall_lookup_1 in Hd; [|done]; done).
  destruct (decide (Z.to_nat (j / 8) = Z.to_nat (i / 8))) as [E|E].
  - rewrite E, list_lookup_insert_eq, Hb by (by eapply lookup_lt_Some).
    rewrite byte_set_bit by (done || lia).
    assert (j / 8 = i / 8) by (apply Z2Nat.inj; [apply Z.div_pos; lia..|done]).
    destruct (Z.eqb_spec (j mod 8) (i mod 8)), (Z.eqb_spec j i); try done.
    + pose proof (Z.div_mod i 8). pose proof (Z.div_mod j 8). lia.
    + subst. done.
  - rewrite list_lookup_insert_ne by done.
    destruct (Z.eqb_spec j i) as [->|]; [done|]. done.
Qed.

Lemma process_leaf_ok data i data' :
  0 <= i ->
  try_process_remaining_data_leaf_index data i = Ok data' <->
  exists b, data !! Z.to_nat (i / 8) = Some b /\ Z.testbit b (i mod 8) = false /\
            data' = <[Z.to_nat (i / 8) := ByteFlags.set_bit b (i mod 8) true]> data.
Proof.
  intros Hi. unfold try_process_remaining_data_leaf_index.
  assert (0 <= i mod 8 < 8) by (apply Z.mod_pos_bound; lia).
  assert (forall b, ByteFlags.bit b (i mod 8) = Z.testbit b (i mod 8)) as Hbit.
  { intros b. rewrite byte_bit_spec by lia. by rewrite (proj2 (Z.ltb_lt _ _)) by lia. }
  destruct (data !! Z.to_nat (i / 8)) as [b|]; cbn; [|split; [done|intros (? & ? & _); done]].
  rewrite Hbit. destruct (Z.testbit b (i mod 8)) eqn:E; cbn.
  - split; [done|]. intros (b' & [= <-] & ? & _). congruence.
  - split; [intros [= <-]; eauto|]. intros (b' & [= <-] & _ & ->). done.
Qed.

Lemma slice_ok rest s e bits :
  slice rest (s, e) = Ok bits <->
  s <= e <= lenZ rest /\ bits = take (Z.to_nat (e - s)) (drop (Z.to_nat s) rest).
Proof.
  unfold slice. destruct (Z.leb_spec s e), (Z.leb_spec e (lenZ rest)); cbn; naive_solver lia.
Qed.

(** Changing a byte of a slice changes that byte of the data. *)
Lemma splice_insert rest s e n v :
  0 <= s -> s <= e <= lenZ rest -> (n < Z.to_nat (e - s))%nat ->
  splice rest (s, e) (<[n := v]> (take (Z.to_nat (e - s)) (drop (Z.to_nat s) rest))) =
  <[(Z.to_nat s + n)%nat := v]> rest.
Proof.
  unfold lenZ. intros Hs He Hn. unfold splice. cbn [fst snd].
  rewrite <- (take_drop (Z.to_nat s) rest) at 4.
  rewrite insert_app_r_alt by (rewrite length_take; lia).
  f_equal. rewrite length_take_le by lia.
  replace (Z.to_nat s + n - Z.to_nat s)%nat with n by lia.
  rewrite <- (take_drop (Z.to_nat (e - s)) (drop (Z.to_nat s) rest)) at 2.
  rewrite insert_app_l by (rewrite length_take, length_drop; lia).
  f_equal. rewrite drop_drop. f_equal. lia.
Qed.

(** Marking a leaf is setting one bit of the remaining data, at the leaf's
    position counted from the start of the range. *)
Lemma mark_leaf_ok rest s e leaf rest' :
  0 <= s -> 0 <= leaf ->
  mark_leaf rest (s, e) leaf = Ok rest' <->
  s + leaf / 8 < e <= lenZ rest /\
  exists b, rest !! Z.to_nat ((8 * s + leaf) / 8) = Some b /\
            Z.testbit b ((8 * s + leaf) mod 8) = false /\
            rest' = <[Z.to_nat ((8 * s + leaf) / 8)
                        := ByteFlags.set_bit b ((8 * s + leaf) mod 8) true]> rest.
Proof.
  intros Hs Hl.
  assert (8 * s + leaf = leaf + s * 8) as -> by lia.
  rewrite Z.div_add, Z.mod_add by lia. rewrite (Z.add_comm (leaf / 8) s).
  assert (0 <= leaf / 8) as Hq by (apply Z.div_pos; lia).
  rewrite Z2Nat.inj_add by lia. unfold mark_leaf.
  split.
  - intros Hm. res_inv. apply slice_ok in H as [Hr ->].
    apply process_leaf_ok in H0 as (b & Hb & Hbit & ->); [|done].
    apply lookup_take_Some in Hb as [Hb Hlt]. rewrite lookup_drop in Hb.
    split; [lia|]. exists b. split_and!; [done|done|]. by apply splice_insert; lia.
  - intros ([Hlt He] & b & Hb & Hbit & ->).
    rewrite (proj2 (slice_ok rest s e (take (Z.to_nat (e - s)) (drop (Z.to_nat s) rest))))
      by (split; [lia|done]). cbn [mbind Res_bind].
    rewrite (proj2 (process_leaf_ok _ leaf
      (<[Z.to_nat (leaf / 8) := ByteFlags.set_bit b (leaf mod 8) true]>
         (take (Z.to_nat (e - s)) (drop (Z.to_nat s) rest))) Hl)).
    2:{ exists b. split_and!; [|done|done]. apply lookup_take_Some. rewrite lookup_drop.
        split; [done|lia]. }
    cbn [mbind Res_bind]. unfold mret, Res_ret. f_equal. apply splice_insert; lia.
Qed.

Section Accounts.
Context `{R : Runtime RdData}.

Abbreviation Mx := (M RdData).

(** ** Authorities *)
Inductive Authority : Type := Admin | DebtAccountant | RewardsAccountant | ContributorManager.

Definition authority_key (a : Authority) (p : ProgramConfig) : Pubkey :=
  match a with
  | Admin => Config.admin_key p
  | DebtAccountant => Config.debt_accountant_key p
  | RewardsAccountant => Config.rewards_accountant_key p
  | ContributorManager => Config.contributor_manager_key p
  end.

Definition try_next_as_authorized_account (a : Authority) (program_config : ProgramConfig)
    : Mx (nat * AccountInfo) :=
  '(index, authority_info) ←
    try_next_enumerated_account (default_options <| must_be_signer := true |>);
  ensure (key authority_info =? authority_key a program_config) InvalidAccountData;;
  mret (index, authority_info).

Definition verified_program_authority (a : Authority) : Mx Pubkey :=
  program_config ← zc_try_next_accounts ProgramConfig (Some ID);
  p ← deref ProgramConfig program_config;
  try_next_as_authorized_account a p;;
  mret program_config.

Definition verified_program_authority_mut (a : Authority) : Mx Pubkey :=
  program_config ← zc_mut_try_next_accounts ProgramConfig (Some ID);
  p ← deref ProgramConfig program_config;
  try_next_as_authorized_account a p;;
  mret program_config.

(** ** Token accounts and programs *)
Definition try_next_2z_mint_info : Mx unit :=
  '(_, mint_2z_info) ← try_next_enumerated_account default_options;
  ensure (key mint_2z_info =? DOUBLEZERO_MINT_KEY) InvalidAccountData.

Definition try_next_2z_token_pda_info (token_owner : Pubkey) (token_pda_bump : option Z)
    : Mx (nat * AccountInfo * Z) :=
  '(account_index, token_pda_info) ← try_next_enumerated_account default_options;
  '(expected_token_pda_key, token_pda_bump) ←
    match token_pda_bump with
    | Some bump_seed =>
        expected_pda_key ←
          lift (ok_or (checked_2z_token_pda_address token_owner bump_seed) InvalidSeeds);
        mret (expected_pda_key, bump_seed)
    | None => mret (find_2z_token_pda_address token_owner)
    end;
  ensure (key token_pda_info =? expected_token_pda_key) InvalidSeeds;;
  mret (account_index, token_pda_info, token_pda_bump).

Definition try_token_account_amount (k : Pubkey) : Mx Z :=
  d ← peek_data k;
  account ← lift (unpack_token_account d);
  mret (token_amount account).

Definition try_next_token_program_info : Mx unit :=
  '(_, token_program_info) ← try_next_enumerated_account default_options;
  ensure (key token_program_info =? spl_token_id) InvalidAccountData.

Definition try_leaf_index (proof : MerkleProof) : Res Z :=
  ok_or (leaf_index proof) InvalidInstructionData.

(** ** Guards *)
Definition try_require_unpaused (p : ProgramConfig) : Res unit :=
  require (negb (Config.is_paused p)) InvalidAccountData.
Definition try_require_unfinalized_debt_calculation (d : Distribution) : Res unit :=
  require (negb (Dist.is_debt_calculation_finalized d)) InvalidAccountData.
Definition try_require_finalized_debt_calculation (d : Distribution) : Res unit :=
  require (Dist.is_debt_calculation_finalized d) InvalidAccountData.
Definition try_require_unfinalized_rewards_calculation (d : Distribution) : Res unit :=
  require (negb (Dist.is_rewards_calculation_finalized d)) InvalidAccountData.
Definition try_require_has_not_swept_2z_tokens (d : Distribution) : Res unit :=
  require (negb (Dist.has_swept_2z_tokens d)) InvalidAccountData.

Definition calculation_allowed (d : Distribution) : bool :=
  match Dist.checked_calculation_allowed_timestamp d with
  | Some allowed_timestamp => allowed_timestamp <=? unix_timestamp
  | None => false
  end.
Definition try_require_calculation_allowed (d : Distribution) : Res unit :=
  require (calculation_allowed d) InvalidAccountData.

(** The bits of a distribution's remaining data in a range: the leaf is
    processed in place. *)
Definition process_distribution_leaf (distribution : Pubkey) (range : Distribution -> Z * Z)
    (leaf : Z) : Mx unit :=
  d ← deref Distribution distribution;
  rest ← remaining_data Distribution distribution;
  rest ← lift (mark_leaf rest (range d) leaf);
  modify_remaining Distribution distribution (fun _ => rest).
End Accounts.

(** ** Theorems: the leaf bitmap *)
Lemma process_leaf_bits data i data' :
  0 <= i -> bytes_ok data -> try_process_remaining_data_leaf_index data i = Ok data' ->
  length data' = length data /\ bytes_ok data' /\ leaf_bit data i = false /\
  i < 8 * lenZ data /\
  (forall j, 0 <= j -> leaf_bit data' j = if j =? i then true else leaf_bit data j).
Proof.
  intros Hi Hd (b & Hb & Hbit & ->)%process_leaf_ok; [|done].
  pose proof (Z.mod_pos_bound i 8). pose proof (Z.div_mod i 8).
  split_and!.
  - by rewrite length_insert.
  - apply Forall_insert; [done|].
    apply byte_set_bit_fits; [|lia]. by eapply Forall_lookup_1 in Hd.
  - unfold leaf_bit. by rewrite Hb.
  - apply lookup_lt_Some in Hb. unfold lenZ. lia.
  - intros j Hj. by apply leaf_bits_insert.
Qed.

(** Processing a leaf is total and exact: it succeeds exactly when the leaf
    is inside the bitmap and its bit is clear, and then sets that bit and no
    other and keeps the length; a leaf already processed is refused with
    [InvalidAccountData], one outside the bitmap with [InvalidInstructionData]. *)
Theorem leaf_bitmap_spec (data : list Z) (i : Z) :
  0 <= i -> bytes_ok data ->
  match try_process_remaining_data_leaf_index data i with
  | Ok data' =>
      i < 8 * lenZ data /\ leaf_bit data i = false /\
      length data' = length data /\ bytes_ok data' /\
      (forall j, 0 <= j -> leaf_bit data' j = if j =? i then true else leaf_bit data j)
  | Err InvalidAccountData => i < 8 * lenZ data /\ leaf_bit data i = true
  | Err e => e = InvalidInstructionData /\ 8 * lenZ data <= i
  | Panic => False
  end.
Proof.
  intros Hi Hd. destruct (try_process_remaining_data_leaf_index data i) as [data'| e|] eqn:E.
  - by apply process_leaf_bits in E as (? & ? & ? & ? & ?).
  - unfold try_process_remaining_data_leaf_index in E.
    pose proof (Z.mod_pos_bound i 8). pose proof (Z.div_mod i 8).
    destruct (data !! Z.to_nat (i / 8)) as [b|] eqn:Hb; cbn in E.
    + rewrite byte_bit_spec, (proj2 (Z.ltb_lt _ _)) in E by lia. cbn in E.
      destruct (Z.testbit b (i mod 8)) eqn:Hbit; [|done]. injection E as <-.
      unfold leaf_bit. rewrite Hb. apply lookup_lt_Some in Hb. unfold lenZ. split; [lia|done].
    + injection E as <-. apply lookup_ge_None in Hb. unfold lenZ. split; [done|lia].
  - unfold try_process_remaining_data_leaf_index in E.
    destruct (data !! Z.to_nat (i / 8)) as [b|]; cbn in E; [|done].
    by destruct (ByteFlags.bit b (i mod 8)).
Qed.

(** What marking a leaf in a range of the remaining data does to its bits. *)
Lemma mark_leaf_bits rest s e leaf rest' :
  0 <= s -> 0 <= leaf -> bytes_ok rest -> mark_leaf rest (s, e) leaf = Ok rest' ->
  length rest' = length rest /\ bytes_ok rest' /\ leaf_bit rest (8 * s + leaf) = false /\
  s + leaf / 8 < e <= lenZ rest /\
  (forall j, 0 <= j -> leaf_bit rest' j = if j =? 8 * s + leaf then true else leaf_bit rest j).
Proof.
  intros Hs Hl Hd (Hr & b & Hb & Hbit & ->)%mark_leaf_ok; [|done|done].
  pose proof (Z.mod_pos_bound (8 * s + leaf) 8).
  split_and!; try lia.
  - by rewrite length_insert.
  - apply Forall_insert; [done|]. apply byte_set_bit_fits; [|lia]. by eapply Forall_lookup_1 in Hd.
  - unfold leaf_bit. by rewrite Hb.
  - intros j Hj. apply leaf_bits_insert; [lia|done..].
Qed.

Lemma mark_leaf_again rest s e leaf rest' :
  0 <= s -> 0 <= leaf -> leaf_bit rest (8 * s + leaf) = true -> mark_leaf rest (s, e) leaf <> Ok rest'.
Proof.
  intros Hs Hl Hbit (_ & b & Hb & Hf & _)%mark_leaf_ok; [|done|done].
  unfold leaf_bit in Hbit. rewrite Hb in Hbit. congruence.
Qed.

Lemma two_marks bits bits1 bits2 i j :
  0 <= j ->
  (forall k, 0 <= k -> leaf_bit bits1 k = if k =? i then true else leaf_bit bits k) ->
  leaf_bit bits1 j = false ->
  (forall k, 0 <= k -> leaf_bit bits2 k = if k =? j then true else leaf_bit bits1 k) ->
  leaf_bit bits j = false /\
  (forall k, 0 <= k -> leaf_bit bits2 k = if (k =? i) || (k =? j) then true else leaf_bit bits k).
Proof.
  intros Hj H1 Hf H2. split.
  - rewrite H1 in Hf by done. by destruct (j =? i).
  - intros k Hk. rewrite H2, H1 by done. by destruct (k =? i), (k =? j).
Qed.
