(* ===== verification/Steps.v ===== *)
(** * Symbolic execution of handlers

    The tactics that apply the rules of the instruction monad to the handlers of
    the revenue-distribution program, and the rules of that program's account
    helpers: [step] executes one primitive, [steps] as many as it can.
    Facts about typed accounts are kept in the form
    [data (acct L k) = DistributionData d rest] over the ledger [L] the handler
    started from; [ledger] reads them through the updates made since. *)

From Stdlib Require Import ZArith Lia.
From S2P Require Import Prelude Types Runtime ProgramTools State RdAccounts.
From S2P Require Import Rules.

(** The leaf bitmap of a distribution. *)
Lemma wlp_process_leaf `{R : Runtime RdData} k range leaf d rest (Q : unit -> St RdData -> Prop)
    L i infos b r t :
  data (acct L k) = DistributionData d rest ->
  (forall rest', mark_leaf rest (range d) leaf = Ok rest' ->
     Q tt (MkSt (set_data L k (DistributionData d rest')) i infos b r t)) ->
  wlp (process_distribution_leaf k range leaf) Q (MkSt L i infos b r t).
Proof.
  intros E HQ. unfold process_distribution_leaf.
  apply wlp_bind; eapply wlp_deref; [by rewrite E|].
  apply wlp_bind; eapply wlp_remaining_data; [by rewrite E|].
  apply wlp_bind, wlp_lift. intros rest' Hm.
  eapply wlp_modify_remaining; [by rewrite E|]. by apply HQ.
Qed.

(** ** Tactics *)

(** Typed reads as equations on the data. *)
Ltac zc_norm :=
  repeat match goal with
  | H : zc_read ProgramConfig _ = Some (_, _) |- _ => apply zc_config_inv in H
  | H : zc_read Distribution _ = Some (_, _) |- _ => apply zc_distribution_inv in H
  | H : zc_read Journal _ = Some (_, _) |- _ => apply zc_journal_inv in H
  | H : zc_read ContributorRewards _ = Some (_, _) |- _ => apply zc_contributor_inv in H
  | H : zc_read SolanaValidatorDeposit _ = Some (_, _) |- _ => apply zc_deposit_inv in H
  | H : zc_read RewardsIntegration _ = Some (_, _) |- _ => apply zc_integration_inv in H
  end.

Ltac zc_cbn :=
  cbn [zc_write zc_zeroed zc_config zc_distribution zc_journal zc_contributor zc_deposit
       zc_integration]; rewrite ?set_data_set_data.

(** What the theorems use of a CPI. *)
Ltac cpi_note H :=
  let Hf := fresh "Hforeign" in let Hb := fresh "Hbalanced" in
  first
    [ pose proof (cpi_foreign_step _ _ _ _ _ _ H eq_refl) as Hf;
      pose proof (rd_cpi_balanced _ _ _ _ _ _ H) as Hb;
      clear H; pose proof (foreign_preserves _ _ Hf) as H
    | idtac ].

Ltac step :=
  lazymatch goal with
  | |- wlp (process_distribution_leaf _ _ _) _ _ =>
      eapply wlp_process_leaf; [view_read|];
      let Hm := fresh "Hmark" in intros ? Hm; rewrite ?set_data_set_data
  | _ => step_with zc_norm view_read zc_cbn cpi_note
  end; cbn beta.

Ltac steps := repeat step.

(** Settles the guards of the handlers into equations on the accounts. *)
Ltac guards :=
  repeat match goal with
  | H : try_leaf_index _ = Ok _ |- _ => apply ok_or_ok in H
  | H : try_require_unpaused _ = Ok _ |- _ => apply require_ok in H; apply negb_true_iff in H
  | H : try_require_unfinalized_debt_calculation _ = Ok _ |- _ =>
      apply require_ok in H; apply negb_true_iff in H
  | H : try_require_finalized_debt_calculation _ = Ok _ |- _ => apply require_ok in H
  | H : try_require_unfinalized_rewards_calculation _ = Ok _ |- _ =>
      apply require_ok in H; apply negb_true_iff in H
  | H : try_require_has_not_swept_2z_tokens _ = Ok _ |- _ =>
      apply require_ok in H; apply negb_true_iff in H
  | H : try_require_calculation_allowed _ = Ok _ |- _ => apply require_ok in H
  | H : Dist.checked_total_sol_debt _ = Some _ |- _ =>
      unfold Dist.checked_total_sol_debt in H; apply checked_sub_Some in H as [? ?]; subst
  | H : () |- _ => destruct H
  end.

(** The typed accounts read so far are well-formed. *)
Ltac wf_facts :=
  repeat match goal with
  | Hwf : ledger_wf ?L, H : data (acct ?L ?k) = ?d |- _ =>
      lazymatch goal with
      | _ : wf_data d |- _ => fail
      | _ => pose proof (ledger_wf_data L k d Hwf H)
      end
  end.

(** [fits w x] for a field of a well-formed struct, and what follows. *)
Ltac field_in := cbn; solve [repeat first [left; reflexivity | right]].
Ltac fit :=
  lazymatch goal with
  | H : fits _ ?x |- fits _ ?x => exact H
  | |- fits _ (lamports _) => apply ledger_wf_lamports; assumption
  | |- fits _ (minimum_balance _) => apply minimum_balance_u64
  | H : leaf_index _ = Some ?l |- fits _ ?l => exact (leaf_index_u32 _ _ H)
  | _ => match goal with
      | H : wf_data (ConfigData ?p _) |- fits _ _ =>
          apply (fields_fit_in (Config.fields p)); [exact (proj1 H)|field_in]
      | H : wf_data (DistributionData ?p _) |- fits _ _ =>
          apply (fields_fit_in (Dist.fields p)); [exact (proj1 H)|field_in]
      | H : wf_data (JournalData ?p _) |- fits _ _ =>
          apply (fields_fit_in (Jrnl.fields p)); [exact (proj1 H)|field_in]
      | H : wf_data (DepositData ?p _) |- fits _ _ =>
          apply (fields_fit_in _ _ _ (proj1 H)); field_in
      | H : wf_data (IntegrationData ?p _) |- fits _ _ =>
          apply (fields_fit_in _ _ _ (proj1 H)); field_in
      end
  end.
Ltac nonneg :=
  lazymatch goal with
  | |- 0 <= Zpos _ => exact (Pos2Z.is_nonneg _)
  | H : 0 <= ?x |- 0 <= ?x => exact H
  | _ => first [eapply fits_nonneg; fit | lia]
  end.

(** What marking a leaf in a well-formed distribution does to its bits. *)
Ltac mark_norm :=
  repeat match goal with
  | H : mark_leaf _ (?range _) _ = Ok _, W : wf_data (DistributionData _ ?rest) |- _ =>
      unfold range in H;
      cbn [update Dist.processed_solana_validator_debt_start_index
           Dist.processed_solana_validator_debt_end_index Dist.processed_rewards_start_index
           Dist.processed_rewards_end_index
           Dist.processed_solana_validator_debt_write_off_start_index
           Dist.processed_solana_validator_debt_write_off_end_index] in H;
      apply mark_leaf_bits in H as (? & ? & ? & ? & ?);
        [|solve [nonneg]|solve [nonneg]|solve [exact (proj2 W) | assumption]]
  end.

(** Additions of machine integers as wrapped sums. *)
Ltac arith_norm :=
  repeat match goal with
  | H : arith_add _ _ _ = Ok _ |- _ =>
      apply arith_add_wrap in H; [subst|lia|solve [nonneg]|solve [nonneg]]
  end.

(** Settles the final state: reads through the updates. *)
Ltac finish := cbn [st_ledger st_trace app]; ledger; cpi_read; ledger.

(** ** Rules for the account helpers of the program *)
Section AccountRules.
Context `{R : Runtime RdData}.
Context (L : Ledger RdData) (i : nat) (infos : list AccountInfo) (b : list (Pubkey * bool))
        (r : option (Pubkey * list Z)) (t : list Instruction).

Lemma wlp_verified_authority a m0 m1 (Q : Pubkey -> St RdData -> Prop) :
  (forall p prest,
     data (acct L (key m0)) = ConfigData p prest -> owner (acct L (key m0)) = ID ->
     borrowed_mut (key m0) b = false ->
     is_signer m1 = true -> key m1 = authority_key a p ->
     Q (key m0) (MkSt L (S (S i)) infos ((key m0, false) :: b) r t)) ->
  wlp (verified_program_authority a) Q (MkSt L i (m0 :: m1 :: infos) b r t).
Proof.
  intros HQ. unfold verified_program_authority, try_next_as_authorized_account. steps. by eapply HQ.
Qed.

Lemma wlp_verified_authority_mut a m0 m1 (Q : Pubkey -> St RdData -> Prop) :
  (forall p prest,
     data (acct L (key m0)) = ConfigData p prest -> owner (acct L (key m0)) = ID ->
     borrowed (key m0) b = false -> is_writable m0 = true ->
     is_signer m1 = true -> key m1 = authority_key a p ->
     Q (key m0) (MkSt L (S (S i)) infos ((key m0, true) :: b) r t)) ->
  wlp (verified_program_authority_mut a) Q (MkSt L i (m0 :: m1 :: infos) b r t).
Proof.
  intros HQ. unfold verified_program_authority_mut, try_next_as_authorized_account. steps.
  by eapply HQ.
Qed.

Lemma wlp_2z_mint m (Q : unit -> St RdData -> Prop) :
  (key m = DOUBLEZERO_MINT_KEY -> Q tt (MkSt L (S i) infos b r t)) ->
  wlp try_next_2z_mint_info Q (MkSt L i (m :: infos) b r t).
Proof. intros HQ. unfold try_next_2z_mint_info. steps. auto. Qed.

Lemma wlp_token_program m (Q : unit -> St RdData -> Prop) :
  (key m = spl_token_id -> Q tt (MkSt L (S i) infos b r t)) ->
  wlp try_next_token_program_info Q (MkSt L i (m :: infos) b r t).
Proof. intros HQ. unfold try_next_token_program_info. steps. auto. Qed.

Lemma wlp_token_pda_bump token_owner bump m (Q : nat * AccountInfo * Z -> St RdData -> Prop) :
  (checked_2z_token_pda_address token_owner bump = Some (key m) ->
   Q (i, m, bump) (MkSt L (S i) infos b r t)) ->
  wlp (try_next_2z_token_pda_info token_owner (Some bump)) Q (MkSt L i (m :: infos) b r t).
Proof. intros HQ. unfold try_next_2z_token_pda_info. steps. apply HQ. congruence. Qed.

Lemma wlp_token_pda_find token_owner m (Q : nat * AccountInfo * Z -> St RdData -> Prop) :
  (forall bump, find_2z_token_pda_address token_owner = (key m, bump) ->
   Q (i, m, bump) (MkSt L (S i) infos b r t)) ->
  wlp (try_next_2z_token_pda_info token_owner None) Q (MkSt L i (m :: infos) b r t).
Proof.
  intros HQ. unfold try_next_2z_token_pda_info.
  destruct (find_2z_token_pda_address token_owner) as [k bump] eqn:E. steps. apply HQ. congruence.
Qed.

Lemma wlp_token_amount k (Q : Z -> St RdData -> Prop) :
  (forall account, borrowed_mut k b = false -> unpack_token_account (data (acct L k)) = Ok account ->
     Q (token_amount account) (MkSt L i infos b r t)) ->
  wlp (try_token_account_amount k) Q (MkSt L i infos b r t).
Proof. intros HQ. unfold try_token_account_amount. steps. by apply HQ. Qed.

Lemma wlp_verified_authority_short a m0 (Q : Pubkey -> St RdData -> Prop) :
  wlp (verified_program_authority a) Q (MkSt L i [m0] b r t).
Proof. unfold verified_program_authority, try_next_as_authorized_account. steps. Qed.

Lemma wlp_verified_authority_mut_short a m0 (Q : Pubkey -> St RdData -> Prop) :
  wlp (verified_program_authority_mut a) Q (MkSt L i [m0] b r t).
Proof. unfold verified_program_authority_mut, try_next_as_authorized_account. steps. Qed.

Lemma wlp_verified_authority_nil a (Q : Pubkey -> St RdData -> Prop) :
  wlp (verified_program_authority a) Q (MkSt L i [] b r t).
Proof. unfold verified_program_authority. steps. Qed.

Lemma wlp_verified_authority_mut_nil a (Q : Pubkey -> St RdData -> Prop) :
  wlp (verified_program_authority_mut a) Q (MkSt L i [] b r t).
Proof. unfold verified_program_authority_mut. steps. Qed.
End AccountRules.

Section CreateRules.
Context `{R : Runtime RdData} `{!RdLaws R}.
Context (L : Ledger RdData) (i : nat) (infos : list AccountInfo) (b : list (Pubkey * bool))
        (r : option (Pubkey * list Z)) (t : list Instruction).

Lemma wlp_create_account payer new cur len pid accounts extra (Q : unit -> St RdData -> Prop) :
  (forall L' r', foreign_step L L' -> (pid = ID -> owner (acct L' (invoker_key new)) = ID) ->
     executes ID accounts (create_account_calls payer new cur len pid extra) (L, r) (L', r') ->
     Q tt (MkSt L' i infos b r' (t ++ create_account_ixs payer new cur len pid extra))) ->
  wlp (try_create_account ID payer new cur len pid accounts extra) Q (MkSt L i infos b r t).
Proof.
  intros HQ [] s' Hrun. pose proof (create_account_executes _ _ _ _ _ _ _ _ _ _ _ Hrun) as Hx.
  apply create_account_run in Hrun as ((ret & E) & Hp & Ho); [|apply rd_id_not_system].
  rewrite E in Hx |- *.
  apply HQ; [exact (Hp _ cpi_closed_foreign)|exact Ho|exact Hx].
Qed.

Lemma wlp_create_token_account payer new mint token_owner cur accounts (Q : unit -> St RdData -> Prop) :
  (forall L' r', foreign_step L L' ->
     executes ID accounts (create_token_account_calls payer new mint token_owner cur) (L, r) (L', r') ->
     Q tt (MkSt L' i infos b r' (t ++ create_token_account_ixs payer new mint token_owner cur))) ->
  wlp (try_create_token_account ID payer new mint token_owner cur accounts) Q (MkSt L i infos b r t).
Proof.
  intros HQ [] s' Hrun.
  pose proof (create_token_account_executes _ _ _ _ _ _ _ _ _ _ Hrun) as Hx.
  apply create_token_account_run in Hrun as ((ret & E) & Hp); [|apply rd_id_not_system].
  rewrite E in Hx |- *.
  apply HQ; [exact (Hp _ cpi_closed_foreign)|exact Hx].
Qed.
End CreateRules.

Ltac astep :=
  lazymatch goal with
  | |- wlp (verified_program_authority _) _ (MkSt _ _ [] _ _ _) => apply wlp_verified_authority_nil
  | |- wlp (verified_program_authority _) _ (MkSt _ _ [_] _ _ _) =>
      first [apply wlp_verified_authority_short | apply wlp_verified_authority]
  | |- wlp (verified_program_authority _) _ _ =>
      apply wlp_verified_authority;
      let p := fresh "p" in let rest := fresh "rest" in
      let H := fresh "Hdata" in let Ho := fresh "Howner" in let Hb := fresh "Hborrow" in
      let Hs := fresh "Hsigner" in let Hk := fresh "Hauthority" in
      intros p rest H Ho Hb Hs Hk; cbn [authority_key] in Hk
  | |- wlp (verified_program_authority_mut _) _ (MkSt _ _ [] _ _ _) =>
      apply wlp_verified_authority_mut_nil
  | |- wlp (verified_program_authority_mut _) _ (MkSt _ _ [_] _ _ _) =>
      first [apply wlp_verified_authority_mut_short | apply wlp_verified_authority_mut]
  | |- wlp (verified_program_authority_mut _) _ _ =>
      apply wlp_verified_authority_mut;
      let p := fresh "p" in let rest := fresh "rest" in
      let H := fresh "Hdata" in let Ho := fresh "Howner" in let Hb := fresh "Hborrow" in
      let Hs := fresh "Hsigner" in let Hk := fresh "Hauthority" in
      let Hw := fresh "Hwritable" in intros p rest H Ho Hb Hw Hs Hk; cbn [authority_key] in Hk
  | |- wlp try_next_2z_mint_info _ _ => apply wlp_2z_mint; let H := fresh "Hmint" in intros H
  | |- wlp try_next_token_program_info _ _ =>
      apply wlp_token_program; let H := fresh "Htoken" in intros H
  | |- wlp (try_next_2z_token_pda_info _ (Some _)) _ _ =>
      apply wlp_token_pda_bump; let H := fresh "Hpda" in intros H
  | |- wlp (try_next_2z_token_pda_info _ None) _ _ =>
      apply wlp_token_pda_find; let bump := fresh "bump" in let H := fresh "Hpda" in intros bump H
  | |- wlp (try_token_account_amount _) _ _ =>
      apply wlp_token_amount;
      let a := fresh "account" in let Hb := fresh "Hborrow" in let H := fresh "Hamount" in
      intros a Hb H
  | |- wlp (try_create_account _ _ _ _ _ _ _ _) _ _ =>
      apply wlp_create_account;
      let L' := fresh "L" in let r := fresh "r" in
      let H := fresh "Hcpi" in let Hf := fresh "Hforeign" in let Ho := fresh "Hown" in
      let Hx := fresh "Hexec" in
      intros L' r Hf Ho Hx; pose proof (foreign_preserves _ _ Hf) as H;
      cbn [invoker_key] in Ho; specialize (Ho eq_refl)
  | |- wlp (try_create_token_account _ _ _ _ _ _ _) _ _ =>
      apply wlp_create_token_account;
      let L' := fresh "L" in let r := fresh "r" in
      let H := fresh "Hcpi" in let Hf := fresh "Hforeign" in
      let Hx := fresh "Hexec" in
      intros L' r Hf Hx; pose proof (foreign_preserves _ _ Hf) as H
  | |- wlp (if ?c then _ else _) _ _ =>
      let E := fresh "E" in destruct c eqn:E; bool_to_prop
  | |- wlp (let '(_, _) := ?p in _) _ _ => let E := fresh "E" in destruct p as [? ?] eqn:E
  | _ => step
  end; cbn beta iota zeta.

Ltac asteps := repeat astep.
