(* ===== verification/RdTotal.v ===== *)
(** * Total correctness for the revenue-distribution program

    The layouts of its account types and the forward rule of its leaf bitmap;
    [tstep] executes one primitive of its handlers. *)

From Stdlib Require Import ZArith Lia.
From S2P Require Import Prelude Types Runtime ProgramTools State RdAccounts Rules Total Steps.

Ltac solve_layout :=
  let d := fresh in let x := fresh in let rest := fresh in let Hr := fresh in
  intros d x rest Hr; destruct d; cbn in Hr; try discriminate Hr;
  unfold data_end; cbn [size_of data_len RdData_account rd_data_len zc_config zc_distribution
    zc_journal zc_contributor zc_deposit zc_integration]; unfold lenZ; lia.
#[export] Instance layout_config : FitsLayout ProgramConfig.
Proof. solve_layout. Qed.
#[export] Instance layout_distribution : FitsLayout Distribution.
Proof. solve_layout. Qed.
#[export] Instance layout_journal : FitsLayout Journal.
Proof. solve_layout. Qed.
#[export] Instance layout_deposit : FitsLayout SolanaValidatorDeposit.
Proof. solve_layout. Qed.

Lemma twp_process_leaf `{R : Runtime RdData} k range leaf d rest rest' (Q : unit -> St RdData -> Prop)
    L i infos b r t :
  data (acct L k) = DistributionData d rest -> mark_leaf rest (range d) leaf = Ok rest' ->
  Q tt (MkSt (set_data L k (DistributionData d rest')) i infos b r t) ->
  twp (process_distribution_leaf k range leaf) Q (MkSt L i infos b r t).
Proof.
  intros E Hm HQ. unfold process_distribution_leaf.
  apply twp_bind; eapply twp_deref; [by rewrite E|].
  apply twp_bind; eapply twp_remaining_data; [by rewrite E|].
  apply twp_bind; eapply twp_lift; [exact Hm|].
  eapply twp_modify_remaining; [by rewrite E|]. exact HQ.
Qed.

Ltac tstep :=
  lazymatch goal with
  | |- twp (process_distribution_leaf _ _ _) _ _ =>
      eapply twp_process_leaf; [view_read| |]; rewrite ?set_data_set_data
  | _ => tstep_with zc_cbn
  end; cbn beta iota zeta.
