(* ===== verification/RdClient.v ===== *)
(** * Account lists of the revenue-distribution client

    [instruction/account.rs]: for each instruction the keys a client has to give
    ([t]), how they are derived from the arguments ([new]) and the list of
    account metas sent with the instruction ([metas], the conversion into
    [Vec<AccountMeta>]). *)

From Stdlib Require Import ZArith Lia String.
From S2P Require Import Prelude Types Runtime ProgramTools State.

(** A module of its own, and one in it for each struct. *)
Module Client.

Module InitializeProgramAccounts.
Record t : Type := Mk {
  payer_key : Pubkey;
  new_program_config_key : Pubkey;
  new_reserve_2z_key : Pubkey;
  dz_mint_key : Pubkey
}.

Definition new `{Pda} `{KnownPrograms} (payer_key dz_mint_key : Pubkey) : t :=
  let new_program_config_key := Config.find_address.1 in
  {| payer_key := payer_key;
     new_program_config_key := new_program_config_key;
     new_reserve_2z_key := (find_2z_token_pda_address new_program_config_key).1;
     dz_mint_key := dz_mint_key |}.

Definition metas `{KnownPrograms} (accounts : t) : list AccountInfo :=
  [meta_new (payer_key accounts) true;
   meta_new (new_program_config_key accounts) false;
   meta_new (new_reserve_2z_key accounts) false;
   meta_new_readonly (dz_mint_key accounts) false;
   meta_new_readonly spl_token_id false;
   meta_new_readonly system_program_id false].
End InitializeProgramAccounts.

Module SetAdminAccounts.
Record t : Type := Mk {
  program_data_key : Pubkey;
  upgrade_authority_key : Pubkey;
  program_config_key : Pubkey
}.

Definition new `{Pda} `{KnownPrograms} (program_id upgrade_authority_key : Pubkey) : t :=
  {| program_data_key := (get_program_data_address BPF_LOADER_UPGRADEABLE program_id).1;
     upgrade_authority_key := upgrade_authority_key;
     program_config_key := Config.find_address.1 |}.

Definition metas (accounts : t) : list AccountInfo :=
  [meta_new_readonly (program_data_key accounts) false;
   meta_new_readonly (upgrade_authority_key accounts) true;
   meta_new (program_config_key accounts) false].
End SetAdminAccounts.

Module MigrateProgramAccountsAccounts.
Record t : Type := Mk {
  program_data_key : Pubkey;
  upgrade_authority_key : Pubkey;
  journal_key : Pubkey;
  distribution_keys : list Pubkey
}.

Definition new `{Pda} `{KnownPrograms} (program_id upgrade_authority_key : Pubkey)
    (dz_epochs : list DoubleZeroEpoch) : t :=
  {| program_data_key := (get_program_data_address BPF_LOADER_UPGRADEABLE program_id).1;
     upgrade_authority_key := upgrade_authority_key;
     journal_key := Jrnl.find_address.1;
     distribution_keys := (fun dz_epoch => (Dist.find_address dz_epoch).1) <$> dz_epochs |}.

Definition metas (accounts : t) : list AccountInfo :=
  [meta_new_readonly (program_data_key accounts) false;
   meta_new_readonly (upgrade_authority_key accounts) true;
   meta_new_readonly (journal_key accounts) false]
  ++ ((fun key => meta_new key false) <$> distribution_keys accounts).
End MigrateProgramAccountsAccounts.

Module ConfigureProgramAccounts.
Record t : Type := Mk {
  program_config_key : Pubkey;
  admin_key : Pubkey
}.

Definition new `{Pda} (admin_key : Pubkey) : t :=
  {| program_config_key := Config.find_address.1;
     admin_key := admin_key |}.

Definition metas (accounts : t) : list AccountInfo :=
  [meta_new (program_config_key accounts) false;
   meta_new_readonly (admin_key accounts) true].
End ConfigureProgramAccounts.

Module InitializeJournalAccounts.
Record t : Type := Mk {
  payer_key : Pubkey;
  new_journal_key : Pubkey;
  new_journal_2z_token_pda_key : Pubkey;
  dz_mint_key : Pubkey
}.

Definition new `{Pda} `{KnownPrograms} (payer_key dz_mint_key : Pubkey) : t :=
  let new_journal_key := Jrnl.find_address.1 in
  {| payer_key := payer_key;
     new_journal_key := new_journal_key;
     new_journal_2z_token_pda_key := (find_2z_token_pda_address new_journal_key).1;
     dz_mint_key := dz_mint_key |}.

Definition metas `{KnownPrograms} (accounts : t) : list AccountInfo :=
  [meta_new (payer_key accounts) true;
   meta_new (new_journal_key accounts) false;
   meta_new (new_journal_2z_token_pda_key accounts) false;
   meta_new_readonly (dz_mint_key accounts) false;
   meta_new_readonly spl_token_id false;
   meta_new_readonly system_program_id false].
End InitializeJournalAccounts.

Module ConfigureJournalAccounts.
Record t : Type := Mk {
  program_config_key : Pubkey;
  admin_key : Pubkey;
  journal_key : Pubkey
}.

Definition new `{Pda} (admin_key : Pubkey) : t :=
  {| program_config_key := Config.find_address.1;
     admin_key := admin_key;
     journal_key := Jrnl.find_address.1 |}.

Definition metas (accounts : t) : list AccountInfo :=
  [meta_new_readonly (program_config_key accounts) false;
   meta_new_readonly (admin_key accounts) true;
   meta_new (journal_key accounts) false].
End ConfigureJournalAccounts.

Module InitializeDistributionAccounts.
Record t : Type := Mk {
  program_config_key : Pubkey;
  debt_accountant_key : Pubkey;
  payer_key : Pubkey;
  new_distribution_key : Pubkey;
  new_distribution_2z_token_pda_key : Pubkey;
  dz_mint_key : Pubkey;
  journal_key : Pubkey;
  journal_2z_token_pda_key : Pubkey;
  journal_ata_key : Pubkey
}.

Definition new `{Pda} `{KnownPrograms} (debt_accountant_key payer_key : Pubkey)
    (dz_epoch : DoubleZeroEpoch) (dz_mint_key : Pubkey) : t :=
  let new_distribution_key := (Dist.find_address dz_epoch).1 in
  let journal_key := Jrnl.find_address.1 in
  {| program_config_key := Config.find_address.1;
     debt_accountant_key := debt_accountant_key;
     payer_key := payer_key;
     new_distribution_key := new_distribution_key;
     new_distribution_2z_token_pda_key := (find_2z_token_pda_address new_distribution_key).1;
     dz_mint_key := dz_mint_key;
     journal_key := journal_key;
     journal_2z_token_pda_key := (find_2z_token_pda_address journal_key).1;
     journal_ata_key := get_associated_token_address journal_key dz_mint_key |}.

Definition metas `{KnownPrograms} (accounts : t) : list AccountInfo :=
  [meta_new (program_config_key accounts) false;
   meta_new_readonly (debt_accountant_key accounts) true;
   meta_new (payer_key accounts) true;
   meta_new (new_distribution_key accounts) false;
   meta_new (new_distribution_2z_token_pda_key accounts) false;
   meta_new_readonly (dz_mint_key accounts) false;
   meta_new_readonly spl_token_id false;
   meta_new (journal_key accounts) false;
   meta_new (journal_2z_token_pda_key accounts) false;
   meta_new (journal_ata_key accounts) false;
   meta_new_readonly system_program_id false].
End InitializeDistributionAccounts.

Module ConfigureDistributionDebtAccounts.
Record t : Type := Mk {
  program_config_key : Pubkey;
  debt_accountant_key : Pubkey;
  distribution_key : Pubkey
}.

Definition new `{Pda} (debt_accountant_key : Pubkey) (dz_epoch : DoubleZeroEpoch) : t :=
  {| program_config_key := Config.find_address.1;
     debt_accountant_key := debt_accountant_key;
     distribution_key := (Dist.find_address dz_epoch).1 |}.

Definition metas (accounts : t) : list AccountInfo :=
  [meta_new_readonly (program_config_key accounts) false;
   meta_new_readonly (debt_accountant_key accounts) true;
   meta_new (distribution_key accounts) false].
End ConfigureDistributionDebtAccounts.

Module FinalizeDistributionDebtAccounts.
Record t : Type := Mk {
  program_config_key : Pubkey;
  debt_accountant_key : Pubkey;
  distribution_key : Pubkey;
  payer_key : Pubkey
}.

Definition new `{Pda} (debt_accountant_key : Pubkey) (dz_epoch : DoubleZeroEpoch)
    (payer_key : Pubkey) : t :=
  {| program_config_key := Config.find_address.1;
     debt_accountant_key := debt_accountant_key;
     distribution_key := (Dist.find_address dz_epoch).1;
     payer_key := payer_key |}.

Definition metas `{KnownPrograms} (accounts : t) : list AccountInfo :=
  [meta_new_readonly (program_config_key accounts) false;
   meta_new_readonly (debt_accountant_key accounts) true;
   meta_new (distribution_key accounts) false;
   meta_new (payer_key accounts) true;
   meta_new_readonly system_program_id false].
End FinalizeDistributionDebtAccounts.

Module ConfigureDistributionRewardsAccounts.
Record t : Type := Mk {
  program_config_key : Pubkey;
  rewards_accountant_key : Pubkey;
  distribution_key : Pubkey
}.

Definition new `{Pda} (rewards_accountant_key : Pubkey) (dz_epoch : DoubleZeroEpoch) : t :=
  {| program_config_key := Config.find_address.1;
     rewards_accountant_key := rewards_accountant_key;
     distribution_key := (Dist.find_address dz_epoch).1 |}.

Definition metas (accounts : t) : list AccountInfo :=
  [meta_new_readonly (program_config_key accounts) false;
   meta_new_readonly (rewards_accountant_key accounts) true;
   meta_new (distribution_key accounts) false].
End ConfigureDistributionRewardsAccounts.

Module FinalizeDistributionRewardsAccounts.
Record t : Type := Mk {
  program_config_key : Pubkey;
  distribution_key : Pubkey;
  payer_key : Pubkey
}.

Definition new `{Pda} (payer_key : Pubkey) (dz_epoch : DoubleZeroEpoch) : t :=
  {| program_config_key := Config.find_address.1;
     distribution_key := (Dist.find_address dz_epoch).1;
     payer_key := payer_key |}.

Definition metas `{KnownPrograms} (accounts : t) : list AccountInfo :=
  [meta_new_readonly (program_config_key accounts) false;
   meta_new (distribution_key accounts) false;
   meta_new (payer_key accounts) true;
   meta_new_readonly system_program_id false].
End FinalizeDistributionRewardsAccounts.

Module DistributeRewardsAccounts.
Record t : Type := Mk {
  program_config_key : Pubkey;
  distribution_key : Pubkey;
  contributor_rewards_key : Pubkey;
  distribution_2z_token_pda_key : Pubkey;
  dz_mint_key : Pubkey;
  relayer_key : Pubkey;
  recipient_ata_keys : list Pubkey
}.

Definition new `{Pda} `{KnownPrograms} (dz_epoch : DoubleZeroEpoch)
    (service_key dz_mint_key relayer_key : Pubkey) (recipient_keys : list Pubkey) : t :=
  let distribution_key := (Dist.find_address dz_epoch).1 in
  let recipient_ata_keys :=
      (fun owner_key => get_associated_token_address owner_key dz_mint_key) <$> recipient_keys in
  {| program_config_key := Config.find_address.1;
     distribution_key := distribution_key;
     contributor_rewards_key := (Contrib.find_address service_key).1;
     distribution_2z_token_pda_key := (find_2z_token_pda_address distribution_key).1;
     dz_mint_key := dz_mint_key;
     relayer_key := relayer_key;
     recipient_ata_keys := recipient_ata_keys |}.

Definition metas `{KnownPrograms} (accounts : t) : list AccountInfo :=
  [meta_new_readonly (program_config_key accounts) false;
   meta_new (distribution_key accounts) false;
   meta_new_readonly (contributor_rewards_key accounts) false;
   meta_new (distribution_2z_token_pda_key accounts) false;
   meta_new (dz_mint_key accounts) false;
   meta_new (relayer_key accounts) false;
   meta_new_readonly spl_token_id false]
  ++ ((fun key => meta_new key false) <$> recipient_ata_keys accounts).
End DistributeRewardsAccounts.

Module InitializeContributorRewardsAccounts.
Record t : Type := Mk {
  payer_key : Pubkey;
  new_contributor_rewards_key : Pubkey
}.

Definition new `{Pda} (payer_key service_key : Pubkey) : t :=
  {| payer_key := payer_key;
     new_contributor_rewards_key := (Contrib.find_address service_key).1 |}.

Definition metas `{KnownPrograms} (accounts : t) : list AccountInfo :=
  [meta_new (payer_key accounts) true;
   meta_new (new_contributor_rewards_key accounts) false;
   meta_new_readonly system_program_id false].
End InitializeContributorRewardsAccounts.

Module SetRewardsManagerAccounts.
Record t : Type := Mk {
  program_config_key : Pubkey;
  contributor_manager_key : Pubkey;
  contributor_rewards_key : Pubkey
}.

Definition new `{Pda} (contributor_manager_key service_key : Pubkey) : t :=
  {| program_config_key := Config.find_address.1;
     contributor_manager_key := contributor_manager_key;
     contributor_rewards_key := (Contrib.find_address service_key).1 |}.

Definition metas (accounts : t) : list AccountInfo :=
  [meta_new_readonly (program_config_key accounts) false;
   meta_new_readonly (contributor_manager_key accounts) true;
   meta_new (contributor_rewards_key accounts) false].
End SetRewardsManagerAccounts.

Module ConfigureContributorRewardsAccounts.
Record t : Type := Mk {
  program_config_key : Pubkey;
  contributor_rewards_key : Pubkey;
  rewards_manager_key : Pubkey
}.

Definition new `{Pda} (rewards_manager_key service_key : Pubkey) : t :=
  {| program_config_key := Config.find_address.1;
     contributor_rewards_key := (Contrib.find_address service_key).1;
     rewards_manager_key := rewards_manager_key |}.

Definition metas (accounts : t) : list AccountInfo :=
  [meta_new_readonly (program_config_key accounts) false;
   meta_new (contributor_rewards_key accounts) false;
   meta_new_readonly (rewards_manager_key accounts) true].
End ConfigureContributorRewardsAccounts.

Module VerifyDistributionMerkleRootAccounts.
Record t : Type := Mk {
  distribution_key : Pubkey
}.

Definition new `{Pda} (dz_epoch : DoubleZeroEpoch) : t :=
  {| distribution_key := (Dist.find_address dz_epoch).1 |}.

Definition metas (accounts : t) : list AccountInfo :=
  [meta_new_readonly (distribution_key accounts) false].
End VerifyDistributionMerkleRootAccounts.

Module InitializeSolanaValidatorDepositAccounts.
Record t : Type := Mk {
  new_solana_validator_deposit_key : Pubkey;
  payer_key : Pubkey
}.

Definition new `{Pda} (payer_key node_id : Pubkey) : t :=
  {| new_solana_validator_deposit_key := (Depo.find_address node_id).1;
     payer_key := payer_key |}.

Definition metas `{KnownPrograms} (accounts : t) : list AccountInfo :=
  [meta_new (new_solana_validator_deposit_key accounts) false;
   meta_new (payer_key accounts) true;
   meta_new_readonly system_program_id false].
End InitializeSolanaValidatorDepositAccounts.

Module PaySolanaValidatorDebtAccounts.
Record t : Type := Mk {
  program_config_key : Pubkey;
  distribution_key : Pubkey;
  solana_validator_deposit_key : Pubkey;
  journal_key : Pubkey
}.

Definition new `{Pda} (dz_epoch : DoubleZeroEpoch) (node_id : Pubkey) : t :=
  {| program_config_key := Config.find_address.1;
     distribution_key := (Dist.find_address dz_epoch).1;
     solana_validator_deposit_key := (Depo.find_address node_id).1;
     journal_key := Jrnl.find_address.1 |}.

Definition metas (accounts : t) : list AccountInfo :=
  [meta_new_readonly (program_config_key accounts) false;
   meta_new (distribution_key accounts) false;
   meta_new (solana_validator_deposit_key accounts) false;
   meta_new (journal_key accounts) false].
End PaySolanaValidatorDebtAccounts.

Module EnableSolanaValidatorDebtWriteOffAccounts.
Record t : Type := Mk {
  program_config_key : Pubkey;
  distribution_key : Pubkey;
  payer_key : Pubkey
}.

Definition new `{Pda} (dz_epoch : DoubleZeroEpoch) (payer_key : Pubkey) : t :=
  {| program_config_key := Config.find_address.1;
     distribution_key := (Dist.find_address dz_epoch).1;
     payer_key := payer_key |}.

Definition metas `{KnownPrograms} (accounts : t) : list AccountInfo :=
  [meta_new_readonly (program_config_key accounts) false;
   meta_new (distribution_key accounts) false;
   meta_new (payer_key accounts) true;
   meta_new_readonly system_program_id false].
End EnableSolanaValidatorDebtWriteOffAccounts.

Module WriteOffSolanaValidatorDebtAccounts.
Record t : Type := Mk {
  program_config_key : Pubkey;
  debt_accountant_key : Pubkey;
  distribution_key : Pubkey;
  solana_validator_deposit_key : Pubkey;
  write_off_distribution_key : Pubkey
}.

Definition new `{Pda} (debt_accountant_key : Pubkey) (dz_epoch : DoubleZeroEpoch)
    (node_id : Pubkey) (write_off_dz_epoch : DoubleZeroEpoch) : t :=
  {| program_config_key := Config.find_address.1;
     debt_accountant_key := debt_accountant_key;
     distribution_key := (Dist.find_address dz_epoch).1;
     solana_validator_deposit_key := (Depo.find_address node_id).1;
     write_off_distribution_key := (Dist.find_address write_off_dz_epoch).1 |}.

Definition metas (accounts : t) : list AccountInfo :=
  [meta_new_readonly (program_config_key accounts) false;
   meta_new_readonly (debt_accountant_key accounts) true;
   meta_new (distribution_key accounts) false;
   meta_new (solana_validator_deposit_key accounts) false;
   meta_new (write_off_distribution_key accounts) false].
End WriteOffSolanaValidatorDebtAccounts.

Module InitializeSwapDestinationAccounts.
Record t : Type := Mk {
  program_config_key : Pubkey;
  payer_key : Pubkey;
  swap_authority_key : Pubkey;
  new_swap_destination_key : Pubkey;
  mint_key : Pubkey
}.

Definition new `{Pda} `{KnownPrograms} (payer_key mint_key : Pubkey) : t :=
  let swap_authority_key := find_swap_authority_address.1 in
  {| program_config_key := Config.find_address.1;
     payer_key := payer_key;
     swap_authority_key := swap_authority_key;
     new_swap_destination_key := (find_2z_token_pda_address swap_authority_key).1;
     mint_key := mint_key |}.

Definition metas `{KnownPrograms} (accounts : t) : list AccountInfo :=
  [meta_new (program_config_key accounts) false;
   meta_new (payer_key accounts) true;
   meta_new_readonly (swap_authority_key accounts) false;
   meta_new (new_swap_destination_key accounts) false;
   meta_new_readonly (mint_key accounts) false;
   meta_new_readonly spl_token_id false;
   meta_new_readonly system_program_id false].
End InitializeSwapDestinationAccounts.

Module DequeueFillsCpiAccounts.
Record t : Type := Mk {
  configuration_registry_key : Pubkey;
  program_state_key : Pubkey;
  fills_registry_key : Pubkey;
  journal_key : Pubkey;
  sol_2z_swap_program_id : option Pubkey
}.

Definition new `{Pda} (sol_2z_swap_program_id fills_registery_key : Pubkey) : t :=
  {| configuration_registry_key :=
       (find_program_address [bytes_of_string "system_config"] sol_2z_swap_program_id).1;
     program_state_key :=
         (find_program_address [bytes_of_string "state"] sol_2z_swap_program_id).1;
     fills_registry_key := fills_registery_key;
     journal_key := Jrnl.find_address.1;
     sol_2z_swap_program_id := Some sol_2z_swap_program_id |}.

Definition metas (accounts : t) : list AccountInfo :=
  [meta_new_readonly (configuration_registry_key accounts) false;
   meta_new_readonly (program_state_key accounts) false;
   meta_new (fills_registry_key accounts) false;
   meta_new_readonly (journal_key accounts) true].
End DequeueFillsCpiAccounts.

Module SweepDistributionTokensAccounts.
Record t : Type := Mk {
  program_config_key : Pubkey;
  distribution_key : Pubkey;
  journal_key : Pubkey;
  dequeue_fills_cpi_keys : DequeueFillsCpiAccounts.t;
  distribution_2z_token_pda_key : Pubkey;
  swap_authority_key : Pubkey;
  swap_2z_token_pda_key : Pubkey
}.

Definition new `{Pda} `{KnownPrograms} (dz_epoch : DoubleZeroEpoch)
    (sol_2z_swap_program_id sol_2z_swap_fills_registry_key : Pubkey) : t :=
  let distribution_key := (Dist.find_address dz_epoch).1 in
  let swap_authority_key := find_swap_authority_address.1 in
  let dequeue_fills_cpi_keys :=
      DequeueFillsCpiAccounts.new sol_2z_swap_program_id sol_2z_swap_fills_registry_key in
  {| program_config_key := Config.find_address.1;
     distribution_key := distribution_key;
     journal_key := Jrnl.find_address.1;
     dequeue_fills_cpi_keys := dequeue_fills_cpi_keys;
     distribution_2z_token_pda_key := (find_2z_token_pda_address distribution_key).1;
     swap_authority_key := swap_authority_key;
     swap_2z_token_pda_key := (find_2z_token_pda_address swap_authority_key).1 |}.

(** The metas of the dequeue CPI without its last one, the journal.  The
    conversion panics when the swap program id is not given. *)
Definition metas `{KnownPrograms} (accounts : t) : Res (list AccountInfo) :=
  sol_2z_swap_program_id ←
    unwrap (DequeueFillsCpiAccounts.sol_2z_swap_program_id (dequeue_fills_cpi_keys accounts));
  match DequeueFillsCpiAccounts.metas (dequeue_fills_cpi_keys accounts) with
  | [configuration_registry; program_state; fills_registry; _] =>
      mret
        [meta_new_readonly (program_config_key accounts) false;
         meta_new (distribution_key accounts) false;
         meta_new (journal_key accounts) false;
         configuration_registry;
         program_state;
         fills_registry;
         meta_new_readonly sol_2z_swap_program_id false;
         meta_new (distribution_2z_token_pda_key accounts) false;
         meta_new_readonly (swap_authority_key accounts) false;
         meta_new (swap_2z_token_pda_key accounts) false;
         meta_new_readonly spl_token_id false]
  | _ => Panic
  end.
End SweepDistributionTokensAccounts.

Module WithdrawSolAccounts.
Record t : Type := Mk {
  program_config_key : Pubkey;
  withdraw_sol_authority_key : Pubkey;
  journal_key : Pubkey;
  sol_destination_key : Pubkey
}.

Definition new `{Pda} `{KnownPrograms} (sol_2z_swap_program_id sol_destination_key : Pubkey)
    : t :=
  {| program_config_key := Config.find_address.1;
     withdraw_sol_authority_key := (find_withdraw_sol_authority_address sol_2z_swap_program_id).1;
     journal_key := Jrnl.find_address.1;
     sol_destination_key := sol_destination_key |}.

Definition metas (accounts : t) : list AccountInfo :=
  [meta_new_readonly (program_config_key accounts) false;
   meta_new_readonly (withdraw_sol_authority_key accounts) true;
   meta_new (journal_key accounts) false;
   meta_new (sol_destination_key accounts) false].
End WithdrawSolAccounts.

Module SetDistributionEconomicBurnRateAccounts.
Record t : Type := Mk {
  program_config_key : Pubkey;
  rewards_accountant_key : Pubkey;
  distribution_key : Pubkey
}.

Definition new `{Pda} (rewards_accountant_key : Pubkey) (dz_epoch : DoubleZeroEpoch) : t :=
  {| program_config_key := Config.find_address.1;
     rewards_accountant_key := rewards_accountant_key;
     distribution_key := (Dist.find_address dz_epoch).1 |}.

Definition metas (accounts : t) : list AccountInfo :=
  [meta_new_readonly (program_config_key accounts) false;
   meta_new_readonly (rewards_accountant_key accounts) true;
   meta_new (distribution_key accounts) false].
End SetDistributionEconomicBurnRateAccounts.

Module WithdrawSolanaValidatorDepositAccounts.
Record t : Type := Mk {
  program_config_key : Pubkey;
  solana_validator_deposit_key : Pubkey;
  validator_node_key : Pubkey;
  beneficiary_key : option Pubkey
}.

Definition new `{Pda} (node_id : Pubkey) (beneficiary_key : option Pubkey) : t :=
  {| program_config_key := Config.find_address.1;
     solana_validator_deposit_key := (Depo.find_address node_id).1;
     validator_node_key := node_id;
     beneficiary_key := beneficiary_key |}.

Definition metas (accounts : t) : list AccountInfo :=
  [meta_new_readonly (program_config_key accounts) false;
   meta_new (solana_validator_deposit_key accounts) false] ++
  match beneficiary_key accounts with
  | Some beneficiary_key =>
      [meta_new_readonly (validator_node_key accounts) true; meta_new beneficiary_key false]
  | None => [meta_new (validator_node_key accounts) false]
  end.
End WithdrawSolanaValidatorDepositAccounts.

Module InitializeRewardsIntegrationAccounts.
Record t : Type := Mk {
  program_config_key : Pubkey;
  admin_key : Pubkey;
  payer_key : Pubkey;
  new_rewards_integration_key : Pubkey;
  integration_program_key : Pubkey;
  journal_key : Pubkey
}.

Definition new `{Pda} `{KnownPrograms} (admin_key payer_key integration_program_id : Pubkey)
    : t :=
  {| program_config_key := Config.find_address.1;
     admin_key := admin_key;
     payer_key := payer_key;
     new_rewards_integration_key := (Integ.find_address integration_program_id).1;
     integration_program_key := integration_program_id;
     journal_key := Jrnl.find_address.1 |}.

Definition metas `{KnownPrograms} (accounts : t) : list AccountInfo :=
  [meta_new_readonly (program_config_key accounts) false;
   meta_new_readonly (admin_key accounts) true;
   meta_new_readonly (integration_program_key accounts) false;
   meta_new (payer_key accounts) true;
   meta_new (new_rewards_integration_key accounts) false;
   meta_new (journal_key accounts) false;
   meta_new_readonly system_program_id false].
End InitializeRewardsIntegrationAccounts.

Module CollectIntegrationRewardsAccounts.
Record t : Type := Mk {
  program_config_key : Pubkey;
  distribution_key : Pubkey;
  rewards_integration_key : Pubkey;
  integration_distribution_key : Pubkey;
  integration_2z_bucket_key : Pubkey;
  destination_token_account_key : Pubkey;
  integration_program_key : Pubkey;
  token_program_key : Pubkey
}.

Definition new `{Pda} `{KnownPrograms} (dz_epoch : DoubleZeroEpoch)
    (integration_program_id integration_distribution_key integration_2z_bucket_key : Pubkey)
    : t :=
  let distribution_key := (Dist.find_address dz_epoch).1 in
  {| program_config_key := Config.find_address.1;
     distribution_key := distribution_key;
     rewards_integration_key := (Integ.find_address integration_program_id).1;
     integration_distribution_key := integration_distribution_key;
     integration_2z_bucket_key := integration_2z_bucket_key;
     destination_token_account_key := (find_2z_token_pda_address distribution_key).1;
     integration_program_key := integration_program_id;
     token_program_key := spl_token_id |}.

Definition metas (accounts : t) : list AccountInfo :=
  [meta_new_readonly (program_config_key accounts) false;
   meta_new (distribution_key accounts) false;
   meta_new_readonly (rewards_integration_key accounts) false;
   meta_new (integration_distribution_key accounts) false;
   meta_new (integration_2z_bucket_key accounts) false;
   meta_new (destination_token_account_key accounts) false;
   meta_new_readonly (integration_program_key accounts) false;
   meta_new_readonly (token_program_key accounts) false].
End CollectIntegrationRewardsAccounts.
End Client.
