(* ===== verification/RdConfig.v ===== *)
(** * Program configuration handlers

    [processor.rs]: [try_initialize_program], [try_set_admin],
    [try_configure_program] (with [ProgramConfiguration] of
    [instruction/mod.rs]), [try_initialize_journal] and
    [try_migrate_program_accounts]. *)

From Stdlib Require Import ZArith Lia String.
From S2P Require Import Prelude Types BurnRate Runtime ProgramTools State RdAccounts Rules Steps Total RdTotal.

(** ** Settings: [instruction/mod.rs] *)
Inductive ProgramFlagConfiguration : Type := IsPaused (should_pause : bool).

Inductive ProgramFeatureConfiguration : Type := SolanaValidatorDebtWriteOff.

(** In a module of its own: some settings carry the name of what they set. *)
Module Setting.
Inductive ProgramConfiguration : Type :=
  | Flag (configure_flag : ProgramFlagConfiguration)
  | DebtAccountant (debt_accountant_key : Pubkey)
  | RewardsAccountant (rewards_accountant_key : Pubkey)
  | ContributorManager (contributor_manager_key : Pubkey)
  | PlaceholderKey (placeholder : Pubkey)
  | Sol2zSwapProgram (sol_2z_swap_program_id : Pubkey)
  | SolanaValidatorFeeParameters
      (base_block_rewards_pct priority_block_rewards_pct inflation_rewards_pct jito_tips_pct
         fixed_sol_amount : Z) (unused : list Z)
  | CalculationGracePeriodMinutes (grace_period_minutes : Z)
  | CommunityBurnRateParameters
      (limit dz_epochs_to_increasing dz_epochs_to_limit : Z) (initial_rate : option Z)
  | PlaceholderRelayLamports (relay_lamports : Z)
  | DistributeRewardsRelayLamports (relay_lamports : Z)
  | MinimumEpochDurationToFinalizeRewards (epoch_duration : Z)
  | DistributionInitializationGracePeriodMinutes (grace_period_minutes : Z)
  | FeatureActivation (feature : ProgramFeatureConfiguration) (activation_epoch : DoubleZeroEpoch).
End Setting.
Abbreviation ProgramConfiguration := Setting.ProgramConfiguration.

(** [solana_account_info::MAX_PERMITTED_DATA_INCREASE]. *)
Definition MAX_PERMITTED_DATA_INCREASE : Z := 10240.

Definition update_parameters (p : ProgramConfig)
    (f : DistributionParameters -> DistributionParameters) : ProgramConfig :=
  p <| Config.distribution_parameters := f (Config.distribution_parameters p) |>.

(** [ProgramConfiguration::SolanaValidatorFeeParameters]: all four percentages
    are checked before any is stored. *)
Definition configure_fees (p : ProgramConfig) (base priority inflation jito fixed : Z)
    : Res ProgramConfig :=
  base ← ok_or (UnitShare16.new base) InvalidInstructionData;
  priority ← ok_or (UnitShare16.new priority) InvalidInstructionData;
  inflation ← ok_or (UnitShare16.new inflation) InvalidInstructionData;
  jito ← ok_or (UnitShare16.new jito) InvalidInstructionData;
  mret (update_parameters p (fun q =>
    q <| solana_validator_fee_parameters := MkFees base priority inflation jito fixed |>)).

(** [ProgramConfiguration::CommunityBurnRateParameters].  On a rejected update
    the error message unwraps the next burn rate, which panics when the
    parameters have never been configured. *)
Definition configure_community_burn_rate (p : ProgramConfig)
    (limit dz_epochs_to_increasing dz_epochs_to_limit : Z) (initial_rate : option Z)
    : Res ProgramConfig :=
  limit ← ok_or (UnitShare32.new limit) InvalidInstructionData;
  match initial_rate with
  | Some initial_rate =>
      require (Config.next_completed_dz_epoch p =? 0) InvalidInstructionData;;
      initial_rate ← ok_or (UnitShare32.new initial_rate) InvalidInstructionData;
      cbr_params ←
        ok_or (Cbr.new initial_rate limit dz_epochs_to_increasing dz_epochs_to_limit)
          InvalidInstructionData;
      mret (update_parameters p (fun q => q <| community_burn_rate_parameters := cbr_params |>))
  | None =>
      let cbr_params := community_burn_rate_parameters (Config.distribution_parameters p) in
      match Cbr.checked_update cbr_params limit dz_epochs_to_increasing dz_epochs_to_limit with
      | Some (_, cbr_params) =>
          mret (update_parameters p (fun q => q <| community_burn_rate_parameters := cbr_params |>))
      | None =>
          unwrap (Cbr.next_burn_rate cbr_params);;
          Err InvalidInstructionData
      end
  end.

(** Grace periods: not zero, which stands for unset, and at most one day
    ([ProgramConfiguration::CalculationGracePeriodMinutes]) or two
    ([ProgramConfiguration::DistributionInitializationGracePeriodMinutes]). *)
Definition configure_calculation_grace_period (p : ProgramConfig) (grace_period_minutes : Z)
    : Res ProgramConfig :=
  if grace_period_minutes =? 0 then Err InvalidInstructionData
  else if 24 * 60 <? grace_period_minutes then Err InvalidInstructionData
  else mret (update_parameters p (fun q =>
         q <| calculation_grace_period_minutes := grace_period_minutes |>)).

Definition configure_initialization_grace_period (p : ProgramConfig) (grace_period_minutes : Z)
    : Res ProgramConfig :=
  if grace_period_minutes =? 0 then Err InvalidInstructionData
  else if 48 * 60 <? grace_period_minutes then Err InvalidInstructionData
  else mret (update_parameters p (fun q =>
         q <| initialization_grace_period_minutes := grace_period_minutes |>)).

(** [ProgramConfiguration::DistributeRewardsRelayLamports]: at least the cost of
    a signature. *)
Definition configure_relay_lamports (p : ProgramConfig) (relay_lamports : Z) : Res ProgramConfig :=
  if relay_lamports <? MIN_LAMPORTS then Err InvalidInstructionData
  else mret (p <| Config.relay_parameters :=
                    (Config.relay_parameters p)
                      <| distribute_rewards_lamports := relay_lamports |> |>).

(** [ProgramConfiguration::MinimumEpochDurationToFinalizeRewards]. *)
Definition configure_minimum_epoch_duration (p : ProgramConfig) (epoch_duration : Z)
    : Res ProgramConfig :=
  if epoch_duration =? 0 then Err InvalidInstructionData
  else mret (update_parameters p (fun q =>
         q <| minimum_epoch_duration_to_finalize_rewards := epoch_duration |>)).

(** [ProgramConfiguration::FeatureActivation]. *)
Definition configure_feature_activation (p : ProgramConfig) (feature : ProgramFeatureConfiguration)
    (activation_epoch : DoubleZeroEpoch) : Res ProgramConfig :=
  if activation_epoch =? 0 then Err InvalidInstructionData
  else
    match feature with
    | SolanaValidatorDebtWriteOff =>
        mret (p <| Config.debt_write_off_feature_activation_epoch := activation_epoch |>)
    end.

(** The [match setting] of [try_configure_program] on the config it mutates. *)
Definition apply_setting `{Pda} (p : ProgramConfig) (setting : ProgramConfiguration)
    : Res ProgramConfig :=
  match setting with
  | Setting.Flag (IsPaused should_pause) => mret (Config.set_is_paused p should_pause)
  | Setting.DebtAccountant k => mret (p <| Config.debt_accountant_key := k |>)
  | Setting.RewardsAccountant k => mret (p <| Config.rewards_accountant_key := k |>)
  | Setting.ContributorManager k => mret (p <| Config.contributor_manager_key := k |>)
  | Setting.PlaceholderKey _ => Err InvalidInstructionData
  | Setting.Sol2zSwapProgram sol_2z_swap_program_id =>
      let '(_, withdraw_sol_authority_bump) :=
        find_withdraw_sol_authority_address sol_2z_swap_program_id in
      mret (p <| Config.sol_2z_swap_program_id := sol_2z_swap_program_id |>
              <| Config.withdraw_sol_authority_bump_seed := withdraw_sol_authority_bump |>)
  | Setting.SolanaValidatorFeeParameters base priority inflation jito fixed _ =>
      configure_fees p base priority inflation jito fixed
  | Setting.CalculationGracePeriodMinutes grace_period_minutes =>
      configure_calculation_grace_period p grace_period_minutes
  | Setting.CommunityBurnRateParameters limit dz_epochs_to_increasing dz_epochs_to_limit initial_rate =>
      configure_community_burn_rate p limit dz_epochs_to_increasing dz_epochs_to_limit initial_rate
  | Setting.PlaceholderRelayLamports _ => Err InvalidInstructionData
  | Setting.DistributeRewardsRelayLamports relay_lamports =>
      configure_relay_lamports p relay_lamports
  | Setting.MinimumEpochDurationToFinalizeRewards epoch_duration =>
      configure_minimum_epoch_duration p epoch_duration
  | Setting.DistributionInitializationGracePeriodMinutes grace_period_minutes =>
      configure_initialization_grace_period p grace_period_minutes
  | Setting.FeatureActivation feature activation_epoch =>
      configure_feature_activation p feature activation_epoch
  end.

(** Down to the checks and the field a setting is about. *)
Ltac setting_cbn :=
  cbn [apply_setting] in *;
  cbv beta delta [configure_calculation_grace_period configure_initialization_grace_period
    configure_relay_lamports configure_minimum_epoch_duration configure_feature_activation] in *.

Section Handlers.
Context `{R : Runtime RdData}.

Abbreviation Mx := (M RdData).

Definition try_initialize_program (accounts : list AccountInfo) : Mx unit :=
  start_iter accounts;;
  '(_, payer_info) ← try_next_enumerated_account default_options;
  '(_, new_program_config_info) ← try_next_enumerated_account default_options;
  let '(expected_program_config_key, program_config_bump) := Config.find_address in
  ensure (key new_program_config_info =? expected_program_config_key) InvalidSeeds;;
  config_lamports ← get_lamports (key new_program_config_info);
  try_create_account ID (Signer (key payer_info))
    (PdaSigner expected_program_config_key [Config.SEED_PREFIX; [program_config_bump]])
    config_lamports MAX_PERMITTED_DATA_INCREASE ID accounts None;;
  '(_, new_reserve_2z_info, reserve_2z_bump) ←
    try_next_2z_token_pda_info expected_program_config_key None;
  try_next_2z_mint_info;;
  try_next_token_program_info;;
  reserve_lamports ← get_lamports (key new_reserve_2z_info);
  try_create_token_account ID (Signer (key payer_info))
    (PdaSigner (key new_reserve_2z_info)
       [TOKEN_2Z_PDA_SEED_PREFIX; key_seed expected_program_config_key; [reserve_2z_bump]])
    DOUBLEZERO_MINT_KEY expected_program_config_key reserve_lamports accounts;;
  program_config ← try_initialize ProgramConfig new_program_config_info;
  modify ProgramConfig program_config (fun p => p <| Config.bump_seed := program_config_bump |>);;
  modify ProgramConfig program_config
    (fun p => p <| Config.reserve_2z_bump_seed := reserve_2z_bump |>);;
  modify ProgramConfig program_config (fun p => Config.set_is_paused p true).

Definition try_set_admin (accounts : list AccountInfo) (admin_key : Pubkey) : Mx unit :=
  start_iter accounts;;
  upgrade_authority_try_next_accounts BPF_LOADER_UPGRADEABLE ID;;
  program_config ← zc_mut_try_next_accounts ProgramConfig (Some ID);
  modify ProgramConfig program_config (fun p => p <| Config.admin_key := admin_key |>).

Definition try_configure_program (accounts : list AccountInfo) (setting : ProgramConfiguration)
    : Mx unit :=
  start_iter accounts;;
  program_config ← verified_program_authority_mut Admin;
  p ← deref ProgramConfig program_config;
  p ← lift (apply_setting p setting);
  modify ProgramConfig program_config (fun _ => p).

Definition try_initialize_journal (accounts : list AccountInfo) : Mx unit :=
  start_iter accounts;;
  '(_, payer_info) ← try_next_enumerated_account default_options;
  '(_, new_journal_info) ← try_next_enumerated_account default_options;
  let '(expected_journal_key, journal_bump) := Jrnl.find_address in
  ensure (key new_journal_info =? expected_journal_key) InvalidSeeds;;
  journal_lamports ← get_lamports (key new_journal_info);
  try_create_account ID (Signer (key payer_info))
    (PdaSigner expected_journal_key [Jrnl.SEED_PREFIX; [journal_bump]])
    journal_lamports MAX_PERMITTED_DATA_INCREASE ID accounts None;;
  '(_, new_journal_2z_token_pda_info, journal_2z_token_pda_bump) ←
    try_next_2z_token_pda_info expected_journal_key None;
  try_next_2z_mint_info;;
  try_next_token_program_info;;
  token_lamports ← get_lamports (key new_journal_2z_token_pda_info);
  try_create_token_account ID (Signer (key payer_info))
    (PdaSigner (key new_journal_2z_token_pda_info)
       [TOKEN_2Z_PDA_SEED_PREFIX; key_seed expected_journal_key; [journal_2z_token_pda_bump]])
    DOUBLEZERO_MINT_KEY expected_journal_key token_lamports accounts;;
  journal ← try_initialize Journal new_journal_info;
  modify Journal journal (fun j => j <| Jrnl.bump_seed := journal_bump |>);;
  modify Journal journal
    (fun j => j <| Jrnl.token_2z_pda_bump_seed := journal_2z_token_pda_bump |>).

(** ** [try_migrate_program_accounts] *)
Definition MIN_DZ_EPOCH : DoubleZeroEpoch := 140.

(** The [while accounts_iter.len() != 0] loop; each turn consumes an account,
    so the number of accounts left is enough fuel.  The distribution view is
    dropped at the end of a turn. *)
Fixpoint migrate_loop (fuel : nat) (integrations_count_snapshot : Z) : Mx unit :=
  len ← iter_len;
  match len, fuel with
  | O, _ => mret tt
  | S _, O => panic
  | S _, S fuel' =>
      distribution ← zc_mut_try_next_accounts Distribution (Some ID);
      d ← deref Distribution distribution;
      ensure (negb (Dist.dz_epoch d <? MIN_DZ_EPOCH)) InvalidAccountData;;
      modify Distribution distribution
        (fun d => d <| Dist.integrations_count_snapshot := integrations_count_snapshot |>);;
      drop_view distribution;;
      migrate_loop fuel' integrations_count_snapshot
  end.

Definition try_migrate_program_accounts (accounts : list AccountInfo) : Mx unit :=
  start_iter accounts;;
  upgrade_authority_try_next_accounts BPF_LOADER_UPGRADEABLE ID;;
  journal ← zc_try_next_accounts Journal (Some ID);
  j ← deref Journal journal;
  let integrations_count_snapshot := Jrnl.integrations_count j in
  len ← iter_len;
  migrate_loop len integrations_count_snapshot.
End Handlers.

(** ** Lemmas: settings *)

(** The arguments of a setting fit the widths they are declared with. *)
Definition setting_fits (s : ProgramConfiguration) : Prop :=
  match s with
  | Setting.Flag _ => True
  | Setting.DebtAccountant k | Setting.RewardsAccountant k | Setting.ContributorManager k
  | Setting.PlaceholderKey k | Setting.Sol2zSwapProgram k => fits 256 k
  | Setting.SolanaValidatorFeeParameters base priority inflation jito fixed _ =>
      fits 16 base /\ fits 16 priority /\ fits 16 inflation /\ fits 16 jito /\ fits 32 fixed
  | Setting.CommunityBurnRateParameters limit dti dtl initial =>
      fits 32 limit /\ fits 32 dti /\ fits 32 dtl /\ (forall r, initial = Some r -> fits 32 r)
  | Setting.PlaceholderRelayLamports n | Setting.DistributeRewardsRelayLamports n => fits 32 n
  | Setting.CalculationGracePeriodMinutes n
  | Setting.DistributionInitializationGracePeriodMinutes n => fits 16 n
  | Setting.MinimumEpochDurationToFinalizeRewards n => fits 8 n
  | Setting.FeatureActivation _ epoch => fits 64 epoch
  end.

(** When a setting is accepted by the config [p]. *)
Definition setting_accepted (p : ProgramConfig) (s : ProgramConfiguration) : bool :=
  match s with
  | Setting.PlaceholderKey _ | Setting.PlaceholderRelayLamports _ => false
  | Setting.SolanaValidatorFeeParameters base priority inflation jito _ _ =>
      (base <=? 10000) && (priority <=? 10000) && (inflation <=? 10000) && (jito <=? 10000)
  | Setting.CalculationGracePeriodMinutes minutes => negb (minutes =? 0) && (minutes <=? 24 * 60)
  | Setting.CommunityBurnRateParameters limit dti dtl initial =>
      (limit <=? 1000000000) && negb (dti =? 0) && (dti <=? dtl) &&
      match initial with
      | Some rate => (Config.next_completed_dz_epoch p =? 0) && negb (rate =? 0) && (rate <=? limit)
      | None =>
          cached_next_burn_rate (community_burn_rate_parameters (Config.distribution_parameters p))
            <=? limit
      end
  | Setting.DistributeRewardsRelayLamports lamports => MIN_LAMPORTS <=? lamports
  | Setting.MinimumEpochDurationToFinalizeRewards duration => negb (duration =? 0)
  | Setting.DistributionInitializationGracePeriodMinutes minutes =>
      negb (minutes =? 0) && (minutes <=? 48 * 60)
  | Setting.FeatureActivation _ epoch => negb (epoch =? 0)
  | _ => true
  end.

(** The rejected setting whose error message unwraps a rate that is not there. *)
Definition rejection_panics (p : ProgramConfig) (s : ProgramConfiguration) : bool :=
  match s with
  | Setting.CommunityBurnRateParameters limit _ _ None =>
      (limit <=? 1000000000) &&
      (cached_next_burn_rate (community_burn_rate_parameters (Config.distribution_parameters p)) =? 0)
  | _ => false
  end.

(** The outcome of a setting, given when it is accepted and when its rejection
    panics. *)
Definition outcome {A} (r : Res A) (accepted panics : bool) : Prop :=
  match r with
  | Ok _ => accepted = true
  | Err e => accepted = false /\ panics = false /\ e = InvalidInstructionData
  | Panic => accepted = false /\ panics = true
  end.

(** What holds of every configuration the handlers can store. *)
Definition config_ok (p : ProgramConfig) : Prop :=
  let q := Config.distribution_parameters p in
  let f := solana_validator_fee_parameters q in
  cbr_ok (community_burn_rate_parameters q) /\
  calculation_grace_period_minutes q <= 24 * 60 /\
  initialization_grace_period_minutes q <= 48 * 60 /\
  valid16 (base_block_rewards_pct f) /\ valid16 (priority_block_rewards_pct f) /\
  valid16 (inflation_rewards_pct f) /\ valid16 (jito_tips_pct f) /\
  (distribute_rewards_lamports (Config.relay_parameters p) = 0 \/
   MIN_LAMPORTS <= distribute_rewards_lamports (Config.relay_parameters p)).

Lemma new16_cases v : UnitShare16.new v = if v <=? 10000 then Some v else None.
Proof. reflexivity. Qed.
Lemma new32_cases v : UnitShare32.new v = if v <=? 1000000000 then Some v else None.
Proof. reflexivity. Qed.

Lemma checked_update_cases p lim dti dtl :
  is_Some (Cbr.checked_update p lim dti dtl) <->
  cached_next_burn_rate p <= lim /\ dti <> 0 /\ dti <= dtl.
Proof.
  unfold Cbr.checked_update. destruct (Z.ltb_spec lim (cached_next_burn_rate p)).
  { split; [by intros []|lia]. }
  destruct (Z.eqb_spec dti 0). { split; [by intros []|lia]. }
  destruct (Z.ltb_spec dtl dti). { split; [by intros []|lia]. }
  split; [lia|]. intros _. by eexists.
Qed.

Lemma cbr_new_cases r lim dti dtl :
  is_Some (Cbr.new r lim dti dtl) <-> r <> 0 /\ r <= lim /\ dti <> 0 /\ dti <= dtl.
Proof.
  unfold Cbr.new, UnitShare.MIN. destruct (Z.eqb_spec r 0). { split; [by intros []|lia]. }
  destruct (checked_update_cases (cbr_default <| cached_next_burn_rate := r |>) lim dti dtl) as [Hu1 Hu2].
  cbn [cached_next_burn_rate update] in Hu1, Hu2.
  destruct (Cbr.checked_update _ lim dti dtl) as [[s q]|].
  - split; [|by eexists]. intros _. specialize (Hu1 ltac:(by eexists)). tauto.
  - split; [by intros []|]. intros (? & H). by destruct (Hu2 H).
Qed.

Lemma configure_community_burn_rate_ok p lim dti dtl initial p' :
  fits 32 lim -> fits 32 dti -> fits 32 dtl -> (forall r, initial = Some r -> fits 32 r) ->
  cbr_ok (community_burn_rate_parameters (Config.distribution_parameters p)) ->
  configure_community_burn_rate p lim dti dtl initial = Ok p' ->
  exists c, p' = update_parameters p (fun q => q <| community_burn_rate_parameters := c |>) /\ cbr_ok c.
Proof.
  intros [_ Hl] [Hd _] [_ Hw] Hi Hok. unfold configure_community_burn_rate.
  rewrite new32_cases. destruct (Z.leb_spec lim 1000000000) as [Hlim|]; [|done]. cbn [mbind Res_bind ok_or].
  destruct initial as [r|].
  - specialize (Hi r eq_refl). intros H. res_inv.
    match goal with H : UnitShare32.new r = Some _ |- _ => apply new32_Some in H as [-> ?] end.
    eexists. split; [reflexivity|]. right.
    match goal with H : Cbr.new _ _ _ _ = Some _ |- _ => rename H into Hnew end.
    unfold Cbr.new, UnitShare.MIN in Hnew. destruct (Z.eqb_spec r 0); [done|].
    destruct (Cbr.checked_update _ lim dti dtl) as [[s c]|] eqn:Hu; [|done]. simplify_eq.
    apply checked_update_inv in Hu as [? _]; try done.
    change (0 < r). destruct Hi. lia.
  - destruct (Cbr.checked_update _ lim dti dtl) as [[s c]|] eqn:Hu.
    + injection 1 as <-. eexists. split; [reflexivity|]. destruct Hok as [H0|Hinv].
      * left. apply checked_update_Some in Hu as (_ & _ & _ & _ & ->). done.
      * right. destruct Hinv. apply checked_update_inv in Hu as [? _]; try done. lia.
    + intros H. by res_inv.
Qed.

(** What a setting keeps: the configuration's soundness and the fields it is
    not about. *)
Lemma apply_setting_ok `{HP : Pda} (p p' : ProgramConfig) (setting : ProgramConfiguration) :
  config_ok p -> setting_fits setting -> apply_setting p setting = Ok p' ->
  config_ok p' /\
  Config.next_completed_dz_epoch p' = Config.next_completed_dz_epoch p /\
  Config.admin_key p' = Config.admin_key p /\ Config.bump_seed p' = Config.bump_seed p /\
  Config.reserve_2z_bump_seed p' = Config.reserve_2z_bump_seed p /\
  Config.last_initialized_distribution_timestamp p'
    = Config.last_initialized_distribution_timestamp p.
Proof.
  intros Hok Hfit. destruct setting; cbn [setting_fits] in *; intros H; setting_cbn.
  all: try (by res_inv).
  - by destruct configure_flag; res_inv.
  - by destruct find_withdraw_sol_authority_address; res_inv.
  - unfold configure_fees in H. res_inv.
    repeat match goal with H : UnitShare16.new _ = Some _ |- _ => apply new16_Some in H as [-> ?] end.
    destruct Hok as (? & ? & ? & _ & _ & _ & _ & ?).
    destruct Hfit as ([? _] & [? _] & [? _] & [? _] & _). unfold config_ok, valid16. cbn. tauto.
  - repeat case_match; try done. res_inv. bool_to_prop. unfold config_ok in *. cbn in *. tauto.
  - unfold config_ok in *. apply configure_community_burn_rate_ok in H as (c & -> & Hc); [|tauto..].
    cbn in *. tauto.
  - case_match; [done|]. res_inv. bool_to_prop. unfold config_ok in *. cbn in *. tauto.
  - case_match; [done|]. res_inv. unfold config_ok in *. cbn in *. tauto.
  - repeat case_match; try done. res_inv. bool_to_prop. unfold config_ok in *. cbn in *. tauto.
  - repeat case_match; try done. by res_inv.
Qed.

Lemma cbr_inv_fits c : cbr_inv c -> fields_fit (cbr_fields c).
Proof.
  intros [Hl Hn He Hw Hnum Hden _]. unfold UnitShare32.MAX in *.
  repeat constructor; cbn; lia.
Qed.

Lemma configure_community_burn_rate_fits p lim dti dtl initial p' :
  fits 32 lim -> fits 32 dti -> fits 32 dtl -> (forall r, initial = Some r -> fits 32 r) ->
  fits 32 (cached_next_burn_rate (community_burn_rate_parameters (Config.distribution_parameters p))) ->
  configure_community_burn_rate p lim dti dtl initial = Ok p' ->
  exists c, p' = update_parameters p (fun q => q <| community_burn_rate_parameters := c |>) /\
            fields_fit (cbr_fields c).
Proof.
  intros Hl Hd Hw Hi Hn H. unfold configure_community_burn_rate in H. res_inv.
  assert (forall q s c, fits 32 (cached_next_burn_rate q) ->
            Cbr.checked_update q lim dti dtl = Some (s, c) -> fields_fit (cbr_fields c)) as Hup.
  { intros q s c Hq (_ & _ & _ & -> & ->)%checked_update_Some. unfold umax, fits in *.
    repeat constructor; cbn; lia. }
  match goal with H : UnitShare32.new lim = Some _ |- _ => apply new32_Some in H as [-> ?] end.
  destruct initial as [r|]; res_inv.
  - match goal with H : UnitShare32.new _ = Some _ |- _ => apply new32_Some in H as [-> ?] end.
    eexists. split; [reflexivity|].
    match goal with H : Cbr.new _ _ _ _ = Some _ |- _ => unfold Cbr.new in H end.
    destruct (r =? UnitShare.MIN); [done|].
    destruct (Cbr.checked_update _ lim dti dtl) as [[s c]|] eqn:Hu; [|done]. simplify_eq.
    eapply Hup; [|exact Hu]. cbn. by apply Hi.
  - destruct (Cbr.checked_update _ lim dti dtl) as [[s c]|] eqn:Hu; res_inv.
    eexists. split; [reflexivity|]. by eapply Hup.
Qed.

(** ** Theorems *)
Section Theorems.
Context `{R : Runtime RdData}.

Lemma burn_rate_outcome p limit dz_epochs_to_increasing dz_epochs_to_limit initial_rate :
  let setting := Setting.CommunityBurnRateParameters limit dz_epochs_to_increasing
                   dz_epochs_to_limit initial_rate in
  outcome (configure_community_burn_rate p limit dz_epochs_to_increasing dz_epochs_to_limit
             initial_rate)
    (setting_accepted p setting) (rejection_panics p setting).
Proof.
  cbn [setting_accepted rejection_panics]. unfold outcome.
  unfold configure_community_burn_rate. rewrite new32_cases.
  destruct (Z.leb_spec limit 1000000000) as [Hl|]; [|by destruct initial_rate].
  cbn [mbind Res_bind ok_or andb].
  destruct initial_rate as [r|].
  - destruct (Config.next_completed_dz_epoch p =? 0); [|by rewrite andb_false_r].
    cbn [require mbind Res_bind andb]. rewrite new32_cases.
    pose proof (cbr_new_cases r limit dz_epochs_to_increasing dz_epochs_to_limit) as [Hn1 Hn2].
    destruct (Z.leb_spec r 1000000000); cbn [mbind Res_bind ok_or].
    2:{ rewrite (proj2 (Z.leb_gt r limit)) by lia. by rewrite !andb_false_r. }
    destruct (Cbr.new _ _ _ _); cbn.
    * destruct Hn1 as (? & ? & ? & ?); [by eexists|].
      by rewrite !(proj2 (Z.leb_le _ _)), !(proj2 (Z.eqb_neq _ _)) by lia.
    * destruct (Z.eqb_spec dz_epochs_to_increasing 0); [done|].
      destruct (Z.leb_spec dz_epochs_to_increasing dz_epochs_to_limit); [|done].
      destruct (Z.eqb_spec r 0); [done|]. destruct (Z.leb_spec r limit); [|done].
      by destruct Hn2.
  - set (c := community_burn_rate_parameters _).
    pose proof (checked_update_cases c limit dz_epochs_to_increasing dz_epochs_to_limit) as [Hu1 Hu2].
    destruct (Cbr.checked_update _ _ _ _) as [[s c']|]; cbn.
    * destruct Hu1 as (? & ? & ?); [by eexists|].
      by rewrite !(proj2 (Z.leb_le _ _)), !(proj2 (Z.eqb_neq _ _)) by lia.
    * assert (negb (dz_epochs_to_increasing =? 0)
              && (dz_epochs_to_increasing <=? dz_epochs_to_limit)
              && (cached_next_burn_rate c <=? limit) = false) as ->.
      { destruct (Z.eqb_spec dz_epochs_to_increasing 0); [done|].
        destruct (Z.leb_spec dz_epochs_to_increasing dz_epochs_to_limit); [|done].
        destruct (Z.leb_spec (cached_next_burn_rate c) limit); [|done]. by destruct Hu2. }
      unfold Cbr.next_burn_rate, UnitShare.MIN. by destruct (cached_next_burn_rate c =? 0).
Qed.

(** C38: which settings are accepted.  A setting succeeds exactly when its
    arguments are in range (percentages at most 100%, grace periods positive
    and at most one and two days, relay lamports at least the minimum, the
    burn rate limit not below the current rate, an initial rate only before
    the first epoch); it fails with [InvalidInstructionData] otherwise, except
    that a burn rate update rejected before any rate was configured panics. *)
Theorem apply_setting_outcome (p : ProgramConfig) (setting : ProgramConfiguration) :
  match apply_setting p setting with
  | Ok _ => setting_accepted p setting = true
  | Err e =>
      setting_accepted p setting = false /\ rejection_panics p setting = false /\
      e = InvalidInstructionData
  | Panic => setting_accepted p setting = false /\ rejection_panics p setting = true
  end.
Proof.
  destruct setting; setting_cbn; cbn [setting_accepted rejection_panics]; try done.
  - by destruct configure_flag.
  - by destruct find_withdraw_sol_authority_address.
  - unfold configure_fees. rewrite !new16_cases.
    destruct (base_block_rewards_pct <=? 10000); [|done].
    destruct (priority_block_rewards_pct <=? 10000); [|done].
    destruct (inflation_rewards_pct <=? 10000); [|done].
    by destruct (jito_tips_pct <=? 10000).
  - rewrite Z.leb_antisym. destruct (grace_period_minutes =? 0); [done|]. by destruct (_ <? _).
  - apply burn_rate_outcome.
  - rewrite Z.leb_antisym. by destruct (_ <? _).
  - by destruct (epoch_duration =? 0).
  - rewrite Z.leb_antisym. destruct (grace_period_minutes =? 0); [done|]. by destruct (_ <? _).
  - destruct (activation_epoch =? 0); [done|]. by destruct feature.
Qed.

(** Settings keep the configuration sound: the burn rate parameters keep
    their invariant, percentages stay at most 100% and grace periods, relay
    lamports in range; the epoch, the admin, the bump seeds of the accounts
    and the time of the last distribution never change. *)
Theorem apply_setting_sound (p p' : ProgramConfig) (setting : ProgramConfiguration) :
  config_ok p -> setting_fits setting -> apply_setting p setting = Ok p' ->
  config_ok p' /\
  Config.next_completed_dz_epoch p' = Config.next_completed_dz_epoch p /\
  Config.admin_key p' = Config.admin_key p /\ Config.bump_seed p' = Config.bump_seed p /\
  Config.reserve_2z_bump_seed p' = Config.reserve_2z_bump_seed p /\
  Config.last_initialized_distribution_timestamp p'
    = Config.last_initialized_distribution_timestamp p.
Proof. apply apply_setting_ok. Qed.

(** Configuring the program: only the admin, by signing, and the config
    account then holds exactly what the setting makes of it. *)
Theorem configure_program_spec (L L' : Ledger RdData) trace m0 m1 rest setting :
  run (try_configure_program (m0 :: m1 :: rest) setting) L = Ok (L', trace) ->
  exists p prest p',
    data (acct L (key m0)) = ConfigData p prest /\ owner (acct L (key m0)) = ID /\
    is_writable m0 = true /\ is_signer m1 = true /\ key m1 = Config.admin_key p /\
    apply_setting p setting = Ok p' /\
    L' = set_data L (key m0) (ConfigData p' prest) /\ trace = [].
Proof.
  start_run. unfold try_configure_program. asteps; guards.
  match goal with H : apply_setting p setting = Ok ?v |- _ => exists p, rest0, v end.
  finish. by conjs.
Qed.

Lemma wlp_upgrade_authority loader program_id m0 m1 infos
    (Q : AccountInfo * AccountInfo -> St RdData -> Prop) L i b r t :
  (key m0 = (get_program_data_address loader program_id).1 -> is_signer m1 = true ->
   deserialize_loader_state (data (acct L (key m0))) = Some (ProgramData (Some (key m1))) ->
   Q (m0, m1) (MkSt L (S (S i)) infos b r t)) ->
  wlp (upgrade_authority_try_next_accounts loader program_id) Q (MkSt L i (m0 :: m1 :: infos) b r t).
Proof.
  intros HQ. unfold upgrade_authority_try_next_accounts. steps.
  destruct (deserialize_loader_state _) as [[[authority|]|]|] eqn:E; steps.
  subst. by apply HQ.
Qed.

Lemma twp_upgrade_authority loader program_id m0 m1 infos
    (Q : AccountInfo * AccountInfo -> St RdData -> Prop) L i r t :
  key m0 = (get_program_data_address loader program_id).1 -> is_signer m1 = true ->
  deserialize_loader_state (data (acct L (key m0))) = Some (ProgramData (Some (key m1))) ->
  Q (m0, m1) (MkSt L (S (S i)) infos [] r t) ->
  twp (upgrade_authority_try_next_accounts loader program_id) Q
    (MkSt L i (m0 :: m1 :: infos) [] r t).
Proof.
  intros H0 H1 H2 HQ. unfold upgrade_authority_try_next_accounts.
  do 4 tstep; [by apply Z.eqb_eq|]. do 2 tstep. do 2 tstep. rewrite H2.
  tstep. tstep; [apply Z.eqb_refl|]. tstep. exact HQ.
Qed.

(** The admin is set by the program's upgrade authority only: the account
    given is the program data of this program, it names an upgrade authority
    and that authority signs.  Nothing but the admin key changes. *)
Theorem set_admin_spec (L L' : Ledger RdData) trace m0 m1 m2 rest admin :
  run (try_set_admin (m0 :: m1 :: m2 :: rest) admin) L = Ok (L', trace) ->
  exists p prest,
    key m0 = (get_program_data_address BPF_LOADER_UPGRADEABLE ID).1 /\
    deserialize_loader_state (data (acct L (key m0))) = Some (ProgramData (Some (key m1))) /\
    is_signer m1 = true /\
    data (acct L (key m2)) = ConfigData p prest /\ owner (acct L (key m2)) = ID /\
    L' = set_data L (key m2) (ConfigData (p <| Config.admin_key := admin |>) prest) /\ trace = [].
Proof.
  start_run. unfold try_set_admin. do 2 step. step. apply wlp_upgrade_authority. intros. asteps.
  exists x, rest0. finish. by conjs.
Qed.

(** What migration does to the data of an account, and to the account [k]. *)
Definition migrated (n : Z) (a : RdData) : RdData :=
  match a with
  | DistributionData d bits =>
      DistributionData (d <| Dist.integrations_count_snapshot := n |>) bits
  | _ => a
  end.
Definition migrate_account (n : Z) (L : Ledger RdData) (k : Pubkey) : Ledger RdData :=
  set_data L k (migrated n (data (acct L k))).

Lemma migrate_fold n ks : forall L k,
  data (acct (foldl (migrate_account n) L ks) k)
  = if bool_decide (k ∈ ks) then migrated n (data (acct L k)) else data (acct L k).
Proof.
  induction ks as [|k' ks IH]; intros L k; [done|]. cbn [foldl]. rewrite IH.
  unfold migrate_account. destruct (decide (k' = k)) as [->|Hne].
  - rewrite data_set_data_eq. rewrite (bool_decide_true (k ∈ k :: ks)) by left.
    case_bool_decide; [|done]. by destruct (data (acct L k)).
  - rewrite data_set_data_ne by done. apply (f_equal (fun b : bool => if b then _ else _)).
    apply bool_decide_ext. rewrite elem_of_cons. naive_solver.
Qed.

(** An account the loop accepts. *)
Definition migratable (L : Ledger RdData) (info : AccountInfo) : Prop :=
  is_writable info = true /\ owner (acct L (key info)) = ID /\
  exists d bits, data (acct L (key info)) = DistributionData d bits /\ MIN_DZ_EPOCH <= Dist.dz_epoch d.

Lemma migratable_migrated n L k info : migratable L info -> migratable (migrate_account n L k) info.
Proof.
  intros (Hw & Ho & d & bits & Hd & Hep). unfold migrate_account, migratable.
  ledger. split; [exact Hw|split; [exact Ho|]]. destruct (decide (k = key info)) as [->|Hne].
  - rewrite data_set_data_eq, Hd. eexists _, bits. split; [reflexivity|exact Hep].
  - rewrite data_set_data_ne by done. exists d, bits. split; [exact Hd|exact Hep].
Qed.

Lemma twp_migrate_loop n jk infos : forall L i t,
  Forall (migratable L) infos -> Forall (fun info => key info <> jk) infos ->
  twp (migrate_loop (length infos) n)
    (fun _ s => st_ledger s = foldl (migrate_account n) L (key <$> infos) /\ st_trace s = t)
    (MkSt L i infos [(jk, false)] None t).
Proof.
  induction infos as [|info infos IH]; intros L i t Hm Hk; cbn [length migrate_loop].
  - tstep. tstep. cbn. tstep. done.
  - apply Forall_cons in Hm as [(Hw & Ho & d & bits & Hd & Hep) Hm'].
    apply Forall_cons in Hk as [Hne Hk'].
    do 2 tstep. cbn [length]. do 6 tstep.
    { by rewrite (proj2 (Z.ltb_ge _ _) Hep). }
    do 4 tstep. rewrite release_head.
    assert (set_data L (key info)
              (DistributionData (d <| Dist.integrations_count_snapshot := n |>) bits)
            = migrate_account n L (key info)) as ->.
    { unfold migrate_account. by rewrite Hd. }
    destruct (IH (migrate_account n L (key info)) (S i) t) as (u & s' & E & HQ).
    + eapply Forall_impl; [exact Hm'|]. intros. by apply migratable_migrated.
    + done.
    + by exists u, s'.
Qed.

(** Migration terminates and succeeds.  Signed by the program's upgrade
    authority and given a journal followed by any number of writable
    distributions of epoch 140 or later (repetitions included), it returns,
    having set the integrations snapshot of each of them to the journal's
    count, and nothing else. *)
Theorem migrate_program_accounts_total (L : Ledger RdData) m0 m1 m2 infos j jrest :
  key m0 = (get_program_data_address BPF_LOADER_UPGRADEABLE ID).1 -> is_signer m1 = true ->
  deserialize_loader_state (data (acct L (key m0))) = Some (ProgramData (Some (key m1))) ->
  data (acct L (key m2)) = JournalData j jrest -> owner (acct L (key m2)) = ID ->
  Forall (migratable L) infos ->
  run (try_migrate_program_accounts (m0 :: m1 :: m2 :: infos)) L =
    Ok (foldl (migrate_account (Jrnl.integrations_count j)) L (key <$> infos), []) /\
  (forall k,
     data (acct (foldl (migrate_account (Jrnl.integrations_count j)) L (key <$> infos)) k)
     = if bool_decide (k ∈ key <$> infos)
       then migrated (Jrnl.integrations_count j) (data (acct L k)) else data (acct L k)).
Proof.
  intros H0 Hs Hl Hj Ho Hm. split.
  - apply twp_run. unfold try_migrate_program_accounts.
    do 3 tstep. apply twp_upgrade_authority; [done..|]. do 6 tstep. apply twp_migrate_loop; [done|].
    eapply Forall_impl; [exact Hm|]. intros info (_ & _ & d & bits & Hd & _) E.
    rewrite E, Hj in Hd. discriminate.
  - intros k. apply migrate_fold.
Qed.

(** Initialization.  The config and journal accounts can only be created
    at their PDAs; each is then an account of this program holding the zeroed
    struct with the bump seeds of its address and of its 2Z token account, and
    the config starts paused; the CPIs are the creation of the account and of
    the token account, which it owns. *)
Theorem initialize_accounts_spec `{!RdLaws R} (L L' : Ledger RdData) trace m0 m1 m2 m3 m4 rest :
  (run (try_initialize_program (m0 :: m1 :: m2 :: m3 :: m4 :: rest)) L = Ok (L', trace) ->
     exists bump token_bump tail n,
       Config.find_address = (key m1, bump) /\
       find_2z_token_pda_address (key m1) = (key m2, token_bump) /\
       data (acct L' (key m1)) = ConfigData (Config.set_is_paused
         (Config.zeroed <| Config.bump_seed := bump |>
                        <| Config.reserve_2z_bump_seed := token_bump |>) true) tail /\
       owner (acct L' (key m1)) = ID /\
       trace = create_account_ixs (Signer (key m0))
                 (PdaSigner (key m1) [Config.SEED_PREFIX; [bump]]) (lamports (acct L (key m1)))
                 MAX_PERMITTED_DATA_INCREASE ID None
               ++ create_token_account_ixs (Signer (key m0))
                    (PdaSigner (key m2)
                       [TOKEN_2Z_PDA_SEED_PREFIX; key_seed (key m1); [token_bump]])
                    DOUBLEZERO_MINT_KEY (key m1) n) /\
  (run (try_initialize_journal (m0 :: m1 :: m2 :: m3 :: m4 :: rest)) L = Ok (L', trace) ->
     exists bump token_bump tail n,
       Jrnl.find_address = (key m1, bump) /\
       find_2z_token_pda_address (key m1) = (key m2, token_bump) /\
       data (acct L' (key m1)) = JournalData
         (Jrnl.zeroed <| Jrnl.bump_seed := bump |>
                      <| Jrnl.token_2z_pda_bump_seed := token_bump |>) tail /\
       owner (acct L' (key m1)) = ID /\
       trace = create_account_ixs (Signer (key m0))
                 (PdaSigner (key m1) [Jrnl.SEED_PREFIX; [bump]]) (lamports (acct L (key m1)))
                 MAX_PERMITTED_DATA_INCREASE ID None
               ++ create_token_account_ixs (Signer (key m0))
                    (PdaSigner (key m2)
                       [TOKEN_2Z_PDA_SEED_PREFIX; key_seed (key m1); [token_bump]])
                    DOUBLEZERO_MINT_KEY (key m1) n).
Proof.
  split; start_run; [unfold try_initialize_program|unfold try_initialize_journal];
    asteps; guards; subst; eexists _, _, _, _; finish; conjs; try reflexivity; own.
Qed.
End Theorems.
