(* ===== verification/RdDistribution.v ===== *)
(** * Distribution handlers

    [processor.rs]: [try_initialize_distribution],
    [try_configure_distribution_debt], [try_finalize_distribution_debt],
    [try_configure_distribution_rewards], [try_finalize_distribution_rewards]
    and [try_set_distribution_economic_burn_rate]. *)

From Stdlib Require Import ZArith Lia String.
From S2P Require Import Prelude Types BurnRate Borsh Runtime ProgramTools State RdAccounts Rules Steps.

(** Clock arithmetic: [i64] and its conversion to [u32]. *)
Definition i64_checked_add (a b : Z) : option Z := if a + b <? 2 ^ 63 then Some (a + b) else None.
Definition u32_try_from_i64 (x : Z) : option Z :=
  if (0 <=? x) && (x <? 2 ^ 32) then Some x else None.

(** The number of bytes of a bitmap of [n] bits, as computed in each handler
    that grows a distribution. *)
Definition additional_data_len (n : Z) : Z := if n mod 8 =? 0 then n / 8 else n / 8 + 1.

(** [x as u32]. *)
Definition as_u32 (x : Z) : Z := wrap 32 x.

Section Handlers.
Context `{R : Runtime RdData}.

Abbreviation Mx := (M RdData).

(** ** [try_initialize_distribution] *)

(** What the first part leaves for the rest of the handler. *)
Record NewDistribution : Type := MkNewDistribution {
  nd_current_timestamp : Z;
  nd_calculation_grace_period_seconds : Z;
  nd_fee_params : SolanaValidatorFeeParameters;
  nd_community_burn_rate : BurnRate;
  nd_relay_lamports : Z;
  nd_payer_info : AccountInfo;
  nd_info : AccountInfo;
  nd_dz_epoch : DoubleZeroEpoch;
  nd_key : Pubkey;
  nd_bump : Z
}.

(** Accounts 0 to 3 and every change to the program config. *)
Definition initialize_distribution_config : Mx NewDistribution :=
  program_config ← verified_program_authority_mut DebtAccountant;
  p ← deref ProgramConfig program_config;
  lift (try_require_unpaused p);;
  initialization_grace_period_seconds ←
    lift (ok_or (Config.checked_distribution_initialization_grace_period_seconds p)
            InvalidAccountData);
  let current_timestamp := unix_timestamp in
  initialization_allowed_timestamp ←
    lift (unwrap (checked_add 32 (Config.last_initialized_distribution_timestamp p)
                    initialization_grace_period_seconds));
  ensure (negb (current_timestamp <? initialization_allowed_timestamp)) InvalidAccountData;;
  timestamp ← lift (unwrap (u32_try_from_i64 current_timestamp));
  modify ProgramConfig program_config
    (fun p => p <| Config.last_initialized_distribution_timestamp := timestamp |>);;
  calculation_grace_period_seconds ←
    lift (ok_or (Config.checked_calculation_grace_period_seconds p) InvalidAccountData);
  let solana_validator_fee_params :=
    solana_validator_fee_parameters (Config.distribution_parameters p) in
  '(computed, cbr_params) ←
    lift (Cbr.checked_compute (community_burn_rate_parameters (Config.distribution_parameters p)));
  modify ProgramConfig program_config
    (fun p => p <| Config.distribution_parameters :=
                     (Config.distribution_parameters p)
                       <| community_burn_rate_parameters := cbr_params |> |>);;
  community_burn_rate ← lift (ok_or computed InvalidAccountData);
  distribute_rewards_relay_lamports ←
    lift (ok_or (Config.checked_distribute_rewards_relay_lamports p) InvalidAccountData);
  '(_, payer_info) ← try_next_enumerated_account default_options;
  '(_, new_distribution_info) ← try_next_enumerated_account default_options;
  let dz_epoch := Config.next_completed_dz_epoch p in
  let '(expected_distribution_key, distribution_bump) := Dist.find_address dz_epoch in
  ensure (key new_distribution_info =? expected_distribution_key) InvalidSeeds;;
  modify ProgramConfig program_config
    (fun p => p <| Config.next_completed_dz_epoch := Epoch.saturating_add_duration dz_epoch 1 |>);;
  drop_view program_config;;
  mret (MkNewDistribution current_timestamp calculation_grace_period_seconds
          solana_validator_fee_params community_burn_rate distribute_rewards_relay_lamports
          payer_info new_distribution_info dz_epoch expected_distribution_key distribution_bump).

(** Creation of the distribution and of its 2Z token account (accounts 4 to
    6), and the fields of the new distribution. *)
Definition initialize_distribution_accounts (accounts : list AccountInfo) (nd : NewDistribution)
    : Mx (Pubkey * AccountInfo) :=
  let payer := Signer (key (nd_payer_info nd)) in
  distribution_lamports ← get_lamports (key (nd_info nd));
  try_create_account ID payer
    (PdaSigner (nd_key nd) [Dist.SEED_PREFIX; Epoch.as_seed (nd_dz_epoch nd); [nd_bump nd]])
    distribution_lamports (data_end (D := RdData) Distribution) ID accounts None;;
  '(_, new_distribution_2z_token_pda_info, distribution_2z_token_pda_bump) ←
    try_next_2z_token_pda_info (nd_key nd) None;
  try_next_2z_mint_info;;
  try_next_token_program_info;;
  token_lamports ← get_lamports (key new_distribution_2z_token_pda_info);
  try_create_token_account ID payer
    (PdaSigner (key new_distribution_2z_token_pda_info)
       [TOKEN_2Z_PDA_SEED_PREFIX; key_seed (nd_key nd); [distribution_2z_token_pda_bump]])
    DOUBLEZERO_MINT_KEY (nd_key nd) token_lamports accounts;;
  distribution ← try_initialize Distribution (nd_info nd);
  modify Distribution distribution (fun d =>
    d <| Dist.dz_epoch := nd_dz_epoch nd |>
      <| Dist.bump_seed := nd_bump nd |>
      <| Dist.token_2z_pda_bump_seed := distribution_2z_token_pda_bump |>
      <| Dist.community_burn_rate := nd_community_burn_rate nd |>
      <| Dist.fee_parameters := nd_fee_params nd |>
      <| Dist.distribute_rewards_relay_lamports := nd_relay_lamports nd |>);;
  allowed ←
    lift (unwrap (i64_checked_add (nd_current_timestamp nd)
                    (nd_calculation_grace_period_seconds nd)));
  allowed ← lift (unwrap (u32_try_from_i64 allowed));
  modify Distribution distribution (fun d => d <| Dist.calculation_allowed_timestamp := allowed |>);;
  mret (distribution, new_distribution_2z_token_pda_info).

(** Accounts 7 to 9: the snapshot of the integrations, and the balance of
    the journal's ATA moved to the distribution. *)
Definition initialize_distribution_journal (accounts : list AccountInfo) (distribution : Pubkey)
    (new_distribution_2z_token_pda_info : AccountInfo) : Mx unit :=
  journal ← zc_mut_try_next_accounts Journal (Some ID);
  j ← deref Journal journal;
  modify Distribution distribution
    (fun d => d <| Dist.integrations_count_snapshot := Jrnl.integrations_count j |>);;
  try_next_2z_token_pda_info journal (Some (Jrnl.token_2z_pda_bump_seed j));;
  '(_, journal_ata_info) ← try_next_enumerated_account default_options;
  let expected_journal_ata_key := get_associated_token_address journal DOUBLEZERO_MINT_KEY in
  ensure (key journal_ata_info =? expected_journal_ata_key) InvalidAccountData;;
  ata ← peek_data (key journal_ata_info);
  match unpack_token_account ata with
  | Ok journal_ata =>
      let transfer_amount := token_amount journal_ata in
      if transfer_amount =? 0 then mret tt
      else
        invoke_signed ID
          (TokenTransfer expected_journal_ata_key (key new_distribution_2z_token_pda_info) journal
             transfer_amount)
          accounts [[Jrnl.SEED_PREFIX; [Jrnl.bump_seed j]]];;
        d ← deref Distribution distribution;
        collected ← lift (arith_add 64 (Dist.collected_prepaid_2z_payments d) transfer_amount);
        modify Distribution distribution
          (fun d => d <| Dist.collected_prepaid_2z_payments := collected |>)
  | Err _ => mret tt
  | Panic => panic
  end.

Definition try_initialize_distribution (accounts : list AccountInfo) : Mx unit :=
  start_iter accounts;;
  nd ← initialize_distribution_config;
  '(distribution, token_pda_info) ← initialize_distribution_accounts accounts nd;
  initialize_distribution_journal accounts distribution token_pda_info.

(** ** [try_configure_distribution_debt] *)
Definition try_configure_distribution_debt (accounts : list AccountInfo)
    (total_validators total_debt : Z) (merkle_root : Hash) : Mx unit :=
  start_iter accounts;;
  program_config ← verified_program_authority DebtAccountant;
  p ← deref ProgramConfig program_config;
  lift (try_require_unpaused p);;
  distribution ← zc_mut_try_next_accounts Distribution (Some ID);
  d ← deref Distribution distribution;
  lift (try_require_unfinalized_debt_calculation d);;
  lift (try_require_calculation_allowed d);;
  ensure (negb (bool_decide (Dist.fee_parameters d = fees_default))) InvalidAccountData;;
  modify Distribution distribution
    (fun d => d <| Dist.total_solana_validators := total_validators |>);;
  modify Distribution distribution
    (fun d => d <| Dist.total_solana_validator_debt := total_debt |>);;
  modify Distribution distribution
    (fun d => d <| Dist.solana_validator_debt_merkle_root := merkle_root |>).

(** ** Growing a distribution

    The lines shared by the three handlers that append a bitmap: the view is
    dropped, the account resized, and the rent shortfall computed. *)
Definition grow_distribution (distribution additional : Z) : Mx Z :=
  drop_view distribution;;
  len ← get_data_len distribution;
  let new_data_len := saturating_add 64 len additional in
  resize distribution new_data_len;;
  lamports ← get_lamports distribution;
  mret (saturating_sub (minimum_balance new_data_len) lamports).

(** ** [try_finalize_distribution_debt] *)
Definition try_finalize_distribution_debt (accounts : list AccountInfo) : Mx unit :=
  start_iter accounts;;
  program_config ← verified_program_authority DebtAccountant;
  p ← deref ProgramConfig program_config;
  lift (try_require_unpaused p);;
  distribution ← zc_mut_try_next_accounts Distribution (Some ID);
  d ← deref Distribution distribution;
  lift (try_require_unfinalized_debt_calculation d);;
  lift (try_require_calculation_allowed d);;
  modify Distribution distribution (fun d => Dist.set_is_debt_calculation_finalized d true);;
  total_sol_debt ← lift (unwrap (Dist.checked_total_sol_debt d));
  if total_sol_debt =? 0 then mret tt
  else
    let additional := additional_data_len (Dist.total_solana_validators d) in
    remaining ← remaining_data Distribution distribution;
    let start := as_u32 (lenZ remaining) in
    modify Distribution distribution
      (fun d => d <| Dist.processed_solana_validator_debt_start_index := start |>
                  <| Dist.processed_solana_validator_debt_end_index :=
                       saturating_add 32 start additional |>);;
    additional_lamports_for_resize ← grow_distribution distribution additional;
    '(_, payer_info) ← try_next_enumerated_account default_options;
    invoke_signed ID
      (SystemTransfer (key payer_info) distribution additional_lamports_for_resize) accounts [].

(** ** [try_configure_distribution_rewards] *)
Definition try_configure_distribution_rewards (accounts : list AccountInfo)
    (total_contributors : Z) (merkle_root : Hash) : Mx unit :=
  start_iter accounts;;
  program_config ← verified_program_authority RewardsAccountant;
  p ← deref ProgramConfig program_config;
  lift (try_require_unpaused p);;
  distribution ← zc_mut_try_next_accounts Distribution (Some ID);
  d ← deref Distribution distribution;
  lift (try_require_unfinalized_rewards_calculation d);;
  lift (try_require_calculation_allowed d);;
  modify Distribution distribution
    (fun d => d <| Dist.total_contributors := total_contributors |>);;
  modify Distribution distribution (fun d => d <| Dist.rewards_merkle_root := merkle_root |>).

(** ** [try_finalize_distribution_rewards] *)

(** A null rewards root is only allowed when nothing is owed. *)
Definition check_null_rewards_root (d : Distribution) : Res unit :=
  if Dist.rewards_merkle_root d =? hash_default then
    total_sol_debt ← unwrap (Dist.checked_total_sol_debt d);
    require (total_sol_debt =? 0) InvalidAccountData;;
    collected ← Dist.total_collected_2z_tokens d;
    require (collected =? 0) InvalidAccountData;;
    require (Dist.are_all_integrations_collected d) InvalidAccountData
  else mret tt.

(** The epoch from which the rewards may be finalized. *)
Definition minimum_dz_epoch_to_finalize (p : ProgramConfig) (d : Distribution)
    : option DoubleZeroEpoch :=
  duration ← Config.checked_minimum_epoch_duration_to_finalize_rewards p;
  Some (Epoch.saturating_add_duration (Dist.dz_epoch d) duration).

Definition try_finalize_distribution_rewards (accounts : list AccountInfo) : Mx unit :=
  start_iter accounts;;
  program_config ← zc_try_next_accounts ProgramConfig (Some ID);
  p ← deref ProgramConfig program_config;
  lift (try_require_unpaused p);;
  distribution ← zc_mut_try_next_accounts Distribution (Some ID);
  d ← deref Distribution distribution;
  lift (try_require_unfinalized_rewards_calculation d);;
  lift (try_require_calculation_allowed d);;
  modify Distribution distribution (fun d => Dist.set_is_rewards_calculation_finalized d true);;
  lift (try_require_finalized_debt_calculation d);;
  lift (check_null_rewards_root d);;
  minimum_dz_epoch ← lift (ok_or (minimum_dz_epoch_to_finalize p d) InvalidAccountData);
  ensure (negb (Config.next_completed_dz_epoch p <? minimum_dz_epoch)) InvalidAccountData;;
  let total_contributors := Dist.total_contributors d in
  let additional := additional_data_len total_contributors in
  remaining ← remaining_data Distribution distribution;
  let start := as_u32 (lenZ remaining) in
  modify Distribution distribution
    (fun d => d <| Dist.processed_rewards_start_index := start |>
                <| Dist.processed_rewards_end_index := saturating_add 32 start additional |>);;
  let distribute_rewards_relay_lamports := Dist.distribute_rewards_relay_lamports d in
  additional_lamports_for_resize ← grow_distribution distribution additional;
  '(_, payer_info) ← try_next_enumerated_account default_options;
  let additional_lamports_for_distributing :=
    saturating_mul 64 distribute_rewards_relay_lamports total_contributors in
  invoke_signed ID
    (SystemTransfer (key payer_info) distribution
       (saturating_add 64 additional_lamports_for_distributing additional_lamports_for_resize))
    accounts [].

(** ** [try_set_distribution_economic_burn_rate] *)
Definition try_set_distribution_economic_burn_rate (accounts : list AccountInfo)
    (burn_rate_value : Z) : Mx unit :=
  burn_rate ← lift (ok_or (UnitShare32.new burn_rate_value) InvalidInstructionData);
  start_iter accounts;;
  program_config ← verified_program_authority RewardsAccountant;
  p ← deref ProgramConfig program_config;
  lift (try_require_unpaused p);;
  distribution ← zc_mut_try_next_accounts Distribution (Some ID);
  d ← deref Distribution distribution;
  lift (try_require_unfinalized_rewards_calculation d);;
  modify Distribution distribution (fun d => d <| Dist.economic_burn_rate := burn_rate |>).
End Handlers.

(** ** Lemmas: growing a distribution *)
Lemma additional_data_len_ceil n : 0 <= n -> additional_data_len n = (n + 7) / 8.
Proof.
  intros Hn. unfold additional_data_len. pose proof (Z.div_mod n 8). pose proof (Z.mod_pos_bound n 8).
  destruct (Z.eqb_spec (n mod 8) 0).
  - apply (Z.div_unique _ _ _ 7); lia.
  - apply (Z.div_unique _ _ _ (n mod 8 - 1)); lia.
Qed.

Lemma additional_data_len_bounds n :
  0 <= n -> n <= 8 * additional_data_len n /\ 0 <= additional_data_len n <= n.
Proof.
  intros Hn. rewrite additional_data_len_ceil by done.
  pose proof (Z.div_mod (n + 7) 8). pose proof (Z.mod_pos_bound (n + 7) 8). lia.
Qed.

Lemma lenZ_app {A} (l1 l2 : list A) : lenZ (l1 ++ l2) = lenZ l1 + lenZ l2.
Proof. unfold lenZ. rewrite length_app. lia. Qed.

Lemma lenZ_replicate {A} n (x : A) : 0 <= n -> lenZ (replicate (Z.to_nat n) x) = n.
Proof. unfold lenZ. rewrite length_replicate. lia. Qed.

(** The bytes after a distribution once a bitmap of [n] bits is appended, and
    the range it occupies. *)
Definition grown (bits : list Z) (n : Z) : list Z :=
  bits ++ replicate (Z.to_nat (additional_data_len n)) 0.
Definition grown_range (bits : list Z) (n : Z) : Z * Z :=
  (lenZ bits, lenZ bits + additional_data_len n).

Lemma grown_accepts bits n leaf :
  0 <= leaf < n -> exists bits', mark_leaf (grown bits n) (grown_range bits n) leaf = Ok bits'.
Proof.
  intros Hl. pose proof (additional_data_len_bounds n) as Hn.
  assert (leaf / 8 < additional_data_len n) by (apply Z.div_lt_upper_bound; lia).
  assert (0 <= leaf / 8) by (apply Z.div_pos; lia).
  assert ((8 * lenZ bits + leaf) / 8 = lenZ bits + leaf / 8) as E.
  { rewrite (Z.add_comm _ leaf), Z.mul_comm, Z.div_add by lia. lia. }
  eexists. apply mark_leaf_ok; [unfold lenZ; lia|lia|]. split.
  - unfold grown. rewrite lenZ_app, lenZ_replicate by lia. lia.
  - exists 0. rewrite Z.bits_0. split_and!; [|done|done].
    rewrite E. unfold grown. rewrite lookup_app_r by (unfold lenZ in *; lia).
    apply lookup_replicate_2. unfold lenZ in *. lia.
Qed.

Section GrowRules.
Context `{R : Runtime RdData} `{!ResizeLaws R}.

Lemma wlp_grow_distribution k n d rest (Q : Z -> St RdData -> Prop) L i infos b r t :
  data (acct L k) = DistributionData d rest -> fits 32 n -> lenZ rest < 2 ^ 31 ->
  (rd_data_len (DistributionData d (grown rest n)) <= MAX_PERMITTED_DATA_LENGTH ->
   Q (saturating_sub
        (minimum_balance (rd_data_len (DistributionData d rest) + additional_data_len n))
        (lamports (acct L k)))
     (MkSt (set_data L k (DistributionData d (grown rest n))) i infos (release k b) r t)) ->
  wlp (grow_distribution k (additional_data_len n)) Q (MkSt L i infos b r t).
Proof.
  intros Hd [Hn0 Hn] Hlen HQ. pose proof (additional_data_len_bounds n Hn0) as [_ ?].
  assert (saturating_add 64 (rd_data_len (DistributionData d rest)) (additional_data_len n) =
          rd_data_len (DistributionData d rest) + additional_data_len n) as E.
  { unfold saturating_add, umax. apply Z.min_l. cbn [rd_data_len].
    unfold DISCRIMINATOR_LEN, SIZE_Distribution. lia. }
  unfold grow_distribution. do 4 step. cbn [data_len RdData_account]. rewrite Hd, E. steps.
  rewrite Hd in *.
  match goal with H : resize_data _ _ = Ok _ |- _ =>
    pose proof (resize_bound _ _ _ H) as Hmax;
    apply resize_distribution in H as ->; [|lia] end.
  rewrite lamports_set_data.
  replace (_ + additional_data_len n - _) with (additional_data_len n) by lia. apply HQ.
  unfold grown. cbn [rd_data_len] in *. rewrite lenZ_app, lenZ_replicate by lia. lia.
Qed.
End GrowRules.

Lemma as_u32_small x : 0 <= x < 2 ^ 32 -> as_u32 x = x.
Proof. apply Z.mod_small. Qed.

Lemma as_u32_lenZ {A} (l : list A) : lenZ l < 2 ^ 31 -> as_u32 (lenZ l) = lenZ l.
Proof. unfold lenZ. intros. apply as_u32_small. lia. Qed.

Lemma grown_end n (rest : list Z) :
  fits 32 n -> lenZ rest < 2 ^ 31 ->
  saturating_add 32 (as_u32 (lenZ rest)) (additional_data_len n) = lenZ rest + additional_data_len n.
Proof.
  intros [Hn ?] Hl. assert (0 <= lenZ rest) by (unfold lenZ; lia).
  rewrite as_u32_small by lia. unfold saturating_add, umax. apply Z.min_l.
  rewrite additional_data_len_ceil by done.
  assert ((n + 7) / 8 < 2 ^ 30) by (apply Z.div_lt_upper_bound; lia). lia.
Qed.

(** A distribution whose debt bitmap is appended after [bits]. *)
Definition with_debt_bitmap (d : Distribution) (bits : list Z) : Distribution :=
  let range := grown_range bits (Dist.total_solana_validators d) in
  d <| Dist.processed_solana_validator_debt_start_index := range.1 |>
    <| Dist.processed_solana_validator_debt_end_index := range.2 |>.

(** The top-up of a distribution grown by a bitmap of [n] bits. *)
Definition grown_shortfall `{Runtime RdData} (L : Ledger RdData) (k : Pubkey) (bits : list Z) (n : Z)
    : Z :=
  saturating_sub
    (minimum_balance (data_end (D := RdData) Distribution + lenZ (grown bits n)))
    (lamports (acct L k)).

Lemma grown_len d bits n :
  0 <= n ->
  rd_data_len (DistributionData d bits) + additional_data_len n =
  data_end (D := RdData) Distribution + lenZ (grown bits n).
Proof.
  intros Hn. pose proof (additional_data_len_bounds n Hn). unfold grown, data_end.
  rewrite lenZ_app, lenZ_replicate by lia. cbn [rd_data_len size_of zc_distribution]. lia.
Qed.

Lemma u32_try_from_i64_Some x y : u32_try_from_i64 x = Some y -> y = x /\ 0 <= x < 2 ^ 32.
Proof.
  unfold u32_try_from_i64. destruct (Z.leb_spec 0 x), (Z.ltb_spec x (2 ^ 32)); cbn; naive_solver.
Qed.

Lemma i64_checked_add_Some a b y : i64_checked_add a b = Some y -> y = a + b.
Proof. unfold i64_checked_add. case_match; naive_solver. Qed.

(** ** Theorems *)
Section Theorems.
Context `{R : Runtime RdData} `{!RdLaws R}.

(** C36: finalizing the debt of a distribution.  Only the debt accountant can,
    on an unpaused program, once, and not before the calculation is allowed.
    The struct changes only in the finalized flag and in the range of the
    bitmap, which is appended all clear and accepts every validator's leaf;
    the account is topped up to rent.  With no debt left to pay nothing is
    appended and nothing transferred. *)
Theorem finalize_debt_spec (L L' : Ledger RdData) trace m0 m1 m2 m3 rest :
  ledger_wf L ->
  run (try_finalize_distribution_debt (m0 :: m1 :: m2 :: m3 :: rest)) L = Ok (L', trace) ->
  exists p prest d bits,
    data (acct L (key m0)) = ConfigData p prest /\ Config.is_paused p = false /\
    is_signer m1 = true /\ key m1 = Config.debt_accountant_key p /\
    data (acct L (key m2)) = DistributionData d bits /\
    Dist.is_debt_calculation_finalized d = false /\ calculation_allowed d = true /\
    Dist.uncollectible_sol_debt d <= Dist.total_solana_validator_debt d /\
    let n := Dist.total_solana_validators d in
    let d' := Dist.set_is_debt_calculation_finalized d true in
    if Dist.total_solana_validator_debt d =? Dist.uncollectible_sol_debt d
    then data (acct L' (key m2)) = DistributionData d' bits /\ trace = []
    else
      data (acct L' (key m2)) = DistributionData (with_debt_bitmap d' bits) (grown bits n) /\
      (forall leaf, 0 <= leaf < n -> exists bits',
         mark_leaf (grown bits n)
           (Dist.processed_solana_validator_debt_bitmap_range (with_debt_bitmap d' bits)) leaf
         = Ok bits') /\
      trace = [SystemTransfer (key m3) (key m2) (grown_shortfall L (key m2) bits n)].
Proof.
  intros Hwf. start_run. unfold try_finalize_distribution_debt.
  asteps; guards; wf_facts.
  - exists p, rest0, x, rest1. finish. rewrite (proj2 (Z.eqb_eq _ _)) by lia. by conjs.
  - pose proof (ledger_wf_rest _ _ _ _ Hwf Hdata0) as Hlen.
    assert (fits 32 (Dist.total_solana_validators x)) as Hn by fit.
    eapply wlp_grow_distribution; [view_read|exact Hn|done|]. intros _. asteps.
    exists p, rest0, x, rest1. finish. rewrite (proj2 (Z.eqb_neq _ _)) by lia.
    rewrite grown_end, as_u32_lenZ, grown_len by (exact Hlen || exact Hn || apply Hn). ledger.
    conjs; try reflexivity. intros leaf Hl. by apply grown_accepts.
Qed.

(** Configuring the debt: only the debt accountant, on an unpaused
    program, for a distribution whose debt is not finalized, whose calculation
    is allowed and whose validator fees are set; the validators, total and
    root are set as given, nothing else changes and nothing is invoked. *)
Theorem configure_debt_spec (L L' : Ledger RdData) trace m0 m1 m2 rest n debt root :
  run (try_configure_distribution_debt (m0 :: m1 :: m2 :: rest) n debt root) L = Ok (L', trace) ->
  exists p prest d bits,
    data (acct L (key m0)) = ConfigData p prest /\ Config.is_paused p = false /\
    is_signer m1 = true /\ key m1 = Config.debt_accountant_key p /\
    data (acct L (key m2)) = DistributionData d bits /\
    Dist.is_debt_calculation_finalized d = false /\ calculation_allowed d = true /\
    Dist.fee_parameters d <> fees_default /\
    L' = set_data L (key m2) (DistributionData
           (d <| Dist.total_solana_validators := n |>
              <| Dist.total_solana_validator_debt := debt |>
              <| Dist.solana_validator_debt_merkle_root := root |>) bits) /\
    trace = [].
Proof.
  start_run. unfold try_configure_distribution_debt. asteps; guards.
  exists p, rest0, x, rest1. finish. by conjs.
Qed.

(** Configuring the rewards: only the rewards accountant, on an unpaused
    program, before the rewards are finalized and once the calculation is
    allowed; the contributors and the root are set as given and nothing else
    changes. *)
Theorem configure_rewards_spec (L L' : Ledger RdData) trace m0 m1 m2 rest n root :
  run (try_configure_distribution_rewards (m0 :: m1 :: m2 :: rest) n root) L = Ok (L', trace) ->
  exists p prest d bits,
    data (acct L (key m0)) = ConfigData p prest /\ Config.is_paused p = false /\
    is_signer m1 = true /\ key m1 = Config.rewards_accountant_key p /\
    data (acct L (key m2)) = DistributionData d bits /\
    Dist.is_rewards_calculation_finalized d = false /\ calculation_allowed d = true /\
    L' = set_data L (key m2) (DistributionData
           (d <| Dist.total_contributors := n |> <| Dist.rewards_merkle_root := root |>) bits) /\
    trace = [].
Proof.
  start_run. unfold try_configure_distribution_rewards. asteps; guards.
  exists p, rest0, x, rest1. finish. by conjs.
Qed.

(** A distribution whose rewards bitmap is appended after [bits]. *)
Definition with_rewards_bitmap (d : Distribution) (bits : list Z) : Distribution :=
  let range := grown_range bits (Dist.total_contributors d) in
  d <| Dist.processed_rewards_start_index := range.1 |>
    <| Dist.processed_rewards_end_index := range.2 |>.

(** C37: finalizing the rewards is permissionless but guarded: the program is
    unpaused, the rewards are not final, the debt is, the calculation is
    allowed, the minimum number of epochs has passed, and a null root is only
    accepted when no debt is owed, no 2Z is collected and no integration is
    pending.  A bitmap accepting every contributor's leaf is appended and the
    payer funds the rent and one relay payment per contributor. *)
Theorem finalize_rewards_spec (L L' : Ledger RdData) trace m0 m1 m2 rest :
  ledger_wf L ->
  run (try_finalize_distribution_rewards (m0 :: m1 :: m2 :: rest)) L = Ok (L', trace) ->
  exists p prest d bits min_epoch,
    data (acct L (key m0)) = ConfigData p prest /\ Config.is_paused p = false /\
    data (acct L (key m1)) = DistributionData d bits /\
    Dist.is_rewards_calculation_finalized d = false /\ calculation_allowed d = true /\
    Dist.is_debt_calculation_finalized d = true /\
    minimum_dz_epoch_to_finalize p d = Some min_epoch /\
    min_epoch <= Config.next_completed_dz_epoch p /\
    (Dist.rewards_merkle_root d = hash_default ->
       Dist.checked_total_sol_debt d = Some 0 /\ Dist.total_collected_2z_tokens d = Ok 0 /\
       Dist.are_all_integrations_collected d = true) /\
    let n := Dist.total_contributors d in
    let d' := with_rewards_bitmap (Dist.set_is_rewards_calculation_finalized d true) bits in
    data (acct L' (key m1)) = DistributionData d' (grown bits n) /\
    (forall leaf, 0 <= leaf < n -> exists bits',
       mark_leaf (grown bits n) (Dist.processed_rewards_bitmap_range d') leaf = Ok bits') /\
    trace = [SystemTransfer (key m2) (key m1)
               (saturating_add 64
                  (saturating_mul 64 (Dist.distribute_rewards_relay_lamports d) n)
                  (grown_shortfall L (key m1) bits n))].
Proof.
  intros Hwf. start_run. unfold try_finalize_distribution_rewards. asteps. guards; wf_facts.
  pose proof (ledger_wf_rest _ _ _ _ Hwf Hdata0) as Hlen.
  assert (fits 32 (Dist.total_contributors x0)) as Hn by fit.
  eapply wlp_grow_distribution; [view_read|exact Hn|done|]. intros _. asteps.
  match goal with H : minimum_dz_epoch_to_finalize _ _ = Some ?e |- _ =>
    exists x, rest0, x0, rest1, e end.
  finish.
  rewrite grown_end, as_u32_lenZ, grown_len by (exact Hlen || exact Hn || apply Hn). ledger.
  conjs; try reflexivity.
  - intros Hnull. unfold check_null_rewards_root in *. rewrite Hnull in *. cbn in *. res_inv.
    bool_to_prop. subst. by conjs.
  - intros leaf Hl. by apply grown_accepts.
Qed.

(** Setting the economic burn rate: only the rewards accountant, on an
    unpaused program, before the rewards are finalized, and never above 100%. *)
Theorem set_economic_burn_rate_spec (L L' : Ledger RdData) trace m0 m1 m2 rest rate :
  run (try_set_distribution_economic_burn_rate (m0 :: m1 :: m2 :: rest) rate) L = Ok (L', trace) ->
  exists p prest d bits,
    data (acct L (key m0)) = ConfigData p prest /\ Config.is_paused p = false /\
    is_signer m1 = true /\ key m1 = Config.rewards_accountant_key p /\
    data (acct L (key m2)) = DistributionData d bits /\
    Dist.is_rewards_calculation_finalized d = false /\ rate <= UnitShare32.MAX /\
    L' = set_data L (key m2) (DistributionData (d <| Dist.economic_burn_rate := rate |>) bits) /\
    trace = [].
Proof.
  start_run. unfold try_set_distribution_economic_burn_rate. asteps; guards.
  match goal with H : UnitShare32.new _ = Some _ |- _ => apply new32_Some in H as [-> ?] end.
  exists p, rest0, x, rest1. finish. by conjs.
Qed.

(** The distribution created for the epoch of config [p]. *)
Definition new_distribution (p : ProgramConfig) (j : Journal) (rate bump token_bump grace prepaid : Z)
    : Distribution :=
  Dist.zeroed
    <| Dist.dz_epoch := Config.next_completed_dz_epoch p |>
    <| Dist.bump_seed := bump |>
    <| Dist.token_2z_pda_bump_seed := token_bump |>
    <| Dist.community_burn_rate := rate |>
    <| Dist.fee_parameters := solana_validator_fee_parameters (Config.distribution_parameters p) |>
    <| Dist.distribute_rewards_relay_lamports :=
         distribute_rewards_lamports (Config.relay_parameters p) |>
    <| Dist.calculation_allowed_timestamp := unix_timestamp + grace |>
    <| Dist.integrations_count_snapshot := Jrnl.integrations_count j |>
    <| Dist.collected_prepaid_2z_payments := prepaid |>.

Lemma new_distribution_prepaid p j rate bump token_bump grace n :
  (new_distribution p j rate bump token_bump grace 0) <| Dist.collected_prepaid_2z_payments := n |>
  = new_distribution p j rate bump token_bump grace n.
Proof. by vm_compute. Qed.

(** The config after it. *)
Definition config_after_distribution (p : ProgramConfig) (cbr : CommunityBurnRateParameters)
    : ProgramConfig :=
  p <| Config.last_initialized_distribution_timestamp := unix_timestamp |>
    <| Config.distribution_parameters :=
         (Config.distribution_parameters p) <| community_burn_rate_parameters := cbr |> |>
    <| Config.next_completed_dz_epoch :=
         Epoch.saturating_add_duration (Config.next_completed_dz_epoch p) 1 |>.

(** The seeds that sign the creation of a distribution and of its token account. *)
Definition distribution_invoker (k : Pubkey) (epoch bump : Z) : Invoker :=
  PdaSigner k [Dist.SEED_PREFIX; Epoch.as_seed epoch; [bump]].
Definition token_account_invoker (k token_owner : Pubkey) (bump : Z) : Invoker :=
  PdaSigner k [TOKEN_2Z_PDA_SEED_PREFIX; key_seed token_owner; [bump]].

(** C35: initializing a distribution.  Only the debt accountant can, on an
    unpaused program and once the configured grace period since the last
    initialization is over.  The config takes the time, the computed burn rate
    and the next epoch; from that ledger the creation of the config's next
    epoch's PDA executes (L1), then that of its 2Z token account (L2), both
    paid by account 2; the new account becomes a distribution that snapshots the
    burn rate computed for the epoch, the fees, the relay lamports, the
    calculation time and the number of integrations, every other field and the
    rest of its data zero (L3).  When the journal's ATA is a token account on
    that ledger with a balance, exactly that balance is transferred to the
    distribution's token account, signed by the journal, and recorded as prepaid;
    with no balance, or no token account, nothing is transferred or recorded.
    The final ledger is exactly the one these steps leave. *)
Theorem initialize_distribution_spec (L L' : Ledger RdData) trace
    m0 m1 m2 m3 m4 m5 m6 m7 m8 m9 rest j jrest :
  data (acct L (key m7)) = JournalData j jrest -> owner (acct L (key m7)) = ID ->
  run (try_initialize_distribution
         (m0 :: m1 :: m2 :: m3 :: m4 :: m5 :: m6 :: m7 :: m8 :: m9 :: rest)) L = Ok (L', trace) ->
  exists p prest init_grace grace rate cbr bump token_bump L1 r1 L2 r2 tail,
    let accounts := m0 :: m1 :: m2 :: m3 :: m4 :: m5 :: m6 :: m7 :: m8 :: m9 :: rest in
    let epoch := Config.next_completed_dz_epoch p in
    let created := create_account_calls (Signer (key m2)) (distribution_invoker (key m3) epoch bump)
                     (lamports (acct L (key m3))) (data_end (D := RdData) Distribution) ID None in
    let token_created :=
      create_token_account_calls (Signer (key m2)) (token_account_invoker (key m4) (key m3) token_bump)
        DOUBLEZERO_MINT_KEY (key m3) (lamports (acct L1 (key m4))) in
    let creations := (fst <$> created) ++ (fst <$> token_created) in
    let new prepaid :=
      DistributionData (new_distribution p j rate bump token_bump grace prepaid) tail in
    let L3 := set_data L2 (key m3) (new 0) in
    data (acct L (key m0)) = ConfigData p prest /\ Config.is_paused p = false /\
    is_signer m1 = true /\ key m1 = Config.debt_accountant_key p /\
    Config.checked_distribution_initialization_grace_period_seconds p = Some init_grace /\
    Config.last_initialized_distribution_timestamp p + init_grace <= unix_timestamp /\
    Config.checked_calculation_grace_period_seconds p = Some grace /\
    distribute_rewards_lamports (Config.relay_parameters p) <> 0 /\
    Cbr.checked_compute (community_burn_rate_parameters (Config.distribution_parameters p))
      = Ok (Some rate, cbr) /\
    Dist.find_address (Config.next_completed_dz_epoch p) = (key m3, bump) /\
    find_2z_token_pda_address (key m3) = (key m4, token_bump) /\
    key m9 = get_associated_token_address (key m7) DOUBLEZERO_MINT_KEY /\
    executes ID accounts created
      (set_data L (key m0) (ConfigData (config_after_distribution p cbr) prest), None) (L1, r1) /\
    executes ID accounts token_created (L1, r1) (L2, r2) /\
    has_zero_discriminator (data (acct L2 (key m3))) = true /\
    tail = replicate (Z.to_nat (data_len (data (acct L2 (key m3)))
                                - data_end (D := RdData) Distribution)) 0 /\
    data (acct L' (key m0)) = ConfigData (config_after_distribution p cbr) prest /\
    match unpack_token_account (data (acct L3 (key m9))) with
    | Ok ata =>
        let prepaid := token_amount ata in
        if prepaid =? 0 then L' = L3 /\ trace = creations
        else exists L4 r4,
          let transfer := TokenTransfer (key m9) (key m4) (key m7) prepaid in
          executes ID accounts [(transfer, [[Jrnl.SEED_PREFIX; [Jrnl.bump_seed j]]])]
            (L3, r2) (L4, r4) /\
          L' = set_data L4 (key m3) (new prepaid) /\ trace = creations ++ [transfer]
    | Err _ => L' = L3 /\ trace = creations
    | Panic => False
    end.
Proof.
  intros Hj Hjo. start_run. unfold try_initialize_distribution, initialize_distribution_config.
  asteps. unfold initialize_distribution_accounts.
  cbn [nd_current_timestamp nd_calculation_grace_period_seconds nd_fee_params
       nd_community_burn_rate nd_relay_lamports nd_payer_info nd_info nd_dz_epoch nd_key nd_bump].
  asteps. unfold initialize_distribution_journal. asteps. guards.
  assert (key m3 <> key m0) as Hne'.
  { intros E'. rewrite E' in Hzero. revert Hzero. ledger. cpi_read. done. }
  subst.
  match goal with H : u32_try_from_i64 unix_timestamp = Some ?x |- _ =>
    apply u32_try_from_i64_Some in H as [-> ?] end.
  match goal with H : i64_checked_add _ _ = Some ?x |- _ => apply i64_checked_add_Some in H as -> end.
  match goal with H : u32_try_from_i64 _ = Some ?x |- _ => apply u32_try_from_i64_Some in H as [-> ?] end.
  match goal with H : Config.checked_distribute_rewards_relay_lamports _ = Some ?x |- _ =>
    unfold Config.checked_distribute_rewards_relay_lamports in H; case_match; [done|];
    injection H as <-; bool_to_prop end.
  rewrite lamports_set_data in Hexec.
  match goal with |- context [set_data L1 (key m3) (DistributionData ?d ?tl)] =>
    change d with (new_distribution p j v4 z0 bump v2 0); set (tail := tl) in * end.
  set (new0 := DistributionData _ tail).
  destruct (unpack_token_account _) as [a|e|] eqn:Ea; [|asteps|apply wlp_panic].
  1: pose proof (unpack_token_account_u64 _ _ Ea) as [? ?]; asteps.
  all: exists p, rest0, v0, v2, v4, c, z0, bump, L0, r, L1, r0, tail; cbn [st_ledger st_trace app];
    fold new0; rewrite Ea; unfold token_account_invoker, distribution_invoker;
    rewrite ?create_account_calls_ixs, ?create_token_account_calls_ixs, ?lamports_set_data.
  - rewrite (proj2 (Z.eqb_eq _ _)) by done. conjs; try reflexivity; try assumption.
    ledger. by cpi_read.
  - match goal with H : arith_add _ ?n _ = Ok _ |- _ =>
      change n with 0 in H; rewrite arith_add_exact, Z.add_0_l in H by lia; injection H as <- end.
    rewrite (proj2 (Z.eqb_neq _ _)) by done. conjs; try reflexivity; try assumption.
    + ledger. by cpi_read.
    + exists L2, r1. match goal with H : key m9 = _ |- _ => rewrite H in * end.
      split; [eassumption|]. by rewrite new_distribution_prepaid.
  - conjs; try reflexivity; try assumption. ledger. by cpi_read.
Qed.
End Theorems.
