(* ===== verification/RdRewards.v ===== *)
(** * Reward handlers

    [processor.rs]: [try_distribute_rewards],
    [try_initialize_contributor_rewards], [try_set_rewards_manager],
    [try_configure_contributor_rewards] and
    [try_verify_distribution_merkle_root]. *)

From Stdlib Require Import ZArith Lia String.
From S2P Require Import Prelude Types BurnRate Runtime Lamports ProgramTools State RdAccounts Rules Steps.

(** [instruction/mod.rs]. *)
Inductive ContributorRewardsConfiguration : Type :=
  | Recipients (recipients : list (Pubkey * Z))
  | IsSetRewardsManagerBlocked (should_block : bool).

Inductive DistributionMerkleRootKind : Type :=
  | KindSolanaValidatorDebt (debt : SolanaValidatorDebt)
  | KindRewardShare (reward : RewardShare).

Section Handlers.
Context `{R : Runtime RdData}.

Abbreviation Mx := (M RdData).

(** [proof.root_from_pod_leaf] of the two leaf types. *)
Definition reward_root (proof : MerkleProof) (r : RewardShare) : Hash :=
  root_from_leaf proof (reward_leaf_bytes r) REWARD_LEAF_PREFIX.
Definition debt_root (proof : MerkleProof) (d : SolanaValidatorDebt) : Hash :=
  root_from_leaf proof (debt_leaf_bytes d) DEBT_LEAF_PREFIX.

(** ** [try_distribute_rewards] *)

(** What the accounts and checks of the first part leave: the views of
    accounts 1 and 2, the verified reward share, the distribution's token
    account and the relayer. *)
Definition distribute_rewards_accounts (leaf unit_share economic_burn_rate : Z)
    (proof : MerkleProof) : Mx (Pubkey * Pubkey * RewardShare * Pubkey * Pubkey) :=
  program_config ← zc_try_next_accounts ProgramConfig (Some ID);
  p ← deref ProgramConfig program_config;
  lift (try_require_unpaused p);;
  distribution ← zc_mut_try_next_accounts Distribution (Some ID);
  d ← deref Distribution distribution;
  ensure (negb (Dist.are_all_rewards_distributed d)) InvalidAccountData;;
  ensure (Dist.has_swept_2z_tokens d) InvalidAccountData;;
  ensure (Dist.are_all_integrations_collected d) InvalidAccountData;;
  process_distribution_leaf distribution Dist.processed_rewards_bitmap_range leaf;;
  contributor_rewards ← zc_try_next_accounts ContributorRewards (Some ID);
  c ← deref ContributorRewards contributor_rewards;
  reward_share ←
    lift (ok_or (Reward.new (Contrib.service_key c) unit_share false economic_burn_rate)
            InvalidInstructionData);
  ensure (reward_root proof reward_share =? Dist.rewards_merkle_root d) InvalidInstructionData;;
  '(_, distribution_2z_token_pda_info, _) ←
    try_next_2z_token_pda_info distribution (Some (Dist.token_2z_pda_bump_seed d));
  try_next_2z_mint_info;;
  '(_, relayer_info) ←
    try_next_enumerated_account (default_options <| must_be_writable := true |>);
  try_next_token_program_info;;
  mret (distribution, contributor_rewards, reward_share,
        key distribution_2z_token_pda_info, key relayer_info).

(** The loop over the active recipients: the total transferred and the
    number of transfers (an [i32], at most eight). *)
Fixpoint distribute_to_recipients (accounts : list AccountInfo) (seeds : SignerSeeds)
    (token_pda distribution : Pubkey) (remaining_share_amount : Z)
    (recipients : list RecipientShare) (total_transferred transfer_count : Z) : Mx (Z * Z) :=
  match recipients with
  | [] => mret (total_transferred, transfer_count)
  | recipient :: rest =>
      '(_, ata_info) ← try_next_enumerated_account default_options;
      let ata_key := get_associated_token_address (recipient_key recipient) DOUBLEZERO_MINT_KEY in
      ensure (key ata_info =? ata_key) InvalidAccountData;;
      recipient_share_amount ←
        lift (UnitShare16.mul_scalar (share recipient) remaining_share_amount);
      total_transferred ← lift (arith_add 64 total_transferred recipient_share_amount);
      invoke_signed ID (TokenTransfer token_pda ata_key distribution recipient_share_amount)
        accounts seeds;;
      distribute_to_recipients accounts seeds token_pda distribution remaining_share_amount
        rest total_transferred (transfer_count + 1)
  end.

(** Splitting, paying and burning. *)
Definition distribute_rewards_pay (accounts : list AccountInfo)
    (distribution contributor_rewards : Pubkey) (reward_share : RewardShare)
    (token_pda relayer : Pubkey) : Mx unit :=
  d ← deref Distribution distribution;
  split ← lift (Dist.split_2z_amount d reward_share);
  '(burn_share_amount, remaining_share_amount) ← lift (unwrap split);
  let seeds : SignerSeeds :=
    [[Dist.SEED_PREFIX; Epoch.as_seed (Dist.dz_epoch d); [Dist.bump_seed d]]] in
  c ← deref ContributorRewards contributor_rewards;
  '(total_transferred, transfer_count) ←
    distribute_to_recipients accounts seeds token_pda distribution remaining_share_amount
      (Recipients.active (Contrib.recipient_shares c)) 0 0;
  ensure (negb (transfer_count =? 0)) InvalidAccountData;;
  dust ← lift (arith_sub 64 remaining_share_amount total_transferred);
  burn_share_amount ← lift (arith_add 64 burn_share_amount dust);
  d ← deref Distribution distribution;
  distributed ← lift (arith_add 64 (Dist.distributed_2z_amount d) total_transferred);
  burned ← lift (arith_add 64 (Dist.burned_2z_amount d) burn_share_amount);
  count ← lift (arith_add 32 (Dist.distributed_rewards_count d) 1);
  modify Distribution distribution
    (fun d => d <| Dist.distributed_2z_amount := distributed |>
                <| Dist.burned_2z_amount := burned |>
                <| Dist.distributed_rewards_count := count |>);;
  invoke_signed ID (TokenBurn token_pda DOUBLEZERO_MINT_KEY distribution burn_share_amount)
    accounts seeds;;
  d ← deref Distribution distribution;
  let distribute_rewards_relay_lamports := Dist.distribute_rewards_relay_lamports d in
  add_lamports relayer distribute_rewards_relay_lamports;;
  sub_lamports distribution distribute_rewards_relay_lamports.

Definition try_distribute_rewards (accounts : list AccountInfo)
    (unit_share economic_burn_rate : Z) (proof : MerkleProof) : Mx unit :=
  leaf ← lift (try_leaf_index proof);
  start_iter accounts;;
  '(distribution, contributor_rewards, reward_share, token_pda, relayer) ←
    distribute_rewards_accounts leaf unit_share economic_burn_rate proof;
  distribute_rewards_pay accounts distribution contributor_rewards reward_share token_pda relayer.

(** ** Contributor rewards *)
Definition try_initialize_contributor_rewards (accounts : list AccountInfo)
    (service_key : Pubkey) : Mx unit :=
  start_iter accounts;;
  '(_, payer_info) ← try_next_enumerated_account default_options;
  '(_, new_contributor_rewards_info) ← try_next_enumerated_account default_options;
  let '(expected_contributor_rewards_key, contributor_rewards_bump) :=
    Contrib.find_address service_key in
  ensure (key new_contributor_rewards_info =? expected_contributor_rewards_key) InvalidSeeds;;
  lamports ← get_lamports (key new_contributor_rewards_info);
  try_create_account ID (Signer (key payer_info))
    (PdaSigner expected_contributor_rewards_key
       [Contrib.SEED_PREFIX; key_seed service_key; [contributor_rewards_bump]])
    lamports (data_end (D := RdData) ContributorRewards) ID accounts None;;
  contributor_rewards ← try_initialize ContributorRewards new_contributor_rewards_info;
  modify ContributorRewards contributor_rewards
    (fun c => c <| Contrib.service_key := service_key |>).

Definition try_set_rewards_manager (accounts : list AccountInfo) (rewards_manager_key : Pubkey)
    : Mx unit :=
  start_iter accounts;;
  program_config ← verified_program_authority ContributorManager;
  p ← deref ProgramConfig program_config;
  lift (try_require_unpaused p);;
  contributor_rewards ← zc_mut_try_next_accounts ContributorRewards (Some ID);
  c ← deref ContributorRewards contributor_rewards;
  ensure (negb (Contrib.is_set_rewards_manager_blocked c)) InvalidAccountData;;
  modify ContributorRewards contributor_rewards
    (fun c => c <| Contrib.rewards_manager_key := rewards_manager_key |>).

(** The [match setting] on the contributor rewards. *)
Definition apply_contributor_setting (c : ContributorRewards)
    (setting : ContributorRewardsConfiguration) : Res ContributorRewards :=
  match setting with
  | Recipients recipients =>
      recipient_shares ← ok_or (Recipients.new recipients) InvalidAccountData;
      mret (c <| Contrib.recipient_shares := recipient_shares |>)
  | IsSetRewardsManagerBlocked should_block =>
      mret (Contrib.set_is_set_rewards_manager_blocked c should_block)
  end.

Definition try_configure_contributor_rewards (accounts : list AccountInfo)
    (setting : ContributorRewardsConfiguration) : Mx unit :=
  start_iter accounts;;
  program_config ← zc_try_next_accounts ProgramConfig (Some ID);
  p ← deref ProgramConfig program_config;
  lift (try_require_unpaused p);;
  contributor_rewards ← zc_mut_try_next_accounts ContributorRewards (Some ID);
  c ← deref ContributorRewards contributor_rewards;
  '(_, rewards_manager_info) ←
    try_next_enumerated_account (default_options <| must_be_signer := true |>);
  ensure (key rewards_manager_info =? Contrib.rewards_manager_key c) InvalidAccountData;;
  c ← lift (apply_contributor_setting c setting);
  modify ContributorRewards contributor_rewards (fun _ => c).

(** ** [try_verify_distribution_merkle_root] *)
Definition verify_root (d : Distribution) (kind : DistributionMerkleRootKind)
    (proof : MerkleProof) : Res unit :=
  match kind with
  | KindSolanaValidatorDebt debt =>
      require (debt_root proof debt =? Dist.solana_validator_debt_merkle_root d)
        InvalidInstructionData
  | KindRewardShare reward =>
      ok_or (Reward.checked_unit_share reward) InvalidInstructionData;;
      ok_or (Reward.checked_economic_burn_rate reward) InvalidInstructionData;;
      require (reward_root proof reward =? Dist.rewards_merkle_root d) InvalidInstructionData
  end.

Definition try_verify_distribution_merkle_root (accounts : list AccountInfo)
    (kind : DistributionMerkleRootKind) (proof : MerkleProof) : Mx unit :=
  lift (try_leaf_index proof);;
  start_iter accounts;;
  distribution ← zc_try_next_accounts Distribution (Some ID);
  d ← deref Distribution distribution;
  lift (verify_root d kind proof).
End Handlers.

(** ** Lemmas: paying the recipients *)

(** What a recipient of [amount] gets, and where. *)
Definition payment (amount : Z) (s : RecipientShare) : Z := share s * amount / UnitShare16.MAX.

Lemma payments_bounds amount recipients :
  0 <= amount -> Forall (fun s => valid16 (share s)) recipients ->
  sumZ share recipients <= UnitShare16.MAX -> 0 <= sumZ (payment amount) recipients <= amount.
Proof.
  intros Ha Hv Hs. rewrite Forall_forall in Hv. split.
  - apply sumZ_nonneg. intros s Hin. apply Z.div_pos; [|done]. pose proof (proj1 (Hv s Hin)). nia.
  - apply (sum_shares_le share); [done|done| |done]. intros s Hin. apply (Hv s Hin).
Qed.

Section PayRules.
Context `{R : Runtime RdData} `{!RdLaws R}.

Definition recipient_ata (s : RecipientShare) : Pubkey :=
  get_associated_token_address (recipient_key s) DOUBLEZERO_MINT_KEY.

Definition payments (token_pda distribution : Pubkey) (amount : Z) (recipients : list RecipientShare)
    : list Instruction :=
  (fun s => TokenTransfer token_pda (recipient_ata s) distribution (payment amount s)) <$> recipients.

Lemma wlp_distribute_to_recipients accounts seeds token_pda distribution amount recipients
    total count (Q : Z * Z -> St RdData -> Prop) L i infos b r t :
  Forall (fun s => valid16 (share s)) recipients -> fits 64 amount -> 0 <= total ->
  total + sumZ (payment amount) recipients < 2 ^ 64 ->
  (forall L' i' infos' r', foreign_step L L' -> total_lamports L' = total_lamports L ->
     executes ID accounts
       (signed_with seeds (payments token_pda distribution amount recipients)) (L, r) (L', r') ->
     Q (total + sumZ (payment amount) recipients, count + Z.of_nat (length recipients))
       (MkSt L' i' infos' b r' (t ++ payments token_pda distribution amount recipients))) ->
  wlp (distribute_to_recipients accounts seeds token_pda distribution amount recipients total count)
    Q (MkSt L i infos b r t).
Proof.
  intros Hv Ha. revert total count L i infos r t.
  induction Hv as [|s recipients Hs Hv IH]; intros total count L i infos r t Ht Hb HQ.
  - apply wlp_ret. cbn in HQ. rewrite app_nil_r in HQ. rewrite !Z.add_0_r in HQ.
    apply HQ; [apply foreign_step_refl|done|constructor].
  - rewrite sumZ_cons in *. cbn [distribute_to_recipients].
    destruct (mul_scalar16 (share s) amount) as [E [Hp0 Hp1]]; [done|done|].
    assert (0 <= sumZ (payment amount) recipients) as Hpos.
    { apply sumZ_nonneg. intros a Hin. rewrite Forall_forall in Hv. specialize (Hv a Hin).
      destruct (mul_scalar16 (share a) amount) as [_ [? _]]; done. }
    destruct infos as [|info infos]; steps.
    rewrite E in *. simplify_eq. fold (payment amount s) in *.
    rewrite arith_add_exact in * by lia. simplify_eq.
    apply IH; [lia|lia|]. intros L' i' infos' r' Hforeign' Hbalanced' Hexec'.
    rewrite <- app_assoc.
    match goal with H : key _ = get_associated_token_address _ _ |- _ => idtac end.
    replace (total + payment amount s + sumZ (payment amount) recipients)
      with (total + (payment amount s + sumZ (payment amount) recipients)) by lia.
    replace (count + 1 + Z.of_nat (length recipients))
      with (count + Z.of_nat (length (s :: recipients))) by (cbn [length]; lia).
    apply HQ; [by eapply foreign_step_trans|congruence|].
    unfold payments, signed_with. rewrite !fmap_cons. fold (payments token_pda distribution amount recipients).
    apply executes_one in Hexec. econstructor; [|exact Hexec'].
    match goal with H : key _ = get_associated_token_address _ _ |- _ => idtac end. exact Hexec.
Qed.
End PayRules.

(** ** Theorems *)
Section Theorems.
Context `{R : Runtime RdData} `{!RdLaws R}.

(** The position of the bit that says whether a reward has been distributed. *)
Definition reward_bit (d : Distribution) (leaf : Z) : Z :=
  8 * Dist.processed_rewards_start_index d + leaf.

(** The counters of a distribution after a reward of which [sent] was paid and
    [burn] burned. *)
Definition reward_recorded (d : Distribution) (sent burn : Z) : Distribution :=
  d <| Dist.distributed_2z_amount := wrap 64 (Dist.distributed_2z_amount d + sent) |>
    <| Dist.burned_2z_amount := wrap 64 (Dist.burned_2z_amount d + burn) |>
    <| Dist.distributed_rewards_count := wrap 32 (Dist.distributed_rewards_count d + 1) |>.

(** The seeds a distribution signs with. *)
Definition distribution_seeds (d : Distribution) : SignerSeeds :=
  [[Dist.SEED_PREFIX; Epoch.as_seed (Dist.dz_epoch d); [Dist.bump_seed d]]].

(** C13: distributing a reward.  On an unpaused program, for a swept
    distribution with every integration collected and rewards left, a
    contributor's share is paid only with a proof of it (never of a blocked
    share) under the rewards root, whose leaf was not distributed and is from
    now on.  The share's value, the floor of its part of the total collected,
    is split into a burn and a payment; every active recipient is sent the
    floor of its part of the payment and the dust joins the burn, so that what
    is sent and what is burned add up exactly to that value.  The final ledger
    is the one these steps leave, from the initial one: the leaf's bit is set;
    the transfers execute, in order, signed by the distribution (L1); the
    counters are recorded; the burn executes (L2); and the relay lamports of the
    distribution are added to the relayer and taken from the distribution,
    which the transfers and the burn never debited; they conserve the lamports,
    and nothing else is invoked. *)
Theorem distribute_rewards_spec (L L' : Ledger RdData) trace m0 m1 m2 m3 m4 m5 m6 rest
    share rate proof :
  ledger_wf L -> 0 <= share ->
  (forall k d bits, data (acct L k) = DistributionData d bits -> rates_ok d) ->
  (forall k c crest, data (acct L k) = ContributorData c crest ->
     shares_ok (Contrib.recipient_shares c)) ->
  run (try_distribute_rewards (m0 :: m1 :: m2 :: m3 :: m4 :: m5 :: m6 :: rest) share rate proof) L
    = Ok (L', trace) ->
  exists p prest d bits c crest leaf bits' r total burned paid L1 r1 L2 r2 gained left,
    let accounts := m0 :: m1 :: m2 :: m3 :: m4 :: m5 :: m6 :: rest in
    let recipients := Recipients.active (Contrib.recipient_shares c) in
    let sent := sumZ (payment paid) recipients in
    let burn := burned + (paid - sent) in
    let transfers := payments (key m3) (key m1) paid recipients in
    let token_burn := TokenBurn (key m3) DOUBLEZERO_MINT_KEY (key m1) burn in
    let relay := Dist.distribute_rewards_relay_lamports d in
    data (acct L (key m0)) = ConfigData p prest /\ Config.is_paused p = false /\
    data (acct L (key m1)) = DistributionData d bits /\
    Dist.are_all_rewards_distributed d = false /\ Dist.has_swept_2z_tokens d = true /\
    Dist.are_all_integrations_collected d = true /\
    data (acct L (key m2)) = ContributorData c crest /\
    leaf_index proof = Some leaf /\
    Reward.new (Contrib.service_key c) share false rate = Some r /\
    reward_root proof r = Dist.rewards_merkle_root d /\
    leaf_bit bits (reward_bit d leaf) = false /\
    (forall i, 0 <= i -> leaf_bit bits' i = if i =? reward_bit d leaf then true else leaf_bit bits i) /\
    Dist.total_collected_2z_tokens d = Ok total /\
    Dist.split_2z_amount d r = Ok (Some (burned, paid)) /\
    recipients <> [] /\ 0 <= sent <= paid /\
    sent + burn = share * total / UnitShare32.MAX /\
    checked_2z_token_pda_address (key m1) (Dist.token_2z_pda_bump_seed d) = Some (key m3) /\
    trace = transfers ++ [token_burn] /\
    executes ID accounts (signed_with (distribution_seeds d) transfers)
      (set_data L (key m1) (DistributionData d bits'), None) (L1, r1) /\
    executes ID accounts [(token_burn, distribution_seeds d)]
      (set_data L1 (key m1) (DistributionData (reward_recorded d sent burn) bits'), r1) (L2, r2) /\
    total_lamports L2 = total_lamports L /\
    lamports (acct L (key m1)) <= lamports (acct L2 (key m1)) /\
    arith_add 64 (lamports (acct L2 (key m5))) relay = Ok gained /\
    arith_sub 64 (lamports (acct (set_lamports L2 (key m5) gained) (key m1))) relay = Ok left /\
    L' = set_lamports (set_lamports L2 (key m5) gained) (key m1) left /\
    data (acct L' (key m1)) = DistributionData (reward_recorded d sent burn) bits' /\
    (forall k, k <> key m1 -> owner (acct L k) = ID -> data (acct L' k) = data (acct L k)).
Proof.
  intros Hwf Hs Hrates Hshares. start_run.
  unfold try_distribute_rewards, distribute_rewards_accounts. asteps. guards.
  unfold distribute_rewards_pay. do 9 astep. wf_facts. mark_norm. subst.
  pose proof (reward_new_share _ _ _ _ _ H4) as Hv1.
  destruct (split_2z_amount_inv x0 v1 z z0) as (total & Htotal & Hvalue & Hz & Hz0 & Hzz).
  { match goal with W : wf_data (DistributionData x0 _) |- _ => apply W end. } { by eapply Hrates. } { by rewrite Hv1. } { done. }
  unfold share_value in Hvalue. rewrite Hv1 in Hvalue.
  destruct (Hshares _ _ _ Hdata1) as [Hvalid Hsum].
  set (recipients := Recipients.active (Contrib.recipient_shares x1)) in *.
  assert (0 <= sumZ (payment z0) recipients <= z0) as Hsent by by apply payments_bounds.
  astep.
  apply wlp_distribute_to_recipients; [done|unfold fits in *; lia|lia|unfold fits in *; lia|].
  intros L1 i' infos' r' Hforeign Hbalanced Hpaid.
  pose proof (foreign_preserves _ _ Hforeign) as Hcpi. asteps. rewrite !Z.add_0_l in *.
  unfold fits in Hzz. rewrite arith_sub_exact in * by lia. res_inv.
  rewrite (arith_add_exact 64 z) in * by lia. res_inv.
  arith_norm.
  exists x, rest0, x0, rest1, x1, rest2, v, rest', v1, total, z, z0, L1, r', L0.
  eexists _, l, l0.
  fold recipients. unfold reward_bit. cbn [st_ledger st_trace app]. conjs; try reflexivity; try lia.
  - intros E. match goal with H : Z.of_nat _ <> 0 |- _ => by rewrite E in H end.
  - exact Hpaid.
  - exact Hexec.
  - by rewrite Hbalanced0, total_set_data, Hbalanced, total_set_data.
  - destruct Hforeign as (_ & Hle & _), Hforeign0 as (_ & Hle0 & _).
    specialize (Hle (key m1)). specialize (Hle0 (key m1)).
    rewrite owner_set_data, lamports_set_data in *.
    pose proof (preserved_owner _ _ (key m1) Hcpi) as Ho1. rewrite owner_set_data in Ho1.
    specialize (Hle Howner0). specialize (Hle0 (Ho1 Howner0)). lia.
  - assumption.
  - assumption.
  - ledger. by cpi_read.
  - intros k Hk Ho. ledger. by cpi_read.
Qed.

(** Setting a rewards manager: only the contributor manager, on an unpaused
    program, unless the contributor blocked it; only that key changes. *)
Theorem set_rewards_manager_spec (L L' : Ledger RdData) trace m0 m1 m2 rest manager :
  run (try_set_rewards_manager (m0 :: m1 :: m2 :: rest) manager) L = Ok (L', trace) ->
  exists p prest c crest,
    data (acct L (key m0)) = ConfigData p prest /\ Config.is_paused p = false /\
    is_signer m1 = true /\ key m1 = Config.contributor_manager_key p /\
    data (acct L (key m2)) = ContributorData c crest /\ owner (acct L (key m2)) = ID /\
    Contrib.is_set_rewards_manager_blocked c = false /\
    L' = set_data L (key m2)
           (ContributorData (c <| Contrib.rewards_manager_key := manager |>) crest) /\
    trace = [].
Proof.
  start_run. unfold try_set_rewards_manager. asteps; guards.
  exists p, rest0, x, rest1. finish. by conjs.
Qed.

(** Configuring contributor rewards: only the contributor's own rewards
    manager, on an unpaused program.  New recipients are stored only when
    accepted, so a contributor whose shares were sound keeps sound shares; the
    blocked flag reads back as set; manager and service key never change. *)
Theorem configure_contributor_rewards_spec (L L' : Ledger RdData) trace m0 m1 m2 rest setting :
  (forall recipients, setting = Recipients recipients -> Forall (fun r => 0 <= r.2) recipients) ->
  run (try_configure_contributor_rewards (m0 :: m1 :: m2 :: rest) setting) L = Ok (L', trace) ->
  exists p prest c crest c',
    data (acct L (key m0)) = ConfigData p prest /\ Config.is_paused p = false /\
    data (acct L (key m1)) = ContributorData c crest /\
    is_signer m2 = true /\ key m2 = Contrib.rewards_manager_key c /\
    L' = set_data L (key m1) (ContributorData c' crest) /\ trace = [] /\
    Contrib.rewards_manager_key c' = Contrib.rewards_manager_key c /\
    Contrib.service_key c' = Contrib.service_key c /\
    match setting with
    | Recipients recipients =>
        Recipients.new recipients = Some (Contrib.recipient_shares c') /\
        shares_ok (Contrib.recipient_shares c') /\ Contrib.flags c' = Contrib.flags c
    | IsSetRewardsManagerBlocked block =>
        Contrib.is_set_rewards_manager_blocked c' = block /\
        Contrib.recipient_shares c' = Contrib.recipient_shares c
    end.
Proof.
  intros Hnn. start_run. unfold try_configure_contributor_rewards. asteps; guards.
  destruct setting as [recipients|block]; cbn [apply_contributor_setting] in *; res_inv;
    [exists x, rest0, x0, rest1, (x0 <| Contrib.recipient_shares := x1 |>)
    |exists x, rest0, x0, rest1, (Contrib.set_is_set_rewards_manager_blocked x0 block)];
    finish; conjs; try reflexivity; try done.
  - eapply shares_ok_new; [by apply Hnn|done].
  - by apply (Flags.bit_set_bit _ 0 0).
Qed.

(** Verifying a Merkle proof is read-only, and succeeds exactly for a
    distribution of this program, a proof that carries its leaf index, and a
    leaf whose root is the stored one (for a reward: with a valid share and
    rate). *)
Theorem verify_root_spec (L : Ledger RdData) m0 rest kind proof d bits :
  data (acct L (key m0)) = DistributionData d bits -> owner (acct L (key m0)) = ID ->
  is_ok (run (try_verify_distribution_merkle_root (m0 :: rest) kind proof) L) =
    bool_decide (is_Some (leaf_index proof)) &&
    match kind with
    | KindSolanaValidatorDebt debt =>
        debt_root proof debt =? Dist.solana_validator_debt_merkle_root d
    | KindRewardShare r =>
        (unit_share r <=? UnitShare32.MAX) && (Reward.economic_burn_rate r <=? UnitShare32.MAX)
        && (reward_root proof r =? Dist.rewards_merkle_root d)
    end /\
  (forall L' trace,
     run (try_verify_distribution_merkle_root (m0 :: rest) kind proof) L = Ok (L', trace) ->
     L' = L /\ trace = []).
Proof.
  intros Hd Ho. split.
  - unfold run, try_verify_distribution_merkle_root, try_leaf_index.
    destruct (leaf_index proof) as [leaf|]; [|done]. rewrite andb_true_l.
    cbv [zc_try_next_accounts try_next_enumerated_account try_from_account_info check_layout deref
         iter_next start_iter get_ledger try_borrow_data ensure require lift mret M_ret mbind
         M_bind]. cbn. rewrite Ho, Z.eqb_refl. cbn.
    change (borrowed_mut (key m0) []) with false. cbn. rewrite Hd.
    change (data_end Distribution) with (DISCRIMINATOR_LEN + SIZE_Distribution).
    rewrite (proj2 (Z.ltb_ge _ _)) by (cbn; unfold lenZ; lia). cbn. rewrite Hd. cbn.
    destruct kind as [debt|r]; cbn.
    + by destruct (_ =? _).
    + unfold Reward.checked_unit_share, Reward.checked_economic_burn_rate, UnitShare32.new,
        UnitShare.new, UnitShare.MAX.
      destruct (unit_share r <=? _); [|done]. cbn.
      destruct (Reward.economic_burn_rate r <=? _); [|done]. cbn. by destruct (_ =? _).
  - intros L' trace. start_run. unfold try_verify_distribution_merkle_root. asteps. done.
Qed.
End Theorems.
