(* ===== verification/RdDebt.v ===== *)
(** * Solana validator debt handlers

    [processor.rs]: [try_initialize_solana_validator_deposit],
    [try_pay_solana_validator_debt],
    [try_enable_solana_validator_debt_write_off],
    [try_write_off_solana_validator_debt] and
    [try_withdraw_solana_validator_deposit]. *)

From Stdlib Require Import ZArith Lia String.
From S2P Require Import Prelude Types BurnRate Runtime ProgramTools State RdAccounts.
From S2P Require Import Borsh Rules Steps Total RdTotal RdDistribution RdRewards.

Section Handlers.
Context `{R : Runtime RdData}.

Abbreviation Mx := (M RdData).

(** The rent of an account of exactly the size of a deposit. *)
Definition deposit_rent : Z := minimum_balance (data_end (D := RdData) SolanaValidatorDeposit).

(** ** [try_initialize_solana_validator_deposit] *)
Definition try_initialize_solana_validator_deposit (accounts : list AccountInfo)
    (node_id : Pubkey) : Mx unit :=
  start_iter accounts;;
  '(_, new_deposit_info) ← try_next_enumerated_account default_options;
  let '(expected_key, bump) := Depo.find_address node_id in
  ensure (key new_deposit_info =? expected_key) InvalidAccountData;;
  '(_, payer_info) ← try_next_enumerated_account default_options;
  additional_lamports ← get_lamports (key new_deposit_info);
  try_create_account ID (Signer (key payer_info))
    (PdaSigner expected_key [Depo.SEED_PREFIX; key_seed node_id; [bump]])
    additional_lamports (data_end (D := RdData) SolanaValidatorDeposit) ID accounts
    (Some additional_lamports);;
  deposit ← try_initialize SolanaValidatorDeposit new_deposit_info;
  modify SolanaValidatorDeposit deposit (fun x => x <| Depo.node_id := node_id |>).

(** ** [try_pay_solana_validator_debt] *)
Definition try_pay_solana_validator_debt (accounts : list AccountInfo) (amount : Z)
    (proof : MerkleProof) : Mx unit :=
  leaf ← lift (try_leaf_index proof);
  start_iter accounts;;
  program_config ← zc_try_next_accounts ProgramConfig (Some ID);
  p ← deref ProgramConfig program_config;
  lift (try_require_unpaused p);;
  distribution ← zc_mut_try_next_accounts Distribution (Some ID);
  d ← deref Distribution distribution;
  lift (try_require_finalized_debt_calculation d);;
  collected ← lift (arith_add 64 (Dist.collected_solana_validator_payments d) amount);
  count ← lift (arith_add 32 (Dist.solana_validator_payments_count d) 1);
  modify Distribution distribution
    (fun d => d <| Dist.collected_solana_validator_payments := collected |>
                <| Dist.solana_validator_payments_count := count |>);;
  deposit ← zc_mut_try_next_accounts SolanaValidatorDeposit (Some ID);
  x ← deref SolanaValidatorDeposit deposit;
  process_distribution_leaf distribution Dist.processed_solana_validator_debt_bitmap_range leaf;;
  let debt := MkSolanaValidatorDebt (Depo.node_id x) amount in
  ensure (debt_root proof debt =? Dist.solana_validator_debt_merkle_root d)
    InvalidInstructionData;;
  deposit_lamports ← get_lamports deposit;
  ensure (negb (saturating_sub deposit_lamports deposit_rent <? amount)) InvalidAccountData;;
  journal ← zc_mut_try_next_accounts Journal (Some ID);
  sub_lamports deposit amount;;
  add_lamports journal amount;;
  j ← deref Journal journal;
  balance ← lift (arith_add 64 (Jrnl.total_sol_balance j) amount);
  modify Journal journal (fun j => j <| Jrnl.total_sol_balance := balance |>).

(** ** [try_enable_solana_validator_debt_write_off] *)
Definition try_enable_solana_validator_debt_write_off (accounts : list AccountInfo) : Mx unit :=
  start_iter accounts;;
  program_config ← zc_try_next_accounts ProgramConfig (Some ID);
  p ← deref ProgramConfig program_config;
  lift (try_require_unpaused p);;
  ensure (Config.is_debt_write_off_feature_activated p) InvalidAccountData;;
  distribution ← zc_mut_try_next_accounts Distribution (Some ID);
  d ← deref Distribution distribution;
  ensure (negb (Dist.is_solana_validator_debt_write_off_enabled d)) InvalidAccountData;;
  modify Distribution distribution
    (fun d => Dist.set_is_solana_validator_debt_write_off_enabled d true);;
  d ← deref Distribution distribution;
  lift (try_require_finalized_debt_calculation d);;
  let additional := additional_data_len (Dist.total_solana_validators d) in
  remaining ← remaining_data Distribution distribution;
  let start := as_u32 (lenZ remaining) in
  modify Distribution distribution
    (fun d => d <| Dist.processed_solana_validator_debt_write_off_start_index := start |>
                <| Dist.processed_solana_validator_debt_write_off_end_index :=
                     saturating_add 32 start additional |>);;
  additional_lamports_for_resize ← grow_distribution distribution additional;
  '(_, payer_info) ← try_next_enumerated_account default_options;
  invoke_signed ID
    (SystemTransfer (key payer_info) distribution additional_lamports_for_resize) accounts [].

(** ** [try_write_off_solana_validator_debt] *)

(** Accounts 0 to 3: the amount is recorded in the deposit, which must not be
    able to cover it; the debt is marked as written off and as processed in
    the distribution, and checked against its root.  Leaves the
    distribution's epoch. *)
Definition write_off_debt (leaf amount : Z) (proof : MerkleProof) : Mx DoubleZeroEpoch :=
  program_config ← verified_program_authority DebtAccountant;
  p ← deref ProgramConfig program_config;
  lift (try_require_unpaused p);;
  distribution ← zc_mut_try_next_accounts Distribution (Some ID);
  d ← deref Distribution distribution;
  let dz_epoch := Dist.dz_epoch d in
  deposit ← zc_mut_try_next_accounts SolanaValidatorDeposit (Some ID);
  x ← deref SolanaValidatorDeposit deposit;
  let node_id := Depo.node_id x in
  written_off ← lift (arith_add 64 (Depo.written_off_sol_debt x) amount);
  modify SolanaValidatorDeposit deposit
    (fun x => x <| Depo.written_off_sol_debt := written_off |>);;
  drop_view deposit;;
  deposit_lamports ← get_lamports deposit;
  len ← get_data_len deposit;
  let excess_lamports := saturating_sub deposit_lamports (minimum_balance len) in
  ensure (negb (amount <=? excess_lamports)) InvalidAccountData;;
  ensure (Dist.is_solana_validator_debt_write_off_enabled d) InvalidAccountData;;
  count ← lift (arith_add 32 (Dist.solana_validator_write_off_count d) 1);
  modify Distribution distribution
    (fun d => d <| Dist.solana_validator_write_off_count := count |>);;
  process_distribution_leaf distribution
    Dist.processed_solana_validator_debt_write_off_bitmap_range leaf;;
  process_distribution_leaf distribution Dist.processed_solana_validator_debt_bitmap_range leaf;;
  let debt := MkSolanaValidatorDebt node_id amount in
  ensure (debt_root proof debt =? Dist.solana_validator_debt_merkle_root d)
    InvalidInstructionData;;
  drop_view distribution;;
  mret dz_epoch.

(** The write-off distribution (the same one, or one of a later epoch). *)
Definition account_write_off (dz_epoch : DoubleZeroEpoch) (amount : Z) : Mx unit :=
  write_off_distribution ← zc_mut_try_next_accounts Distribution (Some ID);
  w ← deref Distribution write_off_distribution;
  ensure (negb (Dist.dz_epoch w <? dz_epoch)) InvalidAccountData;;
  lift (try_require_has_not_swept_2z_tokens w);;
  lift (try_require_finalized_debt_calculation w);;
  uncollectible ← lift (arith_add 64 (Dist.uncollectible_sol_debt w) amount);
  modify Distribution write_off_distribution
    (fun w => w <| Dist.uncollectible_sol_debt := uncollectible |>);;
  w ← deref Distribution write_off_distribution;
  lift (ok_or (Dist.checked_total_sol_debt w) ArithmeticOverflow);;
  mret tt.

Definition try_write_off_solana_validator_debt (accounts : list AccountInfo) (amount : Z)
    (proof : MerkleProof) : Mx unit :=
  leaf ← lift (try_leaf_index proof);
  start_iter accounts;;
  dz_epoch ← write_off_debt leaf amount proof;
  account_write_off dz_epoch amount.

(** ** [try_withdraw_solana_validator_deposit] *)

(** The optional account 3: with the default options the only error is that
    there is no account left. *)
Definition next_beneficiary (validator_node_info : AccountInfo) : Mx AccountInfo :=
  len ← iter_len;
  match len with
  | O => mret validator_node_info
  | S _ =>
      '(_, specified_beneficiary_info) ← try_next_enumerated_account default_options;
      ensure (is_signer validator_node_info) MissingRequiredSignature;;
      mret specified_beneficiary_info
  end.

Definition try_withdraw_solana_validator_deposit (accounts : list AccountInfo) : Mx unit :=
  start_iter accounts;;
  program_config ← zc_try_next_accounts ProgramConfig (Some ID);
  p ← deref ProgramConfig program_config;
  lift (try_require_unpaused p);;
  deposit ← zc_try_next_accounts SolanaValidatorDeposit (Some ID);
  x ← deref SolanaValidatorDeposit deposit;
  let node_id := Depo.node_id x in
  '(_, validator_node_info) ← try_next_enumerated_account default_options;
  ensure (key validator_node_info =? node_id) InvalidAccountData;;
  beneficiary_info ← next_beneficiary validator_node_info;
  let written_off_sol_debt := Depo.written_off_sol_debt x in
  drop_view deposit;;
  deposit_lamports ← get_lamports deposit;
  let withdrawn_lamports :=
    saturating_sub (saturating_sub deposit_lamports deposit_rent) written_off_sol_debt in
  ensure (negb (withdrawn_lamports =? 0)) InvalidAccountData;;
  sub_lamports deposit withdrawn_lamports;;
  add_lamports (key beneficiary_info) withdrawn_lamports.
End Handlers.

(** ** Theorems *)
Section Theorems.
Context `{R : Runtime RdData}.

(** The position, in the remaining data of a distribution, of the bit that
    says whether the debt at a leaf has been processed. *)
Definition debt_bit (d : Distribution) (leaf : Z) : Z :=
  8 * Dist.processed_solana_validator_debt_start_index d + leaf.

(** C12: paying a debt.  A successful payment was made on an unpaused program
    for a finalized distribution, with a proof of exactly this node and amount
    under the distribution's root, whose leaf had not been processed.  It sets
    that leaf's bit and no other, counts the payment, moves exactly [amount]
    lamports from the deposit to the journal, leaves the deposit its rent,
    credits the journal's SOL balance, issues no CPI and touches no other
    account. *)
Theorem pay_debt_spec (L L' : Ledger RdData) trace m0 m1 m2 m3 rest amount proof :
  ledger_wf L -> fits 64 amount ->
  run (try_pay_solana_validator_debt (m0 :: m1 :: m2 :: m3 :: rest) amount proof) L
    = Ok (L', trace) ->
  exists p prest d bits x xrest j jrest leaf bits',
    data (acct L (key m0)) = ConfigData p prest /\ Config.is_paused p = false /\
    data (acct L (key m1)) = DistributionData d bits /\
    Dist.is_debt_calculation_finalized d = true /\
    data (acct L (key m2)) = DepositData x xrest /\
    data (acct L (key m3)) = JournalData j jrest /\
    leaf_index proof = Some leaf /\
    debt_root proof (MkSolanaValidatorDebt (Depo.node_id x) amount)
      = Dist.solana_validator_debt_merkle_root d /\
    leaf_bit bits (debt_bit d leaf) = false /\
    (forall i, 0 <= i -> leaf_bit bits' i = if i =? debt_bit d leaf then true else leaf_bit bits i) /\
    data (acct L' (key m1)) = DistributionData
      (d <| Dist.collected_solana_validator_payments :=
              wrap 64 (Dist.collected_solana_validator_payments d + amount) |>
         <| Dist.solana_validator_payments_count :=
              wrap 32 (Dist.solana_validator_payments_count d + 1) |>) bits' /\
    data (acct L' (key m3)) = JournalData
      (j <| Jrnl.total_sol_balance := wrap 64 (Jrnl.total_sol_balance j + amount) |>) jrest /\
    (0 < amount -> deposit_rent + amount <= lamports (acct L (key m2))) /\
    lamports (acct L' (key m2)) = lamports (acct L (key m2)) - amount /\
    lamports (acct L' (key m3)) = wrap 64 (lamports (acct L (key m3)) + amount) /\
    trace = [] /\
    (forall k, k <> key m1 -> k <> key m2 -> k <> key m3 -> acct L' k = acct L k).
Proof.
  intros Hwf Ham. start_run. unfold try_pay_solana_validator_debt.
  steps. guards. lamports_norm. wf_facts.
  mark_norm.
  rewrite saturating_sub_spec in *. pose proof (ledger_wf_lamports L (key m2) Hwf) as [? ?].
  assert (0 <= deposit_rent) by (eapply fits_nonneg; apply minimum_balance_u64).
  rewrite arith_sub_exact in * by lia. res_inv. arith_norm.
  exists x, rest0, x0, rest1, x1, rest2, x2, rest3, v, rest'.
  unfold debt_bit. finish. conjs.
  - lia.
  - intros k ? ? ?. by ledger.
Qed.

(** The position of the bit that says whether a debt has been written off. *)
Definition write_off_bit (d : Distribution) (leaf : Z) : Z :=
  8 * Dist.processed_solana_validator_debt_write_off_start_index d + leaf.

(** C16: writing off a debt.  Only the debt accountant can, with a proof of the
    node and amount, when write-offs are enabled and the deposit cannot cover
    the amount; the leaf must be neither written off nor processed and becomes
    both.  The amount is added to the deposit's written-off debt and to the
    uncollectible debt of the write-off distribution: the same one, or one of
    a later epoch, unswept and with its debt finalized, whose uncollectible
    debt stays within its total debt.  No lamports move, nothing is invoked. *)
Theorem write_off_spec (L L' : Ledger RdData) trace m0 m1 m2 m3 m4 rest amount proof :
  ledger_wf L -> fits 64 amount ->
  run (try_write_off_solana_validator_debt (m0 :: m1 :: m2 :: m3 :: m4 :: rest) amount proof) L
    = Ok (L', trace) ->
  exists p prest d bits x xrest w wbits leaf bits',
    let d' := d <| Dist.solana_validator_write_off_count :=
                     wrap 32 (Dist.solana_validator_write_off_count d + 1) |> in
    let w' := w <| Dist.uncollectible_sol_debt :=
                     wrap 64 (Dist.uncollectible_sol_debt w + amount) |> in
    data (acct L (key m0)) = ConfigData p prest /\ Config.is_paused p = false /\
    is_signer m1 = true /\ key m1 = Config.debt_accountant_key p /\
    data (acct L (key m2)) = DistributionData d bits /\
    Dist.is_solana_validator_debt_write_off_enabled d = true /\
    data (acct L (key m3)) = DepositData x xrest /\
    lamports (acct L (key m3))
      < minimum_balance (rd_data_len (DepositData x xrest)) + amount /\
    leaf_index proof = Some leaf /\
    debt_root proof (MkSolanaValidatorDebt (Depo.node_id x) amount)
      = Dist.solana_validator_debt_merkle_root d /\
    leaf_bit bits (write_off_bit d leaf) = false /\ leaf_bit bits (debt_bit d leaf) = false /\
    (forall i, 0 <= i -> leaf_bit bits' i =
       if (i =? write_off_bit d leaf) || (i =? debt_bit d leaf) then true else leaf_bit bits i) /\
    data (acct L' (key m3)) =
      DepositData (x <| Depo.written_off_sol_debt :=
                          wrap 64 (Depo.written_off_sol_debt x + amount) |>) xrest /\
    (key m4 = key m2 /\ w = d' /\ wbits = bits' \/
     key m4 <> key m2 /\ data (acct L (key m4)) = DistributionData w wbits /\
     data (acct L' (key m2)) = DistributionData d' bits') /\
    Dist.dz_epoch d <= Dist.dz_epoch w /\
    Dist.has_swept_2z_tokens w = false /\ Dist.is_debt_calculation_finalized w = true /\
    data (acct L' (key m4)) = DistributionData w' wbits /\
    Dist.uncollectible_sol_debt w' <= Dist.total_solana_validator_debt w' /\
    (forall k, lamports (acct L' k) = lamports (acct L k)) /\ trace = [].
Proof.
  intros Hwf Ham. start_run. unfold try_write_off_solana_validator_debt, write_off_debt.
  asteps. unfold account_write_off. asteps. guards. lamports_norm. wf_facts. mark_norm.
  assert (0 <= v) by nonneg. assert (0 <= debt_bit x v) as Hdb.
  { assert (0 <= Dist.processed_solana_validator_debt_start_index x) by nonneg.
    unfold debt_bit. lia. }
  match goal with
  | H1 : leaf_bit _ (debt_bit x v) = false |- _ => idtac
  | H0 : (forall j, 0 <= j -> leaf_bit ?b1 j = _), H1 : leaf_bit ?b1 _ = false,
    H2 : (forall j, 0 <= j -> leaf_bit ?b2 j = if _ then true else leaf_bit ?b1 j) |- _ =>
      destruct (two_marks _ _ _ _ _ Hdb H0 H1 H2)
  end.
  assert (key m4 <> key m3) as Hne43.
  { intros E. rewrite E in Hdata2. revert Hdata2. ledger. done. }
  assert (lamports (acct L (key m3)) < minimum_balance (rd_data_len (DepositData x0 rest2)) + amount).
  { match goal with H : saturating_sub _ _ < amount |- _ => revert H end. ledger.
    rewrite saturating_sub_spec. cbn [data_len RdData_account rd_data_len]. lia. }
  destruct (decide (key m4 = key m2)) as [E4|E4].
  - rewrite E4 in *. ledger_fact Hdata2. injection Hdata2 as <- <-. arith_norm.
    exists p, rest0, x, rest1, x0, rest2,
      (x <| Dist.solana_validator_write_off_count :=
              wrap 32 (Dist.solana_validator_write_off_count x + 1) |>), rest'0, v, rest'0.
    finish. unfold write_off_bit. conjs; try reflexivity; [left; by conjs|].
    intros k. by rewrite !lamports_set_data.
  - ledger_fact Hdata2. wf_facts. arith_norm.
    exists p, rest0, x, rest1, x0, rest2, x1, rest3, v, rest'0. finish.
    unfold write_off_bit. conjs; try reflexivity; [right; by conjs|].
    intros k. by rewrite !lamports_set_data.
Qed.

(** A leaf whose debt has been processed is closed: as long as its bit is set,
    neither a payment nor a write-off of that leaf succeeds, whatever the
    amount, the proof of it and the other accounts. *)
Theorem processed_debt_closed (L : Ledger RdData) kd d bits leaf proof amount accounts s :
  ledger_wf L -> data (acct L kd) = DistributionData d bits ->
  leaf_index proof = Some leaf -> leaf_bit bits (debt_bit d leaf) = true ->
  (key <$> accounts !! 1%nat = Some kd ->
     run (try_pay_solana_validator_debt accounts amount proof) L <> Ok s) /\
  (key <$> accounts !! 2%nat = Some kd ->
     run (try_write_off_solana_validator_debt accounts amount proof) L <> Ok s).
Proof.
  intros Hwf Hd Hleaf Hbit. destruct s as [L' trace]. wf_facts.
  split; intros Hk.
  - destruct accounts as [|m0 [|m1 infos]]; try discriminate Hk. injection Hk as <-.
    enough (run (try_pay_solana_validator_debt (m0 :: m1 :: infos) amount proof) L = Ok (L', trace)
            -> False) by done.
    start_run. unfold try_pay_solana_validator_debt. asteps. guards.
    match goal with H : data (acct L (key m1)) = DistributionData ?x _ |- _ =>
      tryif constr_eq x d then fail else (rewrite Hd in H; injection H as <- <-) end.
    simplify_eq. destruct infos as [|m2 infos]; asteps. mark_norm.
    match goal with H : leaf_bit _ _ = false |- _ => unfold debt_bit in Hbit; congruence end.
  - destruct accounts as [|m0 [|m1 [|m2 infos]]]; try discriminate Hk. injection Hk as <-.
    enough (run (try_write_off_solana_validator_debt (m0 :: m1 :: m2 :: infos) amount proof) L
            = Ok (L', trace) -> False) by done.
    start_run. unfold try_write_off_solana_validator_debt, write_off_debt. asteps. guards.
    match goal with H : data (acct L (key m2)) = DistributionData ?x _ |- _ =>
      tryif constr_eq x d then fail else (rewrite Hd in H; injection H as <- <-) end.
    simplify_eq. destruct infos as [|m3 infos]; asteps. mark_norm.
    assert (0 <= leaf) by nonneg.
    assert (0 <= Dist.processed_solana_validator_debt_start_index d) by nonneg.
    destruct infos as [|m4 infos]; unfold account_write_off; asteps.
    match goal with
    | H : (forall j, 0 <= j -> leaf_bit ?b1 j = _), H' : leaf_bit ?b1 _ = false |- _ =>
        rewrite H in H' by lia; unfold debt_bit in Hbit; rewrite Hbit in H'; by case_match
    end.
Qed.

(** Withdrawing a deposit.  The node of the deposit is named, and signs
    when the lamports go to somebody else; exactly the lamports above the rent
    and the written-off debt are withdrawn, so the deposit keeps rent plus
    written-off debt; there must be such an excess. *)
Theorem withdraw_deposit_spec (L L' : Ledger RdData) trace m0 m1 m2 rest :
  ledger_wf L ->
  run (try_withdraw_solana_validator_deposit (m0 :: m1 :: m2 :: rest)) L = Ok (L', trace) ->
  exists p prest x xrest excess beneficiary,
    data (acct L (key m0)) = ConfigData p prest /\ Config.is_paused p = false /\
    data (acct L (key m1)) = DepositData x xrest /\ key m2 = Depo.node_id x /\
    beneficiary = match rest with [] => key m2 | m3 :: _ => key m3 end /\
    (rest <> [] -> is_signer m2 = true) /\
    0 < excess /\
    lamports (acct L (key m1)) = deposit_rent + Depo.written_off_sol_debt x + excess /\
    (beneficiary <> key m1 ->
       lamports (acct L' (key m1)) = deposit_rent + Depo.written_off_sol_debt x /\
       lamports (acct L' beneficiary) = wrap 64 (lamports (acct L beneficiary) + excess)) /\
    (forall k, data (acct L' k) = data (acct L k)) /\
    (forall k, k <> key m1 -> k <> beneficiary -> acct L' k = acct L k) /\ trace = [].
Proof.
  intros Hwf. start_run. unfold try_withdraw_solana_validator_deposit, next_beneficiary.
  destruct rest as [|m3 rest]; asteps; try discriminate; guards; wf_facts;
    rewrite !saturating_sub_spec in *; pose proof (ledger_wf_lamports L (key m1) Hwf) as [? ?];
    assert (0 <= deposit_rent) by (eapply fits_nonneg; apply minimum_balance_u64);
    assert (0 <= Depo.written_off_sol_debt x0) by nonneg;
    match goal with H : ?e <> 0, H' : arith_sub _ _ ?e = Ok _ |- _ =>
      set (excess := e) in *; assert (0 < excess) by lia;
      rewrite arith_sub_exact in H' by lia; injection H' as <-
    end;
    [exists x, rest, x0, rest0, excess, (key m2)|exists x, rest0, x0, rest1, excess, (key m3)];
    cbn [st_ledger st_trace]; conjs; try done; try lia.
  1,4: intros Hne; lamports_norm; arith_norm; ledger; split; [lia|done].
  all: intros k; intros; by ledger.
Qed.

(** A distribution whose write-off bitmap is appended after [bits]. *)
Definition with_write_off_bitmap (d : Distribution) (bits : list Z) : Distribution :=
  let range := grown_range bits (Dist.total_solana_validators d) in
  d <| Dist.processed_solana_validator_debt_write_off_start_index := range.1 |>
    <| Dist.processed_solana_validator_debt_write_off_end_index := range.2 |>.

(** Enabling write-offs is permissionless but needs the feature activated
    in the config, a finalized debt and that it was not done before.  A clear
    bitmap accepting every validator's leaf is appended after the existing
    ones (whose bits keep their positions), and the payer tops up the rent. *)
Theorem enable_write_off_spec `{!RdLaws R} (L L' : Ledger RdData) trace m0 m1 m2 rest :
  ledger_wf L ->
  run (try_enable_solana_validator_debt_write_off (m0 :: m1 :: m2 :: rest)) L = Ok (L', trace) ->
  exists p prest d bits,
    data (acct L (key m0)) = ConfigData p prest /\ Config.is_paused p = false /\
    Config.is_debt_write_off_feature_activated p = true /\
    data (acct L (key m1)) = DistributionData d bits /\
    Dist.is_debt_calculation_finalized d = true /\
    Dist.is_solana_validator_debt_write_off_enabled d = false /\
    let n := Dist.total_solana_validators d in
    let d' := with_write_off_bitmap (Dist.set_is_solana_validator_debt_write_off_enabled d true)
                bits in
    data (acct L' (key m1)) = DistributionData d' (grown bits n) /\
    (forall leaf, 0 <= leaf < n -> exists bits',
       mark_leaf (grown bits n)
         (Dist.processed_solana_validator_debt_write_off_bitmap_range d') leaf = Ok bits') /\
    (forall i, 0 <= i < 8 * lenZ bits -> leaf_bit (grown bits n) i = leaf_bit bits i) /\
    trace = [SystemTransfer (key m2) (key m1) (grown_shortfall L (key m1) bits n)].
Proof.
  intros Hwf. start_run. unfold try_enable_solana_validator_debt_write_off. asteps. guards; wf_facts.
  pose proof (ledger_wf_rest _ _ _ _ Hwf Hdata0) as Hlen.
  assert (fits 32 (Dist.total_solana_validators x0)) as Hn by fit.
  eapply wlp_grow_distribution; [view_read|exact Hn|done|]. intros _. asteps.
  exists x, rest0, x0, rest1. finish.
  rewrite grown_end, as_u32_lenZ, grown_len by (exact Hlen || exact Hn || apply Hn). ledger.
  match goal with H : _ = true |- _ => rewrite Dist.finalized_set_enabled in H end.
  conjs; try reflexivity.
  - intros leaf Hl. by apply grown_accepts.
  - intros i Hi. unfold leaf_bit, grown. rewrite lookup_app_l; [done|].
    apply Nat2Z.inj_lt. rewrite Z2Nat.id by (apply Z.div_pos; lia).
    apply Z.div_lt_upper_bound; [lia|]. apply Hi.
Qed.

(** Initializing a deposit.  Anybody can, for the PDA of the node, which
    becomes an account of this program naming the node with nothing written
    off; the CPIs are those of creating it with its rent on top of the
    lamports it already had. *)
Theorem initialize_deposit_spec `{!RdLaws R} (L L' : Ledger RdData) trace m0 m1 rest node_id :
  run (try_initialize_solana_validator_deposit (m0 :: m1 :: rest) node_id) L = Ok (L', trace) ->
  exists bump tail,
    Depo.find_address node_id = (key m0, bump) /\
    data (acct L' (key m0)) = DepositData (Depo.zeroed <| Depo.node_id := node_id |>) tail /\
    owner (acct L' (key m0)) = ID /\
    trace = create_account_ixs (Signer (key m1))
              (PdaSigner (key m0) [Depo.SEED_PREFIX; key_seed node_id; [bump]])
              (lamports (acct L (key m0))) (data_end (D := RdData) SolanaValidatorDeposit) ID
              (Some (lamports (acct L (key m0)))) /\
    (forall k, k <> key m0 -> owner (acct L k) = ID -> data (acct L' k) = data (acct L k)).
Proof.
  start_run. unfold try_initialize_solana_validator_deposit. asteps. guards. subst.
  eexists _, _. finish. conjs; try reflexivity.
  intros k Hk Ho. ledger. by cpi_read.
Qed.
End Theorems.
