(* ===== verification/RdSwap.v ===== *)
(** * SOL/2Z swap handlers

    [processor.rs]: [try_initialize_swap_destination],
    [try_sweep_distribution_tokens] and [try_withdraw_sol]. *)

From Stdlib Require Import ZArith Lia String.
From S2P Require Import Prelude Types BurnRate Runtime ProgramTools Borsh State RdAccounts Rules Steps.
From S2P Require Import RdClient.

Definition DEQUEUE_FILLS_SELECTOR : list Z := [146; 69; 6; 12; 174; 95; 136; 61].

(** The metas of the CPI. *)
Definition dequeue_fills_metas (configuration_registry program_state fills_registry journal : Pubkey)
    : list AccountInfo :=
  Client.DequeueFillsCpiAccounts.metas
    {| Client.DequeueFillsCpiAccounts.configuration_registry_key := configuration_registry;
       Client.DequeueFillsCpiAccounts.program_state_key := program_state;
       Client.DequeueFillsCpiAccounts.fills_registry_key := fills_registry;
       Client.DequeueFillsCpiAccounts.journal_key := journal;
       Client.DequeueFillsCpiAccounts.sol_2z_swap_program_id := None |}.

Section Handlers.
Context `{R : Runtime RdData}.

Abbreviation Mx := (M RdData).

(** ** [try_initialize_swap_destination] *)
Definition try_initialize_swap_destination (accounts : list AccountInfo) : Mx unit :=
  start_iter accounts;;
  program_config ← zc_mut_try_next_accounts ProgramConfig (Some ID);
  '(_, payer_info) ← try_next_enumerated_account default_options;
  '(_, swap_authority_info) ← try_next_enumerated_account default_options;
  let '(expected_swap_authority_key, swap_authority_bump) := find_swap_authority_address in
  modify ProgramConfig program_config
    (fun p => p <| Config.swap_authority_bump_seed := swap_authority_bump |>);;
  ensure (key swap_authority_info =? expected_swap_authority_key) InvalidSeeds;;
  '(_, new_swap_destination_2z_info, swap_destination_2z_bump) ←
    try_next_2z_token_pda_info expected_swap_authority_key None;
  modify ProgramConfig program_config
    (fun p => p <| Config.swap_destination_2z_bump_seed := swap_destination_2z_bump |>);;
  try_next_2z_mint_info;;
  try_next_token_program_info;;
  lamports ← get_lamports (key new_swap_destination_2z_info);
  try_create_token_account ID (Signer (key payer_info))
    (PdaSigner (key new_swap_destination_2z_info)
       [TOKEN_2Z_PDA_SEED_PREFIX; key_seed expected_swap_authority_key;
        [swap_destination_2z_bump]])
    DOUBLEZERO_MINT_KEY expected_swap_authority_key lamports accounts.

(** ** [try_sweep_distribution_tokens] *)

(** Accounts 3 to 6 and the dequeue-fills CPI: the amount of 2Z the swap
    program reports for [total_sol_debt]. *)
Definition dequeue_fills (accounts : list AccountInfo) (sol_2z_swap_program_id journal : Pubkey)
    (journal_bump_seed total_sol_debt : Z) : Mx Z :=
  '(_, configuration_registry_info) ← try_next_enumerated_account default_options;
  '(_, program_state_info) ← try_next_enumerated_account default_options;
  '(_, fills_registry_info) ← try_next_enumerated_account default_options;
  '(_, swap_program_info) ← try_next_enumerated_account default_options;
  ensure (key swap_program_info =? sol_2z_swap_program_id) InvalidAccountData;;
  invoke_signed ID
    (ProgramInstruction sol_2z_swap_program_id
       (dequeue_fills_metas (key configuration_registry_info) (key program_state_info)
          (key fills_registry_info) journal)
       (DEQUEUE_FILLS_SELECTOR ++ to_le_bytes 8 total_sol_debt))
    accounts [[Jrnl.SEED_PREFIX; [journal_bump_seed]]];;
  ret ← get_return_data;
  '(return_data_program_id, return_data) ← lift (ok_or ret InvalidAccountData);
  ensure (return_data_program_id =? sol_2z_swap_program_id) InvalidAccountData;;
  '(return_sol_amount, token_2z_amount, _) ←
    lift (ok_or (try_from_slice (pair (pair u64 u64) u64) return_data) InvalidAccountData);
  ensure (return_sol_amount =? total_sol_debt) InvalidAccountData;;
  mret token_2z_amount.

(** Accounts 7 to 9: the dequeued 2Z is recorded in the distribution and
    transferred to its token account. *)
Definition collect_swept_tokens (accounts : list AccountInfo) (p : ProgramConfig)
    (distribution journal : Pubkey) (token_2z_amount : Z) : Mx unit :=
  modify Distribution distribution
    (fun d => d <| Dist.collected_2z_converted_from_sol := token_2z_amount |>);;
  d ← deref Distribution distribution;
  '(_, distribution_2z_token_pda_info, _) ←
    try_next_2z_token_pda_info distribution (Some (Dist.token_2z_pda_bump_seed d));
  '(_, swap_authority_info) ← try_next_enumerated_account default_options;
  expected_swap_authority_key ← lift (unwrap (Config.checked_swap_authority_address p));
  ensure (key swap_authority_info =? expected_swap_authority_key) InvalidSeeds;;
  '(_, swap_destination_2z_info, _) ←
    try_next_2z_token_pda_info expected_swap_authority_key None;
  invoke_signed ID
    (TokenTransfer (key swap_destination_2z_info) (key distribution_2z_token_pda_info)
       (key swap_authority_info) token_2z_amount)
    accounts [[SWAP_AUTHORITY_SEED_PREFIX; [Config.swap_authority_bump_seed p]]];;
  j ← deref Journal journal;
  balance ← lift (arith_sub 64 (Jrnl.swap_2z_destination_balance j) token_2z_amount);
  modify Journal journal (fun j => j <| Jrnl.swap_2z_destination_balance := balance |>).

Definition try_sweep_distribution_tokens (accounts : list AccountInfo) : Mx unit :=
  start_iter accounts;;
  program_config ← zc_try_next_accounts ProgramConfig (Some ID);
  p ← deref ProgramConfig program_config;
  lift (try_require_unpaused p);;
  distribution ← zc_mut_try_next_accounts Distribution (Some ID);
  d ← deref Distribution distribution;
  lift (try_require_has_not_swept_2z_tokens d);;
  modify Distribution distribution (fun d => Dist.set_has_swept_2z_tokens d true);;
  ensure (Dist.is_rewards_calculation_finalized d) InvalidAccountData;;
  journal ← zc_mut_try_next_accounts Journal (Some ID);
  j ← deref Journal journal;
  ensure (Jrnl.next_dz_epoch_to_sweep_tokens j =? Dist.dz_epoch d) InvalidAccountData;;
  modify Journal journal
    (fun j => j <| Jrnl.next_dz_epoch_to_sweep_tokens :=
                     Epoch.saturating_add_duration (Jrnl.next_dz_epoch_to_sweep_tokens j) 1 |>);;
  total_sol_debt ← lift (unwrap (Dist.checked_total_sol_debt d));
  if total_sol_debt =? 0 then mret tt
  else
    ensure (negb (Jrnl.swapped_sol_amount j <? total_sol_debt)) InvalidAccountData;;
    swapped ← lift (arith_sub 64 (Jrnl.swapped_sol_amount j) total_sol_debt);
    modify Journal journal (fun j => j <| Jrnl.swapped_sol_amount := swapped |>);;
    token_2z_amount ←
      dequeue_fills accounts (Config.sol_2z_swap_program_id p) journal (Jrnl.bump_seed j)
        total_sol_debt;
    collect_swept_tokens accounts p distribution journal token_2z_amount.

(** ** [try_withdraw_sol] *)
Definition MINT_2Z_ACCOUNT_INDEX : nat := 1.
Definition DESTINATION_ACCOUNT_INDEX : nat := 2.

(** The sibling instruction must be a checked transfer of 2Z to the swap
    destination; the result is its amount.  Indexing its accounts panics when
    they are too few. *)
Definition sibling_transfer_amount (p : ProgramConfig) : Res Z :=
  sibling_ix ← ok_or sibling_instruction InvalidAccountData;
  require (sibling_program_id sibling_ix =? spl_token_id) InvalidInstructionData;;
  transfer_amount ←
    match unpack_token_instruction (sibling_data sibling_ix) with
    | Some (TransferChecked amount _) => mret amount
    | _ => Err InvalidInstructionData
    end;
  expected_swap_destination_2z_key ← unwrap (Config.checked_swap_destination_2z_address p);
  mint ← unwrap (sibling_accounts sibling_ix !! MINT_2Z_ACCOUNT_INDEX);
  require (mint =? DOUBLEZERO_MINT_KEY) InvalidInstructionData;;
  destination ← unwrap (sibling_accounts sibling_ix !! DESTINATION_ACCOUNT_INDEX);
  require (destination =? expected_swap_destination_2z_key) InvalidInstructionData;;
  mret transfer_amount.

(** The balances of the journal after a withdrawal of [amount] against a
    transfer of [transfer_amount].  [lifetime_swapped_2z_amount] is a
    128-bit [ruint], whose addition wraps. *)
Definition journal_after_withdrawal (j : Journal) (amount transfer_amount : Z) : Res Journal :=
  total_sol_balance ← arith_sub 64 (Jrnl.total_sol_balance j) amount;
  swapped_sol_amount ← arith_add 64 (Jrnl.swapped_sol_amount j) amount;
  destination_balance ← arith_add 64 (Jrnl.swap_2z_destination_balance j) transfer_amount;
  mret (j <| Jrnl.total_sol_balance := total_sol_balance |>
          <| Jrnl.swapped_sol_amount := swapped_sol_amount |>
          <| Jrnl.swap_2z_destination_balance := destination_balance |>
          <| Jrnl.lifetime_swapped_2z_amount :=
               wrap 128 (Jrnl.lifetime_swapped_2z_amount j + transfer_amount) |>).

Definition try_withdraw_sol (accounts : list AccountInfo) (amount : Z) : Mx unit :=
  start_iter accounts;;
  program_config ← zc_try_next_accounts ProgramConfig (Some ID);
  p ← deref ProgramConfig program_config;
  lift (try_require_unpaused p);;
  ensure (negb (Config.withdraw_sol_authority_bump_seed p =? 0)) InvalidAccountData;;
  '(_, withdraw_sol_authority_info) ←
    try_next_enumerated_account (default_options <| must_be_signer := true |>);
  expected_withdraw_sol_authority_key ←
    lift (unwrap (Config.checked_withdraw_sol_authority_address p));
  ensure (key withdraw_sol_authority_info =? expected_withdraw_sol_authority_key)
    InvalidAccountData;;
  transfer_amount ← lift (sibling_transfer_amount p);
  journal ← zc_mut_try_next_accounts Journal (Some ID);
  j ← deref Journal journal;
  ensure (negb (Jrnl.total_sol_balance j <? amount)) InvalidAccountData;;
  j ← lift (journal_after_withdrawal j amount transfer_amount);
  modify Journal journal (fun _ => j);;
  '(_, sol_destination_info) ←
    try_next_enumerated_account (default_options <| must_be_writable := true |>);
  sub_lamports journal amount;;
  add_lamports (key sol_destination_info) amount.
End Handlers.

(** ** Theorems *)
Section Theorems.
Context `{R : Runtime RdData} `{!RdLaws R}.

(** The journal after the sweep of a distribution of [sol] of debt that leaves
    [balance] in the swap destination. *)
Definition journal_after_sweep (j : Journal) (sol balance : Z) : Journal :=
  j <| Jrnl.next_dz_epoch_to_sweep_tokens :=
         Epoch.saturating_add_duration (Jrnl.next_dz_epoch_to_sweep_tokens j) 1 |>
    <| Jrnl.swapped_sol_amount := Jrnl.swapped_sol_amount j - sol |>
    <| Jrnl.swap_2z_destination_balance := balance |>.

(** C14: sweeping.  A distribution is swept once, after its rewards are final,
    in the order of the epochs (the journal's next epoch, which advances by
    one).  With no debt nothing else happens.  Otherwise the journal must have
    swapped at least the total debt, which is deducted exactly; from that ledger
    the dequeue-fills instruction for exactly that much executes, signed by the
    journal, and what it returns must come from the swap program and be an answer
    for exactly that much; the 2Z of that answer is recorded as the
    distribution's, transferred, signed by the swap authority, from the swap
    destination to the distribution's token account, and deducted from the
    destination's balance.  The final ledger is exactly the one these steps leave
    and nothing else is invoked. *)
Theorem sweep_spec (L L' : Ledger RdData) trace m0 m1 m2 m3 m4 m5 m6 m7 m8 m9 rest :
  ledger_wf L ->
  run (try_sweep_distribution_tokens
         (m0 :: m1 :: m2 :: m3 :: m4 :: m5 :: m6 :: m7 :: m8 :: m9 :: rest)) L = Ok (L', trace) ->
  exists p prest d bits j jrest debt,
    let accounts := m0 :: m1 :: m2 :: m3 :: m4 :: m5 :: m6 :: m7 :: m8 :: m9 :: rest in
    let swept := Dist.set_has_swept_2z_tokens d true in
    let swap_program := Config.sol_2z_swap_program_id p in
    data (acct L (key m0)) = ConfigData p prest /\ Config.is_paused p = false /\
    data (acct L (key m1)) = DistributionData d bits /\
    data (acct L (key m2)) = JournalData j jrest /\
    Dist.has_swept_2z_tokens d = false /\ Dist.is_rewards_calculation_finalized d = true /\
    Jrnl.next_dz_epoch_to_sweep_tokens j = Dist.dz_epoch d /\
    Dist.checked_total_sol_debt d = Some debt /\
    if debt =? 0 then
      L' = set_data (set_data L (key m1) (DistributionData swept bits)) (key m2)
             (JournalData (j <| Jrnl.next_dz_epoch_to_sweep_tokens :=
                                  Epoch.saturating_add_duration (Dist.dz_epoch d) 1 |>) jrest) /\
      trace = []
    else
      exists L1 L2 ret r2 token n authority balance,
        let dequeue := ProgramInstruction swap_program
                         (dequeue_fills_metas (key m3) (key m4) (key m5) (key m2))
                         (DEQUEUE_FILLS_SELECTOR ++ to_le_bytes 8 debt) in
        let transfer := TokenTransfer (key m9) (key m7) (key m8) token in
        debt <= Jrnl.swapped_sol_amount j /\ key m6 = swap_program /\
        executes ID accounts [(dequeue, [[Jrnl.SEED_PREFIX; [Jrnl.bump_seed j]]])]
          (set_data (set_data L (key m1) (DistributionData swept bits)) (key m2)
             (JournalData
                (journal_after_sweep j debt (Jrnl.swap_2z_destination_balance j)) jrest), None)
          (L1, Some (swap_program, ret)) /\
        try_from_slice (pair (pair u64 u64) u64) ret = Some (debt, token, n) /\
        Config.checked_swap_authority_address p = Some authority /\ key m8 = authority /\
        (find_2z_token_pda_address authority).1 = key m9 /\
        checked_2z_token_pda_address (key m1) (Dist.token_2z_pda_bump_seed d) = Some (key m7) /\
        executes ID accounts
          [(transfer, [[SWAP_AUTHORITY_SEED_PREFIX; [Config.swap_authority_bump_seed p]]])]
          (set_data L1 (key m1)
             (DistributionData (swept <| Dist.collected_2z_converted_from_sol := token |>) bits),
           Some (swap_program, ret)) (L2, r2) /\
        arith_sub 64 (Jrnl.swap_2z_destination_balance j) token = Ok balance /\
        L' = set_data L2 (key m2) (JournalData (journal_after_sweep j debt balance) jrest) /\
        data (acct L' (key m1)) =
          DistributionData (swept <| Dist.collected_2z_converted_from_sol := token |>) bits /\
        data (acct L' (key m2)) = JournalData (journal_after_sweep j debt balance) jrest /\
        trace = [dequeue; transfer].
Proof.
  intros Hwf. start_run. unfold try_sweep_distribution_tokens. asteps.
  - guards. exists x, rest0, x0, rest1, x1, rest2.
    exists (Dist.total_solana_validator_debt x0 - Dist.uncollectible_sol_debt x0). finish.
    rewrite (proj2 (Z.eqb_eq _ 0)) by lia.
    match goal with H : Jrnl.next_dz_epoch_to_sweep_tokens _ = _ |- _ => rewrite <- H end.
    conjs; try reflexivity. by apply checked_sub_Some.
  - unfold dequeue_fills. asteps. unfold collect_swept_tokens. asteps. guards.
    exists x, rest0, x0, rest1, x1, rest2.
    exists (Dist.total_solana_validator_debt x0 - Dist.uncollectible_sol_debt x0).
    cbn [st_ledger st_trace app].
    rewrite (proj2 (Z.eqb_neq _ 0)) by lia. conjs; try reflexivity; [by apply checked_sub_Some|].
    rewrite arith_sub_exact in * by lia. res_inv.
    match goal with
    | H : try_from_slice _ ?ret = Some (_, ?token, ?n), H' : arith_sub _ _ ?token = Ok ?bal,
      Hx : executes _ _ _ (_, Some (_, ?ret)) (?L2, ?r2) |- _ =>
        exists L0, L2, ret, r2, token, n, (key m8), bal
    end.
    conjs; try reflexivity; try eassumption.
    + by match goal with H : find_2z_token_pda_address _ = _ |- _ => rewrite H end.
    + ledger. cpi_read. done.
    + by ledger.
Qed.

(** What the sibling instruction of a withdrawal must be. *)
Definition sibling_pays (p : ProgramConfig) (amount : Z) : Prop :=
  exists ix decimals destination,
    sibling_instruction = Some ix /\ sibling_program_id ix = spl_token_id /\
    unpack_token_instruction (sibling_data ix) = Some (TransferChecked amount decimals) /\
    sibling_accounts ix !! MINT_2Z_ACCOUNT_INDEX = Some DOUBLEZERO_MINT_KEY /\
    Config.checked_swap_destination_2z_address p = Some destination /\
    sibling_accounts ix !! DESTINATION_ACCOUNT_INDEX = Some destination.

Lemma sibling_transfer_amount_ok p amount :
  sibling_transfer_amount p = Ok amount -> sibling_pays p amount.
Proof.
  unfold sibling_transfer_amount. intros H. res_inv.
  destruct (unpack_token_instruction _) as [[a dec|]|] eqn:Eu; res_inv; try done.
  bool_to_prop. subst. do 3 eexists. by conjs.
Qed.

(** C15: withdrawing SOL.  Only the withdraw authority of the configured swap
    program can, by signing, and only next to a checked transfer of 2Z from
    the token program into the swap destination; at most the journal's SOL
    balance leaves.  What leaves the balance is added to the swapped SOL, the
    transferred 2Z to the destination's balance and to the lifetime total;
    exactly [amount] lamports move to the destination; nothing is invoked and
    no other account changes. *)
Theorem withdraw_sol_spec (L L' : Ledger RdData) trace m0 m1 m2 m3 rest amount :
  ledger_wf L -> fits 64 amount ->
  run (try_withdraw_sol (m0 :: m1 :: m2 :: m3 :: rest) amount) L = Ok (L', trace) ->
  exists p prest j jrest paid balance,
    data (acct L (key m0)) = ConfigData p prest /\ Config.is_paused p = false /\
    is_signer m1 = true /\
    Config.checked_withdraw_sol_authority_address p = Some (key m1) /\
    sibling_pays p paid /\
    data (acct L (key m2)) = JournalData j jrest /\ amount <= Jrnl.total_sol_balance j /\
    arith_add 64 (Jrnl.swap_2z_destination_balance j) paid = Ok balance /\
    data (acct L' (key m2)) = JournalData
      (j <| Jrnl.total_sol_balance := Jrnl.total_sol_balance j - amount |>
         <| Jrnl.swapped_sol_amount := wrap 64 (Jrnl.swapped_sol_amount j + amount) |>
         <| Jrnl.swap_2z_destination_balance := balance |>
         <| Jrnl.lifetime_swapped_2z_amount :=
              wrap 128 (Jrnl.lifetime_swapped_2z_amount j + paid) |>) jrest /\
    (key m3 <> key m2 ->
       lamports (acct L' (key m2)) = wrap 64 (lamports (acct L (key m2)) - amount) /\
       lamports (acct L' (key m3)) = wrap 64 (lamports (acct L (key m3)) + amount)) /\
    (forall k, k <> key m2 -> k <> key m3 -> acct L' k = acct L k) /\ trace = [].
Proof.
  intros Hwf Ham. start_run. unfold try_withdraw_sol. asteps. guards. wf_facts.
  unfold journal_after_withdrawal in *. res_inv.
  match goal with H : sibling_transfer_amount _ = Ok _ |- _ =>
    apply sibling_transfer_amount_ok in H end.
  rewrite (arith_sub_exact 64 (Jrnl.total_sol_balance x0)) in * by done. res_inv.
  match goal with H : arith_add 64 (Jrnl.swapped_sol_amount _) _ = Ok _ |- _ =>
    apply arith_add_wrap in H; [subst|lia|nonneg|nonneg] end.
  exists x, rest0, x0, rest1, v1, x3. finish. conjs; try reflexivity.
  - intros Hne. lamports_norm. arith_norm.
    match goal with H : arith_sub _ _ _ = Ok _ |- _ =>
      apply arith_sub_wrap in H; [subst|lia|nonneg|by apply ledger_wf_lamports] end.
    by ledger.
  - intros k Hk1 Hk2. by ledger.
Qed.
End Theorems.
