(* ===== verification/RdIntegration.v ===== *)
(** * Rewards integrations

    [processor.rs]: [try_initialize_rewards_integration] and
    [try_collect_integration_rewards]; [integration.rs]: the CPI interface of
    integration programs, from the caller's side and from the handler's. *)

From Stdlib Require Import ZArith Lia String.
From S2P Require Import Prelude Types BurnRate Runtime ProgramTools State RdAccounts Rules Steps RdSwap.

(** ** The CPI interface: [integration.rs] *)
Definition INTEGRATION_DISTRIBUTION_SEED_PREFIX : list Z :=
  bytes_of_string "integration_distribution".

(** The first 8 bytes of the SHA-256 digest of
    "dz::integration_ix::withdraw_integration_rewards". *)
Definition WITHDRAW_INTEGRATION_REWARDS : list Z := [246; 80; 57; 155; 23; 205; 95; 109].

Inductive IntegrationInstructionData : Type := WithdrawIntegrationRewards.

Definition serialize_integration_instruction (ix : IntegrationInstructionData) : list Z :=
  match ix with WithdrawIntegrationRewards => WITHDRAW_INTEGRATION_REWARDS end.

(** The reader form: the value and the bytes left. *)
Definition deserialize_integration_instruction (bytes : list Z)
    : option (IntegrationInstructionData * list Z) :=
  if (length bytes <? 8)%nat then None
  else if bool_decide (take 8 bytes = WITHDRAW_INTEGRATION_REWARDS)
       then Some (WithdrawIntegrationRewards, drop 8 bytes) else None.

Section Interface.
Context `{Pda} `{KnownPrograms}.

Definition find_integration_distribution_address (integration_program_id : Pubkey)
    (dz_epoch : DoubleZeroEpoch) : Pubkey * Z :=
  find_program_address [INTEGRATION_DISTRIBUTION_SEED_PREFIX; Epoch.as_seed dz_epoch]
    integration_program_id.

Definition find_integration_bucket_address (integration_program_id : Pubkey)
    (integration_distribution_key : Pubkey) : Pubkey * Z :=
  find_program_address [TOKEN_2Z_PDA_SEED_PREFIX; key_seed integration_distribution_key]
    integration_program_id.

(** [From<WithdrawIntegrationRewardsAccounts> for Vec<AccountMeta>]. *)
Definition withdraw_integration_rewards_metas
    (integration_distribution_key integration_2z_bucket_key destination_token_account_key
     parent_distribution_key : Pubkey) : list AccountInfo :=
  [meta_new integration_distribution_key false;
   meta_new integration_2z_bucket_key false;
   meta_new destination_token_account_key false;
   meta_new_readonly parent_distribution_key true;
   meta_new_readonly spl_token_id false].
End Interface.

Section HandlerSide.
Context {D : Type} `{AccountData D} `{R : Runtime D} `{!ZeroCopy D Distribution}.

(** [WithdrawIntegrationRewardsHandlerAccounts::try_next_accounts]: what an
    integration program enforces on the accounts of the CPI, for a program of any
    account contents that can read a distribution. *)
Definition withdraw_integration_rewards_handler_accounts (integration_dz_epoch : DoubleZeroEpoch)
    : M D (AccountInfo * AccountInfo * AccountInfo * Pubkey) :=
  let writable := default_options <| must_be_writable := true |> in
  '(_, integration_distribution_info) ← try_next_enumerated_account writable;
  '(_, integration_2z_bucket_info) ← try_next_enumerated_account writable;
  '(_, destination_token_account_info) ← try_next_enumerated_account writable;
  '(_, parent_info) ← try_next_enumerated_account default_options;
  try_from_account_info Distribution parent_info (Some ID);;
  ensure (is_signer parent_info) MissingRequiredSignature;;
  d ← deref Distribution (key parent_info);
  ensure (Dist.dz_epoch d =? integration_dz_epoch) InvalidAccountData;;
  data ← peek_data (key destination_token_account_info);
  destination_token_account ← lift (unpack_token_account data);
  ensure (token_owner destination_token_account =? key parent_info) InvalidAccountData;;
  mret (integration_distribution_info, integration_2z_bucket_info,
        destination_token_account_info, key parent_info).
End HandlerSide.

Section Handlers.
Context `{R : Runtime RdData}.

Abbreviation Mx := (M RdData).

(** ** [try_initialize_rewards_integration] *)
Definition try_initialize_rewards_integration (accounts : list AccountInfo) : Mx unit :=
  start_iter accounts;;
  verified_program_authority Admin;;
  '(_, integration_program_info) ←
    try_next_enumerated_account (default_options <| must_be_executable := true |>);
  let integration_program_id := key integration_program_info in
  '(_, payer_info) ← try_next_enumerated_account default_options;
  '(_, new_rewards_integration_info) ← try_next_enumerated_account default_options;
  let '(expected_key, bump) := Integ.find_address integration_program_id in
  ensure (key new_rewards_integration_info =? expected_key) InvalidSeeds;;
  lamports ← get_lamports (key new_rewards_integration_info);
  try_create_account ID (Signer (key payer_info))
    (PdaSigner expected_key [Integ.SEED_PREFIX; key_seed integration_program_id; [bump]])
    lamports (data_end (D := RdData) RewardsIntegration) ID accounts None;;
  rewards_integration ← try_initialize RewardsIntegration new_rewards_integration_info;
  modify RewardsIntegration rewards_integration
    (fun r => r <| Integ.bump_seed := bump |> <| Integ.program_id := integration_program_id |>);;
  journal ← zc_mut_try_next_accounts Journal (Some ID);
  j ← deref Journal journal;
  modify RewardsIntegration rewards_integration
    (fun r => r <| Integ.registration_index := Jrnl.integrations_count j |>);;
  count ← lift (unwrap (checked_add 16 (Jrnl.integrations_count j) 1));
  modify Journal journal (fun j => j <| Jrnl.integrations_count := count |>).

(** ** [try_collect_integration_rewards] *)

(** The checks on accounts 0 to 2: the distribution and the integration. *)
Definition collect_integration_checks : Mx (Pubkey * RewardsIntegration) :=
  program_config ← zc_try_next_accounts ProgramConfig (Some ID);
  p ← deref ProgramConfig program_config;
  lift (try_require_unpaused p);;
  distribution ← zc_mut_try_next_accounts Distribution (Some ID);
  d ← deref Distribution distribution;
  ensure (negb (Dist.are_all_integrations_collected d)) InvalidAccountData;;
  rewards_integration ← zc_try_next_accounts RewardsIntegration (Some ID);
  r ← deref RewardsIntegration rewards_integration;
  ensure (negb (Dist.integrations_count_snapshot d <=? Integ.registration_index r))
    InvalidAccountData;;
  already_collected ←
    lift (ok_or (Dist.checked_is_integration_collected d (Integ.registration_index r))
            InvalidAccountData);
  ensure (negb already_collected) InvalidAccountData;;
  mret (distribution, r).

(** The distribution after [collected_amount] was collected from the
    integration with [registration_index]. *)
Definition record_collection (d : Distribution) (registration_index collected_amount : Z)
    : Res Distribution :=
  collected ← unwrap (checked_add 64 (Dist.collected_2z_from_integrations d) collected_amount);
  count ← unwrap (checked_add 16 (Dist.integrations_collected_count d) 1);
  ok_or (Dist.checked_set_integration_collected
           (d <| Dist.collected_2z_from_integrations := collected |>
              <| Dist.integrations_collected_count := count |>)
           registration_index)
    InvalidAccountData.

Definition try_collect_integration_rewards (accounts : list AccountInfo) : Mx unit :=
  start_iter accounts;;
  '(distribution, r) ← collect_integration_checks;
  '(_, integration_distribution_info) ← try_next_enumerated_account default_options;
  '(_, integration_2z_bucket_info) ← try_next_enumerated_account default_options;
  d ← deref Distribution distribution;
  '(_, destination_info, _) ←
    try_next_2z_token_pda_info distribution (Some (Dist.token_2z_pda_bump_seed d));
  balance_before ← try_token_account_amount (key destination_info);
  invoke_signed ID
    (ProgramInstruction (Integ.program_id r)
       (withdraw_integration_rewards_metas (key integration_distribution_info)
          (key integration_2z_bucket_info) (key destination_info) distribution)
       (serialize_integration_instruction WithdrawIntegrationRewards))
    accounts [[Dist.SEED_PREFIX; Epoch.as_seed (Dist.dz_epoch d); [Dist.bump_seed d]]];;
  balance_after ← try_token_account_amount (key destination_info);
  collected_amount ← lift (arith_sub 64 balance_after balance_before);
  d ← deref Distribution distribution;
  d ← lift (record_collection d (Integ.registration_index r) collected_amount);
  modify Distribution distribution (fun _ => d).
End Handlers.

(** ** Lemmas: the bitmap of collected integrations *)
Definition is_collected (d : Distribution) (i : nat) : bool :=
  uint_bit Dist.BITMAP_BITS (Dist.collected_integrations_bitmap d) (Z.of_nat i).

(** The registration indices a distribution has collected. *)
Definition collected_indices (d : Distribution) : list nat := List.filter (is_collected d) (seq 0 512).

(** The counter agrees with the bitmap, which only has registered indices. *)
Definition integrations_inv (d : Distribution) : Prop :=
  Dist.integrations_collected_count d = Z.of_nat (length (collected_indices d)) /\
  (forall i, is_collected d i = true -> Z.of_nat i < Dist.integrations_count_snapshot d).

Lemma collected_indices_spec d i : In i (collected_indices d) <-> is_collected d i = true.
Proof.
  unfold collected_indices. rewrite filter_In, in_seq. split; [tauto|]. intros Hi. split; [|done].
  unfold is_collected, uint_bit, Dist.BITMAP_BITS in Hi. bool_to_prop. lia.
Qed.

Lemma collected_indices_nodup d : List.NoDup (collected_indices d).
Proof. apply List.NoDup_filter, List.seq_NoDup. Qed.

(** Setting one new bit lengthens the list of set bits by one. *)
Lemma filter_set_one (f g : nat -> bool) i l :
  List.NoDup l -> In i l -> f i = false -> (forall j, g j = if decide (j = i) then true else f j) ->
  length (List.filter g l) = S (length (List.filter f l)).
Proof.
  intros Hnd Hin Hf Hg.
  assert (forall l, ~ In i l -> List.filter g l = List.filter f l) as Hout.
  { intros l' Hl'. apply List.filter_ext_in. intros j Hj. rewrite Hg. case_decide; [by subst|done]. }
  induction l as [|j l IH]; [by destruct Hin|]. apply List.NoDup_cons_iff in Hnd as [Hj Hnd].
  destruct Hin as [->|Hin].
  - cbn [List.filter]. rewrite Hg, decide_True, Hf by done. cbn. f_equal. by rewrite Hout.
  - cbn [List.filter]. rewrite Hg. rewrite decide_False by (intros ->; contradiction).
    destruct (f j); cbn; rewrite IH by done; done.
Qed.

Lemma record_collection_ok d index amount d' :
  0 <= index < 512 -> record_collection d index amount = Ok d' ->
  Dist.collected_2z_from_integrations d + amount < 2 ^ 64 /\
  d' = d <| Dist.collected_2z_from_integrations := Dist.collected_2z_from_integrations d + amount |>
         <| Dist.integrations_collected_count := Dist.integrations_collected_count d + 1 |>
         <| Dist.collected_integrations_bitmap :=
              uint_set_bit Dist.BITMAP_BITS (Dist.collected_integrations_bitmap d) index true |>.
Proof.
  intros Hi H. unfold record_collection, Dist.checked_set_integration_collected, Dist.BITMAP_BITS in H.
  res_inv. rewrite (proj2 (Z.leb_gt _ _)) in * by lia. simplify_eq. split; [done|reflexivity].
Qed.

Lemma checked_index d index b :
  0 <= index -> Dist.checked_is_integration_collected d index = Some b -> 0 <= index < 512.
Proof.
  unfold Dist.checked_is_integration_collected, Dist.BITMAP_BITS.
  destruct (Z.leb_spec 512 index); [done|lia].
Qed.

Lemma record_collection_inv d index amount d' :
  integrations_inv d -> 0 <= index < Dist.integrations_count_snapshot d ->
  Dist.checked_is_integration_collected d index = Some false ->
  record_collection d index amount = Ok d' -> integrations_inv d'.
Proof.
  intros [Hc Hb] Hi Hbit Hr.
  pose proof (checked_index _ _ _ (proj1 Hi) Hbit).
  apply record_collection_ok in Hr as [_ Hd']; [|lia].
  assert (forall j, is_collected d' j = if decide (j = Z.to_nat index) then true else is_collected d j)
    as Hg.
  { intros j. rewrite Hd'. unfold is_collected. cbn [update Dist.collected_integrations_bitmap].
    case_decide.
    - subst. rewrite Z2Nat.id by lia. apply uint_bit_set_eq. unfold Dist.BITMAP_BITS. lia.
    - apply uint_bit_set_ne; lia. }
  split.
  - rewrite Hd' at 1. cbn [update Dist.integrations_collected_count]. rewrite Hc.
    unfold collected_indices.
    rewrite (filter_set_one (is_collected d) (is_collected d') (Z.to_nat index));
      [lia|apply List.seq_NoDup|apply in_seq; lia| |exact Hg].
    unfold Dist.checked_is_integration_collected, Dist.BITMAP_BITS in Hbit.
    rewrite (proj2 (Z.leb_gt _ _)) in Hbit by lia. unfold is_collected. rewrite Z2Nat.id by lia.
    unfold Dist.BITMAP_BITS. congruence.
  - intros j Hj. rewrite Hd'. cbn [update Dist.integrations_count_snapshot].
    rewrite Hg in Hj. case_decide; [lia|by apply Hb].
Qed.

(** With the counter at the snapshot, every registered index is collected. *)
Lemma all_collected d i :
  integrations_inv d -> Dist.are_all_integrations_collected d = true ->
  Z.of_nat i < Dist.integrations_count_snapshot d -> is_collected d i = true.
Proof.
  intros [Hc Hb] Hall Hi. unfold Dist.are_all_integrations_collected in Hall. bool_to_prop.
  apply (proj1 (collected_indices_spec d i)).
  assert (incl (seq 0 (Z.to_nat (Dist.integrations_count_snapshot d))) (collected_indices d)) as Hincl.
  { apply NoDup_length_incl; [apply collected_indices_nodup|rewrite length_seq; lia|].
    intros j Hj. apply (proj1 (collected_indices_spec d j)), Hb in Hj. apply in_seq. lia. }
  apply Hincl, in_seq. lia.
Qed.

(** ** Theorems *)
Section Theorems.
Context `{R : Runtime RdData} `{!RdLaws R}.


(** The gate of the integrations is honest.  While the counter agrees with
    the bitmap (as in a new distribution, and after every collection), once
    [are_all_integrations_collected] lets rewards be distributed, every
    integration registered when the distribution was created has been
    collected. *)
Theorem integration_gate_sound (d : Distribution) :
  (Dist.integrations_collected_count d = 0 -> Dist.collected_integrations_bitmap d = 0 ->
     integrations_inv d) /\
  (integrations_inv d -> Dist.are_all_integrations_collected d = true ->
     forall index, 0 <= index < Dist.integrations_count_snapshot d ->
       Dist.checked_is_integration_collected d index = Some true).
Proof.
  split.
  - intros Hc Hb.
    assert (forall i, is_collected d i = false) as Hnone.
    { intros i. unfold is_collected, uint_bit. rewrite Hb, Z.bits_0. apply andb_false_r. }
    split; [|intros i Hi; by rewrite Hnone in Hi].
    rewrite Hc. unfold collected_indices.
    assert (forall l, List.filter (is_collected d) l = []) as ->; [|done].
    intros l. induction l as [|i l IH]; [done|]. cbn [List.filter]. by rewrite Hnone.
  - intros Hinv Hall index Hi.
    pose proof (all_collected d (Z.to_nat index) Hinv Hall) as Hbit.
    rewrite Z2Nat.id in Hbit by lia. specialize (Hbit (proj2 Hi)).
    unfold is_collected in Hbit. rewrite Z2Nat.id in Hbit by lia.
    unfold Dist.checked_is_integration_collected. unfold uint_bit in *. bool_to_prop.
    rewrite (proj2 (Z.leb_gt _ _)) by lia. f_equal. by apply andb_true_intro; split; [apply Z.ltb_lt|].
Qed.

(** Registering an integration: only the admin, for an executable program,
    at the PDA of that program; the new account gets the journal's count as
    its index and the count, which cannot overflow, grows by one, so indices
    are dense and never given twice. *)
Theorem initialize_integration_spec (L L' : Ledger RdData) trace m0 m1 m2 m3 m4 m5 rest j jrest :
  data (acct L (key m5)) = JournalData j jrest -> owner (acct L (key m5)) = ID ->
  run (try_initialize_rewards_integration (m0 :: m1 :: m2 :: m3 :: m4 :: m5 :: rest)) L
    = Ok (L', trace) ->
  exists p prest bump tail,
    data (acct L (key m0)) = ConfigData p prest /\
    is_signer m1 = true /\ key m1 = Config.admin_key p /\
    executable (acct L (key m2)) = true /\
    Integ.find_address (key m2) = (key m4, bump) /\
    data (acct L' (key m4)) = IntegrationData
      (Integ.zeroed <| Integ.bump_seed := bump |> <| Integ.program_id := key m2 |>
                    <| Integ.registration_index := Jrnl.integrations_count j |>) tail /\
    Jrnl.integrations_count j + 1 < 2 ^ 16 /\
    data (acct L' (key m5)) = JournalData
      (j <| Jrnl.integrations_count := Jrnl.integrations_count j + 1 |>) jrest /\
    trace = create_account_ixs (Signer (key m3))
              (PdaSigner (key m4) [Integ.SEED_PREFIX; key_seed (key m2); [bump]])
              (lamports (acct L (key m4))) (data_end (D := RdData) RewardsIntegration) ID None.
Proof.
  intros Hj Hjo. start_run. unfold try_initialize_rewards_integration. asteps. guards. subst.
  exists p, rest0, z0. eexists. finish. conjs; reflexivity.
Qed.
End Theorems.
