(* ===== verification/Lifecycle.v ===== *)
(** * The life of a distribution

    A distribution as a state machine: its struct and the bitmaps after it, a
    constructor of [dist_op] per operation the handlers perform on it, guarded
    as they guard it.  The states reached are consistent ([dist_ok]: ranges
    inside the data and disjoint, counters equal to the number of marked
    leaves, flags in their order) and only move forward ([dist_le]: bitmaps
    grow, what is finalized stays). *)

From Stdlib Require Import ZArith Lia.
From S2P Require Import Prelude Types BurnRate Borsh Runtime ProgramTools State RdAccounts Rules Steps.
From S2P Require Import RdConfig RdDistribution RdDebt RdIntegration.

(** ** Bitmaps in the data after a distribution *)

(** A bitmap's range inside [len] bytes, and two that do not overlap. *)
Definition range_ok (r : Z * Z) (len : Z) : Prop := 0 <= r.1 /\ r.1 <= r.2 /\ r.2 <= len.
Definition range_size (r : Z * Z) : Z := r.2 - r.1.
Definition ranges_disjoint (r1 r2 : Z * Z) : Prop := r1.2 <= r2.1 \/ r2.2 <= r1.1.

(** The leaf's bit in the bitmap at [r], and the leaves marked in it. *)
Definition marked (bits : list Z) (r : Z * Z) (leaf : Z) : bool :=
  (8 * r.1 + leaf <? 8 * r.2) && leaf_bit bits (8 * r.1 + leaf).
Definition marks (bits : list Z) (r : Z * Z) : list nat :=
  List.filter (fun i => marked bits r (Z.of_nat i)) (seq 0 (Z.to_nat (8 * (r.2 - r.1)))).

Lemma marks_in bits r i : In i (marks bits r) <-> marked bits r (Z.of_nat i) = true.
Proof.
  unfold marks. rewrite filter_In, in_seq. split; [tauto|]. intros Hm. split; [|done].
  unfold marked in Hm. bool_to_prop. lia.
Qed.

Lemma marks_length bits r : Z.of_nat (length (marks bits r)) <= Z.max 0 (8 * (r.2 - r.1)).
Proof.
  unfold marks. pose proof (List.filter_length_le (fun i => marked bits r (Z.of_nat i))
    (seq 0 (Z.to_nat (8 * (r.2 - r.1))))) as Hl. rewrite length_seq in Hl. lia.
Qed.

Lemma marks_ext bits bits' r :
  (forall leaf, 0 <= leaf -> marked bits' r leaf = marked bits r leaf) -> marks bits' r = marks bits r.
Proof. intros E. unfold marks. apply List.filter_ext. intros i. apply E. lia. Qed.

(** Marking a leaf adds it to its bitmap and leaves the others alone. *)
Lemma mark_leaf_marked bits r leaf bits' :
  0 <= r.1 -> 0 <= leaf -> bytes_ok bits -> mark_leaf bits r leaf = Ok bits' ->
  bytes_ok bits' /\ lenZ bits' = lenZ bits /\ marked bits r leaf = false /\
  (forall x, 0 <= x -> marked bits' r x = if x =? leaf then true else marked bits r x) /\
  length (marks bits' r) = S (length (marks bits r)) /\
  (forall r', 0 <= r'.1 -> ranges_disjoint r r' ->
     (forall x, 0 <= x -> marked bits' r' x = marked bits r' x) /\ marks bits' r' = marks bits r').
Proof.
  destruct r as [s e]. cbn [fst snd]. intros Hs Hl Hb Hm.
  apply mark_leaf_bits in Hm as (El & Hb' & Hclear & Hr & Hset); [|done..].
  pose proof (Z.div_mod leaf 8). pose proof (Z.mod_pos_bound leaf 8).
  assert (8 * s + leaf < 8 * e) as Hin by lia.
  assert (marked bits (s, e) leaf = false) as Hf by (unfold marked; cbn; rewrite Hclear; apply andb_false_r).
  assert (forall x, 0 <= x ->
    marked bits' (s, e) x = if x =? leaf then true else marked bits (s, e) x) as Hx.
  { intros x Hx. unfold marked. cbn. rewrite Hset by lia.
    destruct (Z.eqb_spec x leaf) as [->|Hne].
    - rewrite Z.eqb_refl. by rewrite (proj2 (Z.ltb_lt _ _)) by lia.
    - by rewrite (proj2 (Z.eqb_neq _ _)) by lia. }
  assert (forall r', 0 <= r'.1 -> ranges_disjoint (s, e) r' ->
     forall x, 0 <= x -> marked bits' r' x = marked bits r' x) as Hother.
  { intros r' Hr' Hd x Hx'. unfold marked, ranges_disjoint in *. cbn in Hd.
    destruct (Z.ltb_spec (8 * r'.1 + x) (8 * r'.2)); [|done]. cbn.
    rewrite Hset by lia. by rewrite (proj2 (Z.eqb_neq _ _)) by lia. }
  split_and!; try done; [by unfold lenZ; rewrite El| |].
  - unfold marks. cbn [fst snd]. apply (filter_set_one _ _ (Z.to_nat leaf)).
    + apply List.seq_NoDup.
    + apply in_seq. lia.
    + by rewrite Z2Nat.id.
    + intros j. rewrite Hx by lia. case_decide as E; [|by rewrite (proj2 (Z.eqb_neq _ _)) by lia].
      subst. rewrite Z2Nat.id by done. by rewrite Z.eqb_refl.
  - intros r' Hr' Hd. split; [by apply Hother|]. apply marks_ext. by apply Hother.
Qed.

(** Marking leaves: bits are set, none is cleared, and counters move. *)
Definition bits_le (bits bits' : list Z) : Prop :=
  lenZ bits' = lenZ bits /\ forall i, 0 <= i -> leaf_bit bits i = true -> leaf_bit bits' i = true.

Lemma mark_leaf_le rest s e leaf rest' :
  0 <= s -> 0 <= leaf -> bytes_ok rest -> mark_leaf rest (s, e) leaf = Ok rest' ->
  bits_le rest rest' /\ bytes_ok rest'.
Proof.
  intros Hs Hl Hb Hm. apply mark_leaf_bits in Hm as (E & ? & _ & _ & Hj); [|done..].
  unfold bits_le, lenZ. split; [split; [by rewrite E|]|done]. intros i Hi Hbit. rewrite Hj by done. by case_match.
Qed.

(** Appending a bitmap: every byte in use keeps its place, and the new range
    starts after them. *)
Lemma grown_le bits n :
  0 <= n -> lenZ (grown bits n) = lenZ bits + additional_data_len n /\ 0 <= additional_data_len n /\
  forall i, 0 <= i -> leaf_bit bits i = true -> leaf_bit (grown bits n) i = true.
Proof.
  intros Hn. pose proof (additional_data_len_bounds n Hn) as [_ ?]. split_and!; [|lia|].
  - unfold grown. rewrite lenZ_app, lenZ_replicate by lia. done.
  - intros i Hi. unfold leaf_bit, grown.
    destruct (bits !! Z.to_nat (i / 8)) as [b|] eqn:E; [|done].
    by erewrite lookup_app_l_Some by exact E.
Qed.

Lemma lenZ_nonneg {A} (l : list A) : 0 <= lenZ l.
Proof. unfold lenZ. lia. Qed.

Lemma range_ok_grown r bits n : 0 <= n -> range_ok r (lenZ bits) -> range_ok r (lenZ (grown bits n)).
Proof. intros Hn. destruct (grown_le bits n Hn) as (-> & ? & _). unfold range_ok. lia. Qed.

Lemma grown_range_ok bits n : 0 <= n -> range_ok (grown_range bits n) (lenZ (grown bits n)).
Proof.
  intros Hn. destruct (grown_le bits n Hn) as (-> & ? & _). pose proof (lenZ_nonneg bits).
  unfold range_ok, grown_range. cbn. lia.
Qed.

Lemma grown_disjoint r bits n :
  range_ok r (lenZ bits) -> ranges_disjoint r (grown_range bits n) /\ ranges_disjoint (grown_range bits n) r.
Proof. unfold range_ok, ranges_disjoint, grown_range. cbn. lia. Qed.


(** Appending a bitmap: the others keep their marks, the new one has none. *)
Lemma grown_marked bits n r x :
  0 <= n -> range_ok r (lenZ bits) -> 0 <= x -> marked (grown bits n) r x = marked bits r x.
Proof.
  unfold range_ok, marked, grown, leaf_bit. intros Hn Hr Hx.
  destruct (Z.ltb_spec (8 * r.1 + x) (8 * r.2)); [|done]. cbn.
  rewrite lookup_app_l; [done|]. apply Nat2Z.inj_lt. fold (lenZ bits).
  rewrite Z2Nat.id by (apply Z.div_pos; lia). apply Z.div_lt_upper_bound; lia.
Qed.

Lemma grown_marks bits n r :
  0 <= n -> range_ok r (lenZ bits) -> marks (grown bits n) r = marks bits r.
Proof. intros. apply marks_ext. intros. by apply grown_marked. Qed.

Lemma grown_unmarked bits n x : 0 <= x -> marked (grown bits n) (grown_range bits n) x = false.
Proof.
  intros Hx. unfold marked, grown, grown_range, leaf_bit. cbn [fst snd].
  assert (lenZ bits <= (8 * lenZ bits + x) / 8) by (apply Z.div_le_lower_bound; lia).
  pose proof (lenZ_nonneg bits).
  rewrite lookup_app_r by (unfold lenZ in *; lia).
  destruct (replicate _ 0 !! _) as [b|] eqn:E; [|apply andb_false_r].
  apply lookup_replicate in E as [-> _]. rewrite Z.bits_0. apply andb_false_r.
Qed.

Lemma grown_no_marks bits n : marks (grown bits n) (grown_range bits n) = [].
Proof.
  destruct (marks _ _) as [|i l] eqn:E; [done|]. exfalso.
  assert (In i (marks (grown bits n) (grown_range bits n))) as Hi by (rewrite E; by left).
  apply marks_in in Hi. by rewrite grown_unmarked in Hi by lia.
Qed.

Lemma grown_bytes bits n : bytes_ok bits -> bytes_ok (grown bits n).
Proof. intros. apply Forall_app. split; [done|]. by apply Forall_replicate. Qed.

(** ** Consistency *)
Record dist_ok (d : Distribution) (bits : list Z) : Prop := {
  do_rates : rates_ok d;
  do_integrations : integrations_inv d;
  do_bytes : bytes_ok bits;
  do_length : lenZ bits <= MAX_PERMITTED_DATA_LENGTH;
  do_debt_open : Dist.is_debt_calculation_finalized d = false ->
    Dist.processed_solana_validator_debt_bitmap_range d = (0, 0) /\ Dist.uncollectible_sol_debt d = 0;
  do_rewards_open : Dist.is_rewards_calculation_finalized d = false ->
    Dist.processed_rewards_bitmap_range d = (0, 0);
  do_write_off_closed : Dist.is_solana_validator_debt_write_off_enabled d = false ->
    Dist.processed_solana_validator_debt_write_off_bitmap_range d = (0, 0);
  do_rewards_after_debt : Dist.is_rewards_calculation_finalized d = true ->
    Dist.is_debt_calculation_finalized d = true;
  do_write_off_after_debt : Dist.is_solana_validator_debt_write_off_enabled d = true ->
    Dist.is_debt_calculation_finalized d = true;
  do_sweep_after_rewards : Dist.has_swept_2z_tokens d = true ->
    Dist.is_rewards_calculation_finalized d = true;
  do_converted_after_sweep : Dist.has_swept_2z_tokens d = false ->
    Dist.collected_2z_converted_from_sol d = 0;
  do_uncollectible : Dist.uncollectible_sol_debt d <= Dist.total_solana_validator_debt d;
  do_debt_range : range_ok (Dist.processed_solana_validator_debt_bitmap_range d) (lenZ bits);
  do_rewards_range : range_ok (Dist.processed_rewards_bitmap_range d) (lenZ bits);
  do_write_off_range :
    range_ok (Dist.processed_solana_validator_debt_write_off_bitmap_range d) (lenZ bits);
  do_debt_rewards : ranges_disjoint (Dist.processed_solana_validator_debt_bitmap_range d)
                      (Dist.processed_rewards_bitmap_range d);
  do_debt_write_off : ranges_disjoint (Dist.processed_solana_validator_debt_bitmap_range d)
                        (Dist.processed_solana_validator_debt_write_off_bitmap_range d);
  do_rewards_write_off : ranges_disjoint (Dist.processed_rewards_bitmap_range d)
                           (Dist.processed_solana_validator_debt_write_off_bitmap_range d);
  do_debt_size : Dist.is_debt_calculation_finalized d = true ->
    Dist.processed_solana_validator_debt_bitmap_range d = (0, 0) \/
    range_size (Dist.processed_solana_validator_debt_bitmap_range d)
      = additional_data_len (Dist.total_solana_validators d);
  do_rewards_size : Dist.is_rewards_calculation_finalized d = true ->
    range_size (Dist.processed_rewards_bitmap_range d) = additional_data_len (Dist.total_contributors d);
  do_write_off_size : Dist.is_solana_validator_debt_write_off_enabled d = true ->
    range_size (Dist.processed_solana_validator_debt_write_off_bitmap_range d)
      = additional_data_len (Dist.total_solana_validators d);
  do_payments_count : 0 <= Dist.solana_validator_payments_count d;
  do_debt_count :
    Dist.solana_validator_payments_count d + Dist.solana_validator_write_off_count d =
    Z.of_nat (length (marks bits (Dist.processed_solana_validator_debt_bitmap_range d)));
  do_write_off_count :
    Dist.solana_validator_write_off_count d =
    Z.of_nat (length (marks bits (Dist.processed_solana_validator_debt_write_off_bitmap_range d)));
  do_rewards_count :
    Dist.distributed_rewards_count d =
    Z.of_nat (length (marks bits (Dist.processed_rewards_bitmap_range d)));
  do_written_off : forall leaf, 0 <= leaf ->
    marked bits (Dist.processed_solana_validator_debt_write_off_bitmap_range d) leaf = true ->
    marked bits (Dist.processed_solana_validator_debt_bitmap_range d) leaf = true
}.

(** ** How a distribution evolves *)
Record dist_le (d : Distribution) (bits : list Z) (d' : Distribution) (bits' : list Z) : Prop := {
  dl_epoch : Dist.dz_epoch d' = Dist.dz_epoch d;
  dl_seeds : Dist.bump_seed d' = Dist.bump_seed d /\
             Dist.token_2z_pda_bump_seed d' = Dist.token_2z_pda_bump_seed d;
  dl_parameters : Dist.community_burn_rate d' = Dist.community_burn_rate d /\
                  Dist.fee_parameters d' = Dist.fee_parameters d /\
                  Dist.distribute_rewards_relay_lamports d' = Dist.distribute_rewards_relay_lamports d /\
                  Dist.calculation_allowed_timestamp d' = Dist.calculation_allowed_timestamp d;
  dl_debt : Dist.is_debt_calculation_finalized d = true ->
    Dist.is_debt_calculation_finalized d' = true /\
    Dist.solana_validator_debt_merkle_root d' = Dist.solana_validator_debt_merkle_root d /\
    Dist.total_solana_validators d' = Dist.total_solana_validators d /\
    Dist.total_solana_validator_debt d' = Dist.total_solana_validator_debt d /\
    Dist.processed_solana_validator_debt_bitmap_range d'
      = Dist.processed_solana_validator_debt_bitmap_range d;
  dl_rewards : Dist.is_rewards_calculation_finalized d = true ->
    Dist.is_rewards_calculation_finalized d' = true /\
    Dist.rewards_merkle_root d' = Dist.rewards_merkle_root d /\
    Dist.total_contributors d' = Dist.total_contributors d /\
    Dist.economic_burn_rate d' = Dist.economic_burn_rate d /\
    Dist.processed_rewards_bitmap_range d' = Dist.processed_rewards_bitmap_range d;
  dl_write_off : Dist.is_solana_validator_debt_write_off_enabled d = true ->
    Dist.is_solana_validator_debt_write_off_enabled d' = true /\
    Dist.processed_solana_validator_debt_write_off_bitmap_range d'
      = Dist.processed_solana_validator_debt_write_off_bitmap_range d;
  dl_swept : Dist.has_swept_2z_tokens d = true ->
    Dist.has_swept_2z_tokens d' = true /\
    Dist.uncollectible_sol_debt d' = Dist.uncollectible_sol_debt d;
  dl_bits : forall i, 0 <= i -> leaf_bit bits i = true -> leaf_bit bits' i = true;
  dl_collected : forall i, is_collected d i = true -> is_collected d' i = true;
  dl_snapshot : Dist.integrations_count_snapshot d <= Dist.integrations_count_snapshot d'
}.

Lemma dist_le_refl d bits : dist_le d bits d bits.
Proof. split; intros; split_and?; done || lia. Qed.

Lemma dist_le_trans d1 b1 d2 b2 d3 b3 :
  dist_le d1 b1 d2 b2 -> dist_le d2 b2 d3 b3 -> dist_le d1 b1 d3 b3.
Proof.
  intros H12 H23. split.
  - by rewrite (dl_epoch _ _ _ _ H23), (dl_epoch _ _ _ _ H12).
  - destruct (dl_seeds _ _ _ _ H12), (dl_seeds _ _ _ _ H23). split; congruence.
  - destruct (dl_parameters _ _ _ _ H12) as (?&?&?&?), (dl_parameters _ _ _ _ H23) as (?&?&?&?).
    split_and!; congruence.
  - intros H. destruct (dl_debt _ _ _ _ H12 H) as (H'&?&?&?&?).
    destruct (dl_debt _ _ _ _ H23 H') as (?&?&?&?&?). split_and!; congruence.
  - intros H. destruct (dl_rewards _ _ _ _ H12 H) as (H'&?&?&?&?).
    destruct (dl_rewards _ _ _ _ H23 H') as (?&?&?&?&?). split_and!; congruence.
  - intros H. destruct (dl_write_off _ _ _ _ H12 H) as (H'&?).
    destruct (dl_write_off _ _ _ _ H23 H') as (?&?). split_and!; congruence.
  - intros H. destruct (dl_swept _ _ _ _ H12 H) as (H'&?).
    destruct (dl_swept _ _ _ _ H23 H') as (?&?). split_and!; congruence.
  - intros i Hi H. by apply (dl_bits _ _ _ _ H23), (dl_bits _ _ _ _ H12).
  - intros i H. by apply (dl_collected _ _ _ _ H23), (dl_collected _ _ _ _ H12).
  - etransitivity; [apply (dl_snapshot _ _ _ _ H12)|apply (dl_snapshot _ _ _ _ H23)].
Qed.

(** The invariant of the collected integrations only depends on these fields. *)
Lemma integrations_inv_ext d d' :
  Dist.collected_integrations_bitmap d' = Dist.collected_integrations_bitmap d ->
  Dist.integrations_collected_count d' = Dist.integrations_collected_count d ->
  Dist.integrations_count_snapshot d <= Dist.integrations_count_snapshot d' ->
  integrations_inv d -> integrations_inv d'.
Proof.
  intros E1 E2 E3 [Hc Hb].
  assert (forall i, is_collected d' i = is_collected d i) as E
    by (intros i; unfold is_collected; by rewrite E1).
  split.
  - rewrite E2, Hc. unfold collected_indices. do 2 f_equal. apply List.filter_ext. intros i. by rewrite E.
  - intros i Hi. rewrite E in Hi. specialize (Hb i Hi). lia.
Qed.

(** Evaluates the fields of an updated distribution, down to the flags. *)
Ltac dist_simpl :=
  unfold Dist.set_is_debt_calculation_finalized, Dist.set_is_rewards_calculation_finalized,
    Dist.set_is_solana_validator_debt_write_off_enabled, Dist.set_has_swept_2z_tokens,
    Dist.is_debt_calculation_finalized, Dist.is_rewards_calculation_finalized,
    Dist.is_solana_validator_debt_write_off_enabled, Dist.has_swept_2z_tokens,
    Dist.processed_solana_validator_debt_bitmap_range, Dist.processed_rewards_bitmap_range,
    Dist.processed_solana_validator_debt_write_off_bitmap_range,
    Dist.FLAG_IS_DEBT_CALCULATION_FINALIZED_BIT, Dist.FLAG_IS_REWARDS_CALCULATION_FINALIZED_BIT,
    Dist.FLAG_HAS_SWEPT_2Z_TOKENS_BIT, Dist.FLAG_IS_SOLANA_VALIDATOR_DEBT_WRITE_OFF_ENABLED_BIT,
    is_collected, rates_ok in *;
  cbn [update Dist.dz_epoch Dist.flags Dist.community_burn_rate Dist.bump_seed
       Dist.token_2z_pda_bump_seed Dist.fee_parameters Dist.solana_validator_debt_merkle_root
       Dist.total_solana_validators Dist.solana_validator_payments_count
       Dist.total_solana_validator_debt Dist.collected_solana_validator_payments
       Dist.rewards_merkle_root Dist.total_contributors Dist.distributed_rewards_count
       Dist.collected_prepaid_2z_payments Dist.collected_2z_converted_from_sol
       Dist.uncollectible_sol_debt Dist.processed_solana_validator_debt_start_index
       Dist.processed_solana_validator_debt_end_index Dist.processed_rewards_start_index
       Dist.processed_rewards_end_index Dist.distribute_rewards_relay_lamports
       Dist.calculation_allowed_timestamp Dist.distributed_2z_amount Dist.burned_2z_amount
       Dist.processed_solana_validator_debt_write_off_start_index
       Dist.processed_solana_validator_debt_write_off_end_index
       Dist.solana_validator_write_off_count Dist.economic_burn_rate
       Dist.integrations_count_snapshot Dist.integrations_collected_count
       Dist.collected_integrations_bitmap Dist.collected_2z_from_integrations fst snd] in *;
  repeat match goal with
  | |- context [Flags.bit (Flags.set_bit ?f ?i ?v) ?j] =>
      rewrite (Flags.bit_set_bit f i j v) by lia; cbn [Z.eqb Pos.eqb]
  | H : context [Flags.bit (Flags.set_bit ?f ?i ?v) ?j] |- _ =>
      rewrite (Flags.bit_set_bit f i j v) in H by lia; cbn [Z.eqb Pos.eqb] in H
  end.

(** ** The operations

    Each is what one handler does to the struct and the bytes after it, with
    the guards that matter to the distribution. *)
Inductive dist_op `{BuildProfile} (d : Distribution) (bits : list Z) : Distribution -> list Z -> Prop :=
  | op_configure_debt n debt root :
      Dist.is_debt_calculation_finalized d = false -> 0 <= debt ->
      dist_op d bits (d <| Dist.total_solana_validators := n |>
                        <| Dist.total_solana_validator_debt := debt |>
                        <| Dist.solana_validator_debt_merkle_root := root |>) bits
  | op_finalize_no_debt :
      Dist.is_debt_calculation_finalized d = false ->
      dist_op d bits (Dist.set_is_debt_calculation_finalized d true) bits
  | op_finalize_debt :
      Dist.is_debt_calculation_finalized d = false -> 0 <= Dist.total_solana_validators d ->
      lenZ (grown bits (Dist.total_solana_validators d)) <= MAX_PERMITTED_DATA_LENGTH ->
      dist_op d bits (with_debt_bitmap (Dist.set_is_debt_calculation_finalized d true) bits)
        (grown bits (Dist.total_solana_validators d))
  | op_configure_rewards n root :
      Dist.is_rewards_calculation_finalized d = false ->
      dist_op d bits (d <| Dist.total_contributors := n |> <| Dist.rewards_merkle_root := root |>) bits
  | op_economic_burn_rate rate :
      Dist.is_rewards_calculation_finalized d = false -> valid32 rate ->
      dist_op d bits (d <| Dist.economic_burn_rate := rate |>) bits
  | op_finalize_rewards :
      Dist.is_rewards_calculation_finalized d = false ->
      Dist.is_debt_calculation_finalized d = true -> 0 <= Dist.total_contributors d ->
      lenZ (grown bits (Dist.total_contributors d)) <= MAX_PERMITTED_DATA_LENGTH ->
      dist_op d bits (with_rewards_bitmap (Dist.set_is_rewards_calculation_finalized d true) bits)
        (grown bits (Dist.total_contributors d))
  | op_pay leaf collected count bits' :
      0 <= leaf ->
      mark_leaf bits (Dist.processed_solana_validator_debt_bitmap_range d) leaf = Ok bits' ->
      arith_add 32 (Dist.solana_validator_payments_count d) 1 = Ok count ->
      dist_op d bits (d <| Dist.collected_solana_validator_payments := collected |>
                        <| Dist.solana_validator_payments_count := count |>) bits'
  | op_enable_write_off :
      Dist.is_debt_calculation_finalized d = true ->
      Dist.is_solana_validator_debt_write_off_enabled d = false ->
      0 <= Dist.total_solana_validators d ->
      lenZ (grown bits (Dist.total_solana_validators d)) <= MAX_PERMITTED_DATA_LENGTH ->
      dist_op d bits
        (with_write_off_bitmap (Dist.set_is_solana_validator_debt_write_off_enabled d true) bits)
        (grown bits (Dist.total_solana_validators d))
  | op_write_off leaf count bits1 bits' :
      0 <= leaf ->
      mark_leaf bits (Dist.processed_solana_validator_debt_write_off_bitmap_range d) leaf = Ok bits1 ->
      mark_leaf bits1 (Dist.processed_solana_validator_debt_bitmap_range d) leaf = Ok bits' ->
      arith_add 32 (Dist.solana_validator_write_off_count d) 1 = Ok count ->
      dist_op d bits (d <| Dist.solana_validator_write_off_count := count |>) bits'
  | op_uncollectible amount :
      Dist.is_debt_calculation_finalized d = true -> Dist.has_swept_2z_tokens d = false ->
      amount <= Dist.total_solana_validator_debt d ->
      dist_op d bits (d <| Dist.uncollectible_sol_debt := amount |>) bits
  | op_sweep :
      Dist.is_rewards_calculation_finalized d = true -> Dist.has_swept_2z_tokens d = false ->
      dist_op d bits (Dist.set_has_swept_2z_tokens d true) bits
  | op_converted amount :
      Dist.has_swept_2z_tokens d = true ->
      dist_op d bits (d <| Dist.collected_2z_converted_from_sol := amount |>) bits
  | op_prepaid amount :
      dist_op d bits (d <| Dist.collected_prepaid_2z_payments := amount |>) bits
  | op_distribute leaf distributed burned count bits' :
      0 <= leaf ->
      mark_leaf bits (Dist.processed_rewards_bitmap_range d) leaf = Ok bits' ->
      arith_add 32 (Dist.distributed_rewards_count d) 1 = Ok count ->
      dist_op d bits (d <| Dist.distributed_2z_amount := distributed |>
                        <| Dist.burned_2z_amount := burned |>
                        <| Dist.distributed_rewards_count := count |>) bits'
  | op_migrate n :
      Dist.integrations_count_snapshot d <= n ->
      dist_op d bits (d <| Dist.integrations_count_snapshot := n |>) bits
  | op_collect index amount d' :
      0 <= index < Dist.integrations_count_snapshot d ->
      Dist.checked_is_integration_collected d index = Some false ->
      record_collection d index amount = Ok d' ->
      dist_op d bits d' bits.

(** A state is the struct with the bytes after it. *)
Definition dist_rel `{BuildProfile} (s s' : Distribution * list Z) : Prop := dist_op s.1 s.2 s'.1 s'.2.

(** ** Every operation keeps consistency and moves forward *)
Definition dist_step (d : Distribution) (bits : list Z) (d' : Distribution) (bits' : list Z) : Prop :=
  dist_ok d bits -> dist_ok d' bits' /\ dist_le d bits d' bits'.

Ltac dist_step_auto :=
  intros [Hrates Hcollected Hbytes Hlen Hdebt Hrewards Hwrite Hrd Hwd Hsr Hcv Hunc Hr1 Hr2 Hr3
          Hd12 Hd13 Hd23 Hs1 Hs2 Hs3 Hc0 Hc1 Hc2 Hc3 Hw];
  split; [split|split]; dist_simpl; intros;
  try solve [match goal with H : integrations_inv ?d |- integrations_inv _ =>
                     apply (integrations_inv_ext d); [reflexivity|reflexivity|reflexivity|exact H] end
            | assumption | split_and?; (reflexivity || lia) | congruence | tauto | auto].

Lemma configure_debt_step d bits n debt root :
  Dist.is_debt_calculation_finalized d = false -> 0 <= debt ->
  dist_step d bits (d <| Dist.total_solana_validators := n |>
                      <| Dist.total_solana_validator_debt := debt |>
                      <| Dist.solana_validator_debt_merkle_root := root |>) bits.
Proof.
  intros Hf Hd. dist_step_auto; [destruct (Hdebt Hf) as [_ ->]; exact Hd|].
  exfalso. by rewrite Hwd in Hf.
Qed.

Lemma uncollectible_step d bits amount :
  Dist.is_debt_calculation_finalized d = true -> Dist.has_swept_2z_tokens d = false ->
  amount <= Dist.total_solana_validator_debt d ->
  dist_step d bits (d <| Dist.uncollectible_sol_debt := amount |>) bits.
Proof. intros Hf Hs Ha. dist_step_auto. Qed.

Lemma sweep_step d bits :
  Dist.is_rewards_calculation_finalized d = true -> Dist.has_swept_2z_tokens d = false ->
  dist_step d bits (Dist.set_has_swept_2z_tokens d true) bits.
Proof. intros Hf Hs. dist_step_auto. Qed.

Lemma finalize_no_debt_step d bits :
  Dist.is_debt_calculation_finalized d = false ->
  dist_step d bits (Dist.set_is_debt_calculation_finalized d true) bits.
Proof. intros Hf. dist_step_auto. Qed.

Lemma configure_rewards_step d bits n root :
  Dist.is_rewards_calculation_finalized d = false ->
  dist_step d bits (d <| Dist.total_contributors := n |> <| Dist.rewards_merkle_root := root |>) bits.
Proof. intros Hf. dist_step_auto. Qed.

Lemma economic_burn_rate_step d bits rate :
  Dist.is_rewards_calculation_finalized d = false -> valid32 rate ->
  dist_step d bits (d <| Dist.economic_burn_rate := rate |>) bits.
Proof. intros Hf Hr. dist_step_auto. Qed.

Lemma converted_step d bits amount :
  Dist.has_swept_2z_tokens d = true ->
  dist_step d bits (d <| Dist.collected_2z_converted_from_sol := amount |>) bits.
Proof. intros Hs. dist_step_auto. Qed.

(** A field consistency says nothing about. *)
Lemma prepaid_step d bits amount :
  dist_step d bits (d <| Dist.collected_prepaid_2z_payments := amount |>) bits.
Proof. dist_step_auto. Qed.

Lemma migrate_step d bits n :
  Dist.integrations_count_snapshot d <= n ->
  dist_step d bits (d <| Dist.integrations_count_snapshot := n |>) bits.
Proof. intros Hn. dist_step_auto. by apply (integrations_inv_ext d). Qed.

Lemma collection_step d bits index amount d' :
  0 <= index < Dist.integrations_count_snapshot d ->
  Dist.checked_is_integration_collected d index = Some false ->
  record_collection d index amount = Ok d' -> dist_step d bits d' bits.
Proof.
  intros Hi Hbit Hr. pose proof (checked_index _ _ _ (proj1 Hi) Hbit).
  intros Hok. pose proof (record_collection_inv _ _ _ _ (do_integrations _ _ Hok) Hi Hbit Hr) as Hinv.
  apply record_collection_ok in Hr as [_ ->]; [|done]. destruct Hok.
  split; [split; try exact Hinv|split]; dist_simpl; intros;
    try solve [assumption | split_and?; (reflexivity || lia) | auto].
  destruct (decide (Z.of_nat i = index)) as [<-|].
  - apply uint_bit_set_eq. unfold Dist.BITMAP_BITS. lia.
  - rewrite uint_bit_set_ne by lia. done.
Qed.

(** Counters never wrap: there are fewer leaves than 32-bit numbers. *)
Lemma marks_small bits r :
  range_ok r (lenZ bits) -> lenZ bits <= MAX_PERMITTED_DATA_LENGTH ->
  Z.of_nat (length (marks bits r)) + 1 < 2 ^ 32.
Proof.
  unfold range_ok, MAX_PERMITTED_DATA_LENGTH. intros Hr Hl. pose proof (marks_length bits r). lia.
Qed.

Lemma count_next `{BuildProfile} n count bits r :
  0 <= n <= Z.of_nat (length (marks bits r)) -> range_ok r (lenZ bits) ->
  lenZ bits <= MAX_PERMITTED_DATA_LENGTH -> arith_add 32 n 1 = Ok count -> count = n + 1.
Proof.
  intros Hn Hr Hl. pose proof (marks_small bits r Hr Hl). rewrite arith_add_exact by lia.
  by intros [= <-].
Qed.

(** The goals left by [dist_step_auto] once a leaf is marked. *)
Ltac marked_auto El Hle Hother :=
  try solve [by rewrite El | by apply Hle
            | match goal with |- _ = Z.of_nat (length (marks _ ?r)) =>
                destruct (Hother r) as [_ ->];
                  [match goal with H : range_ok r _ |- _ => apply H end
                  |first [assumption|match goal with H : ranges_disjoint ?a ?b |- _ => 
                     destruct H; [by right|by left] end]|assumption] end].

Lemma pay_step `{BuildProfile} d bits leaf collected count bits' :
  0 <= leaf ->
  mark_leaf bits (Dist.processed_solana_validator_debt_bitmap_range d) leaf = Ok bits' ->
  arith_add 32 (Dist.solana_validator_payments_count d) 1 = Ok count ->
  dist_step d bits (d <| Dist.collected_solana_validator_payments := collected |>
                      <| Dist.solana_validator_payments_count := count |>) bits'.
Proof.
  intros Hl Hm Hcount Hok.
  pose proof (do_debt_range _ _ Hok) as Hr. pose proof (do_bytes _ _ Hok) as Hb.
  pose proof (do_payments_count _ _ Hok). pose proof (do_debt_count _ _ Hok). pose proof (do_write_off_count _ _ Hok).
  destruct (mark_leaf_marked _ _ _ _ (proj1 Hr) Hl Hb Hm) as (Hb' & El & Hclear & Hset & Hlen' & Hother).
  destruct (mark_leaf_le bits _ _ leaf bits' (proj1 Hr) Hl Hb Hm) as [[_ Hle] _].
  apply (count_next _ _ bits (Dist.processed_solana_validator_debt_bitmap_range d)) in Hcount;
    [|lia|exact Hr|apply Hok]. subst count.
  revert Hok. dist_step_auto; marked_auto El Hle Hother.
  rewrite Hset by done. case_match; [done|]. apply Hw; [done|].
  by destruct (Hother _ (proj1 Hr3) Hd13) as [<- _].
Qed.

Lemma ranges_disjoint_sym r1 r2 : ranges_disjoint r1 r2 -> ranges_disjoint r2 r1.
Proof. unfold ranges_disjoint. tauto. Qed.

Lemma distribute_step `{BuildProfile} d bits leaf distributed burned count bits' :
  0 <= leaf ->
  mark_leaf bits (Dist.processed_rewards_bitmap_range d) leaf = Ok bits' ->
  arith_add 32 (Dist.distributed_rewards_count d) 1 = Ok count ->
  dist_step d bits (d <| Dist.distributed_2z_amount := distributed |>
                      <| Dist.burned_2z_amount := burned |>
                      <| Dist.distributed_rewards_count := count |>) bits'.
Proof.
  intros Hl Hm Hcount Hok.
  pose proof (do_rewards_range _ _ Hok) as Hr. pose proof (do_bytes _ _ Hok) as Hb.
  pose proof (do_rewards_count _ _ Hok).
  destruct (mark_leaf_marked _ _ _ _ (proj1 Hr) Hl Hb Hm) as (Hb' & El & Hclear & Hset & Hlen' & Hother).
  destruct (mark_leaf_le bits _ _ leaf bits' (proj1 Hr) Hl Hb Hm) as [[_ Hle] _].
  apply (count_next _ _ bits (Dist.processed_rewards_bitmap_range d)) in Hcount;
    [|lia|exact Hr|apply Hok]. subst count.
  revert Hok. dist_step_auto; marked_auto El Hle Hother.
  destruct (Hother _ (proj1 Hr1) (ranges_disjoint_sym _ _ Hd12)) as [-> _]; [|done].
  apply Hw; [done|]. by destruct (Hother _ (proj1 Hr3) Hd23) as [<- _].
Qed.

Lemma write_off_step `{BuildProfile} d bits leaf count bits1 bits' :
  0 <= leaf ->
  mark_leaf bits (Dist.processed_solana_validator_debt_write_off_bitmap_range d) leaf = Ok bits1 ->
  mark_leaf bits1 (Dist.processed_solana_validator_debt_bitmap_range d) leaf = Ok bits' ->
  arith_add 32 (Dist.solana_validator_write_off_count d) 1 = Ok count ->
  dist_step d bits (d <| Dist.solana_validator_write_off_count := count |>) bits'.
Proof.
  intros Hl Hm1 Hm2 Hcount Hok.
  pose proof (do_debt_range _ _ Hok) as Hr. pose proof (do_write_off_range _ _ Hok) as Hrw.
  pose proof (do_rewards_range _ _ Hok) as Hrr.
  pose proof (do_bytes _ _ Hok) as Hb.
  pose proof (do_write_off_count _ _ Hok).
  destruct (mark_leaf_marked _ _ _ _ (proj1 Hrw) Hl Hb Hm1) as (Hb1 & El1 & _ & Hset1 & Hlen1 & Hother1).
  destruct (mark_leaf_le bits _ _ leaf bits1 (proj1 Hrw) Hl Hb Hm1) as [[_ Hle1] _].
  destruct (mark_leaf_marked _ _ _ _ (proj1 Hr) Hl Hb1 Hm2) as (Hb' & El2 & _ & Hset2 & Hlen2 & Hother2).
  destruct (mark_leaf_le bits1 _ _ leaf bits' (proj1 Hr) Hl Hb1 Hm2) as [[_ Hle2] _].
  apply (count_next _ _ bits (Dist.processed_solana_validator_debt_write_off_bitmap_range d)) in Hcount;
    [|lia|exact Hrw|apply Hok]. subst count.
  assert (lenZ bits' = lenZ bits) as El by congruence.
  assert (forall i, 0 <= i -> leaf_bit bits i = true -> leaf_bit bits' i = true) as Hle by auto.
  destruct (Hother1 _ (proj1 Hr) (ranges_disjoint_sym _ _ (do_debt_write_off _ _ Hok))) as [Hd1 Ed1].
  destruct (Hother1 _ (proj1 Hrr) (ranges_disjoint_sym _ _ (do_rewards_write_off _ _ Hok))) as [_ Er1].
  destruct (Hother2 _ (proj1 Hrw) (do_debt_write_off _ _ Hok)) as [Hw2 Ew2].
  destruct (Hother2 _ (proj1 Hrr) (do_debt_rewards _ _ Hok)) as [_ Er2].
  revert Hok. dist_step_auto; try solve [by rewrite El].
  - rewrite Hlen2, Ed1. lia.
  - rewrite Ew2, Hlen1. lia.
  - rewrite Hset2, Hd1 by done. destruct (Z.eqb_spec leaf0 leaf); [done|].
    apply Hw; [done|]. rewrite Hw2, Hset1 in * by done. by rewrite (proj2 (Z.eqb_neq _ _)) in * by done.
Qed.

(** The goals left by [dist_step_auto] once a bitmap is appended. *)
Ltac grown_auto :=
  try solve
    [ by apply range_ok_grown | by apply grown_range_ok | by apply grown_bytes
    | match goal with H : range_ok ?r (lenZ _) |- ranges_disjoint ?r _ =>
        exact (proj1 (grown_disjoint _ _ _ H)) end
    | match goal with H : range_ok ?r (lenZ _) |- ranges_disjoint _ ?r =>
        exact (proj2 (grown_disjoint _ _ _ H)) end
    | unfold range_size, grown_range; cbn [fst snd]; first [lia | right; lia]
    | rewrite grown_marks by done; assumption ].

Lemma marks_empty bits s : marks bits (s, s) = [].
Proof. unfold marks. cbn. by rewrite Z.sub_diag. Qed.

Lemma marked_empty bits leaf : 0 <= leaf -> marked bits (0, 0) leaf = false.
Proof. intros Hl. unfold marked. cbn [fst snd]. by rewrite (proj2 (Z.ltb_ge _ _)) by lia. Qed.

Lemma finalize_debt_step d bits :
  Dist.is_debt_calculation_finalized d = false -> 0 <= Dist.total_solana_validators d ->
  lenZ (grown bits (Dist.total_solana_validators d)) <= MAX_PERMITTED_DATA_LENGTH ->
  dist_step d bits (with_debt_bitmap (Dist.set_is_debt_calculation_finalized d true) bits)
    (grown bits (Dist.total_solana_validators d)).
Proof.
  intros Hf Hn Hmax. destruct (grown_le bits _ Hn) as (El & ? & Hb).
  unfold with_debt_bitmap. dist_step_auto; grown_auto.
  - destruct (Hdebt Hf) as [E _]. rewrite Hc1, E, marks_empty. by rewrite grown_no_marks.
  - exfalso. rewrite grown_marked in * by done. 
    destruct (Flags.bit (Dist.flags d) 4) eqn:E4; [by rewrite Hwd in Hf by done|].
    rewrite Hwrite, marked_empty in * by done. done.
Qed.

Lemma finalize_rewards_step d bits :
  Dist.is_rewards_calculation_finalized d = false ->
  Dist.is_debt_calculation_finalized d = true -> 0 <= Dist.total_contributors d ->
  lenZ (grown bits (Dist.total_contributors d)) <= MAX_PERMITTED_DATA_LENGTH ->
  dist_step d bits (with_rewards_bitmap (Dist.set_is_rewards_calculation_finalized d true) bits)
    (grown bits (Dist.total_contributors d)).
Proof.
  intros Hf Hd Hn Hmax. destruct (grown_le bits _ Hn) as (El & ? & Hb).
  unfold with_rewards_bitmap. dist_step_auto; grown_auto.
  - rewrite Hc3, (Hrewards Hf), marks_empty. by rewrite grown_no_marks.
  - rewrite grown_marked in * by done. by apply Hw.
Qed.

Lemma enable_write_off_step d bits :
  Dist.is_debt_calculation_finalized d = true ->
  Dist.is_solana_validator_debt_write_off_enabled d = false ->
  0 <= Dist.total_solana_validators d ->
  lenZ (grown bits (Dist.total_solana_validators d)) <= MAX_PERMITTED_DATA_LENGTH ->
  dist_step d bits
    (with_write_off_bitmap (Dist.set_is_solana_validator_debt_write_off_enabled d true) bits)
    (grown bits (Dist.total_solana_validators d)).
Proof.
  intros Hd Hf Hn Hmax. destruct (grown_le bits _ Hn) as (El & ? & Hb).
  unfold with_write_off_bitmap. dist_step_auto; grown_auto.
  - rewrite Hc2, (Hwrite Hf), marks_empty. by rewrite grown_no_marks.
  - match goal with H : marked _ _ _ = true |- _ => 
      change (marked (grown bits (Dist.total_solana_validators d)) 
        (grown_range bits (Dist.total_solana_validators d)) leaf = true) in H;
      by rewrite grown_unmarked in H end.
Qed.

Theorem dist_op_step `{BuildProfile} d bits d' bits' :
  dist_op d bits d' bits' -> dist_step d bits d' bits'.
Proof.
  destruct 1.
  - by apply configure_debt_step.
  - by apply finalize_no_debt_step.
  - by apply finalize_debt_step.
  - by apply configure_rewards_step.
  - by apply economic_burn_rate_step.
  - by apply finalize_rewards_step.
  - by eapply pay_step.
  - by apply enable_write_off_step.
  - by eapply write_off_step.
  - by apply uncollectible_step.
  - by apply sweep_step.
  - by apply converted_step.
  - apply prepaid_step.
  - by eapply distribute_step.
  - by apply migrate_step.
  - by eapply collection_step.
Qed.

Lemma dist_rtc_step `{BuildProfile} s s' :
  rtc dist_rel s s' -> dist_ok s.1 s.2 -> dist_ok s'.1 s'.2 /\ dist_le s.1 s.2 s'.1 s'.2.
Proof.
  induction 1 as [s|s1 s2 s3 H1 _ IH]; intros Hok; [split; [done|apply dist_le_refl]|].
  destruct (dist_op_step _ _ _ _ H1 Hok) as [Hok2 Hle]. destruct (IH Hok2) as [? ?].
  split; [done|]. by eapply dist_le_trans.
Qed.

(** A new distribution is consistent: nothing final, collected or marked. *)
Definition fresh (d : Distribution) : Prop :=
  Dist.flags d = 0 /\ Dist.economic_burn_rate d = 0 /\
  Dist.integrations_collected_count d = 0 /\ Dist.collected_integrations_bitmap d = 0 /\
  Dist.total_solana_validator_debt d = 0 /\ Dist.uncollectible_sol_debt d = 0 /\
  Dist.collected_2z_converted_from_sol d = 0 /\
  Dist.solana_validator_payments_count d = 0 /\ Dist.solana_validator_write_off_count d = 0 /\
  Dist.distributed_rewards_count d = 0 /\
  Dist.processed_solana_validator_debt_bitmap_range d = (0, 0) /\
  Dist.processed_rewards_bitmap_range d = (0, 0) /\
  Dist.processed_solana_validator_debt_write_off_bitmap_range d = (0, 0).

Lemma fresh_ok d bits :
  fresh d -> valid32 (Dist.community_burn_rate d) -> bytes_ok bits ->
  lenZ bits <= MAX_PERMITTED_DATA_LENGTH -> dist_ok d bits.
Proof.
  intros (Hf & He & Hc & Hb & Ht & Hu & Hcv & Hp & Hw & Hd & H1 & H2 & H3) Hr Hbytes Hlen.
  pose proof (lenZ_nonneg bits).
  assert (forall i, is_collected d i = false) as Hnone.
  { intros i. unfold is_collected, uint_bit. rewrite Hb, Z.bits_0. apply andb_false_r. }
  assert (integrations_inv d) as Hi.
  { split; [|intros i Hi; by rewrite Hnone in Hi]. unfold collected_indices.
    rewrite Hc, (List.filter_ext _ (fun _ => false)) by exact Hnone.
    assert (forall l : list nat, List.filter (fun _ => false) l = []) as -> by (by induction l).
    done. }
  split; try exact Hi; rewrite ?H1, ?H2, ?H3, ?Ht, ?Hu, ?Hcv, ?Hp, ?Hw, ?Hd, ?marks_empty;
    unfold range_ok, ranges_disjoint; cbn; try done; try lia;
    unfold Dist.is_debt_calculation_finalized, Dist.is_rewards_calculation_finalized,
      Dist.is_solana_validator_debt_write_off_enabled, Dist.has_swept_2z_tokens, Flags.bit, uint_bit;
    rewrite ?Hf, ?Z.bits_0; try done.
  split; [rewrite He; unfold valid32, UnitShare32.MAX; lia|done].
Qed.

(** ** The abstract machine: what becomes of a debt

    A leaf of the debt tree is unpaid, paid or written off; a step settles at
    most one unpaid leaf, for good. *)
Inductive LeafStatus : Type := Unpaid | Paid | WrittenOff.

Definition debt_status (d : Distribution) (bits : list Z) (leaf : Z) : LeafStatus :=
  if marked bits (Dist.processed_solana_validator_debt_write_off_bitmap_range d) leaf then WrittenOff
  else if marked bits (Dist.processed_solana_validator_debt_bitmap_range d) leaf then Paid
  else Unpaid.

Inductive settle_step (f f' : Z -> LeafStatus) : Prop :=
  | settle_none : (forall x, 0 <= x -> f' x = f x) -> settle_step f f'
  | settle_leaf leaf s :
      0 <= leaf -> f leaf = Unpaid -> s <> Unpaid ->
      (forall x, 0 <= x -> f' x = if x =? leaf then s else f x) -> settle_step f f'.

(** The same for rewards: a leaf is distributed once. *)
Definition distributed (d : Distribution) (bits : list Z) (leaf : Z) : bool :=
  marked bits (Dist.processed_rewards_bitmap_range d) leaf.

Inductive distribute_once (f f' : Z -> bool) : Prop :=
  | distribute_none : (forall x, 0 <= x -> f' x = f x) -> distribute_once f f'
  | distribute_leaf leaf :
      0 <= leaf -> f leaf = false ->
      (forall x, 0 <= x -> f' x = if x =? leaf then true else f x) -> distribute_once f f'.

(** The statuses only depend on the two ranges and the marks in them. *)
Lemma debt_status_ext d bits d' bits' :
  Dist.processed_solana_validator_debt_bitmap_range d' =
  Dist.processed_solana_validator_debt_bitmap_range d ->
  Dist.processed_solana_validator_debt_write_off_bitmap_range d' =
  Dist.processed_solana_validator_debt_write_off_bitmap_range d ->
  (forall x, 0 <= x -> marked bits' (Dist.processed_solana_validator_debt_bitmap_range d) x =
                       marked bits (Dist.processed_solana_validator_debt_bitmap_range d) x) ->
  (forall x, 0 <= x -> marked bits' (Dist.processed_solana_validator_debt_write_off_bitmap_range d) x =
                       marked bits (Dist.processed_solana_validator_debt_write_off_bitmap_range d) x) ->
  settle_step (debt_status d bits) (debt_status d' bits').
Proof.
  intros E1 E2 Hd Hw. apply settle_none. intros x Hx. unfold debt_status.
  by rewrite E1, E2, Hd, Hw.
Qed.

Lemma pay_settles d bits d' leaf bits' :
  dist_ok d bits -> 0 <= leaf ->
  mark_leaf bits (Dist.processed_solana_validator_debt_bitmap_range d) leaf = Ok bits' ->
  Dist.processed_solana_validator_debt_bitmap_range d' =
  Dist.processed_solana_validator_debt_bitmap_range d ->
  Dist.processed_solana_validator_debt_write_off_bitmap_range d' =
  Dist.processed_solana_validator_debt_write_off_bitmap_range d ->
  settle_step (debt_status d bits) (debt_status d' bits').
Proof.
  intros Hok Hl Hm E1 E2.
  destruct (mark_leaf_marked _ _ _ _ (proj1 (do_debt_range _ _ Hok)) Hl (do_bytes _ _ Hok) Hm)
    as (_ & _ & Hclear & Hset & _ & Hother).
  destruct (Hother _ (proj1 (do_write_off_range _ _ Hok)) (do_debt_write_off _ _ Hok)) as [Hw _].
  assert (marked bits (Dist.processed_solana_validator_debt_write_off_bitmap_range d) leaf = false)
    as Hopen.
  { apply Bool.not_true_is_false. intros E. apply (do_written_off _ _ Hok) in E; [congruence|done]. }
  apply (settle_leaf _ _ leaf Paid); [done| |done|].
  - unfold debt_status. by rewrite Hopen, Hclear.
  - intros x Hx. unfold debt_status. rewrite E1, E2, Hw, Hset by done.
    destruct (Z.eqb_spec x leaf) as [->|]; [by rewrite Hopen|done].
Qed.

Lemma write_off_settles d bits d' leaf bits1 bits' :
  dist_ok d bits -> 0 <= leaf ->
  mark_leaf bits (Dist.processed_solana_validator_debt_write_off_bitmap_range d) leaf = Ok bits1 ->
  mark_leaf bits1 (Dist.processed_solana_validator_debt_bitmap_range d) leaf = Ok bits' ->
  Dist.processed_solana_validator_debt_bitmap_range d' =
  Dist.processed_solana_validator_debt_bitmap_range d ->
  Dist.processed_solana_validator_debt_write_off_bitmap_range d' =
  Dist.processed_solana_validator_debt_write_off_bitmap_range d ->
  settle_step (debt_status d bits) (debt_status d' bits').
Proof.
  intros Hok Hl Hm1 Hm2 E1 E2.
  pose proof (do_debt_range _ _ Hok) as Hr. pose proof (do_write_off_range _ _ Hok) as Hrw.
  destruct (mark_leaf_marked _ _ _ _ (proj1 Hrw) Hl (do_bytes _ _ Hok) Hm1)
    as (Hb1 & _ & Hclear & Hset1 & _ & Hother1).
  destruct (mark_leaf_marked _ _ _ _ (proj1 Hr) Hl Hb1 Hm2) as (_ & _ & Hclear2 & Hset2 & _ & Hother2).
  destruct (Hother1 _ (proj1 Hr) (ranges_disjoint_sym _ _ (do_debt_write_off _ _ Hok))) as [Hd1 _].
  destruct (Hother2 _ (proj1 Hrw) (do_debt_write_off _ _ Hok)) as [Hw2 _].
  rewrite Hd1 in Hclear2 by done.
  apply (settle_leaf _ _ leaf WrittenOff); [done| |done|].
  - unfold debt_status. by rewrite Hclear, Hclear2.
  - intros x Hx. unfold debt_status. rewrite E1, E2, Hw2, Hset1, Hset2, Hd1 by done.
    by destruct (x =? leaf).
Qed.

(** On a consistent distribution, every operation settles at most one debt
    and only one that was unpaid: the struct with its bitmaps implements the
    table of statuses. *)
Theorem debt_refines `{BuildProfile} d bits d' bits' :
  dist_ok d bits -> dist_op d bits d' bits' ->
  settle_step (debt_status d bits) (debt_status d' bits').
Proof.
  intros Hok Hop. pose proof (do_bytes _ _ Hok) as Hb.
  pose proof (do_debt_range _ _ Hok) as Hr. pose proof (do_write_off_range _ _ Hok) as Hrw.
  destruct Hop as [| | Hf Hn _ | | | Hf Hd Hn _ | leaf collected count bits' Hl Hm _
    | Hd Hf Hn _ | leaf count bits1 bits' Hl Hm1 Hm2 _ | | | |
    | leaf distributed burned count bits' Hl Hm _ | | index amount d' Hi Hc Hrec];
    try (by apply debt_status_ext).
  - (* finalized: the old range was empty and the new bitmap is clear *)
    apply settle_none. intros x Hx. destruct (do_debt_open _ _ Hok Hf) as [E _].
    unfold debt_status at 2. rewrite E, marked_empty by done.
    change (debt_status _ _ x) with
      (if marked (grown bits (Dist.total_solana_validators d))
            (Dist.processed_solana_validator_debt_write_off_bitmap_range d) x then WrittenOff
       else if marked (grown bits (Dist.total_solana_validators d))
            (grown_range bits (Dist.total_solana_validators d)) x then Paid else Unpaid).
    by rewrite grown_unmarked, grown_marked.
  - apply debt_status_ext; try done; intros; by apply grown_marked.
  - by apply (pay_settles _ _ _ leaf).
  - (* enabled: no debt was written off *)
    apply settle_none. intros x Hx. unfold debt_status at 2.
    rewrite (do_write_off_closed _ _ Hok Hf), marked_empty by done.
    change (debt_status _ _ x) with
      (if marked (grown bits (Dist.total_solana_validators d))
            (grown_range bits (Dist.total_solana_validators d)) x then WrittenOff
       else if marked (grown bits (Dist.total_solana_validators d))
            (Dist.processed_solana_validator_debt_bitmap_range d) x then Paid else Unpaid).
    by rewrite grown_unmarked, grown_marked.
  - by apply (write_off_settles _ _ _ leaf bits1).
  - destruct (mark_leaf_marked _ _ _ _ (proj1 (do_rewards_range _ _ Hok)) Hl Hb Hm)
      as (_ & _ & _ & _ & _ & Hother).
    apply debt_status_ext; try done; intros.
    + apply Hother; [apply Hr|apply ranges_disjoint_sym, Hok|done].
    + apply Hother; [apply Hrw|apply Hok|done].
  - pose proof (checked_index _ _ _ (proj1 Hi) Hc).
    apply record_collection_ok in Hrec as [_ ->]; [|done]. by apply debt_status_ext.
Qed.

(** The same for the contributors' rewards: a leaf is distributed at most
    once. *)
Theorem rewards_refine `{BuildProfile} d bits d' bits' :
  dist_ok d bits -> dist_op d bits d' bits' ->
  distribute_once (distributed d bits) (distributed d' bits').
Proof.
  intros Hok Hop. pose proof (do_bytes _ _ Hok) as Hb.
  pose proof (do_debt_range _ _ Hok) as Hr. pose proof (do_write_off_range _ _ Hok) as Hrw.
  pose proof (do_rewards_range _ _ Hok) as Hrr.
  destruct Hop as [| | Hf Hn _ | | | Hf Hd Hn _ | leaf collected count bits' Hl Hm _
    | Hd Hf Hn _ | leaf count bits1 bits' Hl Hm1 Hm2 _ | | | |
    | leaf dist burned count bits' Hl Hm _ | | index amount d' Hi Hc Hrec];
    try (by apply distribute_none).
  - apply distribute_none. intros. by apply grown_marked.
  - apply distribute_none. intros x Hx. unfold distributed at 2.
    rewrite (do_rewards_open _ _ Hok Hf), marked_empty by done. by apply grown_unmarked.
  - destruct (mark_leaf_marked _ _ _ _ (proj1 Hr) Hl Hb Hm) as (_ & _ & _ & _ & _ & Hother).
    apply distribute_none. intros. apply Hother; [apply Hrr|apply Hok|done].
  - apply distribute_none. intros. by apply grown_marked.
  - destruct (mark_leaf_marked _ _ _ _ (proj1 Hrw) Hl Hb Hm1) as (Hb1 & _ & _ & _ & _ & Hother1).
    destruct (mark_leaf_marked _ _ _ _ (proj1 Hr) Hl Hb1 Hm2) as (_ & _ & _ & _ & _ & Hother2).
    apply distribute_none. intros x Hx. unfold distributed.
    destruct (Hother1 _ (proj1 Hrr) (ranges_disjoint_sym _ _ (do_rewards_write_off _ _ Hok))) as [<- _];
      [|done].
    apply Hother2; [apply Hrr|apply Hok|done].
  - destruct (mark_leaf_marked _ _ _ _ (proj1 Hrr) Hl Hb Hm) as (_ & _ & Hclear & Hset & _ & _).
    by apply (distribute_leaf _ _ leaf).
  - pose proof (checked_index _ _ _ (proj1 Hi) Hc).
    apply record_collection_ok in Hrec as [_ ->]; [|done]. by apply distribute_none.
Qed.
