(* ===== verification/Invariants.v ===== *)
(** * The invariant of the ledger

    What holds of every ledger the program works on ([ledger_inv]): its accounts
    sit at their derived addresses and hold well-formed and consistent structs,
    and registered integrations have indices of their own, below the journal's
    count.  Every way a ledger changes keeps it and moves the ledger forward
    ([good]): writing an account's data or lamports, and what other programs
    do. *)

From Stdlib Require Import ZArith Lia.
From S2P Require Import Prelude Types BurnRate Borsh Runtime ProgramTools State RdAccounts Rules Steps.
From S2P Require Import RdConfig RdDistribution RdDebt RdIntegration Lifecycle.

(** ** How the contents of an account evolve

    A preorder: a distribution goes through operations of its state machine. *)
Definition data_le `{BuildProfile} (a a' : RdData) : Prop :=
  match a, a' with
  | Zeroed _, _ | Foreign _, _ => True
  | ConfigData p _, ConfigData p' _ =>
      Config.next_completed_dz_epoch p <= Config.next_completed_dz_epoch p'
  | DistributionData d bits, DistributionData d' bits' => rtc dist_rel (d, bits) (d', bits')
  | JournalData j _, JournalData j' _ =>
      Jrnl.bump_seed j' = Jrnl.bump_seed j /\
      Jrnl.token_2z_pda_bump_seed j' = Jrnl.token_2z_pda_bump_seed j /\
      Jrnl.integrations_count j <= Jrnl.integrations_count j' /\
      Jrnl.next_dz_epoch_to_sweep_tokens j <= Jrnl.next_dz_epoch_to_sweep_tokens j'
  | ContributorData c _, ContributorData c' _ => Contrib.service_key c' = Contrib.service_key c
  | DepositData x _, DepositData x' _ => Depo.node_id x' = Depo.node_id x
  | IntegrationData r _, IntegrationData r' _ => r' = r
  | _, _ => False
  end.

#[export] Instance data_le_preorder `{BuildProfile} : PreOrder data_le.
Proof.
  split.
  - intros []; cbn; first [reflexivity | intuition lia].
  - intros [] [] []; cbn; try done; intros; first [etransitivity; eassumption | intuition (congruence || lia)].
Qed.

Lemma data_le_typed `{BuildProfile} a a' : data_le a a' -> typed a = true -> typed a' = true.
Proof. by destruct a, a'. Qed.

(** The evolution of a ledger, account by account. *)
Definition evolves `{KnownPrograms} `{BuildProfile} (L L' : Ledger RdData) : Prop :=
  forall k, data_le (data (acct L k)) (data (acct L' k)).

#[export] Instance evolves_preorder `{KnownPrograms} `{BuildProfile} : PreOrder evolves.
Proof.
  split.
  - by intros L k.
  - intros L1 L2 L3 H1 H2 k. by transitivity (data (acct L2 k)).
Qed.

(** ** The invariant *)
Section Invariant.
Context `{HP : Pda} `{HK : KnownPrograms} `{HB : BuildProfile}.

(** An account of the program sits at the address derived from its contents. *)
Definition at_address (k : Pubkey) (a : RdData) : Prop :=
  match a with
  | Zeroed _ | Foreign _ => True
  | ConfigData _ _ => k = Config.find_address.1
  | DistributionData d _ => k = (Dist.find_address (Dist.dz_epoch d)).1
  | JournalData _ _ => k = Jrnl.find_address.1
  | ContributorData c _ => k = (Contrib.find_address (Contrib.service_key c)).1
  | DepositData x _ => k = (Depo.find_address (Depo.node_id x)).1
  | IntegrationData r _ => k = (Integ.find_address (Integ.program_id r)).1
  end.

(** The integrations registered so far: none before the journal exists. *)
Definition journal_count (L : Ledger RdData) : Z :=
  match data (acct L Jrnl.find_address.1) with
  | JournalData j _ => Jrnl.integrations_count j
  | _ => 0
  end.

(** The bump seeds an account stores are those its addresses were found with.
    The config's belong to settings that may not have been made yet. *)
Definition config_seeds (p : ProgramConfig) : Prop :=
  (Config.swap_authority_bump_seed p = 0 \/
   Config.swap_authority_bump_seed p = find_swap_authority_address.2 /\
   Config.swap_destination_2z_bump_seed p
     = (find_2z_token_pda_address find_swap_authority_address.1).2) /\
  (Config.withdraw_sol_authority_bump_seed p = 0 \/
   Config.withdraw_sol_authority_bump_seed p
     = (find_withdraw_sol_authority_address (Config.sol_2z_swap_program_id p)).2).

Definition dist_seeds (d : Dist.Distribution) : Prop :=
  Dist.bump_seed d = (Dist.find_address (Dist.dz_epoch d)).2 /\
  Dist.token_2z_pda_bump_seed d
    = (find_2z_token_pda_address (Dist.find_address (Dist.dz_epoch d)).1).2.

Definition journal_seeds (j : Jrnl.Journal) : Prop :=
  Jrnl.bump_seed j = Jrnl.find_address.2 /\
  Jrnl.token_2z_pda_bump_seed j = (find_2z_token_pda_address Jrnl.find_address.1).2.

(** Addresses created with a stored bump seed are the ones found. *)
Lemma token_pda_found token_owner bump k :
  bump = (find_2z_token_pda_address token_owner).2 ->
  checked_2z_token_pda_address token_owner bump = Some k ->
  k = (find_2z_token_pda_address token_owner).1.
Proof.
  intros ->. unfold checked_2z_token_pda_address.
  assert (create_program_address
            [TOKEN_2Z_PDA_SEED_PREFIX; key_seed token_owner; [(find_2z_token_pda_address token_owner).2]] ID
          = Some (find_2z_token_pda_address token_owner).1) as ->; [|congruence].
  apply (create_found [_; _]), surjective_pairing.
Qed.

(** Consistency of an account's contents, [n] integrations being registered. *)
Definition contents_ok (n : Z) (a : RdData) : Prop :=
  match a with
  | ConfigData p _ => config_ok p /\ config_seeds p
  | DistributionData d bits =>
      dist_ok d bits /\ Dist.integrations_count_snapshot d <= n /\ dist_seeds d
  | JournalData j _ => journal_seeds j
  | ContributorData c _ => shares_ok (Contrib.recipient_shares c)
  | IntegrationData r _ => Integ.registration_index r < n
  | _ => True
  end.

Record ledger_inv (L : Ledger RdData) : Prop := {
  li_typed : ledger_typed L;
  li_address : forall k, at_address k (data (acct L k));
  li_contents : forall k, contents_ok (journal_count L) (data (acct L k));
  li_indices : forall k k' r rest r' rest',
    data (acct L k) = IntegrationData r rest -> data (acct L k') = IntegrationData r' rest' ->
    Integ.registration_index r = Integ.registration_index r' -> k = k'
}.

(** A consistent distribution stays so through its operations. *)
Lemma rtc_dist_ok d bits d' bits' :
  rtc dist_rel (d, bits) (d', bits') -> dist_ok d bits -> dist_ok d' bits' /\ dist_le d bits d' bits'.
Proof. intros H. exact (dist_rtc_step _ _ H). Qed.

(** What every step is shown to be. *)
Definition good (L L' : Ledger RdData) : Prop := ledger_inv L' /\ evolves L L'.

Lemma good_refl L : ledger_inv L -> good L L.
Proof. done. Qed.

Lemma good_step L0 L L' : good L0 L -> (ledger_inv L -> good L L') -> good L0 L'.
Proof. intros [Hi He] Hs. destruct (Hs Hi) as [Hi' He']. split; [done|by transitivity L]. Qed.

(** The accounts of a good ledger are the program's. *)
Lemma inv_owner L k : ledger_inv L -> typed (data (acct L k)) = true -> owner (acct L k) = ID.
Proof. intros H. by apply (li_typed _ H). Qed.

Lemma inv_wf L : ledger_inv L -> ledger_wf L.
Proof. intros H. apply (li_typed _ H). Qed.

Lemma inv_journal L k j rest :
  ledger_inv L -> data (acct L k) = JournalData j rest ->
  k = Jrnl.find_address.1 /\ journal_count L = Jrnl.integrations_count j.
Proof.
  intros H E. pose proof (li_address _ H k) as Hk. rewrite E in Hk. cbn in Hk. subst.
  split; [done|]. unfold journal_count. by rewrite E.
Qed.

Lemma inv_distribution L k d bits :
  ledger_inv L -> data (acct L k) = DistributionData d bits ->
  dist_ok d bits /\ Dist.integrations_count_snapshot d <= journal_count L /\
  k = (Dist.find_address (Dist.dz_epoch d)).1.
Proof.
  intros H E. pose proof (li_address _ H k) as Hk. pose proof (li_contents _ H k) as Hc.
  rewrite E in Hk, Hc. cbn in *. tauto.
Qed.

Lemma inv_dist_seeds L k d bits :
  ledger_inv L -> data (acct L k) = DistributionData d bits -> dist_seeds d.
Proof. intros H E. pose proof (li_contents _ H k) as Hc. rewrite E in Hc. apply Hc. Qed.

Lemma inv_journal_seeds L k j rest :
  ledger_inv L -> data (acct L k) = JournalData j rest -> journal_seeds j.
Proof. intros H E. pose proof (li_contents _ H k) as Hc. by rewrite E in Hc. Qed.

Lemma inv_config L k p rest : ledger_inv L -> data (acct L k) = ConfigData p rest -> config_ok p.
Proof. intros H E. pose proof (li_contents _ H k) as Hc. rewrite E in Hc. apply Hc. Qed.

Lemma inv_config_seeds L k p rest :
  ledger_inv L -> data (acct L k) = ConfigData p rest -> config_seeds p.
Proof. intros H E. pose proof (li_contents _ H k) as Hc. rewrite E in Hc. apply Hc. Qed.

Lemma inv_contributor L k c rest :
  ledger_inv L -> data (acct L k) = ContributorData c rest -> shares_ok (Contrib.recipient_shares c).
Proof. intros H E. pose proof (li_contents _ H k) as Hc. by rewrite E in Hc. Qed.

Lemma inv_integration L k r rest :
  ledger_inv L -> data (acct L k) = IntegrationData r rest ->
  Integ.registration_index r < journal_count L.
Proof. intros H E. pose proof (li_contents _ H k) as Hc. by rewrite E in Hc. Qed.

(** ** Writing the data of an account *)
Lemma journal_count_set_data L k a :
  wf_data a -> data_le (data (acct L k)) a -> journal_count L <= journal_count (set_data L k a).
Proof.
  intros Hw Hle. unfold journal_count.
  destruct (decide (k = Jrnl.find_address.1)) as [->|Hne]; [|by rewrite data_set_data_ne].
  rewrite data_set_data_eq.
  assert (forall j rest, wf_data (JournalData j rest) -> 0 <= Jrnl.integrations_count j) as Hn.
  { intros j rest [Hj _]. eapply fits_nonneg, (fields_fit_in _ _ _ Hj). field_in. }
  destruct a; try done; destruct (data (acct L _)); cbn in Hle; try done; try by eapply Hn. tauto.
Qed.

Lemma contents_ok_mono n n' a : n <= n' -> contents_ok n a -> contents_ok n' a.
Proof. destruct a; cbn; intros ?; try done; [intros (? & ? & ?); split_and!; done || lia|lia]. Qed.

Lemma good_set_data L k a :
  ledger_inv L -> owner (acct L k) = ID ->
  wf_data a -> rd_data_len a <= MAX_PERMITTED_DATA_LENGTH ->
  data_le (data (acct L k)) a -> at_address k a ->
  contents_ok (journal_count (set_data L k a)) a ->
  (forall r rest k' r' rest', a = IntegrationData r rest -> k' <> k ->
     data (acct L k') = IntegrationData r' rest' ->
     Integ.registration_index r <> Integ.registration_index r') ->
  good L (set_data L k a).
Proof.
  intros Hinv Ho Hw Hl Hle Ha Hc Hfresh. split; [split|].
  - apply ledger_typed_set; [apply Hinv| |done].
    split_and!; [done|done|]. cbn. apply ledger_wf_lamports, inv_wf, Hinv.
  - intros k'. destruct (decide (k = k')) as [->|Hne]; [by rewrite data_set_data_eq|].
    rewrite data_set_data_ne by done. apply Hinv.
  - intros k'. destruct (decide (k = k')) as [->|Hne]; [by rewrite data_set_data_eq|].
    rewrite data_set_data_ne by done. eapply contents_ok_mono; [|apply Hinv].
    by apply journal_count_set_data.
  - intros k1 k2 r rest r' rest' E1 E2 Er.
    destruct (decide (k1 = k)) as [->|H1], (decide (k2 = k)) as [->|H2]; try done.
    + rewrite data_set_data_eq in E1. rewrite data_set_data_ne in E2 by done.
      exfalso. by eapply Hfresh.
    + rewrite data_set_data_eq in E2. rewrite data_set_data_ne in E1 by done.
      exfalso. by eapply Hfresh.
    + rewrite data_set_data_ne in E1, E2 by done. by eapply (li_indices _ Hinv).
  - intros k'. destruct (decide (k = k')) as [->|Hne]; [by rewrite data_set_data_eq|].
    by rewrite data_set_data_ne.
Qed.

(** ** Moving lamports, and other programs *)
Lemma good_set_lamports L k n : ledger_inv L -> fits 64 n -> good L (set_lamports L k n).
Proof.
  intros Hinv Hn.
  assert (journal_count (set_lamports L k n) = journal_count L) as En
    by (unfold journal_count; by rewrite data_set_lamports).
  split; [split|].
  - destruct (ledger_wf_acct L k (inv_wf _ Hinv)) as (? & ? & _).
    apply ledger_typed_set; [apply Hinv|done|]. apply Hinv.
  - intros k'. rewrite data_set_lamports. apply Hinv.
  - intros k'. rewrite data_set_lamports, En. apply Hinv.
  - intros k1 k2 r rest r' rest'. rewrite !data_set_lamports. apply Hinv.
  - intros k'. by rewrite data_set_lamports.
Qed.

Lemma foreign_data L L' k :
  ledger_inv L -> foreign_step L L' ->
  typed (data (acct L k)) = true \/ typed (data (acct L' k)) = true ->
  data (acct L' k) = data (acct L k).
Proof.
  intros Hinv (Hp & _ & Ht) Hk. apply Hp. destruct Hk as [Hk|Hk]; [by apply inv_owner|].
  destruct (Ht (li_typed _ Hinv)) as [_ Hown]. by apply Hown.
Qed.

Lemma good_foreign L L' : ledger_inv L -> foreign_step L L' -> good L L'.
Proof.
  intros Hinv Hf. pose proof (foreign_data L L') as Hd.
  assert (forall k, data (acct L' k) = data (acct L k) \/
                    typed (data (acct L' k)) = false /\ typed (data (acct L k)) = false) as Hcase.
  { intros k. destruct (typed (data (acct L' k))) eqn:E'; [left; auto|].
    destruct (typed (data (acct L k))) eqn:E; [left; auto|by right]. }
  assert (journal_count L' = journal_count L) as En.
  { unfold journal_count. destruct (Hcase Jrnl.find_address.1) as [->|[E E']]; [done|].
    by destruct (data (acct L' _)), (data (acct L _)). }
  split; [split|].
  - destruct Hf as (_ & _ & Ht). by apply Ht, Hinv.
  - intros k. destruct (Hcase k) as [->|[E _]]; [apply Hinv|]. by destruct (data (acct L' k)).
  - intros k. rewrite En. destruct (Hcase k) as [->|[E _]]; [apply Hinv|].
    by destruct (data (acct L' k)).
  - intros k1 k2 r rest r' rest' E1 E2.
    rewrite Hd in E1 by (done || (right; by rewrite E1)).
    rewrite Hd in E2 by (done || (right; by rewrite E2)).
    by apply (li_indices _ Hinv _ _ _ _ _ _ E1 E2).
  - intros k. destruct (Hcase k) as [->|[_ E]]; [reflexivity|]. by destruct (data (acct L k)).
Qed.
End Invariant.

(** ** Rules, by the type of the account *)
Section Rules.
Context `{HP : Pda} `{HK : KnownPrograms} `{HB : BuildProfile}.
Context (L0 L : Ledger RdData) (k : Pubkey).

(** The bytes after an existing struct fit with it in an account. *)
Lemma good_config p rest p' :
  good L0 L -> data (acct L k) = ConfigData p rest ->
  Config.wf p' -> (config_ok p -> config_ok p') -> (config_seeds p -> config_seeds p') ->
  Config.next_completed_dz_epoch p <= Config.next_completed_dz_epoch p' ->
  good L0 (set_data L k (ConfigData p' rest)).
Proof.
  intros Hg E Hw Hok Hseeds Hn. apply (good_step _ _ _ Hg). intros Hinv.
  destruct (ledger_wf_acct L k (inv_wf _ Hinv)) as (Hwf & Hl & _).
  pose proof (li_address _ Hinv k) as Ha. rewrite E in Hwf, Hl, Ha.
  apply good_set_data; rewrite ?E; try done.
  - apply inv_owner; [done|by rewrite E].
  - split; [done|apply Hwf].
  - split; [apply Hok; by eapply inv_config|apply Hseeds; by eapply inv_config_seeds].
Qed.

Lemma good_journal j rest j' :
  good L0 L -> data (acct L k) = JournalData j rest ->
  Jrnl.wf j' -> data_le (JournalData j rest) (JournalData j' rest) ->
  good L0 (set_data L k (JournalData j' rest)).
Proof.
  intros Hg E Hw Hle. apply (good_step _ _ _ Hg). intros Hinv.
  destruct (ledger_wf_acct L k (inv_wf _ Hinv)) as (Hwf & Hl & _).
  pose proof (li_address _ Hinv k) as Ha. rewrite E in Hwf, Hl, Ha.
  destruct (inv_journal_seeds _ _ _ _ Hinv E) as [Hs Ht].
  apply good_set_data; rewrite ?E; try done.
  - apply inv_owner; [done|by rewrite E].
  - split; [done|apply Hwf].
  - destruct Hle as (Eb & Et & _). cbn. unfold journal_seeds. by rewrite Eb, Et.
Qed.

Lemma good_contributor c rest c' :
  good L0 L -> data (acct L k) = ContributorData c rest ->
  Contrib.wf c' -> Contrib.service_key c' = Contrib.service_key c ->
  (shares_ok (Contrib.recipient_shares c) -> shares_ok (Contrib.recipient_shares c')) ->
  good L0 (set_data L k (ContributorData c' rest)).
Proof.
  intros Hg E Hw Hk Hs. apply (good_step _ _ _ Hg). intros Hinv.
  destruct (ledger_wf_acct L k (inv_wf _ Hinv)) as (Hwf & Hl & _).
  pose proof (li_address _ Hinv k) as Ha. rewrite E in Hwf, Hl, Ha.
  apply good_set_data; rewrite ?E; try done.
  - apply inv_owner; [done|by rewrite E].
  - split; [done|apply Hwf].
  - cbn. by rewrite Hk.
  - apply Hs. by eapply inv_contributor.
Qed.

Lemma good_deposit x rest x' :
  good L0 L -> data (acct L k) = DepositData x rest ->
  Depo.wf x' -> Depo.node_id x' = Depo.node_id x -> good L0 (set_data L k (DepositData x' rest)).
Proof.
  intros Hg E Hw Hk. apply (good_step _ _ _ Hg). intros Hinv.
  destruct (ledger_wf_acct L k (inv_wf _ Hinv)) as (Hwf & Hl & _).
  pose proof (li_address _ Hinv k) as Ha. rewrite E in Hwf, Hl, Ha.
  apply good_set_data; rewrite ?E; try done.
  - apply inv_owner; [done|by rewrite E].
  - split; [done|apply Hwf].
  - cbn. by rewrite Hk.
Qed.

Lemma good_distribution d bits d' bits' :
  good L0 L -> data (acct L k) = DistributionData d bits ->
  (Dist.wf d -> Dist.wf d') ->
  lenZ bits' = lenZ bits \/ rd_data_len (DistributionData d' bits') <= MAX_PERMITTED_DATA_LENGTH ->
  dist_op d bits d' bits' ->
  Dist.integrations_count_snapshot d' = Dist.integrations_count_snapshot d \/
  Dist.integrations_count_snapshot d' <= journal_count L ->
  good L0 (set_data L k (DistributionData d' bits')).
Proof.
  intros Hg E Hw Hl Hop Hn. apply (good_step _ _ _ Hg). intros Hinv.
  assert (rd_data_len (DistributionData d' bits') <= MAX_PERMITTED_DATA_LENGTH) as Hmax.
  { destruct Hl as [Hl|]; [|done]. destruct (ledger_wf_acct L k (inv_wf _ Hinv)) as (_ & Hold & _).
    rewrite E in Hold. cbn [rd_data_len] in *. by rewrite Hl. }
  destruct (inv_distribution _ _ _ _ Hinv E) as (Hok & Hsnap & ->).
  destruct (ledger_wf_data _ _ _ (inv_wf _ Hinv) E) as [Hwd _]. specialize (Hw Hwd).
  destruct (dist_op_step _ _ _ _ Hop Hok) as [Hok' Hle].
  assert (wf_data (DistributionData d' bits')) by (split; [done|apply Hok']).
  assert (data_le (DistributionData d bits) (DistributionData d' bits'))
    by (apply rtc_once; exact Hop).
  apply good_set_data; rewrite ?E; try done.
  - apply inv_owner; [done|by rewrite E].
  - cbn. by rewrite (dl_epoch _ _ _ _ Hle).
  - split_and!; [done|etransitivity; [|apply journal_count_set_data; [done|by rewrite E]]; lia|].
    destruct (inv_dist_seeds _ _ _ _ Hinv E), (dl_seeds _ _ _ _ Hle) as [Eb Et].
    unfold dist_seeds. by rewrite Eb, Et, (dl_epoch _ _ _ _ Hle).
Qed.

(** A new account: zeroed by the runtime, written for the first time. *)
Lemma good_new a :
  good L0 L -> owner (acct L k) = ID -> has_zero_discriminator (data (acct L k)) = true ->
  wf_data a ->
  (rd_data_len (data (acct L k)) <= MAX_PERMITTED_DATA_LENGTH ->
   rd_data_len a <= MAX_PERMITTED_DATA_LENGTH) ->
  at_address k a ->
  (ledger_inv L -> contents_ok (journal_count L) a) ->
  (ledger_inv L -> forall r rest k' r' rest', a = IntegrationData r rest ->
     data (acct L k') = IntegrationData r' rest' ->
     Integ.registration_index r <> Integ.registration_index r') ->
  good L0 (set_data L k a).
Proof.
  intros Hg Ho Hz Hw Hl Ha Hc Hf. apply (good_step _ _ _ Hg). intros Hinv.
  assert (data_le (data (acct L k)) a) as Hle by (by destruct (data (acct L k))).
  apply good_set_data; try done.
  - apply Hl. apply (ledger_wf_acct L k), inv_wf, Hinv.
  - eapply contents_ok_mono; [|by apply Hc]. by apply journal_count_set_data.
  - intros r rest k' r' rest' -> _ E. by eapply Hf.
Qed.

Lemma good_lamports n : good L0 L -> fits 64 n -> good L0 (set_lamports L k n).
Proof. intros Hg Hn. apply (good_step _ _ _ Hg). intros. by apply good_set_lamports. Qed.

Lemma good_add_lamports n l :
  arith_add 64 (lamports (acct L k)) n = Ok l -> 0 <= n -> good L0 L -> good L0 (set_lamports L k l).
Proof.
  intros Ha Hn Hg. apply good_lamports; [done|].
  pose proof (ledger_wf_lamports L k (inv_wf _ (proj1 Hg))) as [? _].
  by eapply arith_add_fits; [..|exact Ha].
Qed.

Lemma good_sub_lamports n l :
  arith_sub 64 (lamports (acct L k)) n = Ok l -> 0 <= n -> good L0 L -> good L0 (set_lamports L k l).
Proof.
  intros Ha Hn Hg. apply good_lamports; [done|].
  by eapply arith_sub_fits; [| |apply (ledger_wf_lamports L k (inv_wf _ (proj1 Hg)))|exact Ha].
Qed.

End Rules.

Lemma good_cpi `{HP : Pda} `{HK : KnownPrograms} `{HB : BuildProfile} (L0 L L' : Ledger RdData) : foreign_step L L' -> good L0 L -> good L0 L'.
Proof. intros Hf Hg. apply (good_step _ _ _ Hg). intros. by apply good_foreign. Qed.
(** What other programs do between two writes of an account can as well come
    after them. *)
Lemma foreign_step_rewrite `{HK : KnownPrograms} (L : Ledger RdData) k a1 a2 L' :
  owner (acct L k) = ID -> ledger_typed (set_data L k a1) -> foreign_step (set_data L k a1) L' ->
  foreign_step (set_data L k a2) (set_data L' k a2).
Proof.
  intros Ho Ht1 (Hp & Hb & Ht). destruct (Ht Ht1) as [Ht' Hown].
  assert (owner (acct L' k) = ID) as Ho' by (apply Hp; by rewrite owner_set_data).
  split_and!.
  - intros k' Hk'. rewrite owner_set_data in Hk'. destruct (decide (k = k')) as [<-|Hne].
    + by rewrite !data_set_data_eq, owner_set_data.
    + rewrite !data_set_data_ne, owner_set_data by done.
      rewrite <- (data_set_data_ne L k k' a1) by done. apply Hp. by rewrite owner_set_data.
  - intros k' Hk'. rewrite owner_set_data in Hk'. specialize (Hb k').
    rewrite owner_set_data, lamports_set_data in Hb. rewrite !lamports_set_data. auto.
  - intros [Hwf2 _]. split.
    + apply ledger_typed_set; [done| |done].
      destruct (ledger_wf_acct _ k Hwf2) as (Hw & Hl & _).
      rewrite data_set_data_eq in Hw, Hl. split_and!; [done|done|].
      apply ledger_wf_lamports, Ht'.
    + intros k' Hk'. rewrite owner_set_data. destruct (decide (k = k')) as [<-|Hne]; [done|].
      rewrite data_set_data_ne in Hk' by done. specialize (Hown k' Hk'). by rewrite owner_set_data in Hown.
Qed.

(** The bytes after a struct written into a new account. *)
Lemma tail_len len end_ : lenZ (replicate (Z.to_nat (len - end_)) 0) = Z.max 0 (len - end_).
Proof. unfold lenZ. rewrite length_replicate. lia. Qed.

Lemma tail_bytes len end_ : bytes_ok (replicate (Z.to_nat (len - end_)) 0).
Proof. by apply Forall_replicate. Qed.

Lemma new_tail_max len end_ :
  len <= MAX_PERMITTED_DATA_LENGTH -> 0 <= end_ ->
  lenZ (replicate (Z.to_nat (len - end_)) 0) <= MAX_PERMITTED_DATA_LENGTH.
Proof. rewrite tail_len. unfold MAX_PERMITTED_DATA_LENGTH. lia. Qed.

(** Writes to two accounts commute. *)
Lemma set_data_comm `{KnownPrograms} (L : Ledger RdData) k1 k2 d1 d2 :
  k1 <> k2 -> set_data (set_data L k1 d1) k2 d2 = set_data (set_data L k2 d2) k1 d1.
Proof.
  intros Hne. unfold set_data. rewrite !acct_set_ne by congruence. unfold set_acct.
  by rewrite insert_insert_ne.
Qed.

(** ** Well-formedness of updated structs *)
#[global] Arguments wrap : simpl never.
#[global] Arguments fits : simpl never.
#[global] Arguments uint_set_bit : simpl never.
#[global] Arguments saturating_add : simpl never.
#[global] Arguments additional_data_len : simpl never.
#[global] Arguments lenZ : simpl never.
#[global] Arguments Epoch.saturating_add_duration : simpl never.

Lemma set_flag_fits flags i v : 0 <= i -> fits 64 flags -> fits 64 (Flags.set_bit flags i v).
Proof. intros. by apply uint_set_bit_fits. Qed.

Lemma saturating_add_fits w a b : 0 <= w -> 0 <= a -> 0 <= b -> fits w (saturating_add w a b).
Proof.
  intros Hw Ha Hb. unfold saturating_add, fits, umax. pose proof (Z.pow_pos_nonneg 2 w). lia.
Qed.

Lemma next_epoch_fits e n : 0 <= e -> 0 <= n -> fits 64 (Epoch.saturating_add_duration e n).
Proof. intros. by apply saturating_add_fits. Qed.

Lemma grown_fits n (bits : list Z) :
  fits 32 n -> lenZ bits < 2 ^ 31 ->
  fits 32 (lenZ bits) /\ fits 32 (lenZ bits + additional_data_len n).
Proof.
  intros [Hn ?] Hl. pose proof (lenZ_nonneg bits). rewrite additional_data_len_ceil by done.
  assert (0 <= (n + 7) / 8 < 2 ^ 30)
    by (split; [apply Z.div_pos; lia|apply Z.div_lt_upper_bound; lia]).
  unfold fits. lia.
Qed.

Lemma bits_max d bits :
  rd_data_len (DistributionData d bits) <= MAX_PERMITTED_DATA_LENGTH ->
  lenZ bits <= MAX_PERMITTED_DATA_LENGTH.
Proof. cbn [rd_data_len]. unfold DISCRIMINATOR_LEN, SIZE_Distribution. lia. Qed.

Lemma next_epoch_le e n : fits 64 e -> 0 <= n -> e <= Epoch.saturating_add_duration e n.
Proof.
  unfold fits, Epoch.saturating_add_duration, saturating_add, umax. lia.
Qed.

Lemma bump_fits `{Pda} seeds program k bump :
  find_program_address seeds program = (k, bump) -> fits 8 bump.
Proof. intros E. pose proof (bump_u8 seeds program) as Hb. by rewrite E in Hb. Qed.

(** A field: unchanged, or computed within its width. *)
Ltac width :=
  match goal with
  | H : fits ?w ?x |- fits ?w ?x => exact H
  | |- fits _ (wrap _ _) => apply Z.mod_pos_bound; done
  | |- fits _ (Flags.set_bit _ _ _) => apply set_flag_fits; [done|width]
  | |- fits _ (uint_set_bit _ _ _ _) => apply uint_set_bit_fits; [done || lia|done|width]
  | |- fits _ (Epoch.saturating_add_duration _ _) => apply next_epoch_fits; [nonneg|done]
  | H : arith_add ?w _ _ = Ok ?r |- fits ?w ?r =>
      eapply arith_add_fits; [| | |exact H]; [lia|cbn; nonneg|cbn; nonneg]
  | H : arith_sub ?w _ _ = Ok ?r |- fits ?w ?r =>
      eapply arith_sub_fits; [| | |exact H]; [lia|cbn; nonneg|cbn; width]
  | H : _ = (_, ?bump) |- fits 8 ?bump => exact (bump_fits _ _ _ _ H)
  | _ => unfold fits in *; lia
  end.

(** The fields of a struct, one goal or fact each. *)
Ltac split_fields H :=
  unfold Config.wf, Dist.wf, Jrnl.wf, Depo.wf, Integ.wf, fields_fit, Config.fields, Dist.fields,
    Jrnl.fields, parameters_fields, cbr_fields, fees_fields in H;
  cbn in H;
  repeat match type of H with
  | Forall _ (_ :: _) => let Hf := fresh "Hfit" in apply Forall_cons in H as [Hf H]; cbn [fst snd] in Hf
  end.

(** The structs the handlers write are well-formed. *)
Ltac wf_struct :=
  try (let H := fresh in intros H; split_fields H);
  repeat match goal with H : wf_data _ |- _ => destruct H as [H _]; split_fields H end;
  unfold Dist.set_is_debt_calculation_finalized, Dist.set_is_rewards_calculation_finalized,
    Dist.set_is_solana_validator_debt_write_off_enabled, Dist.set_has_swept_2z_tokens,
    Config.set_is_paused, update_parameters, with_debt_bitmap, with_rewards_bitmap, with_write_off_bitmap,
    grown_range,
    Config.wf, Dist.wf, Jrnl.wf, Depo.wf, Integ.wf, fields_fit, Config.fields, Dist.fields,
    Jrnl.fields, parameters_fields, cbr_fields, fees_fields;
  cbn;
  repeat (apply Forall_cons; split); cbn [fst snd]; try apply Forall_nil_2;
  width.
