(* ===== verification/Books.v ===== *)
(** * The books of the program

    Amounts the program records twice: what a distribution collects in payments
    goes to the journal's SOL balance, from there to the swapped SOL, and leaves
    when the distribution is swept; the 2Z paid for SOL goes to the journal's
    lifetime total and to the balance of the swap destination, and from there
    to the swept distributions.  A book is the sum over all accounts of what
    each adds to or takes from such an amount ([entry]); it is balanced when
    the sum is 0, in the integers the program computes with.

    Likewise sequences: accounts numbered one after the other by a counter that
    another account holds. *)

From Stdlib Require Import ZArith Lia.
From S2P Require Import Prelude Types Borsh Runtime Lamports ProgramTools State RdAccounts.
From S2P Require Import Rules Steps Lifecycle Invariants.

(** ** Congruence *)
Definition congruent (m x y : Z) : Prop := (m | x - y).

#[export] Instance congruent_equivalence m : Equivalence (congruent m).
Proof.
  split.
  - intros x. exists 0. lia.
  - intros x y [q E]. exists (- q). lia.
  - intros x y z [q E] [q' E']. exists (q + q'). lia.
Qed.

#[export] Instance congruent_add m : Proper (congruent m ==> congruent m ==> congruent m) Z.add.
Proof. intros x x' [q E] y y' [q' E']. exists (q + q'). lia. Qed.

#[export] Instance congruent_sub m : Proper (congruent m ==> congruent m ==> congruent m) Z.sub.
Proof. intros x x' [q E] y y' [q' E']. exists (q - q'). lia. Qed.

#[export] Instance congruent_opp m : Proper (congruent m ==> congruent m) Z.opp.
Proof. intros x x' [q E]. exists (- q). lia. Qed.

Lemma congruent_eq m x y : x = y -> congruent m x y.
Proof. by intros ->. Qed.

(** Modulo 0, congruence is equality. *)
Lemma congruent_0 x y : congruent 0 x y -> x = y.
Proof. intros E%Z.divide_0_l. lia. Qed.

Lemma congruent_wrap m w x : 0 <= w -> (m | 2 ^ w) -> congruent m (wrap w x) x.
Proof.
  intros Hw [q E]. exists (- (x / 2 ^ w) * q). unfold wrap.
  pose proof (Z.pow_pos_nonneg 2 w). pose proof (Z.div_mod x (2 ^ w)). nia.
Qed.

(** ** The two books *)
Inductive Book : Type := SolBook | SwapBook.

Section Modulus.
Context `{BuildProfile}.

(** With overflow checks amounts are exact, save the lifetime total, which
    wraps at 128 bits in any build; without, they wrap at 64 bits. *)
Definition modulus (b : Book) : Z :=
  match b with
  | SolBook => if overflow_checks then 0 else 2 ^ 64
  | SwapBook => if overflow_checks then 2 ^ 128 else 2 ^ 64
  end.

Lemma modulus_64 b : overflow_checks = false -> (modulus b | 2 ^ 64).
Proof. unfold modulus. intros ->. by destruct b; exists 1. Qed.

Lemma modulus_128 : (modulus SwapBook | 2 ^ 128).
Proof. unfold modulus. destruct overflow_checks; [by exists 1|by exists (2 ^ 64)]. Qed.

Lemma arith_add_congruent b x y z : arith_add 64 x y = Ok z -> congruent (modulus b) z (x + y).
Proof.
  unfold arith_add. repeat case_match; intros [= <-]; [done|].
  apply congruent_wrap; [done|by apply modulus_64].
Qed.

Lemma arith_sub_congruent b x y z : arith_sub 64 x y = Ok z -> congruent (modulus b) z (x - y).
Proof.
  unfold arith_sub. repeat case_match; intros [= <-]; [done|].
  apply congruent_wrap; [done|by apply modulus_64].
Qed.
End Modulus.

(** The debt a swept distribution was settled for. *)
Definition swept_debt (d : Dist.Distribution) : Z :=
  if Dist.has_swept_2z_tokens d
  then Dist.total_solana_validator_debt d - Dist.uncollectible_sol_debt d else 0.

Definition entry (b : Book) (a : RdData) : Z :=
  match b, a with
  | SolBook, DistributionData d _ => Dist.collected_solana_validator_payments d - swept_debt d
  | SolBook, JournalData j _ => - (Jrnl.total_sol_balance j + Jrnl.swapped_sol_amount j)
  | SwapBook, DistributionData d _ => Dist.collected_2z_converted_from_sol d
  | SwapBook, JournalData j _ =>
      Jrnl.swap_2z_destination_balance j - Jrnl.lifetime_swapped_2z_amount j
  | _, _ => 0
  end.

Lemma entry_untyped b a : typed a = false -> entry b a = 0.
Proof. by destruct a, b. Qed.

(** ** Sequences

    Accounts numbered in the order in which an instruction adds them, with the
    counter that holds the next number: the distributions by epoch, the swept
    ones, the registered integrations. *)
Inductive Sequence : Type := Distributions | SweptDistributions | Integrations.

Definition number (s : Sequence) (a : RdData) : option Z :=
  match s, a with
  | Distributions, DistributionData d _ => Some (Dist.dz_epoch d)
  | SweptDistributions, DistributionData d _ =>
      if Dist.has_swept_2z_tokens d then Some (Dist.dz_epoch d) else None
  | Integrations, IntegrationData r _ => Some (Integ.registration_index r)
  | _, _ => None
  end.

Definition next_number (s : Sequence) (a : RdData) : Z :=
  match s, a with
  | Distributions, ConfigData p _ => Config.next_completed_dz_epoch p
  | SweptDistributions, JournalData j _ => Jrnl.next_dz_epoch_to_sweep_tokens j
  | Integrations, JournalData j _ => Jrnl.integrations_count j
  | _, _ => 0
  end.

(** The type of account that holds the counter. *)
Definition holds (s : Sequence) (a : RdData) : bool :=
  match s, a with
  | Distributions, ConfigData _ _ => true
  | (SweptDistributions | Integrations), JournalData _ _ => true
  | _, _ => false
  end.

(** ** Items: what an account says of a book or a sequence *)
Inductive Item : Type := Entry (b : Book) | Mark (s : Sequence).

Definition item (i : Item) (a : RdData) : Z :=
  match i with
  | Entry b => entry b a
  | Mark s => match number s a with Some n => n + 1 | None => next_number s a end
  end.

Lemma item_untyped i a : typed a = false -> item i a = 0.
Proof. by destruct a, i as [[]|[]]. Qed.

Lemma item_new i a : has_zero_discriminator a = true -> item i a = 0.
Proof. by destruct a, i as [[]|[]]. Qed.

(** The items of a distribution only depend on these fields, those of its debt
    once it is swept. *)
Lemma item_distribution i d bits d' bits' :
  Dist.collected_solana_validator_payments d' = Dist.collected_solana_validator_payments d ->
  Dist.collected_2z_converted_from_sol d' = Dist.collected_2z_converted_from_sol d ->
  Dist.has_swept_2z_tokens d' = Dist.has_swept_2z_tokens d ->
  Dist.dz_epoch d' = Dist.dz_epoch d ->
  Dist.has_swept_2z_tokens d = false \/
  Dist.total_solana_validator_debt d' = Dist.total_solana_validator_debt d /\
  Dist.uncollectible_sol_debt d' = Dist.uncollectible_sol_debt d ->
  item i (DistributionData d' bits') = item i (DistributionData d bits).
Proof.
  intros E1 E2 E3 E4 Hdebt. destruct i as [[]|[]]; cbn [item entry number]; rewrite ?E3, ?E4; try done.
  unfold swept_debt. rewrite E1, E3. by destruct Hdebt as [->|[-> ->]].
Qed.

(** A distribution whose debt is not final is not swept. *)
Lemma open_unswept d bits :
  dist_ok d bits -> Dist.is_debt_calculation_finalized d = false -> Dist.has_swept_2z_tokens d = false.
Proof.
  intros Hok Hopen. apply Bool.not_true_is_false. intros Hs.
  apply (do_sweep_after_rewards _ _ Hok), (do_rewards_after_debt _ _ Hok) in Hs. congruence.
Qed.

Section Books.
Context `{HP : Pda} `{HK : KnownPrograms} `{HB : BuildProfile}.

Definition books (b : Book) (L : Ledger RdData) : Z := account_sum (fun a => entry b (data a)) L.

Lemma books_set_data b (L : Ledger RdData) k a a' :
  data (acct L k) = a -> books b (set_data L k a') = books b L + (entry b a' - entry b a).
Proof.
  intros <-. unfold books, set_data. rewrite account_sum_set_acct by (by destruct b). cbn. lia.
Qed.

Lemma books_set_lamports b (L : Ledger RdData) k n : books b (set_lamports L k n) = books b L.
Proof.
  unfold books, set_lamports. rewrite account_sum_set_acct by (by destruct b). cbn. lia.
Qed.

(** ** Steps that spare items: which, and at which addresses *)
Definition spares (which : Item -> Pubkey -> Prop) (L L' : Ledger RdData) : Prop :=
  forall i k, which i k -> item i (data (acct L' k)) = item i (data (acct L k)).

#[export] Instance spares_preorder which : PreOrder (spares which).
Proof. split; [done|]. intros L1 L2 L3 H1 H2 i k Hi. by rewrite H2, H1. Qed.

Lemma spares_books which (L L' : Ledger RdData) b :
  spares which L L' -> (forall k, which (Entry b) k) -> books b L' = books b L.
Proof. intros Hs Hb. apply account_sum_ext; [by destruct b|]. intros k. by apply (Hs (Entry b)). Qed.

Lemma spares_set_data which (L : Ledger RdData) k a :
  (forall i, which i k -> item i a = item i (data (acct L k))) -> spares which L (set_data L k a).
Proof.
  intros He i k' Hi. destruct (decide (k = k')) as [<-|Hne]; [rewrite data_set_data_eq; auto|].
  by rewrite data_set_data_ne.
Qed.

Lemma spares_set_lamports which (L : Ledger RdData) k n : spares which L (set_lamports L k n).
Proof. intros i k' _. by rewrite data_set_lamports. Qed.

Lemma spares_foreign which (L L' : Ledger RdData) :
  ledger_inv L -> foreign_step L L' -> spares which L L'.
Proof.
  intros Hinv Hf i k _. pose proof (foreign_data L L' k Hinv Hf) as Hd.
  destruct (typed (data (acct L' k))) eqn:E'; [by rewrite Hd by auto|].
  destruct (typed (data (acct L k))) eqn:E; [by rewrite Hd by auto|].
  by rewrite !item_untyped.
Qed.

(** An item when the contents are known. *)
Lemma item_at (L : Ledger RdData) k i a n :
  data (acct L k) = a -> n = item i a -> n = item i (data (acct L k)).
Proof. by intros ->. Qed.

(** The next number goes to an account and the counter to its successor, or
    stays at the largest; these are the accounts at [ks]. *)
Definition appended (s : Sequence) (ks : list Pubkey) (L L' : Ledger RdData) : Prop :=
  exists k kh, (forall x, x ∈ ks -> x = k \/ x = kh) /\
    holds s (data (acct L kh)) = true /\
    number s (data (acct L' k)) = Some (next_number s (data (acct L kh))) /\
    next_number s (data (acct L' kh)) = Z.min (next_number s (data (acct L kh)) + 1) (umax 64).

(** ** The books, sum by sum *)
Definition distribution_sum (g : Dist.Distribution -> Z) (L : Ledger RdData) : Z :=
  account_sum (fun a => match data a with DistributionData d _ => g d | _ => 0 end) L.

(** The journal: all zeros before it exists. *)
Definition journal_of (L : Ledger RdData) : Jrnl.Journal :=
  match data (acct L Jrnl.find_address.1) with JournalData j _ => j | _ => Jrnl.zeroed end.

Lemma account_sum_journal (f : RdData -> Z) (g : Jrnl.Journal -> Z) (L : Ledger RdData) :
  (forall a, match a with JournalData j _ => f a = g j | _ => f a = 0 end) -> g Jrnl.zeroed = 0 ->
  ledger_inv L -> account_sum (fun a => f (data a)) L = g (journal_of L).
Proof.
  intros Hf Hz Hinv.
  rewrite (account_sum_single (fun a => f (data a)) ltac:(exact (Hf (Zeroed 0))) L Jrnl.find_address.1).
  - unfold journal_of. specialize (Hf (data (acct L Jrnl.find_address.1))). by case_match; rewrite Hf.
  - intros k Hk. pose proof (li_address _ Hinv k) as Ha. specialize (Hf (data (acct L k))).
    by case_match.
Qed.

Lemma books_sol (L : Ledger RdData) :
  ledger_inv L ->
  books SolBook L = distribution_sum Dist.collected_solana_validator_payments L
    - distribution_sum swept_debt L
    - (Jrnl.total_sol_balance (journal_of L) + Jrnl.swapped_sol_amount (journal_of L)).
Proof.
  intros Hinv. unfold books, distribution_sum.
  pose proof (account_sum_journal
    (fun a => match a with
       JournalData j _ => Jrnl.total_sol_balance j + Jrnl.swapped_sol_amount j | _ => 0 end)
    (fun j => Jrnl.total_sol_balance j + Jrnl.swapped_sol_amount j) L) as Hj.
  cbn beta in Hj. rewrite <- Hj by (by intros [] || done). clear Hj.
  rewrite <- (account_sum_sub _ _ (fun a => match data a with
    DistributionData d _ => Dist.collected_solana_validator_payments d - swept_debt d | _ => 0 end))
    by (intros a; by destruct (data a)).
  apply account_sum_sub. intros a. cbn. destruct (data a); lia.
Qed.

Lemma books_swap (L : Ledger RdData) :
  ledger_inv L ->
  books SwapBook L = distribution_sum Dist.collected_2z_converted_from_sol L
    - (Jrnl.lifetime_swapped_2z_amount (journal_of L) - Jrnl.swap_2z_destination_balance (journal_of L)).
Proof.
  intros Hinv. unfold books, distribution_sum.
  pose proof (account_sum_journal
    (fun a => match a with
       JournalData j _ => Jrnl.lifetime_swapped_2z_amount j - Jrnl.swap_2z_destination_balance j
     | _ => 0 end)
    (fun j => Jrnl.lifetime_swapped_2z_amount j - Jrnl.swap_2z_destination_balance j) L) as Hj.
  cbn beta in Hj. rewrite <- Hj by (by intros [] || done).
  apply account_sum_sub. intros a. cbn. destruct (data a); lia.
Qed.
End Books.
