(* ===== verification/Funds.v ===== *)
(** * Funds on record

    The program records what some of its accounts must be able to pay: the
    journal its SOL balance, a finalized distribution the relay fee of every
    reward that is still to be distributed ([owed]).  Most of its instructions
    change neither records nor balances ([kept true]); the five that do are the
    subject of [Solvency]. *)

From Stdlib Require Import ZArith Lia.
From S2P Require Import Prelude Types BurnRate Borsh Runtime Lamports ProgramTools State RdAccounts.
From S2P Require Import Rules Steps RdConfig RdDistribution RdDebt RdIntegration Lifecycle Invariants.
From S2P Require Import Books.

(** The rewards of a distribution that can still be distributed. *)
Definition outstanding_rewards (d : Dist.Distribution) : Z :=
  Z.max 0 (Dist.total_contributors d - Dist.distributed_rewards_count d).

(** What an account of the program owes, in lamports. *)
Definition owed (a : RdData) : Z :=
  match a with
  | JournalData j _ => Jrnl.total_sol_balance j
  | DistributionData d _ =>
      if Dist.is_rewards_calculation_finalized d
      then Dist.distribute_rewards_relay_lamports d * outstanding_rewards d
      else 0
  | _ => 0
  end.

Lemma owed_untyped a : typed a = false -> owed a = 0.
Proof. by destruct a. Qed.

Lemma owed_new a : has_zero_discriminator a = true -> owed a = 0.
Proof. by destruct a. Qed.

Section Funds.
Context `{HP : Pda} `{HK : KnownPrograms} `{HB : BuildProfile}.

(** Every account holds what it owes. *)
Definition funded (L : Ledger RdData) : Prop :=
  forall k, owed (data (acct L k)) <= lamports (acct L k).

(** No account comes to owe more, none of the program's is debited. *)
Definition funds_le (L L' : Ledger RdData) : Prop :=
  forall k, owed (data (acct L' k)) <= owed (data (acct L k)) /\
    (typed (data (acct L k)) = true -> lamports (acct L k) <= lamports (acct L' k)).

Lemma funds_le_refl L : funds_le L L.
Proof. done. Qed.

Lemma funds_le_trans (L1 L2 L3 : Ledger RdData) :
  evolves L1 L2 -> funds_le L1 L2 -> funds_le L2 L3 -> funds_le L1 L3.
Proof.
  intros He H1 H2 k. destruct (H1 k) as [O1 B1], (H2 k) as [O2 B2]. split; [lia|].
  intros Ht. specialize (B1 Ht). specialize (B2 (data_le_typed _ _ (He k) Ht)). lia.
Qed.

Lemma funds_le_funded (L L' : Ledger RdData) :
  ledger_inv L' -> funds_le L L' -> funded L -> funded L'.
Proof.
  intros Hinv Hle Hf k. destruct (Hle k) as [Ho Hb]. specialize (Hf k).
  destruct (typed (data (acct L k))) eqn:Ht; [specialize (Hb eq_refl); lia|].
  apply owed_untyped in Ht. pose proof (ledger_wf_lamports L' k (inv_wf _ Hinv)) as [? _]. lia.
Qed.

Lemma funds_set_data (L : Ledger RdData) k a :
  owed a <= owed (data (acct L k)) -> funds_le L (set_data L k a).
Proof.
  intros Ha k'. rewrite lamports_set_data. split; [|done].
  destruct (decide (k = k')) as [<-|]; [by rewrite data_set_data_eq|by rewrite data_set_data_ne].
Qed.

Lemma funds_foreign (L L' : Ledger RdData) : ledger_inv L -> foreign_step L L' -> funds_le L L'.
Proof.
  intros Hinv Hf k. pose proof (foreign_data L L' k Hinv Hf) as Hd. split.
  - destruct (typed (data (acct L' k))) eqn:E'; [by rewrite Hd by auto|].
    destruct (typed (data (acct L k))) eqn:E; [by rewrite Hd by auto|].
    by rewrite !owed_untyped.
  - intros Ht. by apply Hf, inv_owner.
Qed.

(** ** Steps that are good, when [calm] keep the funds and spare the [even]
    items *)
Definition kept (calm : bool) (even : Item -> Pubkey -> Prop) (L L' : Ledger RdData) : Prop :=
  good L L' /\ (calm = true -> funds_le L L') /\ spares even L L'.

Lemma kept_good calm even L L' : kept calm even L L' -> good L L'.
Proof. by intros [? _]. Qed.

Lemma kept_refl calm even L : ledger_inv L -> kept calm even L L.
Proof. intros H. split_and!; [by apply good_refl|intros _; apply funds_le_refl|done]. Qed.

Lemma kept_step calm even (L0 L L' : Ledger RdData) :
  kept calm even L0 L -> good L0 L' ->
  (ledger_inv L -> calm = true -> funds_le L L') -> (ledger_inv L -> spares even L L') ->
  kept calm even L0 L'.
Proof.
  intros (Hg & Hf & He) Hg' Hf' He'. split_and!; [done|intros Hc|].
  - eapply funds_le_trans; [apply Hg|by apply Hf|by apply Hf'; [apply Hg|]].
  - transitivity L; [done|apply He', Hg].
Qed.

Lemma kept_cpi calm even (L0 L L' : Ledger RdData) :
  foreign_step L L' -> kept calm even L0 L -> kept calm even L0 L'.
Proof.
  intros Hf Hk. eapply kept_step; [exact Hk|by eapply good_cpi, kept_good|..]; intros Hinv.
  - intros _. by apply funds_foreign.
  - by apply spares_foreign.
Qed.

Lemma kept_set calm even (L0 L : Ledger RdData) k a :
  kept calm even L0 L -> (good L0 L -> good L0 (set_data L k a)) ->
  (calm = true -> owed a <= owed (data (acct L k))) ->
  (forall i, even i k -> item i a = item i (data (acct L k))) ->
  kept calm even L0 (set_data L k a).
Proof.
  intros Hk Hg Ho He. eapply kept_step; [exact Hk|apply Hg; by eapply kept_good|..]; intros _.
  - intros Hc. by apply funds_set_data, Ho.
  - by apply spares_set_data.
Qed.

Lemma kept_lamports even (L0 L : Ledger RdData) k n :
  kept false even L0 L -> (good L0 L -> good L0 (set_lamports L k n)) ->
  kept false even L0 (set_lamports L k n).
Proof.
  intros Hk Hg. eapply kept_step; [exact Hk|apply Hg; by eapply kept_good|done|].
  intros _. apply spares_set_lamports.
Qed.

(** Between two writes of an account, other programs take steps. *)
Lemma kept_write_around calm even (L0 L : Ledger RdData) k a1 a2 L' :
  ledger_inv L -> owner (acct L k) = ID -> wf_data a1 ->
  rd_data_len a1 <= MAX_PERMITTED_DATA_LENGTH -> foreign_step (set_data L k a1) L' ->
  kept calm even L0 (set_data L k a2) -> kept calm even L0 (set_data L' k a2).
Proof.
  intros Hinv Ho Hw Hl Hf. apply kept_cpi, (foreign_step_rewrite _ _ a1); [done| |done].
  apply ledger_typed_set; [apply Hinv| |done].
  split_and!; [done|done|]. apply ledger_wf_lamports, inv_wf, Hinv.
Qed.

(** What is on record when the struct is known. *)
Lemma owed_at (L : Ledger RdData) k a n : data (acct L k) = a -> n <= owed a -> n <= owed (data (acct L k)).
Proof. by intros ->. Qed.
End Funds.

Lemma owed_distribution d bits d' bits' :
  Dist.is_rewards_calculation_finalized d' = Dist.is_rewards_calculation_finalized d ->
  Dist.is_rewards_calculation_finalized d = false \/
  Dist.distribute_rewards_relay_lamports d' = Dist.distribute_rewards_relay_lamports d /\
  Dist.total_contributors d' = Dist.total_contributors d /\
  Dist.distributed_rewards_count d' = Dist.distributed_rewards_count d ->
  owed (DistributionData d' bits') <= owed (DistributionData d bits).
Proof.
  cbn [owed]. unfold outstanding_rewards. intros -> [->|(-> & -> & ->)]; [done|]. by case_match.
Qed.

(** A write that leaves the record alone, or the first of a new account. *)
Ltac owed_same :=
  intros _;
  first
    [ eapply owed_at; [view_read|];
      first
        [ apply Z.le_refl
        | apply owed_distribution; [dist_simpl; done|first [left; assumption | right; by dist_simpl]]
        | cbn; lia ]
    | match goal with
      | |- _ <= owed ?a => rewrite (owed_new a) by (ledger; eassumption); first [apply Z.le_refl | done]
      end ].

(** A write that spares the even items; where it does not, the account is one
    of those excepted. *)
Ltac item_cases i Hi :=
  destruct i as [[]|[]];
  first [ done | by dist_simpl | exfalso; apply Hi; cbn; solve [by left | by right; left] ].
Ltac item_same :=
  let i := fresh "i" in let Hi := fresh "Hi" in
  intros i Hi;
  first
    [ eapply item_at; [view_read|];
      first
        [ reflexivity
        | apply item_distribution;
          [reflexivity|reflexivity|dist_simpl; done|reflexivity|first [left; by dist_simpl | right; by dist_simpl]]
        | item_cases i Hi ]
    | match goal with
      | |- item _ ?a = item _ ?a0 =>
          rewrite (item_new i a0) by (ledger; eassumption); item_cases i Hi
      end ].
