(* ===== verification/Preservation.v ===== *)
(** * The handlers keep the invariant

    Each handler, from a ledger that satisfies the invariant and with arguments
    of their widths, leaves one that satisfies it and only moves the accounts
    forward ([good]); all but five also keep the funds on record where they are
    ([kept true]), and each spares what is recorded twice or adds to a sequence
    ([appended]).  The symbolic execution gives the final ledger as a sequence
    of writes and CPIs; the rules of [Invariants] and [Funds] take them off one
    by one. *)

From Stdlib Require Import ZArith Lia String.
From S2P Require Import Prelude Types BurnRate Borsh Runtime ProgramTools State RdAccounts Rules Steps.
From S2P Require Import RdConfig RdDistribution RdRewards RdDebt RdSwap RdIntegration Lifecycle.
From S2P Require Import Invariants Books Funds.

(** Execution with any number of accounts: the list is split when the next
    account is needed. *)
Ltac split_accounts :=
  lazymatch goal with
  | |- wlp ?m _ (MkSt _ _ ?infos _ _ _) =>
      lazymatch m with
      | verified_program_authority _ =>
          first [is_var infos; destruct infos | lazymatch infos with _ :: ?l => is_var l; destruct l end]
      | verified_program_authority_mut _ =>
          first [is_var infos; destruct infos | lazymatch infos with _ :: ?l => is_var l; destruct l end]
      | try_next_enumerated_account _ => is_var infos; destruct infos
      | zc_try_next_accounts _ _ => is_var infos; destruct infos
      | zc_mut_try_next_accounts _ _ => is_var infos; destruct infos
      | try_next_2z_token_pda_info _ _ => is_var infos; destruct infos; [unfold try_next_2z_mint_info, try_next_token_program_info, try_next_2z_token_pda_info|]
      | try_next_2z_mint_info => is_var infos; destruct infos; [unfold try_next_2z_mint_info, try_next_token_program_info, try_next_2z_token_pda_info|]
      | try_next_token_program_info => is_var infos; destruct infos; [unfold try_next_2z_mint_info, try_next_token_program_info, try_next_2z_token_pda_info|]
      end
  end.
Ltac kstep := first [split_accounts | astep].
Ltac ksteps := repeat kstep.

(** The fields of a contributor, its shares as a list. *)
Definition share_fits (s : RecipientShare) : Prop := fits 256 (recipient_key s) /\ fits 16 (share s).

Lemma contributor_wf c :
  Contrib.wf c <->
  fits 256 (Contrib.rewards_manager_key c) /\ fits 256 (Contrib.service_key c) /\
  fits 64 (Contrib.flags c) /\ Forall share_fits (Contrib.recipient_shares c).
Proof.
  unfold Contrib.wf, fields_fit. cbn [app]. rewrite !Forall_cons. cbn [fst snd].
  assert (forall l, Forall (fun p => fits p.1 p.2)
            (flat_map (fun s => [(256, recipient_key s); (16, share s)]) l)
          <-> Forall share_fits l) as ->; [|tauto].
  intros l. induction l as [|s l IH]; [done|]. cbn [flat_map app]. rewrite !Forall_cons, IH.
  unfold share_fits. cbn [fst snd]. tauto.
Qed.

Ltac wf_contributor :=
  apply contributor_wf; cbn; split_and!; first [assumption | done | by repeat constructor].

(** A known account is read, a new one was created by this instruction. *)
Ltac new_address :=
  cbn; repeat match goal with E : ?f = (_, _) |- context [?f] => rewrite E end; cbn [fst];
  first [assumption | reflexivity | congruence].
(** A stored bump seed is the one found. *)
Ltac new_seed :=
  repeat match goal with E : ?f = (_, _) |- context [?f] => rewrite E; cbn [fst snd] end; reflexivity.
Ltac new_length :=
  match goal with E : ?rest = replicate _ _ |- context [?rest] => rewrite E end;
  cbn [rd_data_len data_len RdData_account]; rewrite tail_len;
  cbv [data_end size_of zc_config zc_distribution zc_journal zc_contributor zc_deposit zc_integration];
  unfold DISCRIMINATOR_LEN, SIZE_ProgramConfig, SIZE_Distribution, SIZE_Journal,
    SIZE_ContributorRewards, SIZE_SolanaValidatorDeposit, SIZE_RewardsIntegration,
    MAX_PERMITTED_DATA_LENGTH in *; lia.

(** Takes the writes off the final ledger; what is left are the facts that are
    particular to the handler. *)
Ltac keep :=
  cbn [st_ledger];
  lazymatch goal with
  | H : good ?L ?L' |- good ?L ?L' => exact H
  | H : kept ?c ?e ?L ?L' |- kept ?c ?e ?L ?L' => exact H
  | |- kept _ _ ?L ?L => apply kept_refl; assumption
  | H : foreign_step ?X ?Y |- kept _ _ _ ?Y => apply (kept_cpi _ _ _ _ _ H); keep
  | |- kept false _ _ (set_lamports _ _ _) =>
      apply kept_lamports;
        [keep
        |let Hg := fresh "Hgood" in intros Hg;
         first [ eapply good_add_lamports; [eassumption|try solve [nonneg]|exact Hg]
               | eapply good_sub_lamports; [eassumption|try solve [nonneg]|exact Hg] ]]
  | |- kept _ _ _ (set_data _ _ ?a) =>
      apply kept_set;
        [keep|let Hg := fresh "Hgood" in intros Hg; first [keep_known a | keep_new]
        |try solve [owed_same | done]|try solve [item_same | done]]
  end
with keep_known a :=
  lazymatch a with
  | ConfigData _ _ =>
      eapply good_config; [|view_read|..];
        [keep|try solve [wf_struct]|try exact id|try exact id|try apply Z.le_refl]
  | JournalData _ _ =>
      eapply good_journal; [|view_read|..];
        [keep|try solve [wf_struct]
        |try solve [cbn; split_and!; first [done | lia | apply next_epoch_le; [fit|done]]]]
  | ContributorData _ _ => eapply good_contributor; [|view_read|..]; [keep|..]
  | DepositData _ _ =>
      eapply good_deposit; [|view_read|..]; [keep|try solve [wf_struct]|try reflexivity]
  | DistributionData _ _ =>
      eapply good_distribution; [|view_read|..];
        [keep|try solve [wf_struct]
        |first [left; reflexivity | left; congruence | right; assumption | idtac]
        |
        |try solve [left; reflexivity]]
  end
with keep_new :=
  eapply good_new;
    [keep|own|eassumption
    |split; [first [wf_struct | wf_contributor]|subst; apply tail_bytes]
    |intros ?; new_length|new_address|try done|try done].

(** Bits marked by the handler: the bytes keep their length. *)
Ltac mark_start :=
  unfold Dist.processed_solana_validator_debt_bitmap_range, Dist.processed_rewards_bitmap_range,
    Dist.processed_solana_validator_debt_write_off_bitmap_range;
  cbn [fst update Dist.processed_solana_validator_debt_start_index
       Dist.processed_rewards_start_index Dist.processed_solana_validator_debt_write_off_start_index];
  nonneg.
Ltac marks :=
  repeat match goal with
  | H : mark_leaf ?b ?range ?leaf = Ok ?b' |- _ =>
      lazymatch goal with
      | _ : bytes_ok b' |- _ => fail
      | _ =>
          let Hl := fresh "Hlength" in let Hb := fresh "Hbytes" in
          assert (bytes_ok b) as Hb
            by first [assumption | by match goal with W : wf_data (DistributionData _ b) |- _ => exact (proj2 W) end];
          destruct (mark_leaf_le b range.1 range.2 leaf b' ltac:(mark_start) ltac:(nonneg) Hb H)
            as [[Hl _] ?]
      end
  end.

(** The operation of the state machine a handler performs. *)
Ltac operation op := eapply op; cycle 1; try eassumption; try nonneg.

(** The items an instruction spares: most all; a payment those of the other
    book; a withdrawal and a sweep those of the sequences.  An instruction that
    adds to a sequence does so with two of its accounts, at the given places. *)
Definition keys_at (accounts : list AccountInfo) (places : list nat) : list Pubkey :=
  omap (fun n => key <$> accounts !! n) places.

Definition all_items (i : Item) (k : Pubkey) : Prop := True.
Definition no_items (i : Item) (k : Pubkey) : Prop := False.
Definition pay_even (i : Item) (k : Pubkey) : Prop := i <> Entry SolBook.
Definition withdraw_even (i : Item) (k : Pubkey) : Prop := match i with Entry _ => False | Mark _ => True end.
Definition sweep_even (accounts : list AccountInfo) (i : Item) (k : Pubkey) : Prop :=
  match i with
  | Entry _ => False
  | Mark SweptDistributions => k ∉ keys_at accounts [1; 2]%nat
  | Mark _ => True
  end.
Definition distribution_even (accounts : list AccountInfo) (i : Item) (k : Pubkey) : Prop :=
  match i with Mark Distributions => k ∉ keys_at accounts [0; 3]%nat | _ => True end.
Definition integration_even (accounts : list AccountInfo) (i : Item) (k : Pubkey) : Prop :=
  match i with Mark Integrations => k ∉ keys_at accounts [4; 5]%nat | _ => True end.

(** The account added and the holder of the counter are read. *)
Ltac item_read :=
  ledger; cpi_read;
  repeat match goal with H : data (acct _ _) = _ |- _ => rewrite H end.
Ltac append k kh :=
  cbn [st_ledger]; exists k, kh; split_and!;
    [let x := fresh "x" in intros x; cbn; rewrite !elem_of_cons, elem_of_nil; tauto
    |by item_read|item_read; cbn [number next_number]|item_read; cbn [number next_number]].

Section Preservation.
Context `{R : Runtime RdData} `{!RdLaws R}.
Context (L : Ledger RdData) (Hinv : ledger_inv L).

(** [m], started on [L], only moves the ledger forward, when [calm] keeps the
    funds where they are, and spares the [even] items. *)
Definition keeps (calm : bool) (even : Item -> Pubkey -> Prop) (m : M RdData unit) : Prop :=
  wlp m (fun _ s => kept calm even L (st_ledger s)) (MkSt L 0 [] [] None []).

Let Hwf : ledger_wf L := inv_wf _ Hinv.

Ltac start_keeps := unfold keeps.

(** The bitmap appended to the distribution that [Hd] reads. *)
Ltac grow Hd :=
  match goal with
  | |- wlp (grow_distribution _ (additional_data_len ?n)) _ _ =>
      match type of Hd with
      | data (acct _ _) = DistributionData _ ?bits =>
          let Hlen := fresh "Hlen" in let Hn := fresh "Hn" in
          pose proof (ledger_wf_rest _ _ _ _ Hwf Hd) as Hlen;
          assert (fits 32 n) as Hn by fit;
          destruct (grown_fits n bits Hn Hlen);
          assert (bytes_ok (grown bits n))
            by (apply grown_bytes;
                match goal with H : wf_data (DistributionData _ bits) |- _ => exact (proj2 H) end);
          eapply wlp_grow_distribution; [view_read|exact Hn|done|];
          rewrite set_data_set_data; intros ?;
          rewrite grown_end, as_u32_lenZ in * by (exact Hlen || exact Hn || apply Hn)
      end
  end.

Lemma pay_keeps accounts amount proof :
  fits 64 amount -> keeps false pay_even (try_pay_solana_validator_debt accounts amount proof).
Proof.
  intros Ham. start_keeps. unfold try_pay_solana_validator_debt. ksteps. guards. wf_facts. marks.
  keep. operation op_pay.
Qed.

Lemma configure_debt_keeps accounts n debt root :
  fits 32 n -> fits 64 debt -> fits 256 root ->
  keeps true all_items (try_configure_distribution_debt accounts n debt root).
Proof.
  intros Hn Hd Hr. start_keeps. unfold try_configure_distribution_debt. ksteps. guards. wf_facts.
  keep; [apply op_configure_debt; [done|nonneg]|]. intros i _. eapply item_at; [view_read|].
  apply item_distribution; [done..|left]. eapply open_unswept; [|eassumption].
  by apply (inv_distribution _ _ _ _ Hinv Hdata0).
Qed.

Lemma configure_rewards_keeps accounts n root :
  fits 32 n -> fits 256 root -> keeps true all_items (try_configure_distribution_rewards accounts n root).
Proof.
  intros Hn Hr. start_keeps. unfold try_configure_distribution_rewards. ksteps. guards. wf_facts.
  keep. by apply op_configure_rewards.
Qed.

Lemma set_economic_burn_rate_keeps accounts rate :
  fits 32 rate -> keeps true all_items (try_set_distribution_economic_burn_rate accounts rate).
Proof.
  intros Hr. start_keeps. unfold try_set_distribution_economic_burn_rate. ksteps. guards. wf_facts.
  match goal with H : UnitShare32.new _ = Some _ |- _ => apply new32_Some in H as [-> ?] end.
  keep. apply op_economic_burn_rate; [done|]. split; [nonneg|done].
Qed.

Lemma finalize_debt_keeps accounts : keeps true all_items (try_finalize_distribution_debt accounts).
Proof.
  start_keeps. unfold try_finalize_distribution_debt. ksteps; guards; wf_facts.
  - keep. by apply op_finalize_no_debt.
  - grow Hdata0. ksteps. keep. operation op_finalize_debt. by eapply bits_max.
Qed.

Lemma finalize_rewards_keeps accounts : keeps false all_items (try_finalize_distribution_rewards accounts).
Proof.
  start_keeps. unfold try_finalize_distribution_rewards. ksteps. guards. wf_facts.
  grow Hdata0. ksteps. keep. operation op_finalize_rewards. by eapply bits_max.
Qed.

Lemma enable_write_off_keeps accounts : keeps true all_items (try_enable_solana_validator_debt_write_off accounts).
Proof.
  start_keeps. unfold try_enable_solana_validator_debt_write_off. ksteps. guards. wf_facts.
  match goal with H : _ = true |- _ => rewrite Dist.finalized_set_enabled in H end.
  grow Hdata0. ksteps. keep. 
  apply (op_enable_write_off x0); [done|done|nonneg|by eapply bits_max].
Qed.

Lemma write_off_keeps accounts amount proof :
  fits 64 amount -> keeps true all_items (try_write_off_solana_validator_debt accounts amount proof).
Proof.
  intros Ham. start_keeps. unfold try_write_off_solana_validator_debt, write_off_debt. ksteps.
  unfold account_write_off. ksteps. guards. wf_facts. marks.
  keep; [operation op_write_off|by apply op_uncollectible].
Qed.

Lemma withdraw_deposit_keeps accounts : keeps false all_items (try_withdraw_solana_validator_deposit accounts).
Proof.
  start_keeps. unfold try_withdraw_solana_validator_deposit, next_beneficiary. ksteps.
  all: guards; wf_facts; keep; apply Z.le_max_r.
Qed.

Lemma initialize_swap_destination_keeps accounts : keeps true all_items (try_initialize_swap_destination accounts).
Proof.
  start_keeps. unfold try_initialize_swap_destination. ksteps. guards. wf_facts. keep.
  intros [_ Hs]. split; [right|exact Hs]. rewrite E. cbn [fst snd]. by rewrite Hpda.
Qed.

Lemma dequeued_amount_fits bytes sol token n :
  Forall (fits 8) bytes -> try_from_slice (pair (pair u64 u64) u64) bytes = Some (sol, token, n) ->
  fits 64 token.
Proof. intros Hb H. by apply try_from_slice_canonical in H as [[[_ ?] _] _]. Qed.

Lemma sweep_post accounts :
  wlp (try_sweep_distribution_tokens accounts)
    (fun _ s => kept true (sweep_even accounts) L (st_ledger s) /\
       appended SweptDistributions (keys_at accounts [1; 2]%nat) L (st_ledger s))
    (MkSt L 0 [] [] None []).
Proof.
  unfold try_sweep_distribution_tokens. ksteps.
  - guards. wf_facts. split; [keep; by apply op_sweep|].
    append (key a0) (key a1); [dist_simpl; congruence|done].
  - unfold dequeue_fills. ksteps. unfold collect_swept_tokens. ksteps. guards. wf_facts.
    match goal with H : try_from_slice _ _ = Some _ |- _ =>
      apply dequeued_amount_fits in H; [|assumption] end.
    split; [keep; [by apply op_sweep|apply op_converted; by dist_simpl]|].
    append (key a0) (key a1); [dist_simpl; congruence|done].
Qed.

Lemma sweep_keeps accounts : keeps true (sweep_even accounts) (try_sweep_distribution_tokens accounts).
Proof. intros u s E. apply (sweep_post _ u s E). Qed.

Lemma sibling_amount_fits p amount : sibling_transfer_amount p = Ok amount -> fits 64 amount.
Proof.
  intros (ix & decimals & destination & _ & _ & Hu & _)%sibling_transfer_amount_ok.
  by eapply unpack_token_instruction_u64.
Qed.

Lemma withdraw_sol_keeps accounts amount : fits 64 amount -> keeps false withdraw_even (try_withdraw_sol accounts amount).
Proof.
  intros Ham. start_keeps. unfold try_withdraw_sol. ksteps. guards. wf_facts.
  match goal with H : sibling_transfer_amount _ = Ok _ |- _ => apply sibling_amount_fits in H end.
  unfold journal_after_withdrawal in *. res_inv. keep.
Qed.

Lemma wlp_upgrade_authority_any loader program_id infos
    (Q : AccountInfo * AccountInfo -> St RdData -> Prop) L1 i b r t :
  (forall m0 m1 rest j, Q (m0, m1) (MkSt L1 j rest b r t)) ->
  wlp (upgrade_authority_try_next_accounts loader program_id) Q (MkSt L1 i infos b r t).
Proof.
  intros HQ. unfold upgrade_authority_try_next_accounts. ksteps.
  destruct (deserialize_loader_state _) as [[[authority|]|]|]; ksteps. apply HQ.
Qed.

Lemma set_admin_keeps accounts admin : fits 256 admin -> keeps true all_items (try_set_admin accounts admin).
Proof.
  intros Ha. start_keeps. unfold try_set_admin. do 2 step. step.
  apply wlp_upgrade_authority_any. intros. ksteps. wf_facts. keep.
Qed.

Lemma journal_count_distribution L1 k d bits d' bits' :
  data (acct L1 k) = DistributionData d bits ->
  journal_count (set_data L1 k (DistributionData d' bits')) = journal_count L1.
Proof.
  intros E. unfold journal_count. destruct (decide (k = Jrnl.find_address.1)) as [<-|Hne].
  - by rewrite data_set_data_eq, E.
  - by rewrite data_set_data_ne.
Qed.

(** The accounts of a migration: distributions, of some epochs. *)
Definition distribution_keys (epochs : list DoubleZeroEpoch) : list Pubkey :=
  (fun dz_epoch => (Dist.find_address dz_epoch).1) <$> epochs.

Lemma migrate_loop_post fuel n : forall L1 infos i b r t,
  kept true all_items L L1 -> journal_count L1 = n -> fits 16 n ->
  wlp (migrate_loop fuel n)
    (fun _ s => kept true all_items L (st_ledger s) /\ st_index s = (i + length infos)%nat /\
       exists epochs, key <$> infos = distribution_keys epochs)
    (MkSt L1 i infos b r t).
Proof.
  induction fuel as [|fuel IH]; intros L1 infos i b r t Hg Hn Hfit; cbn [migrate_loop]; do 2 step;
    destruct infos as [|info infos]; cbn [length]; ksteps;
    [split_and!; [exact Hg|cbn; lia|by exists []]..|].
  destruct (inv_distribution _ _ _ _ (proj1 (proj1 Hg)) Hdata) as (_ & Hs & Hk).
  eapply wlp_mono; [|apply IH; [|by rewrite <- Hn; eapply journal_count_distribution|done]].
  - intros _ s (Hkept & Hi & epochs & He). split_and!; [done|cbn; lia|].
    exists (Dist.dz_epoch x :: epochs). unfold distribution_keys in *. cbn. by rewrite Hk, He.
  - keep; [apply op_migrate; lia|right; cbn; lia].
Qed.

Lemma migrate_post accounts :
  wlp (try_migrate_program_accounts accounts)
    (fun _ s => kept true all_items L (st_ledger s) /\ st_index s = length accounts /\
       exists epochs, key <$> drop 3 accounts = distribution_keys epochs)
    (MkSt L 0 [] [] None []).
Proof.
  unfold try_migrate_program_accounts. do 2 step. step.
  destruct accounts as [|m0 [|m1 infos]].
  1,2: unfold upgrade_authority_try_next_accounts; ksteps.
  apply wlp_upgrade_authority. intros. ksteps. wf_facts.
  destruct (inv_journal _ _ _ _ Hinv Hdata) as [_ Hn].
  eapply wlp_mono; [|apply migrate_loop_post; [by apply kept_refl|done|fit]].
  intros _ s (? & Hi & ?). by rewrite Hi.
Qed.

Lemma migrate_keeps accounts : keeps true all_items (try_migrate_program_accounts accounts).
Proof. intros u s E. apply (migrate_post _ u s E). Qed.

Lemma apply_setting_wf p p' setting :
  Config.wf p -> setting_fits setting -> apply_setting p setting = Ok p' -> Config.wf p'.
Proof.
  intros Hw Hfit. destruct setting; cbn [setting_fits] in *; intros H; setting_cbn.
  - destruct configure_flag. res_inv. revert Hw. wf_struct.
  - res_inv. revert Hw. wf_struct.
  - res_inv. revert Hw. wf_struct.
  - res_inv. revert Hw. wf_struct.
  - done.
  - destruct find_withdraw_sol_authority_address eqn:E. res_inv. revert Hw. wf_struct.
  - unfold configure_fees in H. res_inv.
    repeat match goal with H : UnitShare16.new _ = Some _ |- _ => apply new16_Some in H as [-> ?] end.
    destruct Hfit as (? & ? & ? & ? & ?). revert Hw. wf_struct.
  - repeat case_match; try done. res_inv. revert Hw. wf_struct.
  - destruct Hfit as (? & ? & ? & ?).
    apply configure_community_burn_rate_fits in H as (c & -> & Hc); try done.
    + unfold cbr_fields, fields_fit in Hc. split_fields Hc. revert Hw. wf_struct.
    + revert Hw. intros Hw. split_fields Hw. done.
  - done.
  - repeat case_match; try done. res_inv. revert Hw. wf_struct.
  - repeat case_match; try done. res_inv. revert Hw. wf_struct.
  - repeat case_match; try done. res_inv. revert Hw. wf_struct.
  - repeat case_match; try done. res_inv. revert Hw. wf_struct.
Qed.

(** A setting leaves the stored bump seeds canonical. *)
Lemma apply_setting_seeds p p' setting :
  apply_setting p setting = Ok p' -> config_seeds p -> config_seeds p'.
Proof.
  destruct setting; intros H; setting_cbn.
  1: destruct configure_flag.
  all: try (unfold configure_fees in H; repeat case_match; res_inv; done || exact id).
  - destruct find_withdraw_sol_authority_address eqn:E. injection H as <-. intros [Hs _].
    split; [exact Hs|right]. cbn. by rewrite E.
  - unfold configure_community_burn_rate in H. destruct initial_rate; res_inv; [exact id|].
    destruct (Cbr.checked_update _ _ _ _) as [[]|]; res_inv. exact id.
Qed.

Lemma configure_program_keeps accounts setting :
  setting_fits setting -> keeps true all_items (try_configure_program accounts setting).
Proof.
  intros Hs. start_keeps. unfold try_configure_program. ksteps. guards. wf_facts.
  match goal with H : apply_setting p _ = Ok _, W : wf_data (ConfigData p _) |- _ =>
    pose proof (apply_setting_wf _ _ _ (proj1 W) Hs H);
    pose proof (fun Hok => apply_setting_ok _ _ _ Hok Hs H) as Hok end.
  pose proof (Hok (inv_config _ _ _ _ Hinv Hdata)) as (? & He & _).
  keep; [assumption|done|by eapply apply_setting_seeds|lia].
Qed.

Lemma packed_fits recipients :
  Forall (fun r => fits 256 r.1 /\ fits 16 r.2) recipients -> Forall share_fits (packed recipients).
Proof.
  intros Hl. apply Forall_app. split; [by apply Forall_fmap|].
  apply Forall_replicate. split; split; done.
Qed.

(** The width of a contributor setting's arguments. *)
Definition contributor_setting_fits (s : ContributorRewardsConfiguration) : Prop :=
  match s with
  | Recipients recipients => Forall (fun r => fits 256 r.1 /\ fits 16 r.2) recipients
  | IsSetRewardsManagerBlocked _ => True
  end.

Lemma apply_contributor_setting_ok c c' setting :
  Contrib.wf c -> contributor_setting_fits setting -> apply_contributor_setting c setting = Ok c' ->
  Contrib.wf c' /\ Contrib.service_key c' = Contrib.service_key c /\
  (shares_ok (Contrib.recipient_shares c) -> shares_ok (Contrib.recipient_shares c')).
Proof.
  rewrite !contributor_wf. intros (Hm & Hk & Hf & Hs) Hfit H.
  destruct setting as [recipients|block]; cbn [apply_contributor_setting contributor_setting_fits] in *;
    res_inv; cbn.
  - assert (Forall (fun r : Pubkey * Z => 0 <= r.2) recipients) as Hnn
      by (eapply Forall_impl; [exact Hfit|]; intros r [_ [? _]]; done).
    match goal with H : Recipients.new _ = Some ?x |- _ =>
      pose proof (shares_ok_new _ _ Hnn H); rewrite recipients_new_eq in H by done;
      destruct (_ && _) in H; [|done]; injection H as <- end.
    split_and!; try done. by apply packed_fits.
  - split_and!; try done. by apply set_flag_fits.
Qed.

Lemma set_rewards_manager_keeps accounts k : fits 256 k -> keeps true all_items (try_set_rewards_manager accounts k).
Proof.
  intros Hk. start_keeps. unfold try_set_rewards_manager. ksteps. guards. wf_facts.
  match goal with W : wf_data (ContributorData _ _) |- _ => destruct W as [W _]; apply contributor_wf in W end.
  keep; [apply contributor_wf; cbn; tauto|done|done].
Qed.

Lemma configure_contributor_keeps accounts setting :
  contributor_setting_fits setting -> keeps true all_items (try_configure_contributor_rewards accounts setting).
Proof.
  intros Hs. start_keeps. unfold try_configure_contributor_rewards. ksteps. guards. wf_facts.
  match goal with W : wf_data (ContributorData _ _), H : apply_contributor_setting _ _ = Ok _ |- _ =>
    destruct (apply_contributor_setting_ok _ _ _ (proj1 W) Hs H) as (? & ? & ?) end.
  by keep.
Qed.

Lemma verify_root_keeps accounts kind proof :
  keeps true all_items (try_verify_distribution_merkle_root accounts kind proof).
Proof. start_keeps. unfold try_verify_distribution_merkle_root. ksteps. keep. Qed.

(** What a distributed reward did to the distribution: it was swept and its
    integrations collected, and the leaf of the proof is now distributed. *)
Definition reward_taken (accounts : list AccountInfo) (proof : MerkleProof) (L' : Ledger RdData) : Prop :=
  exists info d bits d' bits' leaf,
    accounts !! 1%nat = Some info /\ data (acct L (key info)) = DistributionData d bits /\
    data (acct L' (key info)) = DistributionData d' bits' /\ leaf_index proof = Some leaf /\
    Dist.has_swept_2z_tokens d = true /\ Dist.are_all_integrations_collected d = true /\
    distributed d bits leaf = false /\ distributed d' bits' leaf = true.

Lemma mark_distributed d bits leaf d' bits' :
  dist_ok d bits -> 0 <= leaf -> mark_leaf bits (Dist.processed_rewards_bitmap_range d) leaf = Ok bits' ->
  Dist.processed_rewards_bitmap_range d' = Dist.processed_rewards_bitmap_range d ->
  distributed d bits leaf = false /\ distributed d' bits' leaf = true.
Proof.
  intros Hok Hl Hm E.
  destruct (mark_leaf_marked _ _ _ _ (proj1 (do_rewards_range _ _ Hok)) Hl (do_bytes _ _ Hok) Hm)
    as (_ & _ & Hclear & Hset & _). unfold distributed. by rewrite E, Hset, Z.eqb_refl.
Qed.

(** What a reward can be split into: at most 64 bits of tokens, of which the
    recipients get at most the part that is paid. *)
Lemma reward_bounds k kc d bits c crest r burned paid :
  data (acct L k) = DistributionData d bits -> data (acct L kc) = ContributorData c crest ->
  0 <= unit_share r -> Dist.split_2z_amount d r = Ok (Some (burned, paid)) ->
  0 <= burned /\ 0 <= paid /\ burned + paid < 2 ^ 64 /\ shares_ok (Contrib.recipient_shares c) /\
  0 <= sumZ (payment paid) (Recipients.active (Contrib.recipient_shares c)) <= paid.
Proof.
  intros Ed Ec Hr Hs. pose proof (ledger_wf_data _ _ _ Hwf Ed) as [Hd _].
  destruct (split_2z_amount_inv d r burned paid) as (total & _ & _ & ? & ? & [_ ?]); try done.
  { apply (inv_distribution _ _ _ _ Hinv Ed). }
  pose proof (inv_contributor _ _ _ _ Hinv Ec) as Hok. destruct (Hok) as [Hvalid Hsum].
  split_and!; try done; by apply payments_bounds.
Qed.

Lemma distribute_rewards_post accounts unit_share rate proof :
  fits 32 unit_share ->
  wlp (try_distribute_rewards accounts unit_share rate proof)
    (fun _ s => kept false all_items L (st_ledger s) /\ reward_taken accounts proof (st_ledger s))
    (MkSt L 0 [] [] None []).
Proof.
  intros Hu. unfold try_distribute_rewards, distribute_rewards_accounts. ksteps.
  unfold distribute_rewards_pay. ksteps. guards. wf_facts. marks.
  destruct (reward_bounds _ _ _ _ _ _ v1 z z0 Hdata0 Hdata1) as (? & ? & Hzz & [Hvalid _] & Hsent);
    [erewrite reward_new_share by eassumption; nonneg|congruence|].
  apply wlp_distribute_to_recipients; [done|unfold fits; lia|lia|lia|].
  intros L1 i' infos' r' Hforeign _ _. pose proof (foreign_preserves _ _ Hforeign) as Hcpi.
  rewrite Z.add_0_l. ksteps.
  rewrite arith_sub_exact in * by lia. res_inv.
  match goal with H : arith_add 64 z _ = Ok ?v |- _ => assert (fits 64 v) by width end.
  match goal with H : foreign_step (set_data L1 _ ?a2) _ |- _ =>
    assert (kept false all_items L (set_data L1 (key a0) a2)) as Hg end.
  { apply (kept_write_around false all_items L L (key a0) (DistributionData x0 rest')); try done.
    - split; [|done]. match goal with W : wf_data (DistributionData x0 _) |- _ => apply W end.
    - destruct (ledger_wf_acct L (key a0) Hwf) as (_ & Hl & _). rewrite Hdata0 in Hl.
      cbn [rd_data_len] in *. by rewrite Hlength.
    - keep. operation op_distribute. }
  split; [keep|]. cbn [st_ledger].
  exists a0, x0, rest0. do 2 eexists. exists v. split_and!; try done; [view_read|..];
    eapply mark_distributed;
    first [exact (proj1 (inv_distribution _ _ _ _ Hinv Hdata0)) | exact Hmark | reflexivity | nonneg].
Qed.

Lemma distribute_rewards_keeps accounts unit_share rate proof :
  fits 32 unit_share -> keeps false all_items (try_distribute_rewards accounts unit_share rate proof).
Proof.
  intros Hu u s E. apply (distribute_rewards_post _ _ _ _ Hu u s E).
Qed.

Lemma initialize_contributor_keeps accounts k :
  fits 256 k -> keeps true all_items (try_initialize_contributor_rewards accounts k).
Proof.
  intros Hk. start_keeps. unfold try_initialize_contributor_rewards. ksteps. guards.
  match goal with H : key _ = _ |- _ => rewrite H in * end. keep.
Qed.

Lemma initialize_deposit_keeps accounts k :
  fits 256 k -> keeps true all_items (try_initialize_solana_validator_deposit accounts k).
Proof.
  intros Hk. start_keeps. unfold try_initialize_solana_validator_deposit. ksteps. guards.
  match goal with H : key _ = _ |- _ => rewrite H in * end. keep.
Qed.

Lemma zeroed_config_ok p :
  Config.distribution_parameters p = Config.distribution_parameters Config.zeroed ->
  Config.relay_parameters p = Config.relay_parameters Config.zeroed -> config_ok p.
Proof.
  intros E1 E2. unfold config_ok. rewrite E1, E2. unfold cbr_ok, valid16, UnitShare16.MAX. cbn.
  split_and!; lia.
Qed.

Lemma initialize_program_keeps accounts : keeps true all_items (try_initialize_program accounts).
Proof.
  start_keeps. unfold try_initialize_program. ksteps. guards.
  match goal with H : key _ = _ |- _ => rewrite H in * end. keep.
  intros _. split; [by apply zeroed_config_ok|split; by left].
Qed.

Lemma initialize_journal_keeps accounts : keeps true all_items (try_initialize_journal accounts).
Proof.
  start_keeps. unfold try_initialize_journal. ksteps. guards.
  match goal with H : key _ = _ |- _ => rewrite H in * end. keep.
  intros _. split; cbn; new_seed.
Qed.

Lemma record_collection_wf d index amount d' :
  Dist.wf d -> 0 <= index -> 0 <= amount -> record_collection d index amount = Ok d' ->
  Dist.wf d' /\ Dist.integrations_count_snapshot d' = Dist.integrations_count_snapshot d /\
  (forall bits, owed (DistributionData d' bits) = owed (DistributionData d bits)) /\
  (forall i bits, item i (DistributionData d' bits) = item i (DistributionData d bits)).
Proof.
  intros Hw Hi Ha H. unfold record_collection, Dist.checked_set_integration_collected in H. res_inv.
  destruct (Dist.BITMAP_BITS <=? index); [done|]. simplify_eq. split_and!; [|done|done|done].
  unfold Dist.BITMAP_BITS in *. revert Hw. wf_struct.
Qed.

Lemma collected_nonneg d0 d1 a0 a1 v :
  unpack_token_account d0 = Ok a0 -> unpack_token_account d1 = Ok a1 ->
  arith_sub 64 (token_amount a1) (token_amount a0) = Ok v -> 0 <= v.
Proof.
  intros H0%unpack_token_account_u64 H1%unpack_token_account_u64 H.
  eapply fits_nonneg, (arith_sub_fits 64); [lia|apply H0|exact H1|exact H].
Qed.

Lemma collect_keeps accounts : keeps true all_items (try_collect_integration_rewards accounts).
Proof.
  start_keeps. unfold try_collect_integration_rewards, collect_integration_checks. ksteps. guards.
  wf_facts. subst. 
  assert (0 <= Integ.registration_index x1) by nonneg.
  match goal with
  | H0 : unpack_token_account _ = Ok ?a0, H1 : unpack_token_account _ = Ok ?a1,
    H : arith_sub 64 (token_amount ?a1) (token_amount ?a0) = Ok ?v |- _ =>
      pose proof (collected_nonneg _ _ _ _ _ H0 H1 H) end.
  match goal with
  | W : wf_data (DistributionData _ _), Hi : 0 <= Integ.registration_index _,
    Ha : 0 <= ?v, H : record_collection _ _ ?v = Ok _ |- _ =>
      destruct (record_collection_wf _ _ _ _ (proj1 W) Hi Ha H) as (? & ? & Howed & Hitem) end.
  keep; [done|eapply op_collect; [| |eassumption]; [split; assumption|assumption]|by left|].
  intros _. eapply owed_at; [view_read|]. by rewrite Howed.
Qed.

Lemma initialize_integration_post accounts :
  Forall (fun info => fits 256 (key info)) accounts ->
  wlp (try_initialize_rewards_integration accounts)
    (fun _ s => kept true (integration_even accounts) L (st_ledger s) /\
       appended Integrations (keys_at accounts [4; 5]%nat) L (st_ledger s))
    (MkSt L 0 [] [] None []).
Proof.
  intros Hkeys. unfold try_initialize_rewards_integration. ksteps. guards.
  match goal with |- kept _ ?e _ _ /\ _ => set (even := e) in * end.
  assert (data (acct L (key a4)) = JournalData x rest1) as HL.
  { match goal with H : foreign_step L L0 |- _ =>
      rewrite <- (foreign_data L L0 (key a4) Hinv H); [done|right; by rewrite Hdata0] end. }
  split; [|append (key a3) (key a4); [done|cbn; unfold umax; lia]]; cbn [st_ledger].
  assert (kept true even L L0) as Hk0 by keep. pose proof (kept_good _ _ _ _ Hk0) as Hg0.
  pose proof (ledger_wf_data _ _ _ (inv_wf _ (proj1 Hg0)) Hdata0) as Hjw.
  destruct (inv_journal _ _ _ _ (proj1 Hg0) Hdata0) as [_ Hn].
  assert (0 <= Jrnl.integrations_count x) by nonneg.
  assert (fits 256 (key a1)) by (do 2 apply Forall_inv_tail in Hkeys; by apply Forall_inv in Hkeys).
  rewrite set_data_comm by done.
  assert (kept true even L (set_data L0 (key a4) (JournalData
    (x <| Jrnl.integrations_count := Jrnl.integrations_count x + 1 |>) rest1))) as Hk1 by keep.
  apply kept_set; [exact Hk1|intros Hg1|owed_same|item_same].
  eapply good_new; [exact Hg1|by ledger|by ledger| | |new_address| |].
  - split; [wf_struct|apply tail_bytes].
  - ledger. intros ?. cbn [rd_data_len data_len RdData_account]. rewrite tail_len.
    cbv [data_end size_of zc_integration].
    unfold DISCRIMINATOR_LEN, SIZE_RewardsIntegration, MAX_PERMITTED_DATA_LENGTH in *. lia.
  - intros Hi. cbn. erewrite (proj2 (inv_journal _ (key a4) _ _ Hi ltac:(by ledger))). cbn. lia.
  - intros _ r0 rest0 k' r' rest' [= <- _] E'. cbn.
    destruct (decide (key a4 = k')) as [<-|Hne']; [by rewrite data_set_data_eq in E'|].
    rewrite data_set_data_ne in E' by done.
    pose proof (inv_integration _ _ _ _ (proj1 Hg0) E'). lia.
Qed.

Lemma initialize_integration_keeps accounts :
  Forall (fun info => fits 256 (key info)) accounts ->
  keeps true (integration_even accounts) (try_initialize_rewards_integration accounts).
Proof. intros Hkeys u s E. apply (initialize_integration_post _ Hkeys u s E). Qed.

Lemma checked_compute_ok p rate c :
  cbr_ok p -> Cbr.checked_compute p = Ok (Some rate, c) ->
  cbr_inv c /\ valid32 rate /\ fits 32 rate.
Proof.
  intros [H0|Hinv'] H.
  - unfold Cbr.checked_compute, Cbr.next_burn_rate, UnitShare.MIN in H. by rewrite H0 in H.
  - destruct (checked_compute_inv p Hinv') as (p' & E & Hp & _). rewrite E in H. simplify_eq.
    split; [done|]. destruct Hinv'. unfold valid32, fits, UnitShare32.MAX in *. lia.
Qed.

Lemma checked_relay_lamports p n :
  Config.checked_distribute_rewards_relay_lamports p = Some n ->
  n = distribute_rewards_lamports (Config.relay_parameters p).
Proof. unfold Config.checked_distribute_rewards_relay_lamports. by case_match; intros [= <-]. Qed.

Lemma u32_try_from_i64_fits x y : u32_try_from_i64 x = Some y -> fits 32 y.
Proof. by intros [-> ?]%u32_try_from_i64_Some. Qed.

Lemma config_ok_after p c t e :
  cbr_inv c -> config_ok p ->
  config_ok (p <| Config.last_initialized_distribution_timestamp := t |>
               <| Config.distribution_parameters :=
                    (Config.distribution_parameters p) <| community_burn_rate_parameters := c |> |>
               <| Config.next_completed_dz_epoch := e |>).
Proof. intros Hc Hok. unfold config_ok in *. cbn. unfold cbr_ok. tauto. Qed.

(** The journal and its token account are read after the CPIs that create the
    distribution; they still are the ones derived. *)
Definition journal_read (accounts : list AccountInfo) : Prop :=
  exists m7 m8, accounts !! 7%nat = Some m7 /\ accounts !! 8%nat = Some m8 /\
    key m7 = Jrnl.find_address.1 /\ key m8 = (find_2z_token_pda_address Jrnl.find_address.1).1.

Lemma journal_derived L1 k j rest t :
  ledger_inv L1 -> data (acct L1 k) = JournalData j rest ->
  checked_2z_token_pda_address k (Jrnl.token_2z_pda_bump_seed j) = Some t ->
  k = Jrnl.find_address.1 /\ t = (find_2z_token_pda_address Jrnl.find_address.1).1.
Proof.
  intros Hinv1 E. destruct (inv_journal _ _ _ _ Hinv1 E) as [-> _].
  destruct (inv_journal_seeds _ _ _ _ Hinv1 E) as [_ Ht]. by intros ->%token_pda_found.
Qed.

Lemma initialize_distribution_post accounts :
  wlp (try_initialize_distribution accounts)
    (fun _ s => kept true (distribution_even accounts) L (st_ledger s) /\
       appended Distributions (keys_at accounts [0; 3]%nat) L (st_ledger s) /\ journal_read accounts)
    (MkSt L 0 [] [] None []).
Proof.
  unfold try_initialize_distribution, initialize_distribution_config. ksteps.
  unfold initialize_distribution_accounts.
  cbn [nd_current_timestamp nd_calculation_grace_period_seconds nd_fee_params
       nd_community_burn_rate nd_relay_lamports nd_payer_info nd_info nd_dz_epoch nd_key nd_bump].
  ksteps. unfold initialize_distribution_journal. ksteps. guards. subst.
  match goal with H : Config.checked_distribute_rewards_relay_lamports _ = Some _ |- _ =>
    apply checked_relay_lamports in H as -> end.
  repeat match goal with H : u32_try_from_i64 _ = Some _ |- _ => apply u32_try_from_i64_fits in H end.
  wf_facts.
  match goal with H : Cbr.checked_compute _ = Ok _ |- _ =>
    apply checked_compute_ok in H as (Hcbr & Hrate & Hratefit); [|apply (inv_config _ _ _ _ Hinv Hdata)] end.
  pose proof (cbr_inv_fits _ Hcbr) as Hcfit. unfold cbr_fields, fields_fit in Hcfit. split_fields Hcfit.
  match goal with |- wlp _ (fun _ _ => kept _ ?e _ _ /\ _) _ => set (even := e) in * end.
  assert (kept true even L L1) as Hk1.
  { keep; [exact (config_ok_after p c _ _ Hcbr)|apply next_epoch_le; [fit|done]]. }
  pose proof (kept_good _ _ _ _ Hk1) as Hg1.
  pose proof (ledger_wf_data _ _ _ (inv_wf _ (proj1 Hg1)) Hdata0) as Hjw.
  match goal with |- wlp _ _ (MkSt ?L' _ _ _ _ _) => assert (kept true even L L') as Hg end.
  { apply kept_set; [exact Hk1|intros _|owed_same|item_same].
    destruct (inv_journal _ _ _ _ (proj1 Hg1) Hdata0) as [_ Hn].
    eapply good_new; [exact Hg1|own|eassumption|split; [wf_struct|apply tail_bytes]
      |intros ?; cbn [rd_data_len data_len RdData_account]; rewrite tail_len|new_address| |done].
    - cbv [data_end size_of zc_distribution].
      unfold DISCRIMINATOR_LEN, SIZE_Distribution, MAX_PERMITTED_DATA_LENGTH in *. lia.
    - intros _. split_and!; [|rewrite Hn; apply Z.le_refl|].
      2: { split; cbn; new_seed. }
      apply fresh_ok; [by split_and!|done|apply tail_bytes|].
      apply new_tail_max; [|done]. apply (ledger_wf_acct _ _ (inv_wf _ (proj1 Hg1))). }
  match goal with |- wlp _ (fun _ _ => _ /\ _ /\ journal_read ?l) _ => assert (journal_read l) as Hread end.
  { do 2 eexists. split; [done|]. split; [done|]. exact (journal_derived _ _ _ _ _ (proj1 Hg1) Hdata0 Hpda0). }
  assert (key a2 <> key a) as Hnew.
  { intros E'. match goal with H : has_zero_discriminator (data (acct L1 _)) = true |- _ =>
      rewrite E' in H; revert H end. by item_read. }
  match goal with |- wlp _ _ (MkSt (set_data _ _ (DistributionData ?d _)) _ _ _ _ _) =>
    assert (Dist.dz_epoch d = Config.next_completed_dz_epoch p) as Hepoch by done;
    revert Hg Hepoch; generalize d; intros new Hg Hepoch end.
  destruct (unpack_token_account _) as [ata|e|] eqn:Ea; [|step|apply wlp_panic].
  1: pose proof (unpack_token_account_u64 _ _ Ea); ksteps.
  all: split_and!; [first [exact Hg | keep; apply op_prepaid]|append (key a2) (key a)|exact Hread];
    [by f_equal|done].
Qed.

Lemma initialize_distribution_keeps accounts : keeps true (distribution_even accounts) (try_initialize_distribution accounts).
Proof. intros u s E. apply (initialize_distribution_post _ u s E). Qed.
End Preservation.
