(* ===== verification/Instruction.v ===== *)
(** * Instruction data of the revenue-distribution program

    [instruction/mod.rs]: the instruction enum and its Borsh format, as a
    [Codec]: the selector (the first 8 bytes of the SHA-256 digest of a name),
    then the fields. *)

From Stdlib Require Import ZArith Lia String.
From S2P Require Import Prelude Types BurnRate Runtime Borsh Selectors State RdAccounts RdConfig RdRewards.

(** ** The instruction enum *)
Inductive RevenueDistributionInstructionData `{SvmHash} : Type :=
  | InitializeProgram
  | MigrateProgramAccounts
  | SetAdmin (admin_key : Pubkey)
  | ConfigureProgram (setting : ProgramConfiguration)
  | InitializeJournal
  | InitializeDistribution
  | ConfigureDistributionDebt (total_validators total_debt : Z) (merkle_root : Hash)
  | FinalizeDistributionDebt
  | ConfigureDistributionRewards (total_contributors : Z) (merkle_root : Hash)
  | FinalizeDistributionRewards
  | DistributeRewards (unit_share economic_burn_rate : Z) (proof : MerkleProof)
  | InitializeContributorRewards (service_key : Pubkey)
  | SetRewardsManager (rewards_manager_key : Pubkey)
  | ConfigureContributorRewards (setting : ContributorRewardsConfiguration)
  | VerifyDistributionMerkleRoot (kind : DistributionMerkleRootKind) (proof : MerkleProof)
  | InitializeSolanaValidatorDeposit (node_id : Pubkey)
  | PaySolanaValidatorDebt (amount : Z) (proof : MerkleProof)
  | EnableSolanaValidatorDebtWriteOff
  | WriteOffSolanaValidatorDebt (amount : Z) (proof : MerkleProof)
  | InitializeSwapDestination
  | SweepDistributionTokens
  | WithdrawSol (amount : Z)
  | SetDistributionEconomicBurnRate (burn_rate_value : Z)
  | WithdrawSolanaValidatorDeposit
  | InitializeRewardsIntegration
  | CollectIntegrationRewards.

(** The Borsh format of a Merkle proof is [svm_hash]'s. *)
Class ProofCodec `{SvmHash} : Type := proof_codec : Codec MerkleProof.

#[local] Arguments enc : simpl never.
#[local] Arguments dec : simpl never.

(** ** Settings *)
Module SettingCodec.
Import Setting.

Definition fees : Codec (Z * Z * Z * Z * Z * list Z) :=
  pair (pair (pair (pair (pair u16 u16) u16) u16) u32) (byte_array 28).
Definition burn_rate : Codec (Z * Z * Z * option Z) :=
  pair (pair (pair u32 u32) u32) (optional u32).
(** The two one-constructor enums: a zero tag. *)
Definition flag_enc (f : ProgramFlagConfiguration) : list Z :=
  match f with IsPaused b => 0 :: enc boolean b end.

Definition setting_enc (s : ProgramConfiguration) : list Z :=
  match s with
  | Flag f => 0 :: flag_enc f
  | DebtAccountant k => 1 :: enc pubkey k
  | RewardsAccountant k => 2 :: enc pubkey k
  | ContributorManager k => 3 :: enc pubkey k
  | PlaceholderKey k => 4 :: enc pubkey k
  | Sol2zSwapProgram k => 5 :: enc pubkey k
  | SolanaValidatorFeeParameters a b c d e unused => 6 :: enc fees (a, b, c, d, e, unused)
  | CalculationGracePeriodMinutes m => 7 :: enc u16 m
  | CommunityBurnRateParameters l i t r => 8 :: enc burn_rate (l, i, t, r)
  | PlaceholderRelayLamports n => 9 :: enc u32 n
  | DistributeRewardsRelayLamports n => 10 :: enc u32 n
  | MinimumEpochDurationToFinalizeRewards n => 11 :: enc u8 n
  | DistributionInitializationGracePeriodMinutes m => 12 :: enc u16 m
  | FeatureActivation SolanaValidatorDebtWriteOff e => 13 :: 0 :: enc u64 e
  end.

Definition setting_valid (s : ProgramConfiguration) : Prop :=
  match s with
  | Flag _ => True
  | DebtAccountant k | RewardsAccountant k | ContributorManager k | PlaceholderKey k
  | Sol2zSwapProgram k => valid pubkey k
  | SolanaValidatorFeeParameters a b c d e unused => valid fees (a, b, c, d, e, unused)
  | CalculationGracePeriodMinutes m => valid u16 m
  | CommunityBurnRateParameters l i t r => valid burn_rate (l, i, t, r)
  | PlaceholderRelayLamports n => valid u32 n
  | DistributeRewardsRelayLamports n => valid u32 n
  | MinimumEpochDurationToFinalizeRewards n => valid u8 n
  | DistributionInitializationGracePeriodMinutes m => valid u16 m
  | FeatureActivation _ e => valid u64 e
  end.

Definition zero_tag {A} (k : list Z -> option A) (bs : list Z) : option A :=
  match bs with 0 :: bs => k bs | _ => None end.

Definition setting_dec (bs : list Z) : option (ProgramConfiguration * list Z) :=
  match bs with
  | 0 :: bs => zero_tag (payload boolean (fun b => Flag (IsPaused b))) bs
  | 1 :: bs => payload pubkey DebtAccountant bs
  | 2 :: bs => payload pubkey RewardsAccountant bs
  | 3 :: bs => payload pubkey ContributorManager bs
  | 4 :: bs => payload pubkey PlaceholderKey bs
  | 5 :: bs => payload pubkey Sol2zSwapProgram bs
  | 6 :: bs =>
      payload fees (fun '(a, b, c, d, e, unused) =>
        SolanaValidatorFeeParameters a b c d e unused) bs
  | 7 :: bs => payload u16 CalculationGracePeriodMinutes bs
  | 8 :: bs => payload burn_rate (fun '(l, i, t, r) => CommunityBurnRateParameters l i t r) bs
  | 9 :: bs => payload u32 PlaceholderRelayLamports bs
  | 10 :: bs => payload u32 DistributeRewardsRelayLamports bs
  | 11 :: bs => payload u8 MinimumEpochDurationToFinalizeRewards bs
  | 12 :: bs => payload u16 DistributionInitializationGracePeriodMinutes bs
  | 13 :: bs => zero_tag (payload u64 (FeatureActivation SolanaValidatorDebtWriteOff)) bs
  | _ => None
  end.

Lemma setting_dec_enc s rest : setting_valid s -> setting_dec (setting_enc s ++ rest) = Some (s, rest).
Proof.
  destruct s as [[]| | | | | | | | | | | | |[]]; intros Hs; cbn;
    by rewrite payload_enc.
Qed.

Lemma zero_tag_inv {A} (k : list Z -> option A) bs a :
  zero_tag k bs = Some a -> exists bs', bs = 0 :: bs' /\ k bs' = Some a.
Proof. destruct bs as [|[| |] bs]; naive_solver. Qed.

Lemma setting_enc_dec bs s rest :
  bytes_ok bs -> setting_dec bs = Some (s, rest) -> setting_valid s /\ bs = setting_enc s ++ rest.
Proof.
  intros Hb H. destruct bs as [|t bs]; [done|]. apply Forall_cons in Hb as [_ Hb].
  unfold setting_dec in H. repeat (case_match; try discriminate H);
    try (apply zero_tag_inv in H as (? & -> & H); apply Forall_cons in Hb as [_ Hb]);
    payload_solve.
Qed.
End SettingCodec.

Definition program_configuration : Codec ProgramConfiguration :=
  MkCodec SettingCodec.setting_enc SettingCodec.setting_dec SettingCodec.setting_valid
    SettingCodec.setting_dec_enc SettingCodec.setting_enc_dec.

(** ** Contributor settings, Merkle leaves and root kinds *)
Definition contributor_enc (s : ContributorRewardsConfiguration) : list Z :=
  match s with
  | Recipients l => 0 :: enc (vec (pair pubkey u16)) l
  | IsSetRewardsManagerBlocked b => 1 :: enc boolean b
  end.
Definition contributor_dec (bs : list Z) : option (ContributorRewardsConfiguration * list Z) :=
  match bs with
  | 0 :: bs => payload (vec (pair pubkey u16)) Recipients bs
  | 1 :: bs => payload boolean IsSetRewardsManagerBlocked bs
  | _ => None
  end.
Definition contributor_valid (s : ContributorRewardsConfiguration) : Prop :=
  match s with
  | Recipients l => valid (vec (pair pubkey u16)) l
  | IsSetRewardsManagerBlocked _ => True
  end.

Program Definition contributor_configuration : Codec ContributorRewardsConfiguration :=
  MkCodec contributor_enc contributor_dec contributor_valid _ _.
Next Obligation. intros [] rest Hs; cbn; by rewrite payload_enc. Qed.
Next Obligation.
  intros bs s rest Hb H. destruct bs as [|t bs]; [done|]. apply Forall_cons in Hb as [_ Hb].
  unfold contributor_dec in H. repeat (case_match; try discriminate H); payload_solve.
Qed.

Program Definition debt_codec : Codec SolanaValidatorDebt :=
  iso (pair pubkey u64) (fun '(k, a) => MkSolanaValidatorDebt k a)
    (fun d => (debt_node_id d, debt_amount d)) _ _.
Next Obligation. by intros []. Qed.
Next Obligation. by intros []. Qed.

Program Definition reward_codec : Codec RewardShare :=
  iso (pair (pair pubkey u32) (byte_array 4)) (fun '(k, s, b) => MkRewardShare k s b)
    (fun r => (contributor_key r, unit_share r, remaining_bytes r)) _ _.
Next Obligation. by intros []. Qed.
Next Obligation. by intros [[]]. Qed.

Definition kind_enc (k : DistributionMerkleRootKind) : list Z :=
  match k with
  | KindSolanaValidatorDebt d => 0 :: enc debt_codec d
  | KindRewardShare r => 1 :: enc reward_codec r
  end.
Definition kind_dec (bs : list Z) : option (DistributionMerkleRootKind * list Z) :=
  match bs with
  | 0 :: bs => payload debt_codec KindSolanaValidatorDebt bs
  | 1 :: bs => payload reward_codec KindRewardShare bs
  | _ => None
  end.
Definition kind_valid (k : DistributionMerkleRootKind) : Prop :=
  match k with
  | KindSolanaValidatorDebt d => valid debt_codec d
  | KindRewardShare r => valid reward_codec r
  end.

Program Definition merkle_root_kind : Codec DistributionMerkleRootKind :=
  MkCodec kind_enc kind_dec kind_valid _ _.
Next Obligation. intros [] rest Hs; cbn; by rewrite payload_enc. Qed.
Next Obligation.
  intros bs s rest Hb H. destruct bs as [|t bs]; [done|]. apply Forall_cons in Hb as [_ Hb].
  unfold kind_dec in H. repeat (case_match; try discriminate H); payload_solve.
Qed.

(** ** The instruction data *)
Section InstructionCodec.
Context `{ProofCodec}.
Abbreviation Ix := RevenueDistributionInstructionData.

Definition selector_of (ix : Ix) : Selector :=
  match ix with
  | InitializeProgram => INITIALIZE_PROGRAM
  | MigrateProgramAccounts => MIGRATE_PROGRAM_ACCOUNTS
  | SetAdmin _ => SET_ADMIN
  | ConfigureProgram _ => CONFIGURE_PROGRAM
  | InitializeJournal => INITIALIZE_JOURNAL
  | InitializeDistribution => INITIALIZE_DISTRIBUTION
  | ConfigureDistributionDebt _ _ _ => CONFIGURE_DISTRIBUTION_DEBT
  | FinalizeDistributionDebt => FINALIZE_DISTRIBUTION_DEBT
  | ConfigureDistributionRewards _ _ => CONFIGURE_DISTRIBUTION_REWARDS
  | FinalizeDistributionRewards => FINALIZE_DISTRIBUTION_REWARDS
  | DistributeRewards _ _ _ => DISTRIBUTE_REWARDS
  | InitializeContributorRewards _ => INITIALIZE_CONTRIBUTOR_REWARDS
  | SetRewardsManager _ => SET_REWARDS_MANAGER
  | ConfigureContributorRewards _ => CONFIGURE_CONTRIBUTOR_REWARDS
  | VerifyDistributionMerkleRoot _ _ => VERIFY_DISTRIBUTION_MERKLE_ROOT
  | InitializeSolanaValidatorDeposit _ => INITIALIZE_SOLANA_VALIDATOR_DEPOSIT
  | PaySolanaValidatorDebt _ _ => PAY_SOLANA_VALIDATOR_DEBT
  | EnableSolanaValidatorDebtWriteOff => ENABLE_SOLANA_VALIDATOR_DEBT_WRITE_OFF
  | WriteOffSolanaValidatorDebt _ _ => WRITE_OFF_SOLANA_VALIDATOR_DEBT
  | InitializeSwapDestination => INITIALIZE_SWAP_DESTINATION
  | SweepDistributionTokens => SWEEP_DISTRIBUTION_TOKENS_V1
  | WithdrawSol _ => WITHDRAW_SOL
  | SetDistributionEconomicBurnRate _ => SET_DISTRIBUTION_ECONOMIC_BURN_RATE
  | WithdrawSolanaValidatorDeposit => WITHDRAW_SOLANA_VALIDATOR_DEPOSIT
  | InitializeRewardsIntegration => INITIALIZE_REWARDS_INTEGRATION
  | CollectIntegrationRewards => COLLECT_INTEGRATION_REWARDS
  end.

Definition u32_u32_proof : Codec (Z * Z * MerkleProof) := pair (pair u32 u32) proof_codec.
Definition u32_u64_hash : Codec (Z * Z * Hash) := pair (pair u32 u64) pubkey.
Definition u32_hash : Codec (Z * Hash) := pair u32 pubkey.
Definition kind_proof : Codec (DistributionMerkleRootKind * MerkleProof) :=
  pair merkle_root_kind proof_codec.
Definition u64_proof : Codec (Z * MerkleProof) := pair u64 proof_codec.

Definition fields_enc (ix : Ix) : list Z :=
  match ix with
  | SetAdmin k => enc pubkey k
  | ConfigureProgram s => enc program_configuration s
  | ConfigureDistributionDebt n debt root => enc u32_u64_hash (n, debt, root)
  | ConfigureDistributionRewards n root => enc u32_hash (n, root)
  | DistributeRewards share rate proof => enc u32_u32_proof (share, rate, proof)
  | InitializeContributorRewards k => enc pubkey k
  | SetRewardsManager k => enc pubkey k
  | ConfigureContributorRewards s => enc contributor_configuration s
  | VerifyDistributionMerkleRoot kind proof => enc kind_proof (kind, proof)
  | InitializeSolanaValidatorDeposit k => enc pubkey k
  | PaySolanaValidatorDebt amount proof => enc u64_proof (amount, proof)
  | WriteOffSolanaValidatorDebt amount proof => enc u64_proof (amount, proof)
  | WithdrawSol amount => enc u64 amount
  | SetDistributionEconomicBurnRate rate => enc u32 rate
  | _ => []
  end.

(** [BorshSerialize::serialize]. *)
Definition instruction_enc (ix : Ix) : list Z := selector_bytes (selector_of ix) ++ fields_enc ix.

Definition instruction_valid (ix : Ix) : Prop :=
  match ix with
  | SetAdmin k => valid pubkey k
  | ConfigureProgram s => valid program_configuration s
  | ConfigureDistributionDebt n debt root => valid u32_u64_hash (n, debt, root)
  | ConfigureDistributionRewards n root => valid u32_hash (n, root)
  | DistributeRewards share rate proof => valid u32_u32_proof (share, rate, proof)
  | InitializeContributorRewards k => valid pubkey k
  | SetRewardsManager k => valid pubkey k
  | ConfigureContributorRewards s => valid contributor_configuration s
  | VerifyDistributionMerkleRoot kind proof => valid kind_proof (kind, proof)
  | InitializeSolanaValidatorDeposit k => valid pubkey k
  | PaySolanaValidatorDebt amount proof => valid u64_proof (amount, proof)
  | WriteOffSolanaValidatorDebt amount proof => valid u64_proof (amount, proof)
  | WithdrawSol amount => valid u64 amount
  | SetDistributionEconomicBurnRate rate => valid u32 rate
  | _ => True
  end.

Definition fields_dec (s : Selector) (bs : list Z) : option (Ix * list Z) :=
  match s with
  | INITIALIZE_PROGRAM => Some (InitializeProgram, bs)
  | MIGRATE_PROGRAM_ACCOUNTS => Some (MigrateProgramAccounts, bs)
  | SET_ADMIN => payload pubkey SetAdmin bs
  | CONFIGURE_PROGRAM => payload program_configuration ConfigureProgram bs
  | INITIALIZE_JOURNAL => Some (InitializeJournal, bs)
  | INITIALIZE_DISTRIBUTION => Some (InitializeDistribution, bs)
  | CONFIGURE_DISTRIBUTION_DEBT =>
      payload u32_u64_hash (fun '(n, debt, root) => ConfigureDistributionDebt n debt root) bs
  | FINALIZE_DISTRIBUTION_DEBT => Some (FinalizeDistributionDebt, bs)
  | CONFIGURE_DISTRIBUTION_REWARDS =>
      payload u32_hash (fun '(n, root) => ConfigureDistributionRewards n root) bs
  | FINALIZE_DISTRIBUTION_REWARDS => Some (FinalizeDistributionRewards, bs)
  | DISTRIBUTE_REWARDS =>
      payload u32_u32_proof (fun '(share, rate, proof) => DistributeRewards share rate proof) bs
  | INITIALIZE_CONTRIBUTOR_REWARDS => payload pubkey InitializeContributorRewards bs
  | SET_REWARDS_MANAGER => payload pubkey SetRewardsManager bs
  | CONFIGURE_CONTRIBUTOR_REWARDS =>
      payload contributor_configuration ConfigureContributorRewards bs
  | VERIFY_DISTRIBUTION_MERKLE_ROOT =>
      payload kind_proof (fun '(kind, proof) => VerifyDistributionMerkleRoot kind proof) bs
  | INITIALIZE_SOLANA_VALIDATOR_DEPOSIT => payload pubkey InitializeSolanaValidatorDeposit bs
  | PAY_SOLANA_VALIDATOR_DEBT =>
      payload u64_proof (fun '(amount, proof) => PaySolanaValidatorDebt amount proof) bs
  | ENABLE_SOLANA_VALIDATOR_DEBT_WRITE_OFF => Some (EnableSolanaValidatorDebtWriteOff, bs)
  | WRITE_OFF_SOLANA_VALIDATOR_DEBT =>
      payload u64_proof (fun '(amount, proof) => WriteOffSolanaValidatorDebt amount proof) bs
  | INITIALIZE_SWAP_DESTINATION => Some (InitializeSwapDestination, bs)
  | SWEEP_DISTRIBUTION_TOKENS_V1 => Some (SweepDistributionTokens, bs)
  | WITHDRAW_SOL => payload u64 WithdrawSol bs
  | SET_DISTRIBUTION_ECONOMIC_BURN_RATE => payload u32 SetDistributionEconomicBurnRate bs
  | WITHDRAW_SOLANA_VALIDATOR_DEPOSIT => Some (WithdrawSolanaValidatorDeposit, bs)
  | INITIALIZE_REWARDS_INTEGRATION => Some (InitializeRewardsIntegration, bs)
  | COLLECT_INTEGRATION_REWARDS => Some (CollectIntegrationRewards, bs)
  end.

(** [BorshDeserialize::deserialize_reader]. *)
Definition instruction_dec (bs : list Z) : option (Ix * list Z) :=
  '(sel, bs) ← take_bytes 8 bs;
  s ← find_selector sel;
  fields_dec s bs.

Lemma fields_dec_enc ix rest :
  instruction_valid ix -> fields_dec (selector_of ix) (fields_enc ix ++ rest) = Some (ix, rest).
Proof. destruct ix; intros Hv; cbn -[u32_u64_hash u32_hash u32_u32_proof kind_proof u64_proof];
  try reflexivity; by rewrite payload_enc. Qed.

Lemma fields_enc_dec s bs ix rest :
  bytes_ok bs -> fields_dec s bs = Some (ix, rest) ->
  instruction_valid ix /\ selector_of ix = s /\ bs = fields_enc ix ++ rest.
Proof. intros Hb Hd. destruct s; unfold fields_dec in Hd; payload_solve. Qed.

Lemma instruction_dec_enc ix rest :
  instruction_valid ix -> instruction_dec (instruction_enc ix ++ rest) = Some (ix, rest).
Proof.
  exact (selected_dec_enc find_selector selector_bytes 8 selector_of fields_enc fields_dec
    instruction_valid find_selector_bytes length_selector_bytes fields_dec_enc ix rest).
Qed.

Lemma instruction_enc_dec bs ix rest :
  bytes_ok bs -> instruction_dec bs = Some (ix, rest) ->
  instruction_valid ix /\ bs = instruction_enc ix ++ rest.
Proof.
  exact (selected_enc_dec find_selector selector_bytes 8 selector_of fields_enc fields_dec
    instruction_valid find_selector_inv fields_enc_dec bs ix rest).
Qed.

Definition instruction_data : Codec Ix :=
  MkCodec instruction_enc instruction_dec instruction_valid instruction_dec_enc instruction_enc_dec.

(** C40: the wire format of the instruction data is a bijection between
    well-formed instructions and the byte strings the program accepts: every
    instruction reads back as itself, whatever [try_from_slice] accepts is the
    canonical encoding of what it returns, and trailing bytes are refused. *)
Theorem instruction_data_roundtrip (ix : Ix) (bs : list Z) :
  instruction_valid ix -> bytes_ok bs ->
  try_from_slice instruction_data (instruction_enc ix) = Some ix /\
  (try_from_slice instruction_data bs = Some ix -> bs = instruction_enc ix) /\
  (bs <> [] -> try_from_slice instruction_data (instruction_enc ix ++ bs) = None).
Proof.
  intros Hv Hb. split_and!.
  - by apply (try_from_slice_enc instruction_data).
  - intros H'. by apply (try_from_slice_canonical instruction_data) in H' as [_ ->].
  - intros Hn. destruct bs as [|b bs]; [done|]. by apply (try_from_slice_trailing instruction_data).
Qed.
End InstructionCodec.
