(* ===== verification/Program.v ===== *)
(** * The revenue-distribution program

    The entrypoint [try_process_instruction] of [processor.rs]: decoding the
    instruction data and dispatching to the handlers. *)

From Stdlib Require Import ZArith Lia String.
From S2P Require Import Prelude Types BurnRate Runtime ProgramTools Borsh State RdAccounts.
From S2P Require Import Rules Steps.
From S2P Require Import RdConfig RdDistribution RdRewards RdDebt RdSwap RdIntegration Instruction.

Section Program.
Context `{R : Runtime RdData} `{!ProofCodec}.

Definition process (ix : RevenueDistributionInstructionData) (accounts : list AccountInfo)
    : M RdData unit :=
  match ix with
  | InitializeProgram => try_initialize_program accounts
  | MigrateProgramAccounts => try_migrate_program_accounts accounts
  | SetAdmin admin_key => try_set_admin accounts admin_key
  | ConfigureProgram setting => try_configure_program accounts setting
  | InitializeJournal => try_initialize_journal accounts
  | InitializeDistribution => try_initialize_distribution accounts
  | ConfigureDistributionDebt total_validators total_debt merkle_root =>
      try_configure_distribution_debt accounts total_validators total_debt merkle_root
  | FinalizeDistributionDebt => try_finalize_distribution_debt accounts
  | ConfigureDistributionRewards total_contributors merkle_root =>
      try_configure_distribution_rewards accounts total_contributors merkle_root
  | FinalizeDistributionRewards => try_finalize_distribution_rewards accounts
  | DistributeRewards unit_share economic_burn_rate proof =>
      try_distribute_rewards accounts unit_share economic_burn_rate proof
  | InitializeContributorRewards service_key =>
      try_initialize_contributor_rewards accounts service_key
  | SetRewardsManager rewards_manager_key => try_set_rewards_manager accounts rewards_manager_key
  | ConfigureContributorRewards setting => try_configure_contributor_rewards accounts setting
  | VerifyDistributionMerkleRoot kind proof =>
      try_verify_distribution_merkle_root accounts kind proof
  | InitializeSolanaValidatorDeposit node_id =>
      try_initialize_solana_validator_deposit accounts node_id
  | PaySolanaValidatorDebt amount proof => try_pay_solana_validator_debt accounts amount proof
  | EnableSolanaValidatorDebtWriteOff => try_enable_solana_validator_debt_write_off accounts
  | WriteOffSolanaValidatorDebt amount proof =>
      try_write_off_solana_validator_debt accounts amount proof
  | InitializeSwapDestination => try_initialize_swap_destination accounts
  | SweepDistributionTokens => try_sweep_distribution_tokens accounts
  | WithdrawSol amount => try_withdraw_sol accounts amount
  | SetDistributionEconomicBurnRate burn_rate_value =>
      try_set_distribution_economic_burn_rate accounts burn_rate_value
  | WithdrawSolanaValidatorDeposit => try_withdraw_solana_validator_deposit accounts
  | InitializeRewardsIntegration => try_initialize_rewards_integration accounts
  | CollectIntegrationRewards => try_collect_integration_rewards accounts
  end.

Definition try_process_instruction (program_id : Pubkey) (accounts : list AccountInfo)
    (ix_bytes : list Z) : M RdData unit :=
  ensure (program_id =? ID) IncorrectProgramId;;
  ix ← lift (ok_or (try_from_slice instruction_data ix_bytes) InvalidInstructionData);
  process ix accounts.
End Program.

(** ** Theorems *)
Section Theorems.
Context `{R : Runtime RdData} `{!ProofCodec}.

(** The authority an instruction requires, as account 1 next to the config. *)
Definition required_authority (ix : RevenueDistributionInstructionData) : option Authority :=
  match ix with
  | ConfigureProgram _ | InitializeRewardsIntegration => Some Admin
  | InitializeDistribution | ConfigureDistributionDebt _ _ _ | FinalizeDistributionDebt
  | WriteOffSolanaValidatorDebt _ _ => Some DebtAccountant
  | ConfigureDistributionRewards _ _ | SetDistributionEconomicBurnRate _ => Some RewardsAccountant
  | SetRewardsManager _ => Some ContributorManager
  | _ => None
  end.

Lemma wlp_const {A} (m : M RdData A) (Q : A -> St RdData -> Prop) s :
  (forall a s', Q a s') -> wlp m Q s.
Proof. intros HQ a s' _. apply HQ. Qed.

(** What a passed authority check says of the accounts. *)
Definition authorized (L : Ledger RdData) (a : Authority) (accounts : list AccountInfo) : Prop :=
  exists m0 m1 rest p prest,
    accounts = m0 :: m1 :: rest /\ data (acct L (key m0)) = ConfigData p prest /\
    owner (acct L (key m0)) = ID /\ is_signer m1 = true /\ key m1 = authority_key a p.

Lemma wlp_authorized a accounts L i b r t (Q : Pubkey -> St RdData -> Prop) :
  (authorized L a accounts -> forall k s', Q k s') ->
  wlp (verified_program_authority a) Q (MkSt L i accounts b r t).
Proof.
  intros HQ. destruct accounts as [|m0 [|m1 rest]]; astep.
  apply HQ. exists m0, m1, rest, p, rest0. by conjs.
Qed.

Lemma wlp_authorized_mut a accounts L i b r t (Q : Pubkey -> St RdData -> Prop) :
  (authorized L a accounts -> forall k s', Q k s') ->
  wlp (verified_program_authority_mut a) Q (MkSt L i accounts b r t).
Proof.
  intros HQ. destruct accounts as [|m0 [|m1 rest]]; astep.
  apply HQ. exists m0, m1, rest, p, rest0. by conjs.
Qed.

(** C20: privileged instructions are guarded.  One that requires an authority
    only succeeds when its first account is a config of this program and its
    second one signs and is the key that config names for that authority. *)
Theorem privileged_instructions_guarded (L : Ledger RdData) ix a accounts s :
  required_authority ix = Some a -> run (process ix accounts) L = Ok s ->
  authorized L a accounts.
Proof.
  destruct s as [L' trace]. intros Ha.
  enough (run (process ix accounts) L = Ok (L', trace) -> authorized L a accounts) by done.
  start_run. destruct ix; try discriminate Ha; injection Ha as <-; cbn [process];
    unfold try_configure_program, try_initialize_rewards_integration, try_initialize_distribution,
      initialize_distribution_config, try_configure_distribution_debt,
      try_finalize_distribution_debt, try_write_off_solana_validator_debt, write_off_debt,
      try_configure_distribution_rewards, try_set_distribution_economic_burn_rate,
      try_set_rewards_manager; steps;
    first [apply wlp_authorized | apply wlp_authorized_mut]; intros Hauth k s';
    repeat (apply wlp_const; intros ? ?); exact Hauth.
Qed.

(** The instructions the pause flag stops. *)
Definition stopped_by_pause (ix : RevenueDistributionInstructionData) : bool :=
  match ix with
  | InitializeProgram | MigrateProgramAccounts | SetAdmin _ | ConfigureProgram _
  | InitializeJournal | InitializeContributorRewards _ | VerifyDistributionMerkleRoot _ _
  | InitializeSolanaValidatorDeposit _ | InitializeSwapDestination
  | InitializeRewardsIntegration => false
  | _ => true
  end.

Ltac paused_step :=
  match goal with
  | Hp : (forall k p prest, data (acct ?L k) = ConfigData p prest -> Config.is_paused p = true),
    H : try_require_unpaused ?p = Ok _, Hd : data (acct ?L _) = ConfigData ?p _ |- _ =>
      exfalso; apply require_ok in H; rewrite (Hp _ _ _ Hd) in H; discriminate H
  | _ => astep
  end.

(** C21: the pause.  While every config on the ledger is paused, none of the
    sixteen instructions that move funds or change distributions, journal or
    contributors succeeds, whoever signs and whatever accounts are given. *)
Theorem paused_program_stops (L : Ledger RdData) ix accounts s :
  (forall k p prest, data (acct L k) = ConfigData p prest -> Config.is_paused p = true) ->
  stopped_by_pause ix = true -> run (process ix accounts) L <> Ok s.
Proof.
  destruct s as [L' trace]. intros Hpaused Hix.
  enough (run (process ix accounts) L = Ok (L', trace) -> False) by done.
  start_run. destruct ix; try discriminate Hix; cbn [process];
    unfold try_initialize_distribution,
      initialize_distribution_config, try_configure_distribution_debt,
      try_finalize_distribution_debt, try_write_off_solana_validator_debt, write_off_debt,
      try_configure_distribution_rewards, try_set_distribution_economic_burn_rate,
      try_set_rewards_manager, try_finalize_distribution_rewards, try_distribute_rewards,
      distribute_rewards_accounts, try_configure_contributor_rewards,
      try_pay_solana_validator_debt, try_enable_solana_validator_debt_write_off,
      try_sweep_distribution_tokens, try_withdraw_sol, try_withdraw_solana_validator_deposit,
      try_collect_integration_rewards, collect_integration_checks;
    destruct accounts as [|m0 [|m1 rest]]; repeat paused_step.
Qed.

(** What the entrypoint does with its own program id. *)
Lemma run_entrypoint (L : Ledger RdData) accounts bytes :
  run (try_process_instruction ID accounts bytes) L =
  match try_from_slice instruction_data bytes with
  | Some ix => run (process ix accounts) L
  | None => Err InvalidInstructionData
  end.
Proof.
  unfold run, try_process_instruction. rewrite Z.eqb_refl.
  cbv [mbind M_bind ensure require lift mret Res_ret]. cbn.
  by destruct (try_from_slice instruction_data bytes).
Qed.

Lemma entrypoint_ok (L : Ledger RdData) accounts bytes s :
  bytes_ok bytes -> run (try_process_instruction ID accounts bytes) L = Ok s ->
  exists ix, instruction_valid ix /\ bytes = instruction_enc ix /\ run (process ix accounts) L = Ok s.
Proof.
  intros Hb. rewrite run_entrypoint. destruct (try_from_slice _ _) as [ix|] eqn:E; [|done].
  apply (try_from_slice_canonical instruction_data) in E as [Hv ->]; [|done].
  intros Hs. by exists ix.
Qed.

(** The entrypoint.  Any other program id is refused with
    [IncorrectProgramId] and bytes that decode to no instruction with
    [InvalidInstructionData], nothing being done; the bytes of an instruction
    run its handler, and a run that succeeds ran the handler of the one
    instruction its bytes encode. *)
Theorem entrypoint_dispatch (L : Ledger RdData) accounts :
  (forall program_id bytes, program_id <> ID ->
     run (try_process_instruction program_id accounts bytes) L = Err IncorrectProgramId) /\
  (forall bytes, try_from_slice instruction_data bytes = None ->
     run (try_process_instruction ID accounts bytes) L = Err InvalidInstructionData) /\
  (forall ix, instruction_valid ix ->
     run (try_process_instruction ID accounts (instruction_enc ix)) L = run (process ix accounts) L) /\
  (forall bytes s, bytes_ok bytes ->
     run (try_process_instruction ID accounts bytes) L = Ok s ->
     exists ix, bytes = instruction_enc ix /\ run (process ix accounts) L = Ok s).
Proof.
  split_and!.
  - intros program_id bytes Hne. unfold run, try_process_instruction.
    by rewrite (proj2 (Z.eqb_neq _ _) Hne).
  - intros bytes E. by rewrite run_entrypoint, E.
  - intros ix Hix. rewrite run_entrypoint. change (instruction_enc ix) with (enc instruction_data ix).
    by rewrite (try_from_slice_enc instruction_data ix Hix).
  - intros bytes s Hb (ix & _ & -> & Hs)%entrypoint_ok; [|done]. by exists ix.
Qed.
End Theorems.
