(* ===== verification/Progress.v ===== *)
(** * Progress

    Instructions that must succeed do: on a ledger that satisfies the
    invariant, the guards a client can meet are all that stands between an
    unpaid debt and its payment. *)

From Stdlib Require Import ZArith Lia.
From S2P Require Import Prelude Types BurnRate Borsh Runtime ProgramTools State RdAccounts Rules Steps Total RdTotal.
From S2P Require Import RdDistribution RdRewards RdDebt RdIntegration Lifecycle Invariants.

Section Progress.
Context `{R : Runtime RdData}.

(** An unset leaf inside a bitmap can be marked. *)
Lemma mark_leaf_unmarked bits r leaf :
  range_ok r (lenZ bits) -> 0 <= leaf < 8 * range_size r -> marked bits r leaf = false ->
  exists bits', mark_leaf bits r leaf = Ok bits'.
Proof.
  destruct r as [s e]. unfold range_ok, range_size, marked, leaf_bit. cbn [fst snd].
  intros Hr Hl Hm. rewrite (proj2 (Z.ltb_lt _ _)) in Hm by lia. cbn in Hm.
  pose proof (Z.div_mod leaf 8). pose proof (Z.mod_pos_bound leaf 8).
  assert (0 <= (8 * s + leaf) / 8 < lenZ bits) as Hi
    by (split; [apply Z.div_pos; lia|apply Z.div_lt_upper_bound; lia]).
  destruct (bits !! Z.to_nat ((8 * s + leaf) / 8)) as [b|] eqn:E.
  - eexists. apply mark_leaf_ok; [lia|lia|]. split; [lia|]. by exists b.
  - apply lookup_ge_None in E. unfold lenZ in Hi. lia.
Qed.

Lemma paid_status d bits d' leaf bits' :
  dist_ok d bits -> 0 <= leaf ->
  mark_leaf bits (Dist.processed_solana_validator_debt_bitmap_range d) leaf = Ok bits' ->
  Dist.processed_solana_validator_debt_bitmap_range d' =
  Dist.processed_solana_validator_debt_bitmap_range d ->
  Dist.processed_solana_validator_debt_write_off_bitmap_range d' =
  Dist.processed_solana_validator_debt_write_off_bitmap_range d ->
  debt_status d bits leaf = Unpaid -> debt_status d' bits' leaf = Paid.
Proof.
  intros Hok Hl Hm E1 E2 Hs.
  destruct (mark_leaf_marked _ _ _ _ (proj1 (do_debt_range _ _ Hok)) Hl (do_bytes _ _ Hok) Hm)
    as (_ & _ & _ & Hset & _ & Hother).
  destruct (Hother _ (proj1 (do_write_off_range _ _ Hok)) (do_debt_write_off _ _ Hok)) as [Hw _].
  unfold debt_status in *. rewrite E1, E2, Hw, Hset, Z.eqb_refl by done. by destruct (marked bits _ leaf).
Qed.

(** C17: an unpaid debt can be paid.  On a ledger that satisfies the invariant
    and with the accounts in order and writable, the program not paused, the
    debt finalized, a leaf inside the bitmap whose debt is unpaid, a valid
    proof of it, enough lamports in the deposit and no 64-bit balance
    overflowing, the payment succeeds, invokes nothing and leaves the debt
    paid: the leaf's bit is there to be set and the 32-bit counter has room. *)
Theorem unpaid_debt_can_be_paid (L : Ledger RdData) m0 m1 m2 m3 rest amount proof leaf
    p prest d bits x xrest j jrest :
  ledger_inv L ->
  data (acct L (key m0)) = ConfigData p prest -> Config.is_paused p = false ->
  data (acct L (key m1)) = DistributionData d bits ->
  Dist.is_debt_calculation_finalized d = true ->
  data (acct L (key m2)) = DepositData x xrest ->
  data (acct L (key m3)) = JournalData j jrest ->
  is_writable m1 = true -> is_writable m2 = true -> is_writable m3 = true ->
  leaf_index proof = Some leaf ->
  leaf < 8 * range_size (Dist.processed_solana_validator_debt_bitmap_range d) ->
  debt_status d bits leaf = Unpaid ->
  debt_root proof (MkSolanaValidatorDebt (Depo.node_id x) amount)
    = Dist.solana_validator_debt_merkle_root d ->
  0 <= amount -> deposit_rent + amount <= lamports (acct L (key m2)) ->
  Dist.collected_solana_validator_payments d + amount < 2 ^ 64 ->
  lamports (acct L (key m3)) + amount < 2 ^ 64 -> Jrnl.total_sol_balance j + amount < 2 ^ 64 ->
  exists L' d' bits',
    run (try_pay_solana_validator_debt (m0 :: m1 :: m2 :: m3 :: rest) amount proof) L = Ok (L', []) /\
    data (acct L' (key m1)) = DistributionData d' bits' /\ debt_status d' bits' leaf = Paid.
Proof.
  intros Hinv H0 Hp H1 Hf H2 H3 W1 W2 W3 Hleaf Hlt Hs Hroot Ham Hrent B1 B2 B3.
  assert (key m1 <> key m2) by congruence. assert (key m1 <> key m3) by congruence.
  assert (key m2 <> key m3) by congruence. assert (key m0 <> key m1) by congruence.
  assert (key m0 <> key m2) by congruence. assert (key m0 <> key m3) by congruence.
  pose proof (inv_owner _ (key m0) Hinv ltac:(by rewrite H0)) as O0.
  pose proof (inv_owner _ (key m1) Hinv ltac:(by rewrite H1)) as O1.
  pose proof (inv_owner _ (key m2) Hinv ltac:(by rewrite H2)) as O2.
  pose proof (inv_owner _ (key m3) Hinv ltac:(by rewrite H3)) as O3.
  destruct (inv_distribution _ _ _ _ Hinv H1) as (Hok & _).
  pose proof (fits_nonneg _ _ (leaf_index_u32 _ _ Hleaf)) as Hl.
  assert (marked bits (Dist.processed_solana_validator_debt_bitmap_range d) leaf = false) as Hm.
  { unfold debt_status in Hs. repeat case_match; done. }
  destruct (mark_leaf_unmarked _ _ _ (do_debt_range _ _ Hok) (conj Hl Hlt) Hm) as [bits' Hmark].
  assert (Dist.solana_validator_payments_count d + 1 < 2 ^ 32) as Hcount.
  { pose proof (marks_small _ _ (do_debt_range _ _ Hok) (do_length _ _ Hok)).
    pose proof (do_debt_count _ _ Hok). pose proof (do_write_off_count _ _ Hok). lia. }
  enough (exists L' trace,
    run (try_pay_solana_validator_debt (m0 :: m1 :: m2 :: m3 :: rest) amount proof) L = Ok (L', trace) /\
    trace = [] /\ exists d' bits', data (acct L' (key m1)) = DistributionData d' bits' /\
      debt_status d' bits' leaf = Paid) as (L' & t & E & -> & d' & b' & ?) by by exists L', d', b'.
  apply twp_run_exists. unfold try_pay_solana_validator_debt.
  assert (0 <= deposit_rent) by (eapply fits_nonneg; apply minimum_balance_u64).
  repeat tstep; unfold try_leaf_index, try_require_unpaused, try_require_finalized_debt_calculation.
  1: by rewrite Hleaf.
  1: by rewrite Hp.
  1: by rewrite Hf.
  1, 2: apply arith_add_exact; lia.
  1: exact Hmark.
  1: by apply Z.eqb_eq.
  1: rewrite saturating_sub_spec; ledger; apply negb_true_iff, Z.ltb_ge; lia.
  1: apply arith_sub_exact; ledger; lia.
  1: apply arith_add_exact; ledger; lia.
  1: apply arith_add_exact; lia.
  cbn [st_trace st_ledger]. split; [done|]. eexists _, _. split; [view_read|].
  by eapply (paid_status d).
Qed.
End Progress.
