(* ===== verification/Executions.v ===== *)
(** * Executions

    The program at work: instructions with any accounts and data, under any
    runtime that obeys its laws (each has its own time, CPI results and sibling
    instruction), between the steps of the other programs.  Whatever is proved
    here of one step is proved of every history. *)

From Stdlib Require Import ZArith Lia.
From S2P Require Import Prelude Types BurnRate Borsh Runtime ProgramTools State RdAccounts Rules Steps.
From S2P Require Import RdConfig RdDistribution RdRewards RdDebt RdSwap RdIntegration.
From S2P Require Import Lifecycle Invariants Books Funds Preservation Instruction Program.

(** ** One instruction *)
Section Instruction.
Context `{R : Runtime RdData} `{!RdLaws R} `{!ProofCodec}.
Context (L : Ledger RdData) (Hinv : ledger_inv L).

Lemma setting_valid_fits s : SettingCodec.setting_valid s -> setting_fits s.
Proof.
  destruct s; cbn; try done; try tauto.
intros (((? & ?) & ?) & Hi). split_and!; try done. intros r ->. exact Hi.
Qed.

Lemma contributor_valid_fits s : contributor_valid s -> contributor_setting_fits s.
Proof. destruct s; cbn; [|done]. intros [_ Hl]. exact Hl. Qed.

(** The instructions that leave the funds on record where they are. *)
Definition calm (ix : RevenueDistributionInstructionData) : bool :=
  match ix with
  | FinalizeDistributionRewards | DistributeRewards _ _ _ | PaySolanaValidatorDebt _ _
  | WithdrawSol _ | WithdrawSolanaValidatorDeposit => false
  | _ => true
  end.

(** The items an instruction spares. *)
Definition even (ix : RevenueDistributionInstructionData) (accounts : list AccountInfo)
    : Item -> Pubkey -> Prop :=
  match ix with
  | PaySolanaValidatorDebt _ _ => pay_even
  | WithdrawSol _ => withdraw_even
  | SweepDistributionTokens => sweep_even accounts
  | InitializeDistribution => distribution_even accounts
  | InitializeRewardsIntegration => integration_even accounts
  | _ => all_items
  end.

(** Every instruction with decoded arguments only moves the ledger forward. *)
Lemma process_keeps ix accounts :
  instruction_valid ix -> Forall (fun info => fits 256 (key info)) accounts ->
  keeps L (calm ix) (even ix accounts) (process ix accounts).
Proof.
  intros Hv Hkeys. destruct ix; cbn [process instruction_valid calm even] in *.
  - by apply initialize_program_keeps.
  - by apply migrate_keeps.
  - by apply set_admin_keeps.
  - by apply configure_program_keeps, setting_valid_fits.
  - by apply initialize_journal_keeps.
  - by apply initialize_distribution_keeps.
  - destruct Hv as [[? ?] ?]. by apply configure_debt_keeps.
  - by apply finalize_debt_keeps.
  - destruct Hv as [? ?]. by apply configure_rewards_keeps.
  - by apply finalize_rewards_keeps.
  - destruct Hv as [[? _] _]. by apply distribute_rewards_keeps.
  - by apply initialize_contributor_keeps.
  - by apply set_rewards_manager_keeps.
  - by apply configure_contributor_keeps, contributor_valid_fits.
  - by apply verify_root_keeps.
  - by apply initialize_deposit_keeps.
  - destruct Hv as [? _]. by apply pay_keeps.
  - by apply enable_write_off_keeps.
  - destruct Hv as [? _]. by apply write_off_keeps.
  - by apply initialize_swap_destination_keeps.
  - by apply sweep_keeps.
  - by apply withdraw_sol_keeps.
  - by apply set_economic_burn_rate_keeps.
  - by apply withdraw_deposit_keeps.
  - by apply initialize_integration_keeps.
  - by apply collect_keeps.
Qed.

Lemma keeps_run c e m L' trace : keeps L c e m -> run m L = Ok (L', trace) -> kept c e L L'.
Proof. intros Hk Hr. exact (run_post _ _ _ _ (kept c e L) Hr Hk). Qed.

Lemma distribute_run accounts share rate proof L' trace :
  fits 32 share -> run (try_distribute_rewards accounts share rate proof) L = Ok (L', trace) ->
  good L L' /\ reward_taken L accounts proof L'.
Proof.
  intros Hs Hr.
  destruct (run_post _ _ _ _ (fun L' => kept false all_items L L' /\ reward_taken L accounts proof L') Hr
              (distribute_rewards_post L Hinv _ _ _ _ Hs)) as [[? _] ?]. done.
Qed.

Lemma entrypoint_good accounts bytes L' trace :
  bytes_ok bytes -> Forall (fun info => fits 256 (key info)) accounts ->
  run (try_process_instruction ID accounts bytes) L = Ok (L', trace) -> good L L'.
Proof.
  intros Hb Hk (ix & Hv & _ & Hr)%entrypoint_ok; [|done].
  eapply kept_good, keeps_run; [by apply process_keeps|exact Hr].
Qed.
End Instruction.

(** ** Histories

    Addresses, the known programs and the build profile are fixed; everything
    else about the runtime may differ from one instruction to the next.  An
    instruction that fails leaves the ledger alone and is not a step. *)
Section Executions.
Context `{HP : Pda} `{HK : KnownPrograms} `{HB : BuildProfile}.

Inductive instruction_step (L L' : Ledger RdData) : Prop :=
  | step_run (R : Runtime RdData) (HR : RdLaws R) (HC : ProofCodec) accounts bytes trace :
      rt_pda = HP -> rt_programs = HK -> rt_profile = HB ->
      bytes_ok bytes -> Forall (fun info => fits 256 (key info)) accounts ->
      run (try_process_instruction ID accounts bytes) L = Ok (L', trace) ->
      instruction_step L L'.

Inductive ledger_step (L L' : Ledger RdData) : Prop :=
  | step_instruction : instruction_step L L' -> ledger_step L L'
  | step_foreign : foreign_step L L' -> ledger_step L L'.

(** A ledger on which the program has no accounts yet. *)
Definition genesis (L : Ledger RdData) : Prop :=
  ledger_wf L /\ forall k, typed (data (acct L k)) = false.

Lemma genesis_inv L : genesis L -> ledger_inv L.
Proof.
  intros [Hw Ht]. split.
  - split; [done|]. intros k Hk. by rewrite Ht in Hk.
  - intros k. specialize (Ht k). by destruct (data (acct L k)).
  - intros k. specialize (Ht k). by destruct (data (acct L k)).
  - intros k k' r rest r' rest' E. specialize (Ht k). by rewrite E in Ht.
Qed.

Lemma ledger_step_good L L' : ledger_inv L -> ledger_step L L' -> good L L'.
Proof.
  intros Hinv [[R HR HC accounts bytes trace HP' HK' HB' Hb Hk Hrun]|Hf]; [|by apply good_foreign].
  revert Hinv. rewrite <- HP', <- HK', <- HB'. intros Hinv. by eapply entrypoint_good.
Qed.

Lemma execution_good L L' : ledger_inv L -> rtc ledger_step L L' -> good L L'.
Proof.
  intros Hinv H. induction H as [L|L L1 L2 H1 _ IH]; [by apply good_refl|].
  destruct (ledger_step_good _ _ Hinv H1) as [Hinv1 He1]. destruct (IH Hinv1) as [Hinv2 He2].
  split; [done|by transitivity L1].
Qed.
End Executions.

(** ** Theorems *)
Section Theorems.
Context `{HP : Pda} `{HK : KnownPrograms} `{HB : BuildProfile}.

(** C1: the invariant.  Whatever instructions are sent to the program, with any
    accounts and signers, and whatever the other programs do between and during
    them, a ledger reached from one without accounts of the program satisfies
    the invariant: well-formed accounts at their derived addresses, consistent
    distributions, integrations with indices of their own. *)
Theorem reachable_ledgers_consistent (L0 L : Ledger RdData) :
  genesis L0 -> rtc ledger_step L0 L -> ledger_inv L.
Proof. intros Hg H. by apply (execution_good _ _ (genesis_inv _ Hg) H). Qed.

(** What executions make of a distribution. *)
Lemma execution_distribution (L L' : Ledger RdData) k d bits :
  ledger_inv L -> rtc ledger_step L L' -> data (acct L k) = DistributionData d bits ->
  exists d' bits', data (acct L' k) = DistributionData d' bits' /\
    dist_ok d bits /\ dist_ok d' bits' /\ rtc dist_rel (d, bits) (d', bits').
Proof.
  intros Hinv H E. destruct (execution_good _ _ Hinv H) as [Hinv' He].
  specialize (He k). rewrite E in He. destruct (data (acct L' k)) eqn:E'; try done.
  do 2 eexists. split_and!;
    [done|exact (proj1 (inv_distribution _ _ _ _ Hinv E))
    |exact (proj1 (inv_distribution _ _ _ _ Hinv' E'))|exact He].
Qed.

(** C5: what is decided stays decided.  Along any execution the account of a
    distribution stays one of the same epoch and parameters; its debt, its
    rewards, its write-off bitmap and its uncollectible debt are frozen once
    finalized, enabled or swept; bits are only ever set, integrations only
    collected. *)
Theorem finalized_is_final (L L' : Ledger RdData) k d bits :
  ledger_inv L -> rtc ledger_step L L' -> data (acct L k) = DistributionData d bits ->
  exists d' bits', data (acct L' k) = DistributionData d' bits' /\ dist_le d bits d' bits'.
Proof.
  intros Hinv H E. destruct (execution_distribution _ _ _ _ _ Hinv H E) as (d' & bits' & E' & Hok & _ & Hr).
  exists d', bits'. split; [done|]. by apply rtc_dist_ok.
Qed.

(** The tables of statuses along a sequence of operations. *)
Lemma rtc_debt_refines s s' :
  rtc dist_rel s s' -> dist_ok s.1 s.2 -> rtc settle_step (debt_status s.1 s.2) (debt_status s'.1 s'.2).
Proof.
  induction 1 as [s|s1 s2 s3 H1 _ IH]; intros Hok; [done|].
  eapply rtc_l; [by apply debt_refines|]. apply IH, (dist_op_step _ _ _ _ H1 Hok).
Qed.

Lemma rtc_rewards_refine s s' :
  rtc dist_rel s s' -> dist_ok s.1 s.2 -> rtc distribute_once (distributed s.1 s.2) (distributed s'.1 s'.2).
Proof.
  induction 1 as [s|s1 s2 s3 H1 _ IH]; intros Hok; [done|].
  eapply rtc_l; [by apply rewards_refine|]. apply IH, (dist_op_step _ _ _ _ H1 Hok).
Qed.

(** C2: refinement.  An execution implements, on each distribution, the two
    tables: every debt goes from unpaid to paid or to written off, one at a
    time and for good, and every reward from undistributed to distributed. *)
Theorem executions_refine_tables (L L' : Ledger RdData) k d bits :
  ledger_inv L -> rtc ledger_step L L' -> data (acct L k) = DistributionData d bits ->
  exists d' bits', data (acct L' k) = DistributionData d' bits' /\
    rtc settle_step (debt_status d bits) (debt_status d' bits') /\
    rtc distribute_once (distributed d bits) (distributed d' bits').
Proof.
  intros Hinv H E. destruct (execution_distribution _ _ _ _ _ Hinv H E) as (d' & bits' & E' & Hok & _ & Hr).
  exists d', bits'. split; [done|].
  split; [exact (rtc_debt_refines _ _ Hr Hok)|exact (rtc_rewards_refine _ _ Hr Hok)].
Qed.

Lemma settle_final f f' x : rtc settle_step f f' -> 0 <= x -> f x <> Unpaid -> f' x = f x.
Proof.
  induction 1 as [f|f1 f2 f3 H1 _ IH]; intros Hx Hs; [done|].
  assert (f2 x = f1 x) as E.
  { destruct H1 as [E|leaf s Hl Hu _ E]; [by apply E|]. rewrite E by done.
    destruct (Z.eqb_spec x leaf); [congruence|done]. }
  rewrite IH by (done || congruence). done.
Qed.

Lemma distribute_final f f' x : rtc distribute_once f f' -> 0 <= x -> f x = true -> f' x = true.
Proof.
  induction 1 as [f|f1 f2 f3 H1 _ IH]; intros Hx Hs; [done|]. apply IH; [done|].
  destruct H1 as [E|leaf Hl Hu E]; rewrite E by done; [done|]. by case_match.
Qed.

(** C19: there is one account of each kind: a ledger the program reaches has at
    most one config, one journal, one distribution per epoch, one contributor
    account per service key, one deposit per node, and one integration per
    program and per index. *)
Theorem accounts_unique (L0 L : Ledger RdData) k k' :
  genesis L0 -> rtc ledger_step L0 L ->
  match data (acct L k), data (acct L k') with
  | ConfigData _ _, ConfigData _ _ | JournalData _ _, JournalData _ _ => True
  | DistributionData d _, DistributionData d' _ => Dist.dz_epoch d = Dist.dz_epoch d'
  | ContributorData c _, ContributorData c' _ => Contrib.service_key c = Contrib.service_key c'
  | DepositData x _, DepositData x' _ => Depo.node_id x = Depo.node_id x'
  | IntegrationData r _, IntegrationData r' _ =>
      Integ.program_id r = Integ.program_id r' \/
      Integ.registration_index r = Integ.registration_index r'
  | _, _ => False
  end -> k = k'.
Proof.
  intros Hg H Hsame. pose proof (proj1 (execution_good _ _ (genesis_inv _ Hg) H)) as Hinv.
  pose proof (li_address _ Hinv k) as Ha. pose proof (li_address _ Hinv k') as Ha'.
  destruct (data (acct L k)) eqn:E, (data (acct L k')) eqn:E'; try done; cbn in Ha, Ha'; try congruence.
  destruct Hsame as [Hs|Hs]; [congruence|]. by apply (li_indices _ Hinv _ _ _ _ _ _ E E').
Qed.

Lemma additional_data_len_bits n : 0 <= n -> 8 * additional_data_len n < n + 8.
Proof. intros Hn. rewrite additional_data_len_ceil by done. pose proof (Z.mul_div_le (n + 7) 8). lia. Qed.

(** C18: the counters are exact and never overflow.  On every ledger the program
    reaches, a distribution's payments and write-offs are the leaves settled in
    its bitmaps, its distributed rewards the leaves of theirs; none exceeds the
    number of leaves of a tree, rounded up to bytes, so counting one more never
    panics, whatever the build profile. *)
Theorem counters_exact (L0 L : Ledger RdData) k d bits :
  genesis L0 -> rtc ledger_step L0 L -> data (acct L k) = DistributionData d bits ->
  Dist.solana_validator_payments_count d + Dist.solana_validator_write_off_count d =
    Z.of_nat (length (marks bits (Dist.processed_solana_validator_debt_bitmap_range d))) /\
  Dist.solana_validator_write_off_count d =
    Z.of_nat (length (marks bits (Dist.processed_solana_validator_debt_write_off_bitmap_range d))) /\
  Dist.distributed_rewards_count d =
    Z.of_nat (length (marks bits (Dist.processed_rewards_bitmap_range d))) /\
  Dist.solana_validator_payments_count d + Dist.solana_validator_write_off_count d
    < Dist.total_solana_validators d + 8 /\
  Dist.distributed_rewards_count d < Dist.total_contributors d + 8 /\
  (forall n, In n [Dist.solana_validator_payments_count d; Dist.solana_validator_write_off_count d;
                   Dist.distributed_rewards_count d] -> arith_add 32 n 1 = Ok (n + 1)).
Proof.
  intros Hg H E. pose proof (proj1 (execution_good _ _ (genesis_inv _ Hg) H)) as Hinv.
  destruct (inv_distribution _ _ _ _ Hinv E) as (Hok & _).
  pose proof (ledger_wf_data _ _ _ (inv_wf _ Hinv) E) as Hw.
  assert (0 <= Dist.total_solana_validators d /\ 0 <= Dist.total_contributors d) as [Hn1 Hn2]
    by (split; nonneg).
  pose proof (additional_data_len_bits _ Hn1). pose proof (additional_data_len_bits _ Hn2).
  destruct Hok. 
  pose proof (marks_small _ _ do_debt_range do_length). pose proof (marks_small _ _ do_rewards_range do_length).
  pose proof (marks_length bits (Dist.processed_solana_validator_debt_bitmap_range d)).
  pose proof (marks_length bits (Dist.processed_rewards_bitmap_range d)).
  split_and!; try done.
  - destruct (Dist.is_debt_calculation_finalized d).
    + destruct (do_debt_size eq_refl) as [E0|E0]; unfold range_size in *; [rewrite E0 in *; cbn in *|]; lia.
    + destruct (do_debt_open eq_refl) as [E0 _]. rewrite E0 in *. cbn in *. lia.
  - destruct (Dist.is_rewards_calculation_finalized d).
    + specialize (do_rewards_size eq_refl). unfold range_size in *. lia.
    + rewrite (do_rewards_open eq_refl) in *. cbn in *. lia.
  - intros n [<-|[<-|[<-|[]]]]; apply arith_add_exact; lia.
Qed.
End Theorems.

(** ** What later instructions can no longer do *)
Section Final.
Context `{R : Runtime RdData} `{!RdLaws R}.

Lemma settled_bit d bits leaf :
  dist_ok d bits -> 0 <= leaf -> debt_status d bits leaf <> Unpaid ->
  leaf_bit bits (debt_bit d leaf) = true.
Proof.
  intros Hok Hl Hs. unfold debt_status in Hs.
  assert (marked bits (Dist.processed_solana_validator_debt_bitmap_range d) leaf = true) as Hm.
  { case_match eqn:E; [exact (do_written_off _ _ Hok _ Hl E)|]. by case_match. }
  unfold marked in Hm. by apply andb_prop in Hm as [_ Hm].
Qed.

(** C3: a debt is settled at most once.  Once the debt at a leaf has been paid
    or written off, it keeps that status in every later ledger, and there
    neither a payment nor a write-off of that leaf succeeds, whatever the
    amount, the proof of it and the other accounts. *)
Theorem settled_debt_is_final (L L' : Ledger RdData) k d bits leaf proof amount accounts s :
  ledger_inv L -> rtc ledger_step L L' -> data (acct L k) = DistributionData d bits ->
  leaf_index proof = Some leaf -> debt_status d bits leaf <> Unpaid ->
  (exists d' bits', data (acct L' k) = DistributionData d' bits' /\
     debt_status d' bits' leaf = debt_status d bits leaf) /\
  (key <$> accounts !! 1%nat = Some k ->
     run (try_pay_solana_validator_debt accounts amount proof) L' <> Ok s) /\
  (key <$> accounts !! 2%nat = Some k ->
     run (try_write_off_solana_validator_debt accounts amount proof) L' <> Ok s).
Proof.
  intros Hinv H E Hleaf Hs. pose proof (fits_nonneg _ _ (leaf_index_u32 _ _ Hleaf)) as Hl.
  pose proof (proj1 (execution_good _ _ Hinv H)) as Hinv'.
  destruct (execution_distribution _ _ _ _ _ Hinv H E) as (d' & bits' & E' & Hok & Hok' & Hr).
  pose proof (settle_final _ _ leaf (rtc_debt_refines _ _ Hr Hok) Hl Hs) as Hsame. cbn [fst snd] in Hsame.
  split; [by exists d', bits'|].
  apply (processed_debt_closed L' k d' bits' leaf); [by apply inv_wf|done|done|].
  apply settled_bit; [done|done|by rewrite Hsame].
Qed.

(** C4: a reward is distributed at most once, and only when its share is known.
    A successful distribution is of a swept distribution, all the integrations
    of which have been collected, and takes a leaf that was not distributed;
    in every later ledger no distribution of that leaf succeeds, whatever the
    share, the burn rate, the proof and the other accounts. *)
Theorem rewards_distributed_once (L L1 L2 : Ledger RdData) accounts accounts' share share' rate rate'
    proof proof' trace s :
  ledger_inv L -> fits 32 share -> fits 32 share' ->
  run (try_distribute_rewards accounts share rate proof) L = Ok (L1, trace) ->
  rtc ledger_step L1 L2 ->
  key <$> accounts' !! 1%nat = key <$> accounts !! 1%nat -> leaf_index proof' = leaf_index proof ->
  (exists k d bits, key <$> accounts !! 1%nat = Some k /\ data (acct L k) = DistributionData d bits /\
     Dist.has_swept_2z_tokens d = true /\
     (forall i, Z.of_nat i < Dist.integrations_count_snapshot d -> is_collected d i = true)) /\
  run (try_distribute_rewards accounts' share' rate' proof') L2 <> Ok s.
Proof.
  intros Hinv Hs Hs' Hrun H Hacc Hproof.
  destruct (distribute_run L Hinv _ _ _ _ _ _ Hs Hrun)
    as [[Hinv1 _] (info & d & bits & d1 & bits1 & leaf & Ha & E & E1 & Hleaf & Hswept & Hall & _ & Hd1)].
  destruct (inv_distribution _ _ _ _ Hinv E) as (Hok & _). split.
  - exists (key info), d, bits. rewrite Ha. split_and!; [done|done|done|].
    intros i Hi. by apply all_collected; [apply Hok|..].
  - intros Hrun2. destruct s as [L3 trace3].
    destruct (execution_distribution _ _ _ _ _ Hinv1 H E1) as (d2 & bits2 & E2 & Hok1 & _ & Hr).
    pose proof (proj1 (execution_good _ _ Hinv1 H)) as Hinv2.
    destruct (distribute_run L2 Hinv2 _ _ _ _ _ _ Hs' Hrun2)
      as [_ (info' & d2' & bits2' & d3 & bits3 & leaf' & Ha' & E2' & _ & Hleaf' & _ & _ & Hd2 & _)].
    rewrite Ha, Ha' in Hacc. injection Hacc as Hk. rewrite Hk, E2 in E2'. injection E2' as <- <-.
    rewrite Hproof, Hleaf in Hleaf'. injection Hleaf' as <-.
    pose proof (fits_nonneg _ _ (leaf_index_u32 _ _ Hleaf)) as Hl.
    pose proof (distribute_final _ _ leaf (rtc_rewards_refine _ _ Hr Hok1) Hl Hd1) as Hd. cbn [fst snd] in Hd. congruence.
Qed.
End Final.
