(* ===== verification/Canonical.v ===== *)
(** * The accounts of an instruction

    The program receives its accounts as a list chosen by the sender.  On a
    ledger that satisfies the invariant its checks leave little choice: the
    accounts a successful instruction has read are, position by position, those
    the client's constructors of [RdClient] derive for some arguments (wallets,
    epochs, nodes, service keys, integration programs).  Five accounts are not
    this program's to check and stay arbitrary: the three a sweep hands to the
    swap program before the journal, and the two of the integration program in a
    collection. *)

From Stdlib Require Import ZArith Lia String.
From S2P Require Import Prelude Types BurnRate Borsh Runtime ProgramTools State RdAccounts Rules Steps.
From S2P Require Import RdClient RdConfig RdDistribution RdRewards RdDebt RdSwap RdIntegration.
From S2P Require Import Lifecycle Invariants Funds Preservation Instruction Program Executions.

(** ** The lists of the client *)
Section ClientLists.
Context `{HP : Pda} `{HK : KnownPrograms} `{HB : BuildProfile} `{HH : SvmHash}.

(** The swap program the config names. *)
Definition configured_swap_program (L : Ledger RdData) : Pubkey :=
  match data (acct L Config.find_address.1) with
  | ConfigData p _ => Config.sol_2z_swap_program_id p
  | _ => pubkey_default
  end.

(** The recipients a contributor's account records. *)
Definition recorded_recipients (L : Ledger RdData) (service_key : Pubkey) : list Pubkey :=
  match data (acct L (Contrib.find_address service_key).1) with
  | ContributorData c _ => recipient_key <$> Recipients.active (Contrib.recipient_shares c)
  | _ => []
  end.

(** The accounts of a sweep, given those the swap program reads: the client's,
    but with any configuration registry, program state and fills registry. *)
Definition sweep_accounts (dz_epoch : DoubleZeroEpoch)
    (swap_program configuration_registry program_state fills_registry : Pubkey)
    : Client.SweepDistributionTokensAccounts.t :=
  let a := Client.SweepDistributionTokensAccounts.new dz_epoch swap_program fills_registry in
  Client.SweepDistributionTokensAccounts.Mk
    (Client.SweepDistributionTokensAccounts.program_config_key a)
    (Client.SweepDistributionTokensAccounts.distribution_key a)
    (Client.SweepDistributionTokensAccounts.journal_key a)
    (Client.DequeueFillsCpiAccounts.Mk configuration_registry program_state fills_registry
       Jrnl.find_address.1 (Some swap_program))
    (Client.SweepDistributionTokensAccounts.distribution_2z_token_pda_key a)
    (Client.SweepDistributionTokensAccounts.swap_authority_key a)
    (Client.SweepDistributionTokensAccounts.swap_2z_token_pda_key a).

Lemma sweep_accounts_client dz_epoch swap_program fills_registry :
  let a := Client.SweepDistributionTokensAccounts.new dz_epoch swap_program fills_registry in
  let cpi := Client.SweepDistributionTokensAccounts.dequeue_fills_cpi_keys a in
  sweep_accounts dz_epoch swap_program
    (Client.DequeueFillsCpiAccounts.configuration_registry_key cpi)
    (Client.DequeueFillsCpiAccounts.program_state_key cpi) fills_registry = a.
Proof. reflexivity. Qed.

(** The lists a client builds for an instruction.  The program leaves the
    first three accounts of the dequeue to the swap program ([ca_sweep] takes
    any), and the distribution and bucket accounts of a collection to the
    integration program (arguments of the client's constructor, too). *)
Inductive client_accounts (L : Ledger RdData)
    : RevenueDistributionInstructionData -> list AccountInfo -> Prop :=
  | ca_initialize_program payer :
      client_accounts L InitializeProgram
        (Client.InitializeProgramAccounts.metas
           (Client.InitializeProgramAccounts.new payer DOUBLEZERO_MINT_KEY))
  | ca_migrate upgrade_authority dz_epochs :
      client_accounts L MigrateProgramAccounts
        (Client.MigrateProgramAccountsAccounts.metas
           (Client.MigrateProgramAccountsAccounts.new ID upgrade_authority dz_epochs))
  | ca_set_admin admin_key upgrade_authority :
      client_accounts L (SetAdmin admin_key)
        (Client.SetAdminAccounts.metas (Client.SetAdminAccounts.new ID upgrade_authority))
  | ca_configure_program setting admin :
      client_accounts L (ConfigureProgram setting)
        (Client.ConfigureProgramAccounts.metas (Client.ConfigureProgramAccounts.new admin))
  | ca_initialize_journal payer :
      client_accounts L InitializeJournal
        (Client.InitializeJournalAccounts.metas
           (Client.InitializeJournalAccounts.new payer DOUBLEZERO_MINT_KEY))
  | ca_initialize_distribution debt_accountant payer dz_epoch :
      client_accounts L InitializeDistribution
        (Client.InitializeDistributionAccounts.metas
           (Client.InitializeDistributionAccounts.new debt_accountant payer dz_epoch
              DOUBLEZERO_MINT_KEY))
  | ca_configure_debt n debt root debt_accountant dz_epoch :
      client_accounts L (ConfigureDistributionDebt n debt root)
        (Client.ConfigureDistributionDebtAccounts.metas
           (Client.ConfigureDistributionDebtAccounts.new debt_accountant dz_epoch))
  | ca_finalize_debt debt_accountant dz_epoch payer :
      client_accounts L FinalizeDistributionDebt
        (Client.FinalizeDistributionDebtAccounts.metas
           (Client.FinalizeDistributionDebtAccounts.new debt_accountant dz_epoch payer))
  | ca_configure_rewards n root rewards_accountant dz_epoch :
      client_accounts L (ConfigureDistributionRewards n root)
        (Client.ConfigureDistributionRewardsAccounts.metas
           (Client.ConfigureDistributionRewardsAccounts.new rewards_accountant dz_epoch))
  | ca_finalize_rewards payer dz_epoch :
      client_accounts L FinalizeDistributionRewards
        (Client.FinalizeDistributionRewardsAccounts.metas
           (Client.FinalizeDistributionRewardsAccounts.new payer dz_epoch))
  | ca_distribute share rate proof dz_epoch service_key relayer :
      client_accounts L (DistributeRewards share rate proof)
        (Client.DistributeRewardsAccounts.metas
           (Client.DistributeRewardsAccounts.new dz_epoch service_key DOUBLEZERO_MINT_KEY
              relayer (recorded_recipients L service_key)))
  | ca_initialize_contributor service_key payer :
      client_accounts L (InitializeContributorRewards service_key)
        (Client.InitializeContributorRewardsAccounts.metas
           (Client.InitializeContributorRewardsAccounts.new payer service_key))
  | ca_set_rewards_manager manager contributor_manager service_key :
      client_accounts L (SetRewardsManager manager)
        (Client.SetRewardsManagerAccounts.metas
           (Client.SetRewardsManagerAccounts.new contributor_manager service_key))
  | ca_configure_contributor setting manager service_key :
      client_accounts L (ConfigureContributorRewards setting)
        (Client.ConfigureContributorRewardsAccounts.metas
           (Client.ConfigureContributorRewardsAccounts.new manager service_key))
  | ca_verify_root kind proof dz_epoch :
      client_accounts L (VerifyDistributionMerkleRoot kind proof)
        (Client.VerifyDistributionMerkleRootAccounts.metas
           (Client.VerifyDistributionMerkleRootAccounts.new dz_epoch))
  | ca_initialize_deposit node_id payer :
      client_accounts L (InitializeSolanaValidatorDeposit node_id)
        (Client.InitializeSolanaValidatorDepositAccounts.metas
           (Client.InitializeSolanaValidatorDepositAccounts.new payer node_id))
  | ca_pay amount proof dz_epoch node_id :
      client_accounts L (PaySolanaValidatorDebt amount proof)
        (Client.PaySolanaValidatorDebtAccounts.metas
           (Client.PaySolanaValidatorDebtAccounts.new dz_epoch node_id))
  | ca_enable_write_off dz_epoch payer :
      client_accounts L EnableSolanaValidatorDebtWriteOff
        (Client.EnableSolanaValidatorDebtWriteOffAccounts.metas
           (Client.EnableSolanaValidatorDebtWriteOffAccounts.new dz_epoch payer))
  | ca_write_off amount proof debt_accountant dz_epoch node_id write_off_dz_epoch :
      client_accounts L (WriteOffSolanaValidatorDebt amount proof)
        (Client.WriteOffSolanaValidatorDebtAccounts.metas
           (Client.WriteOffSolanaValidatorDebtAccounts.new debt_accountant dz_epoch node_id
              write_off_dz_epoch))
  | ca_initialize_swap_destination payer :
      client_accounts L InitializeSwapDestination
        (Client.InitializeSwapDestinationAccounts.metas
           (Client.InitializeSwapDestinationAccounts.new payer DOUBLEZERO_MINT_KEY))
  | ca_sweep dz_epoch configuration_registry program_state fills_registry metas :
      Client.SweepDistributionTokensAccounts.metas
        (sweep_accounts dz_epoch (configured_swap_program L) configuration_registry program_state
           fills_registry) = Ok metas ->
      client_accounts L SweepDistributionTokens metas
  | ca_withdraw_sol amount sol_destination :
      client_accounts L (WithdrawSol amount)
        (Client.WithdrawSolAccounts.metas
           (Client.WithdrawSolAccounts.new (configured_swap_program L) sol_destination))
  | ca_economic_burn_rate rate rewards_accountant dz_epoch :
      client_accounts L (SetDistributionEconomicBurnRate rate)
        (Client.SetDistributionEconomicBurnRateAccounts.metas
           (Client.SetDistributionEconomicBurnRateAccounts.new rewards_accountant dz_epoch))
  | ca_withdraw_deposit node_id beneficiary :
      client_accounts L WithdrawSolanaValidatorDeposit
        (Client.WithdrawSolanaValidatorDepositAccounts.metas
           (Client.WithdrawSolanaValidatorDepositAccounts.new node_id beneficiary))
  | ca_initialize_integration admin payer program_id :
      client_accounts L InitializeRewardsIntegration
        (Client.InitializeRewardsIntegrationAccounts.metas
           (Client.InitializeRewardsIntegrationAccounts.new admin payer program_id))
  | ca_collect dz_epoch program_id integration_distribution bucket :
      client_accounts L CollectIntegrationRewards
        (Client.CollectIntegrationRewardsAccounts.metas
           (Client.CollectIntegrationRewardsAccounts.new dz_epoch program_id
              integration_distribution bucket)).

(** The first [n] accounts are, key by key, those of a client's list. *)
Definition canonical (L : Ledger RdData) (ix : RevenueDistributionInstructionData)
    (accounts : list AccountInfo) (n : nat) : Prop :=
  exists metas, client_accounts L ix metas /\
    (n <= length accounts)%nat /\ take n (key <$> metas) = take n (key <$> accounts).
End ClientLists.

(** ** Code that reads no account *)
Section NoReads.
Context {D : Type} `{AccountData D} `{R : Runtime D}.

Definition no_reads {A} (m : M D A) : Prop :=
  forall s a s', m s = Ok (a, s') -> st_index s' = st_index s /\ st_iter s' = st_iter s.

Lemma no_reads_bind {A B} (m : M D A) (k : A -> M D B) :
  no_reads m -> (forall a, no_reads (k a)) -> no_reads (m ≫= k).
Proof.
  intros Hm Hk s b s2 E. unfold mbind, M_bind in E. destruct (m s) as [[a s1]| |] eqn:E1; try done.
  destruct (Hm _ _ _ E1) as [Hi Hn], (Hk _ _ _ _ E) as [-> ->]. done.
Qed.

Lemma wlp_no_reads {A} (m : M D A) (Q : A -> St D -> Prop) L i infos b r t :
  no_reads m -> (forall a L' b' r' t', Q a (MkSt L' i infos b' r' t')) ->
  wlp m Q (MkSt L i infos b r t).
Proof.
  intros Hm HQ a s' E. destruct (Hm _ _ _ E) as [Hi Hn]. destruct s'. cbn in *. subst. apply HQ.
Qed.
End NoReads.

(** Goes through a computation down to its primitives. *)
Ltac no_reads :=
  lazymatch goal with
  | |- no_reads (mbind _ _) => apply no_reads_bind; [no_reads|intros; no_reads]
  | |- no_reads (if ?c then _ else _) => destruct c; no_reads
  | |- no_reads (let '(_, _) := ?p in _) => destruct p; no_reads
  | |- no_reads (add_lamports _ _) => unfold add_lamports; no_reads
  | |- no_reads (sub_lamports _ _) => unfold sub_lamports; no_reads
  | |- no_reads (deref _ _) => unfold deref; no_reads
  | |- no_reads (modify _ _ _) => unfold modify; no_reads
  | |- no_reads (get_data_len _) => unfold get_data_len; no_reads
  | |- no_reads (get_lamports _) => unfold get_lamports; no_reads
  | |- no_reads (match ?r with _ => _ end) => destruct r; no_reads
  | |- no_reads (grow_distribution _ _) => unfold grow_distribution; no_reads
  | |- _ =>
      unfold no_reads, mret, M_ret, lift, ensure, fail, panic, get_ledger, put_ledger, drop_view,
        peek_data, resize, invoke_signed, mbind, M_bind, lift, get_ledger, put_ledger; intros ? ? ?;
      repeat case_match; intros; simplify_eq; done
  end.

Lemma wlp_mp {D} `{AccountData D} {A} (m : M D A) (P Q : A -> St D -> Prop) s :
  wlp m P s -> wlp m (fun a s' => P a s' -> Q a s') s -> wlp m Q s.
Proof. intros HP HQ a s' E. apply (HQ _ _ E), (HP _ _ E). Qed.

(** ** The accounts of the program, found from what they hold *)
Section Located.
Context `{HP : Pda} `{HK : KnownPrograms} `{HB : BuildProfile}.
Context (L : Ledger RdData) (Hinv : ledger_inv L) (k : Pubkey).

Lemma config_at p rest : data (acct L k) = ConfigData p rest -> k = Config.find_address.1.
Proof. intros E. pose proof (li_address _ Hinv k) as Ha. by rewrite E in Ha. Qed.

Lemma config_swap_program p rest :
  data (acct L k) = ConfigData p rest -> Config.sol_2z_swap_program_id p = configured_swap_program L.
Proof.
  intros E. pose proof (config_at _ _ E) as Ek. unfold configured_swap_program. by rewrite <- Ek, E.
Qed.

Lemma journal_at j rest : data (acct L k) = JournalData j rest -> k = Jrnl.find_address.1.
Proof. intros E. by destruct (inv_journal _ _ _ _ Hinv E). Qed.

Lemma distribution_at d bits :
  data (acct L k) = DistributionData d bits -> k = (Dist.find_address (Dist.dz_epoch d)).1.
Proof. intros E. by destruct (inv_distribution _ _ _ _ Hinv E) as (_ & _ & ?). Qed.

Lemma contributor_at c rest :
  data (acct L k) = ContributorData c rest -> k = (Contrib.find_address (Contrib.service_key c)).1.
Proof. intros E. pose proof (li_address _ Hinv k) as Ha. by rewrite E in Ha. Qed.

Lemma recorded_at c rest :
  data (acct L k) = ContributorData c rest -> k = (Contrib.find_address (Contrib.service_key c)).1 ->
  recorded_recipients L (Contrib.service_key c)
  = recipient_key <$> Recipients.active (Contrib.recipient_shares c).
Proof. intros E Hk. unfold recorded_recipients. by rewrite <- Hk, E. Qed.

Lemma deposit_at x rest :
  data (acct L k) = DepositData x rest -> k = (Depo.find_address (Depo.node_id x)).1.
Proof. intros E. pose proof (li_address _ Hinv k) as Ha. by rewrite E in Ha. Qed.

Lemma integration_at r rest :
  data (acct L k) = IntegrationData r rest -> k = (Integ.find_address (Integ.program_id r)).1.
Proof. intros E. pose proof (li_address _ Hinv k) as Ha. by rewrite E in Ha. Qed.

Lemma distribution_token_pda d bits key' :
  data (acct L k) = DistributionData d bits ->
  checked_2z_token_pda_address k (Dist.token_2z_pda_bump_seed d) = Some key' ->
  key' = (find_2z_token_pda_address k).1.
Proof.
  intros E. apply token_pda_found. rewrite (distribution_at _ _ E).
  apply (inv_dist_seeds _ _ _ _ Hinv E).
Qed.

Lemma swap_authority_found p rest key' :
  data (acct L k) = ConfigData p rest -> Config.checked_swap_authority_address p = Some key' ->
  key' = find_swap_authority_address.1.
Proof.
  intros E. destruct (inv_config_seeds _ _ _ _ Hinv E) as [[Hz|[Hs _]] _];
    unfold Config.checked_swap_authority_address; [by rewrite Hz|].
  destruct (_ =? 0); [done|]. rewrite Hs.
  pose proof (create_found [SWAP_AUTHORITY_SEED_PREFIX] ID _ _ (surjective_pairing _)) as Hc.
  cbn [app] in Hc. unfold find_swap_authority_address. rewrite Hc. congruence.
Qed.

Lemma withdraw_authority_found p rest key' :
  data (acct L k) = ConfigData p rest -> Config.withdraw_sol_authority_bump_seed p <> 0 ->
  Config.checked_withdraw_sol_authority_address p = Some key' ->
  key' = (find_withdraw_sol_authority_address (configured_swap_program L)).1.
Proof.
  intros E Hb. rewrite <- (config_swap_program _ _ E).
  destruct (inv_config_seeds _ _ _ _ Hinv E) as [_ [Hz|Hs]]; [done|].
  unfold Config.checked_withdraw_sol_authority_address. destruct (_ =? pubkey_default); [done|].
  pose proof (create_found [WITHDRAW_SOL_AUTHORITY_SEED_PREFIX] (Config.sol_2z_swap_program_id p) _ _
                (surjective_pairing _)) as Hc.
  cbn [app] in Hc. rewrite Hs. unfold find_withdraw_sol_authority_address. rewrite Hc. congruence.
Qed.
End Located.

(** ** Handlers *)
Create HintDb canonical.

Section Handlers.
Context `{R : Runtime RdData} `{!RdLaws R}.
Context (L : Ledger RdData) (Hinv : ledger_inv L).

(** [m], the handler of [ix], only reads canonical accounts. *)
Definition reads_canonical (ix : RevenueDistributionInstructionData) (accounts : list AccountInfo)
    (m : M RdData unit) : Prop :=
  wlp m (fun _ s => canonical L ix accounts (st_index s)) (MkSt L 0 [] [] None []).

(** What the typed accounts read so far and the checks on the others say of
    their keys. *)
Ltac note F := let T := type of F in lazymatch goal with _ : T |- _ => fail | _ => pose proof F end.
Ltac locate :=
  guards;
  repeat match goal with
  | H : data (acct L ?k) = ConfigData _ _ |- _ =>
      note (config_at L Hinv k _ _ H); note (config_swap_program L Hinv k _ _ H)
  | H : data (acct L ?k) = JournalData _ _ |- _ => note (journal_at L Hinv k _ _ H)
  | H : data (acct L ?k) = DistributionData _ _ |- _ => note (distribution_at L Hinv k _ _ H)
  | H : data (acct L ?k) = ContributorData _ _ |- _ => note (contributor_at L Hinv k _ _ H)
  | H : data (acct L ?k) = DepositData _ _ |- _ => note (deposit_at L Hinv k _ _ H)
  | H : data (acct L ?k) = IntegrationData _ _ |- _ => note (integration_at L Hinv k _ _ H)
  | H : data (acct L ?k) = DistributionData _ _,
    Hk : checked_2z_token_pda_address ?k _ = Some _ |- _ =>
      apply (distribution_token_pda L Hinv k _ _ _ H) in Hk
  | H : data (acct L _) = ConfigData ?p _,
    Hk : Config.checked_swap_authority_address ?p = Some _ |- _ =>
      apply (swap_authority_found L Hinv _ _ _ _ H) in Hk
  | H : data (acct L _) = ConfigData ?p _, Hb : Config.withdraw_sol_authority_bump_seed ?p <> 0,
    Hk : Config.checked_withdraw_sol_authority_address ?p = Some _ |- _ =>
      apply (withdraw_authority_found L Hinv _ _ _ _ H Hb) in Hk
  | H : @eq (Pubkey * Z) _ (_, _) |- _ => apply (f_equal fst) in H; cbn [fst] in H
  end.

(** The list of a constructor, account by account. *)
Ltac keys_match :=
  cbn;
  repeat match goal with
  | |- _ :: _ = _ :: _ => apply f_equal2
  | |- ?x = ?x => reflexivity
  end;
  first [reflexivity | eassumption | symmetry; eassumption | congruence | idtac].
Ltac canon ca :=
  locate; eexists; split; [eapply ca|split; [cbn; lia|keys_match]].

Ltac start_canon := unfold reads_canonical.
Ltac skip := apply wlp_no_reads; [no_reads|intros ? ? ? ? ?].

Lemma meta_keys (keys : list Pubkey) b : key <$> ((fun k => meta_new k b) <$> keys) = keys.
Proof. rewrite <- list_fmap_compose. apply list_fmap_id. Qed.

(** The recipients' accounts are read one by one. *)
Lemma recipients_read accounts seeds token_pda distribution amount recipients :
  forall total count L1 i infos b r t,
  wlp (distribute_to_recipients accounts seeds token_pda distribution amount recipients total count)
    (fun _ s => st_index s = (i + length recipients)%nat /\
       exists read rest, infos = read ++ rest /\ key <$> read = recipient_ata <$> recipients)
    (MkSt L1 i infos b r t).
Proof.
  induction recipients as [|s recipients IH]; intros; cbn [distribute_to_recipients length].
  - ksteps. split; [cbn; lia|]. by exists [], infos.
  - destruct infos as [|info infos]; ksteps. eapply wlp_mono; [|apply IH].
    intros _ s' (Hi & read & rest & -> & Hk). split; [rewrite Hi; lia|].
    exists (info :: read), rest. split; [done|]. cbn. f_equal; done.
Qed.

Lemma initialize_program_reads accounts :
  reads_canonical InitializeProgram accounts (try_initialize_program accounts).
Proof. start_canon. unfold try_initialize_program. ksteps. all: canon ca_initialize_program. Qed.

Lemma migrate_reads accounts :
  reads_canonical MigrateProgramAccounts accounts (try_migrate_program_accounts accounts).
Proof.
  start_canon. eapply wlp_mp; [by apply (migrate_post L)|].
  unfold try_migrate_program_accounts. do 2 step. step.
  destruct accounts as [|m0 [|m1 infos]].
  1,2: unfold upgrade_authority_try_next_accounts; ksteps.
  apply wlp_upgrade_authority. intros. ksteps. 
  intros u s _ (_ & -> & epochs & Hk). cbn [drop] in Hk; rewrite drop_0 in Hk.
  locate. eexists. split; [by apply (ca_migrate L (key m1) epochs)|]. split; [done|].
  f_equal. unfold Client.MigrateProgramAccountsAccounts.metas. rewrite fmap_app, meta_keys.
  cbn. rewrite Hk. keys_match.
Qed.

Lemma set_admin_reads accounts k : reads_canonical (SetAdmin k) accounts (try_set_admin accounts k).
Proof.
  start_canon. unfold try_set_admin. do 2 step. step.
  destruct accounts as [|m0 [|m1 infos]].
  1,2: unfold upgrade_authority_try_next_accounts; ksteps.
  apply wlp_upgrade_authority. intros. ksteps. canon ca_set_admin.
Qed.

Lemma configure_program_reads accounts setting :
  reads_canonical (ConfigureProgram setting) accounts (try_configure_program accounts setting).
Proof. start_canon. unfold try_configure_program. ksteps. all: canon ca_configure_program. Qed.

Lemma initialize_journal_reads accounts :
  reads_canonical InitializeJournal accounts (try_initialize_journal accounts).
Proof. start_canon. unfold try_initialize_journal. ksteps. all: canon ca_initialize_journal. Qed.

Lemma initialize_distribution_reads accounts :
  reads_canonical InitializeDistribution accounts (try_initialize_distribution accounts).
Proof.
  start_canon. eapply wlp_mp; [by apply (initialize_distribution_post L)|].
  unfold try_initialize_distribution, initialize_distribution_config. ksteps.
  unfold initialize_distribution_accounts.
  cbn [nd_current_timestamp nd_calculation_grace_period_seconds nd_fee_params
       nd_community_burn_rate nd_relay_lamports nd_payer_info nd_info nd_dz_epoch nd_key nd_bump].
  ksteps. unfold initialize_distribution_journal. ksteps. skip. subst.
  intros (_ & _ & m7 & m8 & [= <-] & [= <-] & Hj & Ht). rewrite <- ?Hj in *.
  canon ca_initialize_distribution.
Qed.

Lemma configure_debt_reads accounts n debt root :
  reads_canonical (ConfigureDistributionDebt n debt root) accounts
    (try_configure_distribution_debt accounts n debt root).
Proof.
  start_canon. unfold try_configure_distribution_debt. ksteps. all: canon ca_configure_debt.
Qed.

Lemma finalize_debt_reads accounts :
  reads_canonical FinalizeDistributionDebt accounts (try_finalize_distribution_debt accounts).
Proof.
  start_canon. unfold try_finalize_distribution_debt. ksteps; [|skip; ksteps].
  - canon (fun a e => ca_finalize_debt L a e 0).
  - canon ca_finalize_debt.
Qed.

Lemma configure_rewards_reads accounts n root :
  reads_canonical (ConfigureDistributionRewards n root) accounts
    (try_configure_distribution_rewards accounts n root).
Proof.
  start_canon. unfold try_configure_distribution_rewards. ksteps. all: canon ca_configure_rewards.
Qed.

Lemma finalize_rewards_reads accounts :
  reads_canonical FinalizeDistributionRewards accounts (try_finalize_distribution_rewards accounts).
Proof.
  start_canon. unfold try_finalize_distribution_rewards. ksteps. skip. ksteps. canon ca_finalize_rewards.
Qed.

Lemma distribute_reads accounts share rate proof :
  reads_canonical (DistributeRewards share rate proof) accounts
    (try_distribute_rewards accounts share rate proof).
Proof.
  start_canon. unfold try_distribute_rewards, distribute_rewards_accounts. ksteps.
  unfold distribute_rewards_pay. ksteps.
  eapply wlp_mono; [|apply recipients_read].
  intros [total count] [L' i' n' b' r' t'] (Hi & read & tail & -> & Hk). cbn [st_index] in Hi. subst i'.
  skip. locate. pose proof (f_equal length Hk) as Hl. rewrite !length_fmap in Hl.
  eexists. split;
    [apply (ca_distribute L share rate proof (Dist.dz_epoch x0) (Contrib.service_key x1) (key a4))|].
  cbn [st_index length]. rewrite length_app. split; [lia|].
  rewrite (recorded_at _ _ _ _ Hdata1) by assumption.
  unfold Client.DistributeRewardsAccounts.metas. rewrite fmap_app, meta_keys. cbn.
  rewrite <- Hl, fmap_app. keys_match.
  rewrite <- list_fmap_compose. fold recipient_ata in *. change (_ ∘ recipient_key) with recipient_ata.
  rewrite <- Hk, <- (length_fmap key read), take_app_length. by rewrite firstn_all.
Qed.

Lemma initialize_contributor_reads accounts k :
  reads_canonical (InitializeContributorRewards k) accounts
    (try_initialize_contributor_rewards accounts k).
Proof.
  start_canon. unfold try_initialize_contributor_rewards. ksteps. all: canon ca_initialize_contributor.
Qed.

Lemma set_rewards_manager_reads accounts k :
  reads_canonical (SetRewardsManager k) accounts (try_set_rewards_manager accounts k).
Proof. start_canon. unfold try_set_rewards_manager. ksteps. all: canon ca_set_rewards_manager. Qed.

Lemma configure_contributor_reads accounts setting :
  reads_canonical (ConfigureContributorRewards setting) accounts
    (try_configure_contributor_rewards accounts setting).
Proof.
  start_canon. unfold try_configure_contributor_rewards. ksteps. all: canon ca_configure_contributor.
Qed.

Lemma verify_root_reads accounts kind proof :
  reads_canonical (VerifyDistributionMerkleRoot kind proof) accounts
    (try_verify_distribution_merkle_root accounts kind proof).
Proof.
  start_canon. unfold try_verify_distribution_merkle_root. ksteps. all: canon ca_verify_root.
Qed.

Lemma initialize_deposit_reads accounts k :
  reads_canonical (InitializeSolanaValidatorDeposit k) accounts
    (try_initialize_solana_validator_deposit accounts k).
Proof.
  start_canon. unfold try_initialize_solana_validator_deposit. ksteps. all: canon ca_initialize_deposit.
Qed.

Lemma pay_reads accounts amount proof :
  reads_canonical (PaySolanaValidatorDebt amount proof) accounts
    (try_pay_solana_validator_debt accounts amount proof).
Proof. start_canon. unfold try_pay_solana_validator_debt. ksteps. canon ca_pay. Qed.

Lemma enable_write_off_reads accounts :
  reads_canonical EnableSolanaValidatorDebtWriteOff accounts
    (try_enable_solana_validator_debt_write_off accounts).
Proof.
  start_canon. unfold try_enable_solana_validator_debt_write_off. ksteps.
  skip. ksteps. canon ca_enable_write_off.
Qed.

Lemma write_off_reads accounts amount proof :
  reads_canonical (WriteOffSolanaValidatorDebt amount proof) accounts
    (try_write_off_solana_validator_debt accounts amount proof).
Proof.
  start_canon. unfold try_write_off_solana_validator_debt, write_off_debt. ksteps.
  unfold account_write_off. ksteps.
  assert (exists d bits, data (acct L (key a3)) = DistributionData d bits) as (? & ? & ?).
  { clear - Hdata0 Hdata2. destruct (decide (key a1 = key a3)) as [<-|]; [by do 2 eexists|].
    rewrite data_set_data_ne in Hdata2 by done.
    destruct (decide (key a2 = key a3)) as [E|]; [by rewrite E, data_set_data_eq in Hdata2|].
    rewrite data_set_data_ne in Hdata2 by done. by do 2 eexists. }
  canon ca_write_off.
Qed.

Lemma initialize_swap_destination_reads accounts :
  reads_canonical InitializeSwapDestination accounts (try_initialize_swap_destination accounts).
Proof.
  start_canon. unfold try_initialize_swap_destination. ksteps. all: canon ca_initialize_swap_destination.
Qed.

Lemma sweep_reads accounts :
  reads_canonical SweepDistributionTokens accounts (try_sweep_distribution_tokens accounts).
Proof.
  start_canon. unfold try_sweep_distribution_tokens. ksteps.
  - locate. eexists. split; [eapply (ca_sweep L _ 0 0 0); reflexivity|]. split; [cbn; lia|keys_match].
  - unfold dequeue_fills. ksteps. unfold collect_swept_tokens. ksteps. locate. 
    eexists. split; [eapply (ca_sweep L _ (key a2) (key a3) (key a4)); reflexivity|].
    split; [cbn; lia|keys_match].
Qed.

Lemma withdraw_sol_reads accounts amount :
  reads_canonical (WithdrawSol amount) accounts (try_withdraw_sol accounts amount).
Proof. start_canon. unfold try_withdraw_sol. ksteps. all: canon ca_withdraw_sol. Qed.

Lemma economic_burn_rate_reads accounts rate :
  reads_canonical (SetDistributionEconomicBurnRate rate) accounts
    (try_set_distribution_economic_burn_rate accounts rate).
Proof.
  start_canon. unfold try_set_distribution_economic_burn_rate. ksteps. all: canon ca_economic_burn_rate.
Qed.

Lemma withdraw_deposit_reads accounts :
  reads_canonical WithdrawSolanaValidatorDeposit accounts
    (try_withdraw_solana_validator_deposit accounts).
Proof.
  start_canon. unfold try_withdraw_solana_validator_deposit, next_beneficiary. ksteps.
  - canon (fun node => ca_withdraw_deposit L node None).
  - canon (fun node k => ca_withdraw_deposit L node (Some k)).
Qed.

Lemma initialize_integration_reads accounts :
  reads_canonical InitializeRewardsIntegration accounts (try_initialize_rewards_integration accounts).
Proof.
  start_canon. unfold try_initialize_rewards_integration. ksteps.
  match goal with H : foreign_step L ?L', Hj : data (acct ?L' ?k) = JournalData _ _ |- _ =>
    pose proof (journal_at L' (proj1 (good_foreign _ _ Hinv H)) k _ _ Hj) end.
  canon ca_initialize_integration.
Qed.

Lemma collect_reads accounts :
  reads_canonical CollectIntegrationRewards accounts (try_collect_integration_rewards accounts).
Proof.
  start_canon. unfold try_collect_integration_rewards, collect_integration_checks. ksteps.
  all: canon ca_collect.
Qed.

#[local] Hint Resolve
  initialize_program_reads migrate_reads set_admin_reads configure_program_reads
  initialize_journal_reads initialize_distribution_reads configure_debt_reads
  finalize_debt_reads configure_rewards_reads finalize_rewards_reads distribute_reads
  initialize_contributor_reads set_rewards_manager_reads configure_contributor_reads
  verify_root_reads initialize_deposit_reads pay_reads enable_write_off_reads write_off_reads
  initialize_swap_destination_reads sweep_reads withdraw_sol_reads economic_burn_rate_reads
  withdraw_deposit_reads initialize_integration_reads collect_reads : canonical.

(** Whatever the instruction. *)
Lemma process_reads ix accounts : reads_canonical ix accounts (process ix accounts).
Proof.
  destruct ix; cbn [process];
    auto with canonical.
Qed.
End Handlers.

(** ** The property *)
Section Claims.
Context `{R : Runtime RdData} `{!RdLaws R} `{!ProofCodec}.

(** C9: accounts cannot be substituted.  Whatever accounts are sent with an
    instruction, on any ledger the program reaches: if it succeeds, the accounts
    it has read ([st_index] of them) are, position by position, those of a list
    of [client_accounts]: what the client's constructor of that instruction
    derives for some wallets, epochs, nodes, service keys and integration
    programs.  So the program's own accounts and their token accounts are at
    their derived addresses, and the mint, the token program, the associated
    token accounts of the recipients the contributor's account records, the swap
    program the config names and its authority are the expected ones.  Not
    constrained, because the program leaves them to the program it invokes: the
    configuration registry, program state and fills registry of a sweep (any
    three accounts, although the client derives the first two), and the
    integration program's distribution and bucket of a collection. *)
Theorem accounts_are_canonical (L0 L : Ledger RdData) accounts bytes s :
  genesis L0 -> rtc ledger_step L0 L ->
  try_process_instruction ID accounts bytes (initial_state L) = Ok (tt, s) ->
  exists ix, try_from_slice instruction_data bytes = Some ix /\
    canonical L ix accounts (st_index s).
Proof.
  intros Hg Hsteps Hrun.
  pose proof (proj1 (execution_good _ _ (genesis_inv _ Hg) Hsteps)) as Hinv.
  unfold try_process_instruction, ensure, lift, mbind, M_bind in Hrun. cbn in Hrun.
  destruct (try_from_slice instruction_data bytes) as [ix|]; [|done]. cbn in Hrun.
  exists ix. split; [done|]. exact (process_reads L Hinv ix accounts _ _ Hrun).
Qed.
End Claims.
