(* ===== verification/Solvency.v ===== *)
(** * Recorded funds are backed

    In every ledger the program reaches, each of its accounts holds what it
    owes: the journal the SOL balance it records, a finalized distribution the
    relay fees of its outstanding rewards.  The instructions of [Preservation]
    that move lamports or change what is owed are executed once more, following
    the balances. *)

From Stdlib Require Import ZArith Lia.
From S2P Require Import Prelude Types BurnRate Borsh Runtime Lamports ProgramTools State RdAccounts.
From S2P Require Import Rules Steps RdConfig RdDistribution RdRewards RdDebt RdSwap RdIntegration.
From S2P Require Import Lifecycle Invariants Funds Preservation Instruction Program Executions.

(** All the lamports there are: SOL's supply is far below. *)
Definition supply_ok `{KnownPrograms} (L : Ledger RdData) : Prop := total_lamports L < 2 ^ 63.

(** ** Following the balances *)
Section Backed.
Context `{HK : KnownPrograms}.

(** Between two writes of a handler: well-formed, and every debt is covered. *)
Definition backed (L : Ledger RdData) : Prop := ledger_typed L /\ funded L.

Lemma backed_set_data (L : Ledger RdData) k a :
  backed L -> owner (acct L k) = ID -> wf_data a -> rd_data_len a <= MAX_PERMITTED_DATA_LENGTH ->
  owed a <= lamports (acct L k) -> backed (set_data L k a).
Proof.
  intros [Ht Hf] Ho Hw Hl Ha. split.
  - apply ledger_typed_set; [done| |done]. split_and!; [done|done|]. apply ledger_wf_lamports, Ht.
  - intros k'. rewrite lamports_set_data. destruct (decide (k = k')) as [<-|].
    + by rewrite data_set_data_eq.
    + by rewrite data_set_data_ne.
Qed.

Lemma backed_set_lamports (L : Ledger RdData) k n :
  backed L -> fits 64 n -> owed (data (acct L k)) <= n -> backed (set_lamports L k n).
Proof.
  intros [Ht Hf] Hn Ha. split.
  - destruct (ledger_wf_acct L k (proj1 Ht)) as (? & ? & _).
    apply ledger_typed_set; [done|done|]. apply Ht.
  - intros k'. rewrite data_set_lamports. destruct (decide (k = k')) as [<-|].
    + by rewrite lamports_set_lamports_eq.
    + by rewrite lamports_set_lamports_ne.
Qed.

Lemma backed_foreign_at (L L' : Ledger RdData) k :
  ledger_typed L -> foreign_step L L' -> owed (data (acct L k)) <= lamports (acct L k) ->
  owed (data (acct L' k)) <= lamports (acct L' k).
Proof.
  intros Ht (Hp & Hb & Ht') Hk. destruct (Ht' Ht) as [HL' Hown].
  destruct (typed (data (acct L' k))) eqn:E.
  - pose proof (Hown k E) as Ho. destruct (Hp k Ho) as [-> _]. specialize (Hb k Ho). lia.
  - rewrite (owed_untyped _ E). apply (ledger_wf_lamports L' k), HL'.
Qed.

Lemma backed_foreign (L L' : Ledger RdData) : backed L -> foreign_step L L' -> backed L'.
Proof.
  intros [Ht Hf] Hs. split; [by apply Hs|]. intros k. by eapply backed_foreign_at.
Qed.

(** Between two writes of an account, other programs take steps. *)
Lemma backed_write_around (L : Ledger RdData) k a1 a2 L1 :
  backed L -> owner (acct L k) = ID -> wf_data a1 -> wf_data a2 ->
  rd_data_len a1 <= MAX_PERMITTED_DATA_LENGTH -> rd_data_len a2 <= MAX_PERMITTED_DATA_LENGTH ->
  owed a1 <= lamports (acct L k) -> owed a2 <= lamports (acct L k) ->
  foreign_step (set_data L k a1) L1 ->
  backed (set_data L1 k a2) /\ owner (acct L1 k) = ID /\ lamports (acct L k) <= lamports (acct L1 k).
Proof.
  intros Hb Ho Hw1 Hw2 Hl1 Hl2 H1 H2 Hf.
  assert (backed (set_data L k a1)) as Hb1 by by apply backed_set_data.
  pose proof (backed_foreign _ _ Hb1 Hf) as Hb'. destruct Hf as (Hp & Hb2 & _).
  specialize (Hp k). specialize (Hb2 k). rewrite owner_set_data, lamports_set_data in *.
  specialize (Hb2 Ho). destruct (Hp Ho) as [_ Ho'].
  split; [apply backed_set_data; done || lia|by split].
Qed.

Lemma backed_lamports (L : Ledger RdData) k : backed L -> fits 64 (lamports (acct L k)).
Proof. intros [[Hw _] _]. by apply ledger_wf_lamports. Qed.

Lemma backed_owed (L : Ledger RdData) k a :
  backed L -> data (acct L k) = a -> owed a <= lamports (acct L k).
Proof. intros [_ Hf] <-. apply Hf. Qed.

Lemma owed_nonneg (L : Ledger RdData) k : ledger_typed L -> 0 <= owed (data (acct L k)).
Proof.
  intros [Hw _]. destruct (data (acct L k)) eqn:E; cbn [owed]; try done.
  - case_match; [|done]. unfold outstanding_rewards.
    pose proof (ledger_wf_data _ _ _ Hw E) as Hwd. apply Z.mul_nonneg_nonneg; [nonneg|lia].
  - pose proof (ledger_wf_data _ _ _ Hw E) as Hwd. nonneg.
Qed.

Lemma typed_solvent (L : Ledger RdData) : ledger_typed L -> solvent L.
Proof. intros [Hw _] k. apply (ledger_wf_lamports L k Hw). Qed.

Lemma supply_lamports (L : Ledger RdData) k :
  ledger_typed L -> supply_ok L -> 0 <= lamports (acct L k) < 2 ^ 63.
Proof.
  intros Ht Hs. pose proof (typed_solvent _ Ht k).
  pose proof (lamports_le_total L k (typed_solvent _ Ht)). unfold supply_ok in Hs. lia.
Qed.
(** Moving lamports the first account has, beyond what it owes: neither side
    wraps when the ledger's total is unchanged. *)
Lemma backed_transfer `{BuildProfile} (L : Ledger RdData) from to n l1 l2 :
  backed L -> 0 <= n -> owed (data (acct L from)) + n <= lamports (acct L from) ->
  0 <= owed (data (acct L from)) ->
  arith_sub 64 (lamports (acct L from)) n = Ok l1 ->
  arith_add 64 (lamports (acct (set_lamports L from l1) to)) n = Ok l2 ->
  total_lamports (set_lamports (set_lamports L from l1) to l2) = total_lamports L ->
  backed (set_lamports (set_lamports L from l1) to l2) /\
  l1 = lamports (acct L from) - n /\ l2 = lamports (acct (set_lamports L from l1) to) + n.
Proof.
  intros Hb Hn Hle Ho H1 H2 Ht. pose proof (backed_lamports _ from Hb) as Hf. unfold fits in Hf.
  rewrite arith_sub_exact in H1 by lia. injection H1 as <-.
  assert (backed (set_lamports L from (lamports (acct L from) - n))) as Hb1
    by (apply backed_set_lamports; [done|unfold fits; lia|lia]).
  pose proof (backed_lamports _ to Hb1) as Hto.
  assert (fits 64 l2) as Hl2 by (eapply arith_add_fits; [| | |exact H2]; [lia|apply Hto|lia]).
  rewrite !total_set_lamports in Ht.
  apply arith_add_cases in H2; [|lia|done|unfold fits; lia].
  assert (l2 = lamports (acct (set_lamports L from (lamports (acct L from) - n)) to) + n) as -> by lia.
  split_and!; [|done|done]. apply backed_set_lamports; [done|done|].
  pose proof (backed_owed _ to _ Hb1 eq_refl). lia.
Qed.
(** Reimbursing [from]'s expense the other way round: the credit comes first. *)
Lemma backed_reimburse `{BuildProfile} (L : Ledger RdData) from to n l1 l2 :
  backed L -> supply_ok L -> 0 <= n < 2 ^ 32 ->
  owed (data (acct L from)) + n <= lamports (acct L from) ->
  arith_add 64 (lamports (acct L to)) n = Ok l1 ->
  arith_sub 64 (lamports (acct (set_lamports L to l1) from)) n = Ok l2 ->
  backed (set_lamports (set_lamports L to l1) from l2).
Proof.
  intros Hb Hs Hn Hle H1 H2. pose proof (supply_lamports L to (proj1 Hb) Hs).
  rewrite arith_add_exact in H1 by lia. injection H1 as <-.
  assert (backed (set_lamports L to (lamports (acct L to) + n))) as Hb1.
  { apply backed_set_lamports; [done|unfold fits; lia|].
    pose proof (backed_owed _ to _ Hb eq_refl). lia. }
  pose proof (backed_lamports _ from Hb1) as Hf. unfold fits in Hf.
  assert (owed (data (acct L from)) + n <= lamports (acct (set_lamports L to (lamports (acct L to) + n)) from)).
  { destruct (decide (to = from)) as [->|]; [rewrite lamports_set_lamports_eq; lia|].
    by rewrite lamports_set_lamports_ne. }
  pose proof (owed_nonneg _ from (proj1 Hb)).
  rewrite arith_sub_exact in H2 by lia. injection H2 as <-.
  apply backed_set_lamports; [done|unfold fits; lia|]. rewrite data_set_lamports. lia.
Qed.
End Backed.

(** ** The instructions that move what is owed *)
Section Handlers.
Context `{R : Runtime RdData} `{!RdLaws R}.
Context (L : Ledger RdData) (Hinv : ledger_inv L) (Hfunded : funded L) (Hsupply : supply_ok L).

Let Hwf : ledger_wf L := inv_wf _ Hinv.
Let Hstart : backed L := conj (li_typed _ Hinv) Hfunded.

Definition settles (m : M RdData unit) : Prop :=
  wlp m (fun _ s => total_lamports (st_ledger s) = total_lamports L -> backed (st_ledger s))
    (MkSt L 0 [] [] None []).

(** A write of a handler into an account it knows: the struct has its fields in
    their widths, and does not owe more than it did. *)

Ltac grow L Hwf Hd :=
  match goal with
  | |- wlp (grow_distribution _ (additional_data_len ?n)) _ _ =>
      match type of Hd with
      | data (acct _ _) = DistributionData _ ?bits =>
          let Hlen := fresh "Hlen" in let Hn := fresh "Hn" in
          pose proof (ledger_wf_rest _ _ _ _ Hwf Hd) as Hlen;
          assert (fits 32 n) as Hn by fit;
          destruct (grown_fits n bits Hn Hlen);
          assert (bytes_ok (grown bits n))
            by (apply grown_bytes;
                match goal with H : wf_data (DistributionData _ bits) |- _ => exact (proj2 H) end);
          eapply wlp_grow_distribution; [view_read|exact Hn|done|];
          rewrite set_data_set_data; intros ?;
          rewrite grown_end, as_u32_lenZ in * by (exact Hlen || exact Hn || apply Hn)
      end
  end.

Ltac backed_write :=
  apply backed_set_data;
    [first [assumption | exact Hstart]|own
    |split; [wf_struct|first [assumption | match goal with W : wf_data _ |- _ => exact (proj2 W) end]]| |].

Lemma known_length k a : data (acct L k) = a -> rd_data_len a <= MAX_PERMITTED_DATA_LENGTH.
Proof. intros <-. apply (ledger_wf_acct L k Hwf). Qed.

Lemma pay_funds accounts amount proof :
  fits 64 amount -> settles (try_pay_solana_validator_debt accounts amount proof).
Proof.
  intros Ham. unfold settles, try_pay_solana_validator_debt. ksteps. guards. wf_facts. marks.
  cbn [st_ledger]. rewrite total_set_data. intros Ht.
  pose proof (known_length _ _ Hdata0) as Hl0. pose proof (known_length _ _ Hdata2) as Hl2.
  match goal with H : arith_add 64 (Jrnl.total_sol_balance _) _ = Ok _ |- _ => rename H into Hbal end.
  match goal with |- context [set_lamports (set_lamports ?X _ _) _ _] => set (L1 := X) in * end.
  assert (backed L1) as Hb1.
  { unfold L1. backed_write; [cbn [rd_data_len] in *; by rewrite Hlength|].
    etransitivity; [|exact (backed_owed _ _ _ Hstart Hdata0)]. by apply owed_distribution; [|right]. }
  assert (data (acct L1 (key a1)) = DepositData x1 rest1) as E1 by (unfold L1; view_read).
  assert (data (acct L1 (key a2)) = JournalData x2 rest2) as E2 by (unfold L1; view_read).
  assert (key a1 <> key a2) as Hne' by congruence.
  pose proof (backed_owed _ _ _ Hb1 E2) as Howed. cbn [owed] in Howed.
  match goal with H : amount <= saturating_sub _ _ |- _ => rewrite saturating_sub_spec in H end.
  destruct (backed_transfer L1 (key a1) (key a2) amount l l0) as (Hb2 & _ & ->); try done.
  - apply Ham.
  - rewrite E1. cbn [owed]. pose proof (backed_lamports _ (key a1) Hb1) as [? _].
    assert (0 <= deposit_rent) by apply minimum_balance_u64. destruct Ham. lia.
  - rewrite E1. done.
  - rewrite Ht. unfold L1. by rewrite total_set_data.
  - pose proof (backed_lamports _ (key a2) Hb2) as Hfit. ledger.
    rewrite lamports_set_lamports_eq in Hfit. rewrite lamports_set_lamports_ne in * by done.
    rewrite arith_add_exact in Hbal by (destruct Hfit; lia). injection Hbal as <-.
    apply backed_set_data; [done|unfold L1; own|split; [wf_struct|by apply H9]|exact Hl2| ].
    ledger. cbn. lia.
Qed.

Lemma withdraw_sol_funds accounts amount :
  fits 64 amount -> settles (try_withdraw_sol accounts amount).
Proof.
  intros Ham. unfold settles, try_withdraw_sol. ksteps. guards. wf_facts.
  match goal with H : sibling_transfer_amount _ = Ok _ |- _ => apply sibling_amount_fits in H end.
  unfold journal_after_withdrawal in *. res_inv. cbn [st_ledger].
  pose proof (known_length _ _ Hdata0) as Hl0.
  match goal with H : arith_sub 64 (Jrnl.total_sol_balance _) _ = Ok _ |- _ =>
    rewrite arith_sub_exact in H by done; injection H as <- end.
  match goal with |- context [set_lamports (set_lamports ?X _ _) _ _] => set (L1 := X) in * end.
  pose proof (backed_owed _ _ _ Hstart Hdata0) as Howed. cbn [owed] in Howed.
  assert (0 <= amount) by apply Ham.
  assert (backed L1) as Hb1 by (unfold L1; backed_write; [exact Hl0|cbn; lia]).
  assert (owed (data (acct L1 (key a1))) = Jrnl.total_sol_balance x0 - amount) as E
    by (unfold L1; by rewrite data_set_data_eq).
  assert (lamports (acct L1 (key a1)) = lamports (acct L (key a1))) as El
    by (unfold L1; apply lamports_set_data).
  intros Ht. eapply backed_transfer; [exact Hb1|done|lia|lia|eassumption|eassumption|].
  rewrite Ht. unfold L1. by rewrite total_set_data.
Qed.

Lemma saturating_sub_le a b : 0 <= a -> 0 <= b -> 0 <= saturating_sub a b <= a.
Proof. rewrite saturating_sub_spec. lia. Qed.

Lemma withdraw_deposit_funds accounts : settles (try_withdraw_solana_validator_deposit accounts).
Proof.
  unfold settles, try_withdraw_solana_validator_deposit, next_beneficiary. ksteps.
  all: guards; wf_facts; cbn [st_ledger]; intros Ht.
  all: pose proof (backed_lamports _ (key a0) Hstart) as [Hn _].
  all: assert (0 <= deposit_rent) as Hr by apply minimum_balance_u64.
  all: pose proof (saturating_sub_le _ _ Hn Hr) as [Hs1 Hs2].
  all: assert (0 <= Depo.written_off_sol_debt x0) as Hw by nonneg.
  all: pose proof (saturating_sub_le _ _ Hs1 Hw) as [Hs3 Hs4].
  all: eapply backed_transfer; [exact Hstart|exact Hs3|rewrite Hdata0; cbn [owed]; lia|by rewrite Hdata0
         |eassumption|eassumption|exact Ht].
Qed.

(** The relay fees transferred on finalization cover every reward. *)
Lemma prepaid_fees fee count rent :
  fits 32 fee -> fits 32 count -> 0 <= rent ->
  fee * count <= saturating_add 64 (saturating_mul 64 fee count) rent.
Proof. unfold fits, saturating_add, saturating_mul, umax. intros. nia. Qed.

Lemma outstanding_fees d bits :
  0 <= Dist.distribute_rewards_relay_lamports d -> 0 <= Dist.distributed_rewards_count d ->
  0 <= Dist.total_contributors d ->
  owed (DistributionData d bits) <= Dist.distribute_rewards_relay_lamports d * Dist.total_contributors d.
Proof. cbn [owed]. unfold outstanding_rewards. intros. case_match; nia. Qed.

Lemma finalize_rewards_funds accounts : settles (try_finalize_distribution_rewards accounts).
Proof.
  unfold settles, try_finalize_distribution_rewards. ksteps. guards. wf_facts.
  grow L Hwf Hdata0.
  repeat lazymatch goal with
  | |- wlp (invoke_signed _ (SystemTransfer _ _ _) _ _) _ _ => fail
  | _ => kstep
  end.
  apply wlp_invoke_signed. intros L1 r Hcpi. cbn [st_ledger]. intros _.
  match type of Hcpi with invoke_cpi _ _ _ _ (set_data _ _ (DistributionData ?x' _)) = _ => set (d' := x') in * end.
  cbn [st_ledger]. change (backed L1).
  pose proof (cpi_foreign_step _ _ _ _ _ _ Hcpi eq_refl) as Hf.
  pose proof (cpi_system_transfer _ _ _ _ _ _ _ _ _ Hcpi) as (_ & Hwallet & Hmove).
  assert (ledger_typed (set_data L (key a0) (DistributionData d' (grown rest0 (Dist.total_contributors x0)))))
    as Ht.
  { apply ledger_typed_set; [apply Hinv| |done]. split_and!; [split; [wf_struct|done]|done|].
    by apply ledger_wf_lamports. }
  split; [by apply Hf|]. intros k. destruct (decide (k = key a0)) as [->|Hne].
  - destruct (foreign_preserves _ _ Hf (key a0)) as [-> _]; [by rewrite owner_set_data|].
    rewrite data_set_data_eq. unfold owed, d'.
    set (n := saturating_add 64 _ _) in *.
    assert (Dist.distribute_rewards_relay_lamports x0 * Dist.total_contributors x0 <= n) as Hfees.
    { apply prepaid_fees; [fit|fit|]. apply Z.le_max_r. }
    eapply Z.le_trans; [by apply (outstanding_fees d' []); cbn; nonneg|].
    eapply Z.le_trans; [exact Hfees|].
    pose proof (ledger_wf_lamports L (key a0) Hwf) as [? _].
    destruct (decide (key a1 = key a0)) as [E|E].
    + destruct (decide (0 < n)) as [Hpos|]; [|pose proof (ledger_wf_lamports L1 (key a0) (proj1 (proj1 (proj2 (proj2 Hf) Ht)))) as [? _]; lia].
      specialize (Hwallet Hpos). rewrite E, owner_set_data in Hwallet. destruct rd_id_not_system. congruence.
    + destruct (Hmove E) as [_ ->]. rewrite lamports_set_data. lia.
  - eapply backed_foreign_at; [exact Ht|exact Hf|].
    rewrite data_set_data_ne, lamports_set_data by done. apply Hfunded.
Qed.

Lemma owed_distributed d bits d' bits' :
  Dist.is_rewards_calculation_finalized d = true ->
  Dist.distributed_rewards_count d < Dist.total_contributors d ->
  Dist.is_rewards_calculation_finalized d' = Dist.is_rewards_calculation_finalized d ->
  Dist.distribute_rewards_relay_lamports d' = Dist.distribute_rewards_relay_lamports d ->
  Dist.total_contributors d' = Dist.total_contributors d ->
  Dist.distributed_rewards_count d' = Dist.distributed_rewards_count d + 1 ->
  owed (DistributionData d' bits') + Dist.distribute_rewards_relay_lamports d'
    <= owed (DistributionData d bits).
Proof. cbn [owed]. unfold outstanding_rewards. intros E Hlt -> -> -> ->. rewrite E, !Z.max_r by lia. lia. Qed.

Lemma distribute_funds accounts unit_share rate proof :
  fits 32 unit_share -> settles (try_distribute_rewards accounts unit_share rate proof).
Proof.
  intros Hu. unfold settles, try_distribute_rewards, distribute_rewards_accounts. ksteps.
  unfold distribute_rewards_pay. ksteps. guards. wf_facts. marks.
  destruct (reward_bounds L Hinv _ _ _ _ _ _ v1 z z0 Hdata0 Hdata1) as (? & ? & Hzz & [Hvalid _] & Hsent);
    [erewrite reward_new_share by eassumption; nonneg|congruence|].
  apply wlp_distribute_to_recipients; [done|unfold fits; lia|lia|lia|].
  intros L1 i' infos' r' Hforeign Hbalanced _. pose proof (foreign_preserves _ _ Hforeign) as Hcpi.
  rewrite Z.add_0_l. ksteps. cbn [st_ledger]. intros _.
  pose proof (known_length _ _ Hdata0) as Hl0. cbn [rd_data_len] in Hl0.
  assert (Dist.is_rewards_calculation_finalized x0 = true) as Hfin
    by (apply (inv_distribution _ _ _ _ Hinv Hdata0); assumption).
  assert (Dist.distributed_rewards_count x0 < Dist.total_contributors x0) as Hcount
    by (unfold Dist.are_all_rewards_distributed in *; rewrite saturating_sub_spec in *; bool_to_prop; lia).
  assert (fits 32 (Dist.total_contributors x0)) as [_ Hmax] by fit.
  match goal with H : arith_add 32 _ 1 = Ok _ |- _ => rewrite arith_add_exact in H by lia; injection H as <- end.
  rewrite arith_sub_exact in * by lia. res_inv.
  match goal with H : arith_add 64 z _ = Ok ?v |- _ => assert (fits 64 v) by width end.
  match goal with Hf : foreign_step (set_data L1 _ (DistributionData ?x' _)) L0 |- _ => set (d' := x') in * end.
  assert (owed (DistributionData d' rest') + Dist.distribute_rewards_relay_lamports d'
          <= owed (DistributionData x0 rest0)) as Hless.
  { by apply owed_distributed. }
  pose proof (backed_owed _ _ _ Hstart Hdata0) as Howed.
  assert (0 <= Dist.distribute_rewards_relay_lamports d' < 2 ^ 32) as Hrelay.
  { change (fits 32 (Dist.distribute_rewards_relay_lamports x0)). fit. }
  destruct (backed_write_around L (key a0) (DistributionData x0 rest') (DistributionData d' rest') L1)
    as (Hb1 & Ho & Hle1); try done; try (cbn [rd_data_len]; by rewrite Hlength).
  { split; [|done]. match goal with W : wf_data (DistributionData x0 _) |- _ => apply W end. }
  { split; [subst d'; wf_struct|done]. }
  { lia. }
  eapply backed_reimburse; [by eapply backed_foreign| |exact Hrelay| |eassumption|eassumption].
  - unfold supply_ok in *. rewrite Hbalanced0, total_set_data, Hbalanced, total_set_data. exact Hsupply.
  - destruct Hforeign0 as (Hp & Hb & _). specialize (Hb (key a0)). specialize (Hp (key a0)).
    rewrite owner_set_data, data_set_data_eq, lamports_set_data in *.
    destruct (Hp Ho) as [-> _]. specialize (Hb Ho). lia.
Qed.
End Handlers.

(** ** Histories *)
Section Settled.
Context `{R : Runtime RdData} `{!RdLaws R} `{!ProofCodec}.

Lemma settles_run (L L' : Ledger RdData) m trace :
  settles L m -> run m L = Ok (L', trace) -> total_lamports L' = total_lamports L -> backed L'.
Proof.
  intros Hs Hr. exact (run_post _ _ _ _ (fun L' => total_lamports L' = total_lamports L -> backed L') Hr Hs).
Qed.

Lemma process_backed (L L' : Ledger RdData) ix accounts trace :
  ledger_inv L -> funded L -> supply_ok L ->
  instruction_valid ix -> Forall (fun info => fits 256 (key info)) accounts ->
  run (process ix accounts) L = Ok (L', trace) -> total_lamports L' = total_lamports L ->
  funded L'.
Proof.
  intros Hinv Hf Hs Hv Hk Hrun Ht. destruct (calm ix) eqn:Hc.
  - pose proof (keeps_run _ _ _ _ _ _ (process_keeps L Hinv ix accounts Hv Hk) Hrun) as (Hg & Hfunds & _).
    eapply funds_le_funded; [apply Hg|by apply Hfunds|done].
  - destruct ix; try discriminate Hc; cbn [process instruction_valid] in *;
      (eapply settles_run; [|exact Hrun|exact Ht]).
    + by apply finalize_rewards_funds.
    + apply distribute_funds; try done. apply Hv.
    + apply pay_funds; try done. apply Hv.
    + by apply withdraw_sol_funds.
    + by apply withdraw_deposit_funds.
Qed.
End Settled.

Section Executions.
Context `{HP : Pda} `{HK : KnownPrograms} `{HB : BuildProfile}.

(** A step of a history in which the runtime keeps the books: an instruction
    leaves the total as it is, and there is never more SOL than the supply. *)
Inductive balanced_step (L L' : Ledger RdData) : Prop :=
  | balanced_instruction :
      instruction_step L L' -> total_lamports L' = total_lamports L -> balanced_step L L'
  | balanced_foreign : foreign_step L L' -> supply_ok L' -> balanced_step L L'.

Lemma balanced_step_funded (L L' : Ledger RdData) :
  ledger_inv L -> supply_ok L -> funded L -> balanced_step L L' ->
  ledger_inv L' /\ supply_ok L' /\ funded L'.
Proof.
  intros Hinv Hs Hf [Hi Ht|Hi Hs'].
  - pose proof (ledger_step_good _ _ Hinv (step_instruction _ _ Hi)) as [Hinv' _].
    split_and!; [done|unfold supply_ok in *; lia|].
    destruct Hi as [R HR HC accounts bytes trace HP' HK' HB' Hb Hk Hrun]. clear Hinv'.
    revert Hinv Hs Hf Ht. rewrite <- HP', <- HK'. intros Hinv Hs Hf Ht.
    apply entrypoint_ok in Hrun as (ix & Hv & _ & Hrun); [|done].
    by eapply process_backed.
  - destruct (good_foreign _ _ Hinv Hi) as [Hinv' _].
    split_and!; [done|done|]. apply (funds_le_funded L L'); [done|by apply funds_foreign|done].
Qed.

(** C6: recorded funds are backed.  Whatever instructions are sent to the
    program and whatever other programs do, as long as the runtime checks that
    instructions conserve lamports, every account of a ledger the program reaches
    holds what the program says it does: the journal at least its recorded SOL
    balance, a distribution with finalized rewards at least the relay fee of
    every reward still to be distributed, in any build profile. *)
Theorem recorded_funds_are_backed (L0 L : Ledger RdData) k :
  genesis L0 -> supply_ok L0 -> rtc balanced_step L0 L ->
  match data (acct L k) with
  | JournalData j _ => Jrnl.total_sol_balance j <= lamports (acct L k)
  | DistributionData d _ =>
      Dist.is_rewards_calculation_finalized d = true ->
      Dist.distribute_rewards_relay_lamports d
        * (Dist.total_contributors d - Dist.distributed_rewards_count d) <= lamports (acct L k)
  | _ => True
  end.
Proof.
  intros Hg Hs Hsteps.
  assert (funded L0) as Hf0.
  { intros k'. rewrite owed_untyped by apply Hg. apply (ledger_wf_lamports L0 k'), Hg. }
  assert (ledger_inv L /\ funded L) as [Hinv Hf].
  { pose proof (genesis_inv _ Hg) as Hinv. clear Hg. induction Hsteps as [L|L1 L2 L3 H1 _ IH]; [done|].
    destruct (balanced_step_funded _ _ Hinv Hs Hf0 H1) as (? & ? & ?). by apply IH. }
  specialize (Hf k). destruct (data (acct L k)) eqn:E; try done. cbn [owed] in Hf. intros Hfin.
  rewrite Hfin in Hf. etransitivity; [|exact Hf]. unfold outstanding_rewards.
  pose proof (ledger_wf_data _ _ _ (inv_wf _ Hinv) E).
  apply Z.mul_le_mono_nonneg_l; [nonneg|lia].
Qed.
End Executions.
