(* ===== verification/Accounting.v ===== *)
(** * Accounting

    The books of [Books] are balanced in every ledger the program reaches: most
    instructions make no entry ([even]); a payment, a withdrawal and a sweep
    make two that cancel out. *)

From Stdlib Require Import ZArith Lia.
From S2P Require Import Prelude Types BurnRate Borsh Runtime Lamports ProgramTools State RdAccounts Rules Steps.
From S2P Require Import RdConfig RdDistribution RdDebt RdSwap Lifecycle Invariants Books Funds.
From S2P Require Import Preservation Instruction Program Executions.

(** ** The instructions that make entries *)
Section Handlers.
Context `{R : Runtime RdData} `{!RdLaws R}.
Context (L : Ledger RdData) (Hinv : ledger_inv L).

Let Hwf : ledger_wf L := inv_wf _ Hinv.

(** [m], started on [L], leaves the books as they are. *)
Definition balances (m : M RdData unit) : Prop :=
  wlp m (fun _ s => forall b, congruent (modulus b) (books b (st_ledger s)) (books b L))
    (MkSt L 0 [] [] None []).

(** Takes the entries off the final ledger. *)
Ltac enter :=
  repeat first
    [ rewrite books_set_lamports
    | erewrite books_set_data by view_read
    | match goal with H : foreign_step ?X ?Y, Hi : ledger_inv ?X |- context [books ?b ?Y] =>
        rewrite (spares_books all_items X Y b) by (exact (spares_foreign _ X Y Hi H) || done) end ].

(** The amounts entered, up to the modulus of the book. *)
Ltac amounts b :=
  cbn [entry]; unfold swept_debt; dist_simpl;
  repeat match goal with H : ?c = false |- context [if ?c then _ else _] => rewrite H end;
  cbn [update Jrnl.total_sol_balance Jrnl.swapped_sol_amount Jrnl.swap_2z_destination_balance
       Jrnl.lifetime_swapped_2z_amount] in *;
  repeat match goal with
  | H : arith_add 64 _ _ = Ok ?v |- context [?v] =>
      rewrite (arith_add_congruent b _ _ _ H); clear H
  | H : arith_sub 64 _ _ = Ok ?v |- context [?v] =>
      rewrite (arith_sub_congruent b _ _ _ H); clear H
  | |- context [wrap 128 ?x] =>
      rewrite (congruent_wrap _ 128 x ltac:(done) modulus_128)
  end.

Ltac settle := intros []; enter; [amounts SolBook|amounts SwapBook]; apply congruent_eq.

Lemma pay_books accounts amount proof : balances (try_pay_solana_validator_debt accounts amount proof).
Proof.
  unfold balances, try_pay_solana_validator_debt. ksteps. guards. cbn [st_ledger]. settle; lia.
Qed.

Lemma withdraw_sol_books accounts amount : balances (try_withdraw_sol accounts amount).
Proof.
  unfold balances, try_withdraw_sol. ksteps. guards.
  unfold journal_after_withdrawal in *. res_inv. cbn [st_ledger]. settle; lia.
Qed.

(** A ledger on the way, when another program is called. *)
Ltac good_on_the_way :=
  repeat match goal with
  | H : foreign_step ?X _ |- _ =>
      lazymatch goal with
      | _ : ledger_inv X |- _ => fail
      | _ => assert (ledger_inv X)
               by (apply (kept_good true no_items L); keep;
                   [by apply op_sweep|..]; apply op_converted; by dist_simpl)
      end
  end.

Lemma sweep_books accounts : balances (try_sweep_distribution_tokens accounts).
Proof.
  unfold balances, try_sweep_distribution_tokens. ksteps.
  - guards. cbn [st_ledger]. 
    settle; lia.
  - unfold dequeue_fills. ksteps. unfold collect_swept_tokens. ksteps. guards. wf_facts. cbn [st_ledger].
    match goal with H : try_from_slice _ _ = Some _ |- _ =>
      apply dequeued_amount_fits in H; [|assumption] end.
    destruct (inv_distribution _ _ _ _ Hinv Hdata0) as [Hok _].
    pose proof (do_converted_after_sweep _ _ Hok H0) as Hnone.
    good_on_the_way.
    settle; lia.
Qed.
End Handlers.

(** ** Histories *)
Section Instruction.
Context `{R : Runtime RdData} `{!RdLaws R} `{!ProofCodec}.

Lemma balances_run (L L' : Ledger RdData) m trace b :
  balances L m -> run m L = Ok (L', trace) -> congruent (modulus b) (books b L') (books b L).
Proof.
  intros Hb Hr.
  exact (run_post _ _ _ _ (fun L' => forall b, congruent (modulus b) (books b L') (books b L)) Hr Hb b).
Qed.

Lemma process_books (L L' : Ledger RdData) ix accounts trace b :
  ledger_inv L -> instruction_valid ix -> Forall (fun info => fits 256 (key info)) accounts ->
  run (process ix accounts) L = Ok (L', trace) -> congruent (modulus b) (books b L') (books b L).
Proof.
  intros Hinv Hv Hk Hrun.
  destruct (keeps_run _ _ _ _ _ _ (process_keeps L Hinv ix accounts Hv Hk) Hrun) as (_ & _ & Hs).
  destruct ix; cbn [process even] in *;
    try (by rewrite (spares_books _ _ _ _ Hs) by done); (eapply balances_run; [|exact Hrun]).
  - by apply pay_books.
  - by apply sweep_books.
  - by apply withdraw_sol_books.
Qed.
End Instruction.

Section Executions.
Context `{HP : Pda} `{HK : KnownPrograms} `{HB : BuildProfile}.

Lemma ledger_step_books (L L' : Ledger RdData) b :
  ledger_inv L -> ledger_step L L' -> congruent (modulus b) (books b L') (books b L).
Proof.
  intros Hinv [[R HR HC accounts bytes trace HP' HK' HB' Hb Hk Hrun]|Hf].
  - revert Hinv. rewrite <- HP', <- HK', <- HB'. intros Hinv.
    apply entrypoint_ok in Hrun as (ix & Hv & _ & Hrun); [|done]. by eapply process_books.
  - by rewrite (spares_books all_items L L') by (done || by apply spares_foreign).
Qed.

Lemma execution_books (L L' : Ledger RdData) b :
  ledger_inv L -> rtc ledger_step L L' -> congruent (modulus b) (books b L') (books b L).
Proof.
  intros Hinv H. induction H as [L|L L1 L2 H1 _ IH]; [done|].
  rewrite IH by apply (ledger_step_good _ _ Hinv H1). by apply ledger_step_books.
Qed.

Lemma genesis_books (L : Ledger RdData) b : genesis L -> books b L = 0.
Proof.
  intros [_ Ht]. unfold books.
  rewrite (account_sum_single (fun a => entry b (data a)) ltac:(by destruct b) L 0);
    intros; by apply entry_untyped.
Qed.

(** C7: the books balance.  Whatever instructions are sent to the program and
    whatever other programs do, in every ledger it reaches the SOL collected by
    all distributions is what the journal still holds, plus what was swapped and
    not swept, plus the debt of the swept distributions; and the 2Z ever paid
    for SOL is the balance of the swap destination plus what the swept
    distributions received.  A build with overflow checks keeps the first
    equation exactly, and the second as far as the 128 bits of the lifetime
    total go; any other build keeps both modulo 2^64, to which its amounts
    wrap. *)
Theorem books_balance (L0 L : Ledger RdData) :
  genesis L0 -> rtc ledger_step L0 L ->
  let j := journal_of L in
  let collected := distribution_sum Dist.collected_solana_validator_payments L in
  let held := Jrnl.total_sol_balance j + Jrnl.swapped_sol_amount j + distribution_sum swept_debt L in
  let paid := Jrnl.lifetime_swapped_2z_amount j in
  let received :=
    Jrnl.swap_2z_destination_balance j + distribution_sum Dist.collected_2z_converted_from_sol L in
  if overflow_checks then collected = held /\ congruent (2 ^ 128) paid received
  else congruent (2 ^ 64) collected held /\ congruent (2 ^ 64) paid received.
Proof.
  intros Hg Hsteps. pose proof (genesis_inv _ Hg) as Hinv0.
  pose proof (proj1 (execution_good _ _ Hinv0 Hsteps)) as Hinv. intros j collected held paid received.
  pose proof (execution_books _ _ SolBook Hinv0 Hsteps) as Hsol.
  pose proof (execution_books _ _ SwapBook Hinv0 Hsteps) as Hswap.
  rewrite (genesis_books L0) in Hsol, Hswap by done.
  rewrite (books_sol L) in Hsol by done. rewrite (books_swap L) in Hswap by done.
  fold j collected in Hsol. fold j in Hswap.
  assert (congruent (modulus SolBook) collected held) as H1.
  { destruct Hsol as [q E]. exists q. unfold held. lia. }
  assert (congruent (modulus SwapBook) paid received) as H2.
  { destruct Hswap as [q E]. exists (- q). unfold received, paid. lia. }
  unfold modulus in H1, H2. destruct overflow_checks; split; try done. by apply congruent_0.
Qed.
End Executions.
