(* ===== verification/Sequences.v ===== *)
(** * Sequences

    The sequences of [Books] have no gap: in every ledger the program reaches,
    the accounts of a sequence are numbered from 0 up to its counter.  Most
    instructions spare a sequence; one adds to it, and then the account added
    gets the next number and the counter moves on.  So distributions exist for
    all completed epochs, are swept in the order of their epochs, and all
    integrations are registered. *)

From Stdlib Require Import ZArith Lia.
From S2P Require Import Prelude Types BurnRate Borsh Runtime ProgramTools State RdAccounts Rules Steps.
From S2P Require Import RdConfig RdDistribution RdSwap RdIntegration Lifecycle Invariants Books Funds.
From S2P Require Import Preservation Instruction Program Executions.

Section Sequences.
Context `{HP : Pda} `{HK : KnownPrograms} `{HB : BuildProfile}.

(** The address of the counter of a sequence, and what it holds. *)
Definition holder (s : Sequence) : Pubkey :=
  match s with
  | Distributions => Config.find_address.1
  | SweptDistributions | Integrations => Jrnl.find_address.1
  end.

Definition counter (s : Sequence) (L : Ledger RdData) : Z := next_number s (data (acct L (holder s))).

(** The numbers of the accounts are below the counter -- which saturates -- and
    every number below it is taken. *)
Record gapless (s : Sequence) (L : Ledger RdData) : Prop := {
  ga_below : forall k n, number s (data (acct L k)) = Some n -> n < umax 64 -> n < counter s L;
  ga_taken : forall n, 0 <= n < counter s L -> exists k, number s (data (acct L k)) = Some n
}.

Lemma holds_holder s (L : Ledger RdData) k :
  ledger_inv L -> holds s (data (acct L k)) = true -> k = holder s.
Proof.
  intros Hinv Hh. pose proof (li_address _ Hinv k) as Ha.
  by destruct s, (data (acct L k)).
Qed.

Lemma holds_number s a : holds s a = true -> number s a = None.
Proof. by destruct s, a. Qed.

Lemma holds_evolves s (L L' : Ledger RdData) k :
  evolves L L' -> holds s (data (acct L k)) = true -> holds s (data (acct L' k)) = true.
Proof. intros He. specialize (He k). by destruct s, (data (acct L k)), (data (acct L' k)). Qed.

Lemma number_nonneg s (L : Ledger RdData) k n :
  ledger_inv L -> number s (data (acct L k)) = Some n -> 0 <= n.
Proof.
  intros Hinv. destruct (data (acct L k)) eqn:E; destruct s; cbn [number]; try done;
    pose proof (ledger_wf_data _ _ _ (inv_wf _ Hinv) E); try case_match; intros [= <-]; nonneg.
Qed.

(** An account keeps its number. *)
Lemma number_kept s (L L' : Ledger RdData) k n :
  ledger_inv L -> evolves L L' -> number s (data (acct L k)) = Some n ->
  number s (data (acct L' k)) = Some n.
Proof.
  intros Hinv He. specialize (He k). destruct (data (acct L k)) eqn:E; try by destruct s.
  - destruct (data (acct L' k)); try done. cbn in He.
    apply rtc_dist_ok in He as [_ Hle]; [|by apply (inv_distribution _ _ _ _ Hinv E)].
    destruct s; cbn [number]; [by rewrite (dl_epoch _ _ _ _ Hle)| |done].
    case_match; [|done]. destruct (dl_swept _ _ _ _ Hle) as [-> _]; [done|].
    by rewrite (dl_epoch _ _ _ _ Hle).
  - destruct (data (acct L' k)); try done. cbn in He. by subst.
Qed.

(** An account whose item is spared has the number it had. *)
Lemma number_spared s (L L' : Ledger RdData) k n :
  ledger_inv L' -> evolves L L' ->
  item (Mark s) (data (acct L' k)) = item (Mark s) (data (acct L k)) ->
  number s (data (acct L' k)) = Some n -> number s (data (acct L k)) = Some n.
Proof.
  intros Hinv He Hi Hn. pose proof (number_nonneg _ _ _ _ Hinv Hn) as Hpos. specialize (He k).
  cbn [item] in Hi. rewrite Hn in Hi.
  destruct (number s (data (acct L k))) as [m|] eqn:E; [f_equal; lia|exfalso].
  destruct s, (data (acct L k)), (data (acct L' k)); try done; cbn in *; lia.
Qed.

Lemma counter_spared s (L L' : Ledger RdData) :
  evolves L L' -> item (Mark s) (data (acct L' (holder s))) = item (Mark s) (data (acct L (holder s))) ->
  counter s L' = counter s L.
Proof.
  intros He Hi. specialize (He (holder s)). unfold counter.
  cbn [item] in Hi. destruct s; cbn [holder] in *;
    destruct (data (acct L _)), (data (acct L' _)); cbn in *; done || lia.
Qed.

(** A sequence that is spared everywhere, or at all but the two accounts that
    add to it. *)
Lemma gapless_spared s (L L' : Ledger RdData) which :
  ledger_inv L -> good L L' -> spares which L L' -> (forall k, which (Mark s) k) ->
  gapless s L -> gapless s L'.
Proof.
  intros Hinv [Hinv' He] Hs Hall Hg.
  assert (counter s L' = counter s L) as Ec by by apply counter_spared, Hs.
  split; rewrite Ec.
  - intros k n Hn. eapply ga_below; [exact Hg|]. by apply (number_spared s L L'), Hn; [..|apply Hs].
  - intros n Hn. destruct (ga_taken _ _ Hg n Hn) as [k Hk]. exists k. by apply (number_kept s L).
Qed.

Lemma gapless_appended s (L L' : Ledger RdData) which ks :
  ledger_inv L -> good L L' -> spares which L L' -> (forall k, k ∉ ks -> which (Mark s) k) ->
  appended s ks L L' -> gapless s L -> gapless s L'.
Proof.
  intros Hinv [Hinv' He] Hs Hothers (k & kh & Hks & Hh & Hk & Hc) Hg.
  pose proof (holds_evolves _ _ _ _ He Hh) as Hh'.
  pose proof (holds_holder _ _ _ Hinv Hh) as ->. fold (counter s L) (counter s L') in *.
  split; rewrite Hc.
  - intros k1 n Hn Hmax. destruct (decide (k1 = k)) as [->|Hne].
    + rewrite Hk in Hn. injection Hn as <-. lia.
    + destruct (decide (k1 = holder s)) as [->|Hne'].
      * by rewrite (holds_number _ _ Hh') in Hn.
      * assert (n < counter s L); [|lia]. eapply ga_below; [exact Hg| |done].
        apply (number_spared s L L' k1); [done..| |done]. apply Hs, Hothers. intros Hin.
        by destruct (Hks _ Hin).
  - intros n Hn. destruct (decide (n = counter s L)) as [->|Hne]; [by exists k|].
    destruct (ga_taken _ _ Hg n ltac:(lia)) as [k1 Hk1]. exists k1. by apply (number_kept s L).
Qed.

Lemma gapless_genesis s (L : Ledger RdData) : genesis L -> gapless s L.
Proof.
  intros [_ Ht]. split.
  - intros k n Hn. specialize (Ht k). by destruct s, (data (acct L k)).
  - unfold counter. specialize (Ht (holder s)). destruct s, (data (acct L _)); cbn; lia || done.
Qed.
End Sequences.

(** ** Instructions and histories *)
Section Instruction.
Context `{R : Runtime RdData} `{!RdLaws R} `{!ProofCodec}.

Lemma process_gapless s (L L' : Ledger RdData) ix accounts trace :
  ledger_inv L -> instruction_valid ix -> Forall (fun info => fits 256 (key info)) accounts ->
  run (process ix accounts) L = Ok (L', trace) -> gapless s L -> gapless s L'.
Proof.
  intros Hinv Hv Hk Hrun.
  destruct (keeps_run _ _ _ _ _ _ (process_keeps L Hinv ix accounts Hv Hk) Hrun) as (Hg & _ & Hs).
  destruct ix; cbn [process even] in *; try (by apply (gapless_spared s L L' _ Hinv Hg Hs)).
  - destruct s; try by apply (gapless_spared _ L L' _ Hinv Hg Hs).
    eapply (gapless_appended _ L L' _ _ Hinv Hg Hs); [done|].
    by destruct (run_post _ _ _ _ (fun L' => _ L' /\ appended _ _ L L' /\ _) Hrun
                   (initialize_distribution_post L Hinv accounts)) as (_ & ? & _).
  - destruct s; try by apply (gapless_spared _ L L' _ Hinv Hg Hs).
    eapply (gapless_appended _ L L' _ _ Hinv Hg Hs); [done|].
    by destruct (run_post _ _ _ _ (fun L' => _ L' /\ appended _ _ L L') Hrun
                   (sweep_post L Hinv accounts)) as [_ ?].
  - destruct s; try by apply (gapless_spared _ L L' _ Hinv Hg Hs).
    eapply (gapless_appended _ L L' _ _ Hinv Hg Hs); [done|].
    by destruct (run_post _ _ _ _ (fun L' => _ L' /\ appended _ _ L L') Hrun
                   (initialize_integration_post L Hinv accounts Hk)) as [_ ?].
Qed.
End Instruction.

Section Executions.
Context `{HP : Pda} `{HK : KnownPrograms} `{HB : BuildProfile}.

Lemma ledger_step_gapless s (L L' : Ledger RdData) :
  ledger_inv L -> ledger_step L L' -> gapless s L -> gapless s L'.
Proof.
  intros Hinv Hs. pose proof (ledger_step_good _ _ Hinv Hs) as Hg.
  destruct Hs as [[R HR HC accounts bytes trace HP' HK' HB' Hb Hk Hrun]|Hf].
  - revert Hinv. rewrite <- HP', <- HK'. intros Hinv.
    apply entrypoint_ok in Hrun as (ix & Hv & _ & Hrun); [|done]. by eapply process_gapless.
  - by apply (gapless_spared s L L' all_items); [..|apply spares_foreign|].
Qed.

Lemma execution_gapless s (L0 L : Ledger RdData) : genesis L0 -> rtc ledger_step L0 L -> gapless s L.
Proof.
  intros Hg Hsteps. pose proof (genesis_inv _ Hg) as Hinv. pose proof (gapless_genesis s _ Hg) as Hs.
  clear Hg. induction Hsteps as [L|L1 L2 L3 H1 _ IH]; [done|].
  apply IH; [by apply (ledger_step_good _ _ Hinv H1)|by eapply ledger_step_gapless].
Qed.

Lemma counter_journal (L : Ledger RdData) :
  counter SweptDistributions L = Jrnl.next_dz_epoch_to_sweep_tokens (journal_of L) /\
  counter Integrations L = Jrnl.integrations_count (journal_of L).
Proof. unfold counter, journal_of. cbn [holder]. by destruct (data (acct L _)). Qed.

Lemma counter_fits s (L : Ledger RdData) : ledger_inv L -> fits 64 (counter s L).
Proof.
  intros Hinv. unfold counter. destruct (data (acct L (holder s))) as [|p rest|d|j rest| | | |] eqn:E;
    destruct s; cbn [next_number]; try done;
    pose proof (ledger_wf_data _ _ _ (inv_wf _ Hinv) E).
  - fit.
  - fit.
  - assert (fits 16 (Jrnl.integrations_count j)) as [? ?] by fit. unfold fits. lia.
Qed.

(** Swept distributions are distributions. *)
Lemma sweep_behind (L : Ledger RdData) :
  ledger_inv L -> gapless Distributions L -> gapless SweptDistributions L ->
  counter SweptDistributions L <= counter Distributions L.
Proof.
  intros Hinv Hd Hs. pose proof (counter_fits Distributions _ Hinv) as [? _].
  pose proof (counter_fits SweptDistributions _ Hinv) as [_ Hmax].
  destruct (Z.lt_ge_cases 0 (counter SweptDistributions L)); [|lia].
  destruct (ga_taken _ _ Hs (counter SweptDistributions L - 1)) as [k Hk]; [lia|].
  assert (number Distributions (data (acct L k)) = Some (counter SweptDistributions L - 1)) as Hk'
    by (destruct (data (acct L k)); try done; cbn [number] in *; by case_match).
  apply (ga_below _ _ Hd) in Hk'; [lia|unfold umax; lia].
Qed.

(** A swept distribution of every epoch below the counter. *)
Lemma swept_below (L : Ledger RdData) k d bits :
  ledger_inv L -> gapless SweptDistributions L -> data (acct L k) = DistributionData d bits ->
  Dist.dz_epoch d < umax 64 ->
  Dist.has_swept_2z_tokens d = true <-> Dist.dz_epoch d < counter SweptDistributions L.
Proof.
  intros Hinv Hg E Hmax. split.
  - intros Hs. apply (ga_below _ _ Hg k); [|done]. rewrite E. cbn [number]. by rewrite Hs.
  - intros Hlt. pose proof (ledger_wf_data _ _ _ (inv_wf _ Hinv) E).
    destruct (ga_taken _ _ Hg (Dist.dz_epoch d)) as [k' Hk']; [split; [nonneg|done]|].
    destruct (data (acct L k')) as [| |d' bits'| | | | |] eqn:E'; try discriminate Hk'.
    cbn [number] in Hk'. case_match; [|done]. injection Hk' as He.
    destruct (inv_distribution _ _ _ _ Hinv E) as (_ & _ & Ek).
    destruct (inv_distribution _ _ _ _ Hinv E') as (_ & _ & Ek').
    rewrite He, <- Ek in Ek'. subst k'. congruence.
Qed.

(** C8: epochs have no gap.  In every ledger the program reaches there is a
    distribution for every epoch below the next one the config will complete,
    and none from there on; the swept ones are exactly those below the journal's
    next epoch to sweep, which never is ahead of the completed epochs; and every
    index below the journal's count is that of a registered integration.  So
    distributions are swept once, in order, and none is skipped or created too
    late.  (Counters of epochs saturate: of the last epoch, 2^64 - 1, nothing is
    said.) *)
Theorem epochs_have_no_gap (L0 L : Ledger RdData) :
  genesis L0 -> rtc ledger_step L0 L ->
  let next_epoch := match data (acct L Config.find_address.1) with
                    | ConfigData p _ => Config.next_completed_dz_epoch p | _ => 0 end in
  let next_sweep := Jrnl.next_dz_epoch_to_sweep_tokens (journal_of L) in
  (forall k d bits, data (acct L k) = DistributionData d bits -> Dist.dz_epoch d < umax 64 ->
     Dist.dz_epoch d < next_epoch /\
     (Dist.has_swept_2z_tokens d = true <-> Dist.dz_epoch d < next_sweep)) /\
  (forall e, 0 <= e < next_epoch -> exists d bits,
     data (acct L (Dist.find_address e).1) = DistributionData d bits /\ Dist.dz_epoch d = e) /\
  next_sweep <= next_epoch /\
  (forall i, 0 <= i < Jrnl.integrations_count (journal_of L) -> exists k r rest,
     data (acct L k) = IntegrationData r rest /\ Integ.registration_index r = i).
Proof.
  intros Hg Hsteps next_epoch next_sweep.
  pose proof (execution_gapless Distributions _ _ Hg Hsteps) as Hd.
  pose proof (execution_gapless SweptDistributions _ _ Hg Hsteps) as Hs.
  pose proof (execution_gapless Integrations _ _ Hg Hsteps) as Hi.
  pose proof (proj1 (execution_good _ _ (genesis_inv _ Hg) Hsteps)) as Hinv. clear Hg Hsteps.
  assert (counter Distributions L = next_epoch) as Ed by done.
  destruct (counter_journal L) as [Es Ei]. fold next_sweep in Es. rewrite <- Ed, <- Es, <- Ei.
  split_and!.
  - intros k d bits E Hmax. split; [|by apply (swept_below L k d bits)].
    apply (ga_below _ _ Hd k); [by rewrite E|done].
  - intros e He. destruct (ga_taken _ _ Hd e He) as [k Hk].
    destruct (data (acct L k)) as [| |d bits| | | | |] eqn:E; try discriminate Hk. injection Hk as <-.
    destruct (inv_distribution _ _ _ _ Hinv E) as (_ & _ & <-). by exists d, bits.
  - by apply sweep_behind.
  - intros i Hr. destruct (ga_taken _ _ Hi i Hr) as [k Hk].
    destruct (data (acct L k)) as [| | | | | |r rest|] eqn:E; try discriminate Hk. injection Hk as <-.
    by exists k, r, rest.
Qed.
End Executions.
