(* ===== verification/MockSwap.v ===== *)
(** * The mock swap program

    [mock/swap-sol-2z/src]: the swap program the integration tests deploy in
    place of the real one.  It keeps a registry of fills, sells SOL of the
    journal by calling [WithdrawSol] after a transfer of 2Z, and hands the 2Z of
    a fill to a sweep.  The theorems are about that queue, and about the two places
    where the mock meets the revenue-distribution program. *)

From Stdlib Require Import ZArith Lia String.
From S2P Require Import Prelude Types Runtime ProgramTools Rules Total Borsh State RdAccounts.
From S2P Require Import RdClient.
From S2P Require Import RdSwap Invariants Instruction.

(** A module of its own: the program has an [ID] and handlers named alike. *)
Module SwapSol2z.
Definition ID : Pubkey :=
  35917241781969623331291375474165945461613624717892183306832404176631194680843.

(** ** [state/fills_registry.rs] *)
Definition FILLS_CAPACITY : nat := 8.

Record Fill : Type := MkFill { amount_sol_in : Z; amount_2z_out : Z }.
Definition fill_default : Fill := MkFill 0 0.

Record FillsRegistry : Type := MkRegistry { fills_count : Z; head : Z; fills : list Fill }.
#[export] Instance Registry_eta : Eta FillsRegistry := fun r =>
  MkRegistry (fills_count r) (head r) (fills r).
Definition zeroed : FillsRegistry := MkRegistry 0 0 (replicate FILLS_CAPACITY fill_default).
Definition SIZE_FillsRegistry : Z := 136.

Definition wf (r : FillsRegistry) : Prop :=
  fits 32 (fills_count r) /\ fits 32 (head r) /\ length (fills r) = FILLS_CAPACITY /\
  Forall (fun f => fits 64 (amount_sol_in f) /\ fits 64 (amount_2z_out f)) (fills r).

(** The accounts of the program: a registry; and those of other programs. *)
Inductive MsData : Type :=
  | MsZeroed (len : Z)
  | MsRegistry (r : FillsRegistry) (rest : list Z)
  | MsForeign (bytes : list Z).

Definition ms_data_len (d : MsData) : Z :=
  match d with
  | MsZeroed len => len
  | MsRegistry _ rest => DISCRIMINATOR_LEN + SIZE_FillsRegistry + lenZ rest
  | MsForeign bytes => lenZ bytes
  end.

#[export] Instance MsData_account : AccountData MsData := {
  data_len := ms_data_len;
  empty_data := MsZeroed 0;
  has_zero_discriminator d :=
    match d with
    | MsZeroed _ => true
    | MsForeign bytes => forallb (Z.eqb 0) (take 8 bytes)
    | _ => false
    end
}.

#[export] Instance zc_registry : ZeroCopy MsData FillsRegistry.
Proof.
  refine (Build_ZeroCopy _ _ _ SIZE_FillsRegistry
    (fun d => match d with MsRegistry r rest => Some (r, rest) | _ => None end)
    MsRegistry zeroed (fun _ _ => eq_refl)).
Defined.

Lemma zc_registry_inv d r rest : zc_read FillsRegistry d = Some (r, rest) <-> d = MsRegistry r rest.
Proof. destruct d; cbn; naive_solver. Qed.

(** ** [instruction.rs] *)
Inductive MockSwapSol2zInstructionData : Type :=
  | InitializeFillsRegistry
  | BuySol (amount_2z_in amount_sol_out : Z)
  | DequeueFills (max_sol_amount : Z).

Inductive Selector : Type := INITIALIZE_FILLS_TRACKER | BUY_SOL | DEQUEUE_FILLS.

Definition selector_bytes (s : Selector) : list Z :=
  match s with
  | INITIALIZE_FILLS_TRACKER => [1; 0; 0; 0; 0; 0; 0; 0]
  | BUY_SOL => [2; 0; 0; 0; 0; 0; 0; 0]
  | DEQUEUE_FILLS => [146; 69; 6; 12; 174; 95; 136; 61]
  end.

(** The [match] on the discriminator. *)
Definition find_selector (sel : list Z) : option Selector :=
  if bool_decide (sel = selector_bytes INITIALIZE_FILLS_TRACKER) then Some INITIALIZE_FILLS_TRACKER
  else if bool_decide (sel = selector_bytes BUY_SOL) then Some BUY_SOL
  else if bool_decide (sel = selector_bytes DEQUEUE_FILLS) then Some DEQUEUE_FILLS
  else None.

Definition selector_of (ix : MockSwapSol2zInstructionData) : Selector :=
  match ix with
  | InitializeFillsRegistry => INITIALIZE_FILLS_TRACKER
  | BuySol _ _ => BUY_SOL
  | DequeueFills _ => DEQUEUE_FILLS
  end.

Definition fields_enc (ix : MockSwapSol2zInstructionData) : list Z :=
  match ix with
  | InitializeFillsRegistry => []
  | BuySol amount_2z_in amount_sol_out => enc (pair u64 u64) (amount_2z_in, amount_sol_out)
  | DequeueFills max_sol_amount => enc u64 max_sol_amount
  end.

Definition instruction_valid (ix : MockSwapSol2zInstructionData) : Prop :=
  match ix with
  | InitializeFillsRegistry => True
  | BuySol amount_2z_in amount_sol_out => valid (pair u64 u64) (amount_2z_in, amount_sol_out)
  | DequeueFills max_sol_amount => valid u64 max_sol_amount
  end.

Definition fields_dec (s : Selector) (bs : list Z)
    : option (MockSwapSol2zInstructionData * list Z) :=
  match s with
  | INITIALIZE_FILLS_TRACKER => Some (InitializeFillsRegistry, bs)
  | BUY_SOL => payload (pair u64 u64) (fun '(a, b) => BuySol a b) bs
  | DEQUEUE_FILLS => payload u64 DequeueFills bs
  end.

Definition instruction_enc (ix : MockSwapSol2zInstructionData) : list Z :=
  selector_bytes (selector_of ix) ++ fields_enc ix.

Definition instruction_dec (bs : list Z) : option (MockSwapSol2zInstructionData * list Z) :=
  '(sel, bs) ← take_bytes 8 bs;
  s ← find_selector sel;
  fields_dec s bs.

Lemma mock_swap_find_selector_inv sel s : find_selector sel = Some s -> selector_bytes s = sel.
Proof. unfold find_selector. repeat case_bool_decide; naive_solver. Qed.

Lemma mock_swap_dec_enc ix rest :
  instruction_valid ix -> instruction_dec (instruction_enc ix ++ rest) = Some (ix, rest).
Proof.
  refine (selected_dec_enc find_selector selector_bytes 8 selector_of fields_enc fields_dec
    instruction_valid _ _ _ ix rest); [by intros []..|].
  clear. intros [] rest Hv; cbn [selector_of fields_enc fields_dec app];
    [done|by rewrite payload_enc..].
Qed.

Lemma mock_swap_enc_dec bs ix rest :
  bytes_ok bs -> instruction_dec bs = Some (ix, rest) ->
  instruction_valid ix /\ bs = instruction_enc ix ++ rest.
Proof.
  refine (selected_enc_dec find_selector selector_bytes 8 selector_of fields_enc fields_dec
    instruction_valid mock_swap_find_selector_inv _ bs ix rest).
  clear. intros s bs ix rest Hb Hd. destruct s; unfold fields_dec in Hd; payload_solve.
Qed.

Definition instruction_data : Codec MockSwapSol2zInstructionData :=
  MkCodec instruction_enc instruction_dec instruction_valid mock_swap_dec_enc mock_swap_enc_dec.

(** The instructions a client sends: the program, the account metas and the
    data.  [Rent::default()] is code of the Solana crates. *)
Section Client.
Context `{Pda} `{KnownPrograms} `{BuildProfile}.

Definition create_and_initialize_fills_tracker (default_minimum_balance : Z -> Z)
    (payer_key new_fills_tracker_key : Pubkey) : Instruction * Instruction :=
  let size := data_end (D := MsData) FillsRegistry in
  (SystemCreateAccount payer_key new_fills_tracker_key (default_minimum_balance size) size ID,
   ProgramInstruction ID [meta_new new_fills_tracker_key false]
     (instruction_enc InitializeFillsRegistry)).

Definition buy_sol_metas (fills_tracker_key src_token_key transfer_authority_key
    sol_destination_key : Pubkey) : list AccountInfo :=
  let accounts := Client.WithdrawSolAccounts.new ID sol_destination_key in
  let rd_swap_authority_key := find_swap_authority_address.1 in
  let dst_token_key := (find_2z_token_pda_address rd_swap_authority_key).1 in
  [meta_new fills_tracker_key false;
   meta_new src_token_key false;
   meta_new DOUBLEZERO_MINT_KEY false;
   meta_new dst_token_key false;
   meta_new transfer_authority_key true;
   meta_new (Client.WithdrawSolAccounts.program_config_key accounts) false;
   meta_new (Client.WithdrawSolAccounts.withdraw_sol_authority_key accounts) false;
   meta_new (Client.WithdrawSolAccounts.journal_key accounts) false;
   meta_new (Client.WithdrawSolAccounts.sol_destination_key accounts) false;
   meta_new_readonly spl_token_id false;
   meta_new_readonly State.ID false].

Definition buy_sol (fills_tracker_key src_token_key transfer_authority_key
    sol_destination_key : Pubkey) (amount_2z_in amount_sol_out : Z) : Instruction :=
  ProgramInstruction ID
    (buy_sol_metas fills_tracker_key src_token_key transfer_authority_key sol_destination_key)
    (instruction_enc (BuySol amount_2z_in amount_sol_out)).
End Client.

(** ** [processor.rs] *)

(** The registry with a fill more: written at index [fills_count]. *)
Definition record_fill `{BuildProfile} (r : FillsRegistry) (amount_2z_in amount_sol_out : Z)
    : Res FillsRegistry :=
  require (negb (fills_count r =? Z.of_nat FILLS_CAPACITY)) InvalidAccountData;;
  unwrap (fills r !! Z.to_nat (fills_count r));;
  count ← arith_add 32 (fills_count r) 1;
  let fill := MkFill amount_sol_out amount_2z_in in
  mret (r <| fills := <[Z.to_nat (fills_count r) := fill]> (fills r) |>
          <| fills_count := count |>).

(** The fill at the head, and the registry without it. *)
Definition next_fill (r : FillsRegistry) : Res Fill := unwrap (fills r !! Z.to_nat (head r)).

Definition drop_fill `{BuildProfile} (r : FillsRegistry) : Res FillsRegistry :=
  next ← arith_add 32 (head r) 1;
  count ← arith_sub 32 (fills_count r) 1;
  mret (r <| head := next mod Z.of_nat FILLS_CAPACITY |> <| fills_count := count |>).

(** [set_return_data]. *)
Definition set_return_data (bytes : list Z) : M MsData unit := fun s =>
  Ok (tt, MkSt (st_ledger s) (st_index s) (st_iter s) (st_borrows s) (Some (ID, bytes))
            (st_trace s)).

Section Processor.
Context `{R : Runtime MsData} `{!ProofCodec}.

Abbreviation Mx := (M MsData).

Definition try_initialize_fills_registry (accounts : list AccountInfo) : Mx unit :=
  start_iter accounts;;
  '(_, new_fills_registry_info) ← try_next_enumerated_account default_options;
  try_initialize FillsRegistry new_fills_registry_info;;
  mret tt.

Definition try_buy_sol (accounts : list AccountInfo) (amount_2z_in amount_sol_out : Z) : Mx unit :=
  start_iter accounts;;
  fills_registry ← zc_mut_try_next_accounts FillsRegistry (Some ID);
  r ← deref FillsRegistry fills_registry;
  r ← lift (record_fill r amount_2z_in amount_sol_out);
  modify FillsRegistry fills_registry (fun _ => r);;
  '(_, src_token_info) ← try_next_enumerated_account default_options;
  '(_, mint_info) ← try_next_enumerated_account default_options;
  '(_, dst_token_info) ← try_next_enumerated_account default_options;
  '(_, transfer_authority_info) ← try_next_enumerated_account default_options;
  invoke_signed ID
    (TokenTransferChecked (key src_token_info) (key mint_info) (key dst_token_info)
       (key transfer_authority_info) amount_2z_in DOUBLEZERO_MINT_DECIMALS)
    accounts [];;
  '(_, rd_program_config_info) ← try_next_enumerated_account default_options;
  '(_, withdraw_authority_info) ← try_next_enumerated_account default_options;
  '(_, rd_journal_info) ← try_next_enumerated_account default_options;
  '(_, sol_destination_info) ← try_next_enumerated_account default_options;
  let withdraw_sol_ix :=
    ProgramInstruction State.ID
      (Client.WithdrawSolAccounts.metas
         {| Client.WithdrawSolAccounts.program_config_key := key rd_program_config_info;
            Client.WithdrawSolAccounts.withdraw_sol_authority_key := key withdraw_authority_info;
            Client.WithdrawSolAccounts.journal_key := key rd_journal_info;
            Client.WithdrawSolAccounts.sol_destination_key := key sol_destination_info |})
      (Instruction.instruction_enc (WithdrawSol amount_sol_out)) in
  let '(_, withdraw_authority_bump) := find_withdraw_sol_authority_address ID in
  invoke_signed ID withdraw_sol_ix accounts
    [[WITHDRAW_SOL_AUTHORITY_SEED_PREFIX; [withdraw_authority_bump]]].

Definition try_dequeue_fills (accounts : list AccountInfo) (max_sol_amount : Z) : Mx unit :=
  start_iter accounts;;
  '(_, configuration_registry_info) ← try_next_enumerated_account default_options;
  let '(expected_configuration_registry_key, _) :=
    find_program_address [bytes_of_string "system_config"] ID in
  ensure (key configuration_registry_info =? expected_configuration_registry_key)
    InvalidAccountData;;
  '(_, program_state_info) ← try_next_enumerated_account default_options;
  let '(expected_program_state_key, _) := find_program_address [bytes_of_string "state"] ID in
  ensure (key program_state_info =? expected_program_state_key) InvalidAccountData;;
  fills_registry ← zc_mut_try_next_accounts FillsRegistry (Some ID);
  r ← deref FillsRegistry fills_registry;
  ensure (negb (fills_count r =? 0)) InvalidAccountData;;
  try_next_enumerated_account (default_options <| must_be_signer := true |>);;
  fill ← lift (next_fill r);
  ensure (amount_sol_in fill =? max_sol_amount) InvalidAccountData;;
  r ← lift (drop_fill r);
  modify FillsRegistry fills_registry (fun _ => r);;
  set_return_data
    (to_le_bytes 8 max_sol_amount ++ to_le_bytes 8 (amount_2z_out fill) ++ to_le_bytes 8 1).

Definition process (ix : MockSwapSol2zInstructionData) (accounts : list AccountInfo) : Mx unit :=
  match ix with
  | InitializeFillsRegistry => try_initialize_fills_registry accounts
  | BuySol amount_2z_in amount_sol_out => try_buy_sol accounts amount_2z_in amount_sol_out
  | DequeueFills max_sol_amount => try_dequeue_fills accounts max_sol_amount
  end.

Definition try_process_instruction (program_id : Pubkey) (accounts : list AccountInfo)
    (ix_bytes : list Z) : Mx unit :=
  ensure (program_id =? ID) IncorrectProgramId;;
  ix ← lift (ok_or (try_from_slice instruction_data ix_bytes) InvalidInstructionData);
  process ix accounts.
End Processor.

(** ** The registry as a queue *)
Section Queue.
Context `{BuildProfile}.

Definition registry_ok (r : FillsRegistry) : Prop :=
  length (fills r) = FILLS_CAPACITY /\ 0 <= fills_count r <= 8 /\ 0 <= head r < 8.

(** The fill at a position of the ring. *)
Definition fill_at (r : FillsRegistry) (n : nat) : Fill :=
  default fill_default (fills r !! (n mod FILLS_CAPACITY)%nat).

(** The fills a sequence of dequeues returns. *)
Definition pending (r : FillsRegistry) : list Fill :=
  (fun i => fill_at r (Z.to_nat (head r) + i)) <$> seq 0 (Z.to_nat (fills_count r)).

Lemma pending_from_start r :
  registry_ok r -> head r = 0 -> pending r = take (Z.to_nat (fills_count r)) (fills r).
Proof.
  intros (Hl & Hc & _) Hh. unfold pending. rewrite Hh. change (Z.to_nat 0) with 0%nat.
  assert (Z.to_nat (fills_count r) <= length (fills r))%nat as Hle
    by (rewrite Hl; unfold FILLS_CAPACITY; lia).
  assert (length (fills r) <= FILLS_CAPACITY)%nat as Hcap by lia.
  unfold fill_at. clear Hl Hc Hh. revert Hle. generalize (Z.to_nat (fills_count r)) as n.
  induction n as [|n IH]; intros Hle; [done|].
  rewrite seq_S, fmap_app, IH by lia. cbn [Nat.add fmap list_fmap].
  cbn [Nat.add]. rewrite Nat.mod_small by lia.
  destruct (fills r !! n) as [f|] eqn:E; [|apply lookup_ge_None in E; lia].
  by rewrite (take_S_r _ _ _ E).
Qed.

Lemma next_fill_ok r : registry_ok r -> next_fill r = Ok (fill_at r (Z.to_nat (head r))).
Proof.
  intros (Hl & _ & Hh). unfold next_fill, fill_at.
  rewrite Nat.mod_small by (unfold FILLS_CAPACITY; lia).
  destruct (fills r !! Z.to_nat (head r)) eqn:E; [done|].
  apply lookup_ge_None in E. rewrite Hl in E. unfold FILLS_CAPACITY in E. lia.
Qed.

Lemma drop_fill_ok r :
  registry_ok r -> 0 < fills_count r ->
  drop_fill r = Ok (r <| head := (head r + 1) mod 8 |> <| fills_count := fills_count r - 1 |>).
Proof.
  intros (_ & Hc & Hh) Hpos. unfold drop_fill.
  by rewrite arith_add_exact, arith_sub_exact by lia.
Qed.

Lemma drop_fill_pending r :
  registry_ok r -> 0 < fills_count r ->
  registry_ok (r <| head := (head r + 1) mod 8 |> <| fills_count := fills_count r - 1 |>) /\
  pending r = fill_at r (Z.to_nat (head r))
    :: pending (r <| head := (head r + 1) mod 8 |> <| fills_count := fills_count r - 1 |>).
Proof.
  intros (Hl & Hc & Hh) Hpos. split.
  - pose proof (Z.mod_pos_bound (head r + 1) 8). unfold registry_ok. cbn. split_and!; done || lia.
  - unfold pending. cbn [fills_count head update].
    replace (Z.to_nat (fills_count r)) with (S (Z.to_nat (fills_count r - 1))) by lia.
    cbn [seq fmap list_fmap]. rewrite Nat.add_0_r. f_equal.
    rewrite <- seq_shift. rewrite <- list_fmap_compose. apply list_fmap_ext. intros i x _.
    cbn [compose]. unfold fill_at. cbn [fills update]. do 2 f_equal.
    rewrite Z2Nat.inj_mod, Z2Nat.inj_add by lia. unfold FILLS_CAPACITY.
    change (Z.to_nat 8) with 8%nat. change (Z.to_nat 1) with 1%nat.
    rewrite Nat.Div0.add_mod_idemp_l. f_equal. lia.
Qed.

(** The fills registry as a queue.  While the head has not moved, buying
    SOL appends to the fills that sweeps will find, until the capacity is
    reached; and a dequeue always takes the first of them. *)
Theorem fills_registry_queue (r : FillsRegistry) (amount_2z_in amount_sol_out : Z) :
  registry_ok r ->
  (head r = 0 ->
   match record_fill r amount_2z_in amount_sol_out with
   | Ok r' => registry_ok r' /\ head r' = 0 /\
       pending r' = pending r ++ [MkFill amount_sol_out amount_2z_in]
   | Err e => e = InvalidAccountData /\ length (pending r) = FILLS_CAPACITY
   | Panic => False
   end) /\
  match pending r with
  | f :: rest =>
      next_fill r = Ok f /\
      exists r', drop_fill r = Ok r' /\ registry_ok r' /\ pending r' = rest
  | [] => fills_count r = 0
  end.
Proof.
  intros Hok. pose proof Hok as (Hl & Hc & Hh). split.
  - intros H0. unfold record_fill.
    destruct (Z.eqb_spec (fills_count r) (Z.of_nat FILLS_CAPACITY)) as [E|E].
    { cbn. split; [done|]. unfold pending. rewrite length_fmap, length_seq. lia. }
    cbn [negb]. change (Z.of_nat FILLS_CAPACITY) with 8 in E.
    destruct (lookup_lt_is_Some_2 (fills r) (Z.to_nat (fills_count r))) as [f Ef];
      [rewrite Hl; unfold FILLS_CAPACITY; lia|].
    cbn [require mbind Res_bind unwrap]. rewrite Ef, arith_add_exact by lia.
    cbn [unwrap mbind Res_bind mret Res_ret]. set (fill := MkFill amount_sol_out amount_2z_in).
    assert (registry_ok (r <| fills := <[Z.to_nat (fills_count r) := fill]> (fills r) |>
                           <| fills_count := fills_count r + 1 |>)) as Hok'.
    { unfold registry_ok. cbn. rewrite length_insert. split_and!; done || lia. }
    split; [exact Hok'|]. split; [exact H0|].
    rewrite !pending_from_start by done. cbn [fills fills_count update].
    rewrite Z2Nat.inj_add by lia. change (Z.to_nat 1) with 1%nat. rewrite Nat.add_1_r.
    erewrite take_S_r by (apply list_lookup_insert_eq; rewrite Hl; unfold FILLS_CAPACITY; lia).
    by rewrite take_insert_ge by lia.
  - destruct (decide (0 < fills_count r)) as [Hpos|Hz].
    + destruct (drop_fill_pending r Hok Hpos) as [Hok' ->]. split; [by apply next_fill_ok|].
      eexists. split; [by apply drop_fill_ok|]. done.
    + unfold pending. replace (Z.to_nat (fills_count r)) with 0%nat by lia. cbn. lia.
Qed.

(** After a dequeue the queue is not one any more: of three fills bought, two
    before and one after the first dequeue, the second is overwritten. *)
Example fills_registry_loses_fills (a b c : Fill) :
  (r ← record_fill zeroed (amount_2z_out a) (amount_sol_in a);
   r ← record_fill r (amount_2z_out b) (amount_sol_in b);
   r ← drop_fill r;
   r ← record_fill r (amount_2z_out c) (amount_sol_in c);
   mret (pending r)) = Ok [c; fill_default].
Proof. by destruct a, b, c. Qed.
End Queue.

(** ** A dequeue, on both sides *)
#[local] Arguments to_le_bytes : simpl never.

Section Dequeue.
Context `{Rm : Runtime MsData} `{!ProofCodec}.

#[export] Instance layout_registry : FitsLayout FillsRegistry.
Proof. intros d r rest ->%zc_registry_inv. unfold data_end. cbn. unfold lenZ. lia. Qed.

Ltac ms_cbn := cbn [zc_write zc_zeroed zc_registry]; rewrite ?set_data_set_data.
Ltac mtstep := tstep_with ms_cbn.

(** The instruction a sweep sends for a debt. *)
Lemma dequeue_instruction debt :
  fits 64 debt ->
  try_from_slice instruction_data (DEQUEUE_FILLS_SELECTOR ++ to_le_bytes 8 debt)
    = Some (DequeueFills debt).
Proof. intros Hd. exact (try_from_slice_enc instruction_data (DequeueFills debt) Hd). Qed.

Lemma dequeue_runs (L : Ledger MsData) registry r rest fill fills' debt :
  data (acct L registry) = MsRegistry r rest -> owner (acct L registry) = ID ->
  registry_ok r -> pending r = fill :: fills' -> amount_sol_in fill = debt -> fits 64 debt ->
  twp (try_process_instruction ID
         (Client.DequeueFillsCpiAccounts.metas (Client.DequeueFillsCpiAccounts.new ID registry))
         (DEQUEUE_FILLS_SELECTOR ++ to_le_bytes 8 debt))
    (fun _ s =>
       (exists r', data (acct (st_ledger s) registry) = MsRegistry r' rest /\ registry_ok r' /\
                   pending r' = fills') /\
       st_return s = Some (ID, enc (pair (pair u64 u64) u64) (debt, amount_2z_out fill, 1)))
    (initial_state L).
Proof.
  intros E Ho Hok Hp Hsol Hd. unfold try_process_instruction, initial_state.
  destruct (drop_fill_pending r Hok) as [Hok' Hp'].
  { destruct Hok as (_ & ? & _). destruct (decide (0 < fills_count r)); [done|].
    unfold pending in Hp. replace (Z.to_nat (fills_count r)) with 0%nat in Hp by lia. done. }
  assert (0 < fills_count r) as Hpos.
  { destruct Hok as (_ & ? & _). destruct (decide (0 < fills_count r)); [done|].
    unfold pending in Hp. replace (Z.to_nat (fills_count r)) with 0%nat in Hp by lia. done. }
  rewrite Hp' in Hp. injection Hp as <- Hp.
  mtstep. mtstep; [apply Z.eqb_refl|]. mtstep. mtstep; [by rewrite dequeue_instruction|].
  cbn [process]. unfold try_dequeue_fills, Client.DequeueFillsCpiAccounts.metas.
  destruct (find_program_address [bytes_of_string "system_config"] ID) as [c cb] eqn:Ec.
  destruct (find_program_address [bytes_of_string "state"] ID) as [st sb] eqn:Es.
  unfold Client.DequeueFillsCpiAccounts.new. rewrite Ec, Es.
  do 2 mtstep. do 2 mtstep. mtstep. mtstep; [apply Z.eqb_refl|].
  do 2 mtstep. mtstep. mtstep; [apply Z.eqb_refl|].
  mtstep. eapply twp_zc_mut; [apply _|by apply zc_registry_inv|done|done|done|].
  cbn [key meta_new]. mtstep. mtstep. mtstep. mtstep; [apply negb_true_iff, Z.eqb_neq; lia|].
  mtstep. mtstep. mtstep. mtstep; [by apply next_fill_ok|]. mtstep. mtstep; [by apply Z.eqb_eq|].
  mtstep. mtstep; [by apply drop_fill_ok|]. mtstep. mtstep.
  eexists _, _. split; [reflexivity|]. cbn [st_ledger st_return]. split; [|done].
  eexists. split; [by rewrite data_set_data_eq|]. by rewrite Hp.
Qed.
End Dequeue.


(** What the sweep makes of an answer. *)
Lemma dequeue_fills_answered `{Rr : Runtime RdData} (Lr Lr' : Ledger RdData) accounts a0 a1 a2 a3
    journal bump debt tokens n i infos b ret t :
  fits 64 debt -> fits 64 tokens -> fits 64 n ->
  let ix := ProgramInstruction (key a3) (dequeue_fills_metas (key a0) (key a1) (key a2) journal)
              (DEQUEUE_FILLS_SELECTOR ++ to_le_bytes 8 debt) in
  let answer := Some (key a3, enc (pair (pair u64 u64) u64) (debt, tokens, n)) in
  invoke_cpi State.ID ix accounts [[Jrnl.SEED_PREFIX; [bump]]] Lr = Ok (Lr', answer) ->
  dequeue_fills accounts (key a3) journal bump debt
    (MkSt Lr i (a0 :: a1 :: a2 :: a3 :: infos) b ret t)
    = Ok (tokens, MkSt Lr' (4 + i) infos b answer (t ++ [ix])).
Proof.
  intros Hd Ht Hn ix answer Hcpi. unfold dequeue_fills.
  do 4 (apply M_bind_ok; eexists _, _; split; [reflexivity|]; cbv beta iota).
  apply M_bind_ok. eexists tt, _. split; [unfold ensure; rewrite Z.eqb_refl; reflexivity|].
  apply M_bind_ok. eexists tt, _. split.
  { unfold invoke_signed. cbn [st_ledger]. fold ix. rewrite Hcpi. reflexivity. }
  apply M_bind_ok. eexists _, _. split; [reflexivity|]. cbn [st_return].
  apply M_bind_ok. eexists _, _. split; [reflexivity|]. cbv beta iota.
  apply M_bind_ok. eexists tt, _. split; [unfold ensure; rewrite Z.eqb_refl; reflexivity|].
  apply M_bind_ok. eexists (debt, tokens, n), _. split.
  { unfold lift. rewrite try_from_slice_enc by (split; [split|]; done). reflexivity. }
  cbv beta iota.
  apply M_bind_ok. eexists tt, _. split; [unfold ensure; rewrite Z.eqb_refl; reflexivity|].
  reflexivity.
Qed.

(** C32: a dequeue serves a sweep.  When the first pending fill is for the
    debt of a sweep, the mock accepts the dequeue the sweep sends, with the
    accounts the client lists for it, and takes exactly that fill off its
    registry; and the sweep, called back with the mock's return data, goes on
    with exactly the 2Z of the fill. *)
Theorem dequeue_serves_sweep `{Rr : Runtime RdData} `{Rm : Runtime MsData} `{!ProofCodec}
    (L : Ledger MsData) registry r rest fill fills' :
  data (acct L registry) = MsRegistry r rest -> owner (acct L registry) = ID ->
  registry_ok r -> pending r = fill :: fills' ->
  fits 64 (amount_sol_in fill) -> fits 64 (amount_2z_out fill) ->
  let keys := Client.DequeueFillsCpiAccounts.new ID registry in
  let ix := ProgramInstruction ID (Client.DequeueFillsCpiAccounts.metas keys)
              (DEQUEUE_FILLS_SELECTOR ++ to_le_bytes 8 (amount_sol_in fill)) in
  exists s,
    try_process_instruction ID (Client.DequeueFillsCpiAccounts.metas keys)
      (DEQUEUE_FILLS_SELECTOR ++ to_le_bytes 8 (amount_sol_in fill)) (initial_state L)
    = Ok (tt, s) /\
    (exists r', data (acct (st_ledger s) registry) = MsRegistry r' rest /\ registry_ok r' /\
                pending r' = fills') /\
    (forall (Lr Lr' : Ledger RdData) accounts a0 a1 a2 a3 bump i infos b ret t,
       key a0 = Client.DequeueFillsCpiAccounts.configuration_registry_key keys ->
       key a1 = Client.DequeueFillsCpiAccounts.program_state_key keys ->
       key a2 = registry -> key a3 = ID ->
       invoke_cpi State.ID ix accounts [[Jrnl.SEED_PREFIX; [bump]]] Lr = Ok (Lr', st_return s) ->
       dequeue_fills accounts ID (Client.DequeueFillsCpiAccounts.journal_key keys) bump
         (amount_sol_in fill) (MkSt Lr i (a0 :: a1 :: a2 :: a3 :: infos) b ret t)
       = Ok (amount_2z_out fill, MkSt Lr' (4 + i) infos b (st_return s) (t ++ [ix]))).
Proof.
  intros E Ho Hok Hp Hsol Htok keys ix.
  destruct (dequeue_runs L registry r rest fill fills' _ E Ho Hok Hp eq_refl Hsol)
    as ([] & s & Hrun & Hr & Hret).
  exists s. split; [exact Hrun|]. split; [exact Hr|]. rewrite Hret.
  intros Lr Lr' accounts a0 a1 a2 a3 bump i infos b ret t K0 K1 K2 K3 Hcpi.
  pose proof (dequeue_fills_answered Lr Lr' accounts a0 a1 a2 a3
    (Client.DequeueFillsCpiAccounts.journal_key keys) bump (amount_sol_in fill)
    (amount_2z_out fill) 1     i infos b ret t Hsol Htok ltac:(done)) as Hanswer.
  cbv zeta in Hanswer. rewrite K0, K1, K2, K3 in Hanswer. exact (Hanswer Hcpi).
Qed.

(** ** A purchase, on both sides *)

(** How the runtime presents an instruction of the token program that was
    executed before: under that program's id, with the accounts of the
    instruction in the order of the interface crate and the data it packs, which
    it unpacks to the instruction again (the code distinguishes checked transfers
    only). *)
Definition presented `{Runtime RdData} (ix : Instruction) (sibling : SiblingInstruction) : Prop :=
  let shown accounts unpacked :=
    sibling_program_id sibling = spl_token_id /\ sibling_accounts sibling = accounts /\
    unpack_token_instruction (sibling_data sibling) = Some unpacked in
  match ix with
  | TokenTransferChecked source mint destination authority amount decimals =>
      shown [source; mint; destination; authority] (TransferChecked amount decimals)
  | TokenTransfer source destination authority _ =>
      shown [source; destination; authority] OtherTokenInstruction
  | TokenBurn account mint authority _ => shown [account; mint; authority] OtherTokenInstruction
  | TokenInitializeAccount3 account mint _ => shown [account; mint] OtherTokenInstruction
  | _ => False
  end.

(** With canonical bump seeds the stored destination is the one derived. *)
Lemma stored_swap_destination `{Pda} p :
  config_seeds p -> Config.swap_authority_bump_seed p <> 0 ->
  Config.checked_swap_destination_2z_address p
    = Some (find_2z_token_pda_address find_swap_authority_address.1).1.
Proof.
  intros [[Hz|[Hb Hd]] _] Hne; [done|]. unfold Config.checked_swap_destination_2z_address,
    Config.checked_swap_authority_address, checked_2z_token_pda_address.
  rewrite (proj2 (Z.eqb_neq _ _) Hne), Hb.
  pose proof (create_found [SWAP_AUTHORITY_SEED_PREFIX] State.ID _ _ (surjective_pairing _)) as Hc.
  cbn [app] in Hc. unfold find_swap_authority_address in *. rewrite Hc. cbn [mbind option_bind].
  rewrite Hd. apply (create_found [_; _]), surjective_pairing.
Qed.

Lemma sibling_transfer_found `{Rr : Runtime RdData} p source authority tokens decimals sibling :
  config_seeds p -> Config.swap_authority_bump_seed p <> 0 ->
  sibling_instruction = Some sibling ->
  presented
    (TokenTransferChecked source DOUBLEZERO_MINT_KEY
       (find_2z_token_pda_address find_swap_authority_address.1).1 authority tokens decimals) sibling ->
  sibling_transfer_amount p = Ok tokens.
Proof.
  intros Hs Hb Hsib (Hp & Ha & Hu). unfold sibling_transfer_amount.
  rewrite Hsib, (stored_swap_destination p Hs Hb). cbn [ok_or mbind Res_bind].
  rewrite Hp, Z.eqb_refl, Hu, Ha. cbn. by rewrite !Z.eqb_refl.
Qed.

Section Buy.
Context `{Rm : Runtime MsData} `{!RuntimeLaws MsData Rm} `{!ProofCodec}.
Context (Hsystem : ID <> system_program_id).

Ltac ms_norm :=
  repeat match goal with
  | H : zc_read FillsRegistry _ = Some (_, _) |- _ => apply zc_registry_inv in H
  end.
Ltac ms_cbn := cbn [zc_write zc_zeroed zc_registry]; rewrite ?set_data_set_data.
Ltac ms_note H :=
  match type of H with invoke_cpi _ ?ix _ _ _ = _ =>
    apply (invoke_cpi_preserves Rm ID ix _ _ _ _ _ Hsystem eq_refl) in H end.
Ltac mstep := step_with ms_norm view_read ms_cbn ms_note; cbn beta iota zeta.

(** Buying SOL records the fill and issues two instructions: the transfer of the
    2Z and the withdrawal of the SOL, signed by the withdraw authority. *)
Lemma buy_sol_run (L L' : Ledger MsData) trace m0 m1 m2 m3 m4 m5 m6 m7 m8 rest tokens sol :
  run (try_buy_sol (m0 :: m1 :: m2 :: m3 :: m4 :: m5 :: m6 :: m7 :: m8 :: rest) tokens sol) L
    = Ok (L', trace) ->
  exists r rrest r' ret,
    let transfer :=
      TokenTransferChecked (key m1) (key m2) (key m3) (key m4) tokens DOUBLEZERO_MINT_DECIMALS in
    let withdrawal :=
      ProgramInstruction State.ID
        (Client.WithdrawSolAccounts.metas
           (Client.WithdrawSolAccounts.Mk (key m5) (key m6) (key m7) (key m8)))
        (Instruction.instruction_enc (WithdrawSol sol)) in
    data (acct L (key m0)) = MsRegistry r rrest /\ owner (acct L (key m0)) = ID /\
    record_fill r tokens sol = Ok r' /\ data (acct L' (key m0)) = MsRegistry r' rrest /\
    executes ID (m0 :: m1 :: m2 :: m3 :: m4 :: m5 :: m6 :: m7 :: m8 :: rest)
      [(transfer, []);
       (withdrawal, [[WITHDRAW_SOL_AUTHORITY_SEED_PREFIX;
                      [(find_withdraw_sol_authority_address ID).2]]])]
      (set_data L (key m0) (MsRegistry r' rrest), None) (L', ret) /\
    trace = [transfer; withdrawal].
Proof.
  start_run. unfold try_buy_sol. repeat mstep.
  destruct (find_withdraw_sol_authority_address ID) as [authority bump]. repeat mstep.
  exists x, rest0, v. eexists. cbn [st_ledger st_trace app snd]. cpi_read. ledger.
  split_and!; try done. exact (executes_app _ _ _ _ _ _ _ Hexec Hexec0).
Qed.

(** C34: a purchase feeds a withdrawal.  Sent with the accounts of the client's
    [buy_sol], the mock records the fill of the 2Z offered for the SOL asked and
    executes exactly two instructions, in this order: a checked transfer of
    exactly that 2Z, of the 2Z mint, from the buyer's account to the swap
    destination, and the withdrawal of exactly that SOL, with the client's
    accounts, signed by the withdraw authority.  In any runtime that presents
    that transfer to the program as the sibling instruction, the check of the
    withdrawal finds exactly the 2Z that were paid. *)
Theorem buy_feeds_withdraw (L L' : Ledger MsData) trace registry source authority destination
    tokens sol :
  fits 64 sol ->
  run (try_buy_sol (buy_sol_metas registry source authority destination) tokens sol) L
    = Ok (L', trace) ->
  let transfer :=
    TokenTransferChecked source DOUBLEZERO_MINT_KEY
      (find_2z_token_pda_address find_swap_authority_address.1).1 authority tokens
      DOUBLEZERO_MINT_DECIMALS in
  exists r rrest r' bytes ret,
    let withdrawal :=
      ProgramInstruction State.ID
        (Client.WithdrawSolAccounts.metas (Client.WithdrawSolAccounts.new ID destination)) bytes in
    data (acct L registry) = MsRegistry r rrest /\ record_fill r tokens sol = Ok r' /\
    trace = [transfer; withdrawal] /\
    executes ID (buy_sol_metas registry source authority destination)
      [(transfer, []);
       (withdrawal, [[WITHDRAW_SOL_AUTHORITY_SEED_PREFIX;
                      [(find_withdraw_sol_authority_address ID).2]]])]
      (set_data L registry (MsRegistry r' rrest), None) (L', ret) /\
    data (acct L' registry) = MsRegistry r' rrest /\
    try_from_slice Instruction.instruction_data bytes = Some (WithdrawSol sol) /\
    (forall (Rr : Runtime RdData) p sibling,
       rt_pda (D := RdData) = rt_pda (D := MsData) ->
       rt_profile (D := RdData) = rt_profile (D := MsData) ->
       config_seeds (HP := rt_pda (D := MsData)) p -> Config.swap_authority_bump_seed p <> 0 ->
       presented transfer sibling -> sibling_instruction = Some sibling ->
       sibling_transfer_amount p = Ok tokens).
Proof.
  intros Hsol Hrun. cbv zeta. unfold buy_sol_metas in Hrun.
  apply buy_sol_run in Hrun. cbv zeta in Hrun.
  destruct Hrun as (r & rrest & r' & ret & Hr & _ & Hrec & Hr' & Hexec & Htrace).
  exists r, rrest, r'. do 2 eexists. split; [exact Hr|]. split; [exact Hrec|].
  split; [exact Htrace|]. split; [exact Hexec|]. split; [exact Hr'|]. split.
  { exact (try_from_slice_enc Instruction.instruction_data (WithdrawSol sol) Hsol). }
  intros Rr p sibling HP HB Hseeds Hbump Hshown Hproc.
  revert Hseeds Hshown. rewrite <- HP, <- HB. intros Hseeds Hshown. by eapply sibling_transfer_found.
Qed.
End Buy.

End SwapSol2z.
