(* ===== verification/MockIntegration.v ===== *)
(** * The mock integration program

    [mock/rewards-integration/src]: the integration the tests register.  It
    holds a distribution account and a 2Z bucket per epoch, and pays the bucket
    out when the revenue-distribution program asks for it.  The theorem says
    exactly when it does. *)

From Stdlib Require Import ZArith Lia String.
From S2P Require Import Prelude Types Runtime ProgramTools Rules Total Borsh State RdAccounts.
From S2P Require Import RdIntegration.

Module MockRewards.
Definition ID : Pubkey :=
  83038882532544394494626570866570572009977844858068254237196793360639531973899.

(** ** [state/integration_distribution.rs] *)
Record MockIntegrationDistribution : Type := MkIntegrationDistribution {
  dz_epoch : DoubleZeroEpoch;
  bump_seed : Z;
}.
#[export] Instance IntegrationDistribution_eta : Eta MockIntegrationDistribution := fun x =>
  MkIntegrationDistribution (dz_epoch x) (bump_seed x).
Definition zeroed : MockIntegrationDistribution := MkIntegrationDistribution 0 0.
Definition SIZE_MockIntegrationDistribution : Z := 152.

(** The program's accounts; a distribution of the revenue-distribution program,
    which it reads; and those of other programs. *)
Inductive MiData : Type :=
  | MiZeroed (len : Z)
  | MiDistribution (x : MockIntegrationDistribution) (rest : list Z)
  | MiParent (d : Distribution) (rest : list Z)
  | MiForeign (bytes : list Z).

Definition mi_data_len (d : MiData) : Z :=
  match d with
  | MiZeroed len => len
  | MiDistribution _ rest => DISCRIMINATOR_LEN + SIZE_MockIntegrationDistribution + lenZ rest
  | MiParent _ rest => DISCRIMINATOR_LEN + SIZE_Distribution + lenZ rest
  | MiForeign bytes => lenZ bytes
  end.

#[export] Instance MiData_account : AccountData MiData := {
  data_len := mi_data_len;
  empty_data := MiZeroed 0;
  has_zero_discriminator d :=
    match d with
    | MiZeroed _ => true
    | MiForeign bytes => forallb (Z.eqb 0) (take 8 bytes)
    | _ => false
    end
}.

#[export] Instance zc_integration_distribution : ZeroCopy MiData MockIntegrationDistribution.
Proof.
  refine (Build_ZeroCopy _ _ _ SIZE_MockIntegrationDistribution
    (fun d => match d with MiDistribution x rest => Some (x, rest) | _ => None end)
    MiDistribution zeroed (fun _ _ => eq_refl)).
Defined.

#[export] Instance zc_parent : ZeroCopy MiData Distribution.
Proof.
  refine (Build_ZeroCopy _ _ _ SIZE_Distribution
    (fun d => match d with MiParent x rest => Some (x, rest) | _ => None end)
    MiParent Dist.zeroed (fun _ _ => eq_refl)).
Defined.

Lemma zc_integration_distribution_inv d x rest :
  zc_read MockIntegrationDistribution d = Some (x, rest) <-> d = MiDistribution x rest.
Proof. destruct d; cbn; naive_solver. Qed.

Lemma zc_parent_inv d x rest : zc_read Distribution d = Some (x, rest) <-> d = MiParent x rest.
Proof. destruct d; cbn; naive_solver. Qed.

(** ** [instruction.rs] *)
Inductive MockRewardsIntegrationInstructionData : Type :=
  | InitializeIntegrationDistribution (dz_epoch : DoubleZeroEpoch).

Definition INITIALIZE_INTEGRATION_DISTRIBUTION : list Z := [1; 0; 0; 0; 0; 0; 0; 0].

Definition instruction_enc (ix : MockRewardsIntegrationInstructionData) : list Z :=
  match ix with
  | InitializeIntegrationDistribution dz_epoch =>
      INITIALIZE_INTEGRATION_DISTRIBUTION ++ enc u64 dz_epoch
  end.

Definition instruction_valid (ix : MockRewardsIntegrationInstructionData) : Prop :=
  match ix with InitializeIntegrationDistribution dz_epoch => valid u64 dz_epoch end.

Definition instruction_dec (bs : list Z)
    : option (MockRewardsIntegrationInstructionData * list Z) :=
  '(sel, bs) ← take_bytes 8 bs;
  if bool_decide (sel = INITIALIZE_INTEGRATION_DISTRIBUTION)
  then payload u64 InitializeIntegrationDistribution bs else None.

Lemma mock_integration_dec_enc ix rest :
  instruction_valid ix -> instruction_dec (instruction_enc ix ++ rest) = Some (ix, rest).
Proof.
  destruct ix as [epoch]. intros Hv. unfold instruction_dec, instruction_enc.
  rewrite <- app_assoc, take_bytes_app by done. by apply (payload_enc u64).
Qed.

Lemma mock_integration_enc_dec bs ix rest :
  bytes_ok bs -> instruction_dec bs = Some (ix, rest) ->
  instruction_valid ix /\ bs = instruction_enc ix ++ rest.
Proof.
  intros Hb. unfold instruction_dec. destruct (take_bytes 8 bs) as [[sel bs']|] eqn:E; [|done].
  apply take_bytes_inv in E as [_ ->]. apply Forall_app in Hb as [_ Hb]. cbn [mbind option_bind].
  case_bool_decide as Hsel; [|done]. subst sel. intros Hp.
  apply payload_inv in Hp as (epoch & -> & Hv & ->); [|done].
  split; [exact Hv|]. unfold instruction_enc. by rewrite <- app_assoc.
Qed.

Definition instruction_data : Codec MockRewardsIntegrationInstructionData :=
  MkCodec instruction_enc instruction_dec instruction_valid mock_integration_dec_enc
    mock_integration_enc_dec.

(** The instruction a client sends. *)
Section Client.
Context `{Pda} `{KnownPrograms} `{BuildProfile}.

Definition initialize_integration_distribution (payer_key : Pubkey) (dz_epoch : DoubleZeroEpoch)
    : Instruction :=
  let '(integration_distribution_key, _) := find_integration_distribution_address ID dz_epoch in
  let '(integration_bucket_key, _) :=
    find_integration_bucket_address ID integration_distribution_key in
  ProgramInstruction ID
    [meta_new payer_key true;
     meta_new integration_distribution_key false;
     meta_new integration_bucket_key false;
     meta_new_readonly DOUBLEZERO_MINT_KEY false;
     meta_new_readonly spl_token_id false;
     meta_new_readonly system_program_id false]
    (instruction_enc (InitializeIntegrationDistribution dz_epoch)).
End Client.

(** ** [processor.rs] *)
Section Processor.
Context `{R : Runtime MiData}.

Abbreviation Mx := (M MiData).

Definition try_initialize_integration_distribution (accounts : list AccountInfo)
    (epoch : DoubleZeroEpoch) : Mx unit :=
  start_iter accounts;;
  '(_, payer_info) ← try_next_enumerated_account default_options;
  '(_, new_integration_distribution_info) ← try_next_enumerated_account default_options;
  let '(expected_key, bump) := find_integration_distribution_address ID epoch in
  ensure (key new_integration_distribution_info =? expected_key) InvalidSeeds;;
  lamports ← get_lamports (key new_integration_distribution_info);
  try_create_account ID (Signer (key payer_info))
    (PdaSigner expected_key
       [INTEGRATION_DISTRIBUTION_SEED_PREFIX; Epoch.as_seed epoch; [bump]])
    lamports (data_end (D := MiData) MockIntegrationDistribution) ID accounts None;;
  integration_distribution ←
    try_initialize MockIntegrationDistribution new_integration_distribution_info;
  modify MockIntegrationDistribution integration_distribution
    (fun x => x <| dz_epoch := epoch |> <| bump_seed := bump |>);;
  drop_view integration_distribution;;
  '(_, new_bucket_info) ← try_next_enumerated_account default_options;
  let '(expected_bucket_key, bucket_bump) := find_integration_bucket_address ID expected_key in
  ensure (key new_bucket_info =? expected_bucket_key) InvalidSeeds;;
  lamports ← get_lamports (key new_bucket_info);
  try_create_token_account ID (Signer (key payer_info))
    (PdaSigner (key new_bucket_info)
       [TOKEN_2Z_PDA_SEED_PREFIX; key_seed expected_key; [bucket_bump]])
    DOUBLEZERO_MINT_KEY expected_key lamports accounts.

(** The mock's own account, read before the iteration starts. *)
Definition first_distribution (accounts : list AccountInfo) : Mx MockIntegrationDistribution :=
  info ← lift (ok_or (head accounts) NotEnoughAccountKeys);
  try_from_account_info MockIntegrationDistribution info (Some ID);;
  state ← deref MockIntegrationDistribution (key info);
  drop_view (key info);;
  mret state.

Definition unpack_bucket (d : MiData) : Res TokenAccount :=
  match unpack_token_account d with
  | Err _ => Err InvalidAccountData
  | r => r
  end.

Definition try_withdraw_integration_rewards (accounts : list AccountInfo) : Mx unit :=
  start_iter accounts;;
  state ← first_distribution accounts;
  let integration_distribution_dz_epoch := dz_epoch state in
  let integration_distribution_bump_seed := bump_seed state in
  '(integration_distribution_info, integration_2z_bucket_info,
    destination_token_account_info, _) ←
    withdraw_integration_rewards_handler_accounts integration_distribution_dz_epoch;
  data ← peek_data (key integration_2z_bucket_info);
  bucket ← lift (unpack_bucket data);
  invoke_signed ID
    (TokenTransfer (key integration_2z_bucket_info) (key destination_token_account_info)
       (key integration_distribution_info) (token_amount bucket))
    accounts
    [[INTEGRATION_DISTRIBUTION_SEED_PREFIX; Epoch.as_seed integration_distribution_dz_epoch;
      [integration_distribution_bump_seed]]].

Definition try_process_instruction (program_id : Pubkey) (accounts : list AccountInfo)
    (ix_bytes : list Z) : Mx unit :=
  ensure (program_id =? ID) IncorrectProgramId;;
  match deserialize_integration_instruction ix_bytes with
  | Some (WithdrawIntegrationRewards, []) => try_withdraw_integration_rewards accounts
  | _ =>
      ix ← lift (ok_or (try_from_slice instruction_data ix_bytes) InvalidInstructionData);
      match ix with
      | InitializeIntegrationDistribution epoch =>
          try_initialize_integration_distribution accounts epoch
      end
  end.
End Processor.
(** ** When the bucket is paid out *)
Section Withdrawal.
Context `{R : Runtime MiData}.

#[export] Instance layout_integration_distribution : FitsLayout MockIntegrationDistribution.
Proof.
  intros d x rest ->%zc_integration_distribution_inv. unfold data_end. cbn. unfold lenZ. lia.
Qed.
#[export] Instance layout_parent : FitsLayout (D := MiData) Distribution.
Proof. intros d x rest ->%zc_parent_inv. unfold data_end. cbn. unfold lenZ. lia. Qed.

Lemma unpack_bucket_ok d a : unpack_bucket d = Ok a <-> unpack_token_account d = Ok a.
Proof. unfold unpack_bucket. by destruct (unpack_token_account d). Qed.

Ltac mi_norm :=
  repeat match goal with
  | H : zc_read MockIntegrationDistribution _ = Some (_, _) |- _ =>
      apply zc_integration_distribution_inv in H
  | H : zc_read Distribution _ = Some (_, _) |- _ => apply zc_parent_inv in H
  end.
Ltac mi_cbn := cbn [zc_write zc_zeroed zc_integration_distribution]; rewrite ?set_data_set_data.
Ltac mi_note H := idtac.
Ltac mi_step :=
  lazymatch goal with
  | |- wlp (try_from_account_info _ _ _) _ _ =>
      apply wlp_try_from_account_info;
      let x := fresh "x" in let rest := fresh "rest" in let Hd := fresh "Hdata" in
      intros x rest Hd ? ?; mi_norm
  | _ => step_with mi_norm view_read mi_cbn mi_note
  end; cbn beta iota zeta.
Ltac mi_tstep :=
  lazymatch goal with
  | |- twp (try_from_account_info _ _ _) _ _ =>
      eapply twp_try_from_account_info; [apply _|..]; cbn [key meta_new meta_new_readonly];
      [view_read|eassumption|not_borrowed|]
  | |- twp (lift _) _ _ =>
      eapply twp_lift; [first [reflexivity | eassumption | by apply unpack_bucket_ok]|]
  | |- twp (ensure _ _) _ _ => apply twp_ensure; [first [reflexivity | by apply Z.eqb_eq]|]
  | |- twp (invoke_signed _ _ _ _) _ _ => eapply twp_invoke_signed; [eassumption|]
  | _ => tstep_with idtac
  end; rewrite ?release_head; cbn beta iota zeta delta [key meta_new meta_new_readonly].

(** A new distribution holds its epoch and the bump seed of its address, so that
    the seeds a withdrawal signs with are those of the account. *)
Theorem initialize_integration_distribution_spec `{!RuntimeLaws MiData R}
    (L L' : Ledger MiData) trace m0 m1 m2 rest epoch :
  ID <> system_program_id ->
  run (try_initialize_integration_distribution (m0 :: m1 :: m2 :: rest) epoch) L
    = Ok (L', trace) ->
  exists bump bucket_bump tail bucket_lamports,
    find_integration_distribution_address ID epoch = (key m1, bump) /\
    find_integration_bucket_address ID (key m1) = (key m2, bucket_bump) /\
    data (acct L' (key m1)) = MiDistribution (MkIntegrationDistribution epoch bump) tail /\
    owner (acct L' (key m1)) = ID /\
    create_program_address
      [INTEGRATION_DISTRIBUTION_SEED_PREFIX; Epoch.as_seed epoch; [bump]] ID = Some (key m1) /\
    trace =
      create_account_ixs (Signer (key m0))
        (PdaSigner (key m1) [INTEGRATION_DISTRIBUTION_SEED_PREFIX; Epoch.as_seed epoch; [bump]])
        (lamports (acct L (key m1))) (data_end (D := MiData) MockIntegrationDistribution) ID None ++
      create_token_account_ixs (Signer (key m0))
        (PdaSigner (key m2) [TOKEN_2Z_PDA_SEED_PREFIX; key_seed (key m1); [bucket_bump]])
        DOUBLEZERO_MINT_KEY (key m1) bucket_lamports.
Proof.
  intros Hsystem. start_run. unfold try_initialize_integration_distribution.
  destruct (find_integration_distribution_address ID epoch) as [k bump] eqn:Ek.
  repeat mi_step. subst k.
  apply wlp_try_create_account; [exact Hsystem|]. intros L1 r1 Hcpi Hown. specialize (Hown eq_refl).
  cbn [invoker_key] in Hown. repeat mi_step.
  destruct (find_integration_bucket_address ID (key m1)) as [kb bucket_bump] eqn:Eb.
  repeat mi_step. subst kb.
  apply wlp_try_create_token_account; [exact Hsystem|]. intros L2 r2 Hcpi2.
  pose proof (Hcpi2 _ (cpi_closed_preserves R ID Hsystem)) as Hpres.
  destruct (Hpres (key m1)) as [Hdata2 Howner2]; [by ledger|].
  do 4 eexists. split_and!; try reflexivity; [|exact Howner2|exact (create_found [_; _] ID _ _ Ek)].
  cbn [st_ledger]. by rewrite Hdata2, data_set_data_eq.
Qed.

(** The accounts and data of a collection's CPI. *)
Definition collection (distribution bucket destination parent : Pubkey) : M MiData unit :=
  try_process_instruction ID
    (withdraw_integration_rewards_metas distribution bucket destination parent)
    WITHDRAW_INTEGRATION_REWARDS.

Lemma collection_withdraws distribution bucket destination parent L :
  run (collection distribution bucket destination parent) L
    = run (try_withdraw_integration_rewards
             (withdraw_integration_rewards_metas distribution bucket destination parent)) L.
Proof. reflexivity. Qed.

(** C33: when the mock pays.  The instruction by which the revenue-distribution
    program collects from an integration succeeds in the mock if and only if the
    first account is a distribution of the mock and the parent a distribution of
    the revenue-distribution program for the same epoch, the destination is a
    token account of that parent, the bucket is a token account, and the token
    program accepts the transfer of the whole bucket, signed with the seeds of
    the mock's distribution; and then that transfer is all it does. *)
Theorem collection_served (L L' : Ledger MiData) trace distribution bucket destination parent :
  run (collection distribution bucket destination parent) L = Ok (L', trace) <->
  exists x xrest d drest destination_account bucket_account ret,
    let transfer := TokenTransfer bucket destination distribution (token_amount bucket_account) in
    data (acct L distribution) = MiDistribution x xrest /\ owner (acct L distribution) = ID /\
    data (acct L parent) = MiParent d drest /\ owner (acct L parent) = State.ID /\
    Dist.dz_epoch d = dz_epoch x /\
    unpack_token_account (data (acct L destination)) = Ok destination_account /\
    token_owner destination_account = parent /\
    unpack_token_account (data (acct L bucket)) = Ok bucket_account /\
    invoke_cpi ID transfer
      (withdraw_integration_rewards_metas distribution bucket destination parent)
      [[INTEGRATION_DISTRIBUTION_SEED_PREFIX; Epoch.as_seed (dz_epoch x); [bump_seed x]]] L
      = Ok (L', ret) /\
    trace = [transfer].
Proof.
  rewrite collection_withdraws. unfold try_withdraw_integration_rewards, first_distribution.
  unfold withdraw_integration_rewards_handler_accounts, withdraw_integration_rewards_metas. split.
  - start_run. repeat mi_step. mi_norm.
    match goal with H : head _ = Some _ |- _ => cbn in H; injection H as <- end.
    match goal with H : unpack_bucket _ = Ok _ |- _ => apply unpack_bucket_ok in H end.
    cbn [key meta_new meta_new_readonly] in *. do 7 eexists. split_and!; eassumption || reflexivity.
  - cbv zeta. intros (x & xrest & d & drest & destination_account & bucket_account & ret & Hx & Hxo
      & Hd & Hdo & He & Hdest & Hparent & Hbucket & Hcpi & ->).
    apply twp_run. repeat mi_tstep. done.
Qed.
End Withdrawal.

End MockRewards.
