(* ===== verification/PassportInstruction.v ===== *)
(** * Instruction data of the passport program

    [programs/passport/src/instruction/mod.rs]: the access modes a user can
    request, the settings, the instruction enum, and their Borsh format as
    [Codec]s. *)

From Stdlib Require Import ZArith Lia String.
From S2P Require Import Prelude Runtime Borsh.

(** A module of its own: the two programs name their instructions alike. *)
Module PassportIx.

Inductive ProgramFlagConfiguration : Type :=
  | IsPaused (should_pause : bool)
  | IsRequestAccessPaused (should_pause : bool).

Inductive ProgramConfiguration : Type :=
  | Flag (configure_flag : ProgramFlagConfiguration)
  | DoubleZeroLedgerSentinel (sentinel_key : Pubkey)
  | AccessRequestDeposit (request_deposit_lamports request_fee_lamports : Z)
  | SolanaValidatorBackupIdsLimit (limit : Z).

Record SolanaValidatorAttestation : Type := MkAttestation {
  validator_id : Pubkey;
  service_key : Pubkey;
  ed25519_signature : list Z
}.

Inductive AccessMode : Type :=
  | SolanaValidator (attestation : SolanaValidatorAttestation)
  | SolanaValidatorWithBackupIds (attestation : SolanaValidatorAttestation)
      (backup_ids : list Pubkey).

(** [AccessMode::service_key]. *)
Definition mode_service_key (m : AccessMode) : Pubkey :=
  match m with
  | SolanaValidator attestation => service_key attestation
  | SolanaValidatorWithBackupIds attestation _ => service_key attestation
  end.

Inductive PassportInstructionData : Type :=
  | InitializeProgram
  | SetAdmin (admin_key : Pubkey)
  | ConfigureProgram (setting : ProgramConfiguration)
  | RequestAccess (access_mode : AccessMode)
  | GrantAccess
  | DenyAccess.

(** ** Selectors *)
Inductive Selector : Type :=
  | INITIALIZE_PROGRAM
  | SET_ADMIN
  | CONFIGURE_PROGRAM
  | REQUEST_ACCESS
  | GRANT_ACCESS
  | DENY_ACCESS.

#[export] Instance Selector_eq_dec : EqDecision Selector.
Proof. solve_decision. Defined.

Definition selector_bytes (s : Selector) : list Z :=
  match s with
  | INITIALIZE_PROGRAM => (* "dz::ix::initialize_program" *)
      [27; 176; 143; 199; 249; 234; 240; 52]
  | SET_ADMIN => (* "dz::ix::set_admin" *)
      [234; 22; 39; 185; 124; 120; 175; 144]
  | CONFIGURE_PROGRAM => (* "dz::ix::configure_program" *)
      [177; 36; 32; 8; 91; 3; 238; 53]
  | REQUEST_ACCESS => (* "dz::ix::request_access" *)
      [162; 175; 230; 174; 137; 46; 148; 106]
  | GRANT_ACCESS => (* "dz::ix::grant_access" *)
      [24; 163; 119; 74; 101; 37; 219; 143]
  | DENY_ACCESS => (* "dz::ix::deny_access" *)
      [41; 108; 80; 100; 29; 105; 162; 68]
  end.

Definition all_selectors : list Selector :=
  [INITIALIZE_PROGRAM; SET_ADMIN; CONFIGURE_PROGRAM; REQUEST_ACCESS; GRANT_ACCESS; DENY_ACCESS].

Definition find_selector (bs : list Z) : option Selector :=
  snd <$> list_find (fun s => selector_bytes s = bs) all_selectors.

Lemma passport_find_selector_bytes s : find_selector (selector_bytes s) = Some s.
Proof. by destruct s; vm_compute. Qed.

Lemma passport_find_selector_inv bs s : find_selector bs = Some s -> selector_bytes s = bs.
Proof.
  unfold find_selector. destruct (list_find _ _) as [[i x]|] eqn:E; [|done].
  intros [= <-]. apply list_find_Some in E. naive_solver.
Qed.

Lemma passport_selector_length s : length (selector_bytes s) = 8%nat.
Proof. by destruct s. Qed.

(** ** Codecs *)
Lemma attestation_fg (a : SolanaValidatorAttestation) :
  (fun '(v, s, sig) => MkAttestation v s sig)
    (validator_id a, service_key a, ed25519_signature a) = a.
Proof. by destruct a. Qed.

Definition attestation : Codec SolanaValidatorAttestation :=
  iso (pair (pair pubkey pubkey) (byte_array 64)) (fun '(v, s, sig) => MkAttestation v s sig)
    (fun a => (validator_id a, service_key a, ed25519_signature a)) attestation_fg
    (fun p => match p with (_, _, _) => eq_refl end).

Definition attestation_backup_ids : Codec (SolanaValidatorAttestation * list Pubkey) :=
  pair attestation (vec pubkey).

Definition access_mode_enc (m : AccessMode) : list Z :=
  match m with
  | SolanaValidator a => 0 :: enc attestation a
  | SolanaValidatorWithBackupIds a ids => 1 :: enc attestation_backup_ids (a, ids)
  end.

Definition access_mode_dec (bs : list Z) : option (AccessMode * list Z) :=
  match bs with
  | 0 :: bs => payload attestation SolanaValidator bs
  | 1 :: bs =>
      payload attestation_backup_ids (fun '(a, ids) => SolanaValidatorWithBackupIds a ids) bs
  | _ => None
  end.

Definition access_mode_valid (m : AccessMode) : Prop :=
  match m with
  | SolanaValidator a => valid attestation a
  | SolanaValidatorWithBackupIds a ids => valid attestation_backup_ids (a, ids)
  end.

#[local] Arguments enc : simpl never.
#[local] Arguments dec : simpl never.
#[local] Arguments valid : simpl never.

Lemma access_mode_dec_enc m rest :
  access_mode_valid m -> access_mode_dec (access_mode_enc m ++ rest) = Some (m, rest).
Proof. destruct m; intros Hm; cbn; by rewrite payload_enc. Qed.

Lemma access_mode_enc_dec bs m rest :
  bytes_ok bs -> access_mode_dec bs = Some (m, rest) ->
  access_mode_valid m /\ bs = access_mode_enc m ++ rest.
Proof.
  intros Hb Hd. destruct bs as [|t bs]; [done|]. apply Forall_cons in Hb as [_ Hb].
  unfold access_mode_dec in Hd. repeat (case_match; try done); subst; payload_solve.
Qed.

Definition access_mode : Codec AccessMode :=
  MkCodec access_mode_enc access_mode_dec access_mode_valid access_mode_dec_enc access_mode_enc_dec.

Definition deposit_fields : Codec (Z * Z) := pair u64 u64.

Definition setting_enc (s : ProgramConfiguration) : list Z :=
  match s with
  | Flag (IsPaused b) => 0 :: 0 :: enc boolean b
  | Flag (IsRequestAccessPaused b) => 0 :: 1 :: enc boolean b
  | DoubleZeroLedgerSentinel k => 1 :: enc pubkey k
  | AccessRequestDeposit d f => 2 :: enc deposit_fields (d, f)
  | SolanaValidatorBackupIdsLimit n => 3 :: enc u16 n
  end.

Definition setting_dec (bs : list Z) : option (ProgramConfiguration * list Z) :=
  match bs with
  | 0 :: 0 :: bs => payload boolean (fun b => Flag (IsPaused b)) bs
  | 0 :: 1 :: bs => payload boolean (fun b => Flag (IsRequestAccessPaused b)) bs
  | 1 :: bs => payload pubkey DoubleZeroLedgerSentinel bs
  | 2 :: bs => payload deposit_fields (fun '(d, f) => AccessRequestDeposit d f) bs
  | 3 :: bs => payload u16 SolanaValidatorBackupIdsLimit bs
  | _ => None
  end.

Definition setting_valid (s : ProgramConfiguration) : Prop :=
  match s with
  | Flag (IsPaused b) | Flag (IsRequestAccessPaused b) => valid boolean b
  | DoubleZeroLedgerSentinel k => valid pubkey k
  | AccessRequestDeposit d f => valid deposit_fields (d, f)
  | SolanaValidatorBackupIdsLimit n => valid u16 n
  end.

Lemma passport_setting_dec_enc s rest :
  setting_valid s -> setting_dec (setting_enc s ++ rest) = Some (s, rest).
Proof. destruct s as [[]| | |]; intros Hs; cbn; by rewrite payload_enc. Qed.

Lemma passport_setting_enc_dec bs s rest :
  bytes_ok bs -> setting_dec bs = Some (s, rest) -> setting_valid s /\ bs = setting_enc s ++ rest.
Proof.
  intros Hb Hd. destruct bs as [|t bs]; [done|]. apply Forall_cons in Hb as [_ Hb].
  unfold setting_dec in Hd.
  repeat (case_match; try done); subst; try (apply Forall_cons in Hb as [_ Hb]); payload_solve.
Qed.

Definition program_configuration : Codec ProgramConfiguration :=
  MkCodec setting_enc setting_dec setting_valid passport_setting_dec_enc passport_setting_enc_dec.

(** ** The instruction *)
Definition selector_of (ix : PassportInstructionData) : Selector :=
  match ix with
  | InitializeProgram => INITIALIZE_PROGRAM
  | SetAdmin _ => SET_ADMIN
  | ConfigureProgram _ => CONFIGURE_PROGRAM
  | RequestAccess _ => REQUEST_ACCESS
  | GrantAccess => GRANT_ACCESS
  | DenyAccess => DENY_ACCESS
  end.

Definition fields_enc (ix : PassportInstructionData) : list Z :=
  match ix with
  | SetAdmin k => enc pubkey k
  | ConfigureProgram s => enc program_configuration s
  | RequestAccess m => enc access_mode m
  | _ => []
  end.

Definition instruction_valid (ix : PassportInstructionData) : Prop :=
  match ix with
  | SetAdmin k => valid pubkey k
  | ConfigureProgram s => valid program_configuration s
  | RequestAccess m => valid access_mode m
  | _ => True
  end.

Definition fields_dec (s : Selector) (bs : list Z) : option (PassportInstructionData * list Z) :=
  match s with
  | INITIALIZE_PROGRAM => Some (InitializeProgram, bs)
  | SET_ADMIN => payload pubkey SetAdmin bs
  | CONFIGURE_PROGRAM => payload program_configuration ConfigureProgram bs
  | REQUEST_ACCESS => payload access_mode RequestAccess bs
  | GRANT_ACCESS => Some (GrantAccess, bs)
  | DENY_ACCESS => Some (DenyAccess, bs)
  end.

(** [BorshSerialize::serialize] and [BorshDeserialize::deserialize_reader]. *)
Definition instruction_enc (ix : PassportInstructionData) : list Z :=
  selector_bytes (selector_of ix) ++ fields_enc ix.

Definition instruction_dec (bs : list Z) : option (PassportInstructionData * list Z) :=
  '(sel, bs) ← take_bytes 8 bs;
  s ← find_selector sel;
  fields_dec s bs.

Lemma passport_fields_dec_enc ix rest :
  instruction_valid ix -> fields_dec (selector_of ix) (fields_enc ix ++ rest) = Some (ix, rest).
Proof. destruct ix; intros Hv; cbn; try reflexivity; by rewrite payload_enc. Qed.

Lemma passport_fields_enc_dec s bs ix rest :
  bytes_ok bs -> fields_dec s bs = Some (ix, rest) ->
  instruction_valid ix /\ selector_of ix = s /\ bs = fields_enc ix ++ rest.
Proof. intros Hb Hd. destruct s; unfold fields_dec in Hd; payload_solve. Qed.

Lemma passport_instruction_dec_enc ix rest :
  instruction_valid ix -> instruction_dec (instruction_enc ix ++ rest) = Some (ix, rest).
Proof.
  exact (selected_dec_enc find_selector selector_bytes 8 selector_of fields_enc fields_dec
    instruction_valid passport_find_selector_bytes passport_selector_length
    passport_fields_dec_enc ix rest).
Qed.

Lemma passport_instruction_enc_dec bs ix rest :
  bytes_ok bs -> instruction_dec bs = Some (ix, rest) ->
  instruction_valid ix /\ bs = instruction_enc ix ++ rest.
Proof.
  exact (selected_enc_dec find_selector selector_bytes 8 selector_of fields_enc fields_dec
    instruction_valid passport_find_selector_inv passport_fields_enc_dec bs ix rest).
Qed.

Definition instruction_data : Codec PassportInstructionData :=
  MkCodec instruction_enc instruction_dec instruction_valid passport_instruction_dec_enc
    passport_instruction_enc_dec.

(** ** The size of an access mode *)
Lemma length_attestation a :
  access_mode_valid (SolanaValidator a) -> length (enc attestation a) = 128%nat.
Proof.
  intros [_ [Hs _]]. change (length (ed25519_signature a) = 64%nat) in Hs.
  change (enc attestation a) with
    ((enc pubkey (validator_id a) ++ enc pubkey (service_key a)) ++ ed25519_signature a).
  rewrite !length_app, Hs. unfold pubkey, uint, enc. by rewrite !length_to_le_bytes.
Qed.

Lemma length_concat_pubkeys ids : length (concat (enc pubkey <$> ids)) = (32 * length ids)%nat.
Proof.
  induction ids as [|k ids IH]; [done|]. cbn [fmap list_fmap concat]. rewrite length_app.
  cbn [fmap] in IH. rewrite IH. change (enc pubkey k) with (to_le_bytes 32 k).
  rewrite length_to_le_bytes. cbn [length]. lia.
Qed.

(** An encoded access mode is made of bytes. *)
Lemma access_mode_bytes m : access_mode_valid m -> bytes_ok (access_mode_enc m).
Proof.
  assert (forall a, access_mode_valid (SolanaValidator a) -> bytes_ok (enc attestation a)) as Ha.
  { intros a [_ [_ Hs]]. change (enc attestation a) with
      ((enc pubkey (validator_id a) ++ enc pubkey (service_key a)) ++ ed25519_signature a).
    rewrite !Forall_app. split_and!; [apply to_le_bytes_ok..|done]. }
  destruct m as [a|a ids]; intros Hm; cbn [access_mode_enc]; (constructor; [unfold is_byte; lia|]).
  - by apply Ha.
  - destruct Hm as [Hm _].
    change (enc attestation_backup_ids (a, ids)) with
      (enc attestation a ++ enc u32 (Z.of_nat (length ids)) ++ concat (enc pubkey <$> ids)).
    rewrite !Forall_app. split_and!; [by apply Ha|apply to_le_bytes_ok|].
    apply Forall_concat, Forall_fmap, Forall_true. intros k. apply to_le_bytes_ok.
Qed.

(** C31: the wire format of passport instructions is a bijection between
    well-formed instructions and the byte strings the program accepts: every
    instruction reads back as itself, whatever [try_from_slice] accepts is the
    canonical encoding of what it returns, and trailing bytes are refused. *)
Theorem passport_instruction_roundtrip (ix : PassportInstructionData) (bs : list Z) :
  instruction_valid ix -> bytes_ok bs ->
  try_from_slice instruction_data (instruction_enc ix) = Some ix /\
  (try_from_slice instruction_data bs = Some ix -> bs = instruction_enc ix) /\
  (bs <> [] -> try_from_slice instruction_data (instruction_enc ix ++ bs) = None).
Proof.
  intros Hv Hb. split_and!.
  - by apply (try_from_slice_enc instruction_data).
  - intros H'. by apply (try_from_slice_canonical instruction_data) in H' as [_ ->].
  - intros Hn. destruct bs as [|b bs]; [done|]. by apply (try_from_slice_trailing instruction_data).
Qed.
End PassportIx.
