(* ===== verification/PassportState.v ===== *)
(** * Account state of the passport program

    [programs/passport/src/lib.rs] and [state/]: the program config and the
    access request, with their flag and PDA helpers, and the contents of the
    program's accounts. *)

From Stdlib Require Import ZArith Lia String.
From S2P Require Import Prelude Types Runtime ProgramTools Borsh State PassportInstruction.

(** ** Program id and config: [lib.rs], [state/program_config.rs] *)
Module PassportConfig.

(** The little-endian number of the base-58 string in the source. *)
Definition ID : Pubkey :=
  48914342312943854822692108225071984048994014450245025731257077309282127084041.

Record ProgramConfig : Type := MkProgramConfig {
  flags : Z;
  admin_key : Pubkey;
  sentinel_key : Pubkey;
  request_deposit_lamports : Z;
  request_fee_lamports : Z;
  solana_validator_backup_ids_limit : Z
}.
#[export] Instance eta_passport_config : Eta ProgramConfig := fun p =>
  MkProgramConfig (flags p) (admin_key p) (sentinel_key p) (request_deposit_lamports p)
    (request_fee_lamports p) (solana_validator_backup_ids_limit p).

Definition zeroed : ProgramConfig := MkProgramConfig 0 0 0 0 0 0.

Definition SIZE_ProgramConfig : Z := 344.

Definition SEED_PREFIX : list Z := bytes_of_string "program_config".
Definition FLAG_IS_PAUSED_BIT : Z := 0.
Definition FLAG_IS_REQUEST_ACCESS_PAUSED_BIT : Z := 1.

Definition find_address `{Pda} : Pubkey * Z := find_program_address [SEED_PREFIX] ID.

Definition is_paused (p : ProgramConfig) : bool := Flags.bit (flags p) FLAG_IS_PAUSED_BIT.
Definition set_is_paused (p : ProgramConfig) (should_pause : bool) : ProgramConfig :=
  p <| flags := Flags.set_bit (flags p) FLAG_IS_PAUSED_BIT should_pause |>.
Definition is_request_access_paused (p : ProgramConfig) : bool :=
  Flags.bit (flags p) FLAG_IS_REQUEST_ACCESS_PAUSED_BIT.
Definition set_is_request_access_paused (p : ProgramConfig) (should_pause : bool) : ProgramConfig :=
  p <| flags := Flags.set_bit (flags p) FLAG_IS_REQUEST_ACCESS_PAUSED_BIT should_pause |>.

Definition checked_request_deposit_lamports (p : ProgramConfig) : option Z :=
  let lamports := request_deposit_lamports p in
  if lamports =? 0 then None else Some lamports.

Definition fields (p : ProgramConfig) : list (Z * Z) :=
  [(64, flags p); (256, admin_key p); (256, sentinel_key p); (64, request_deposit_lamports p);
   (64, request_fee_lamports p); (16, solana_validator_backup_ids_limit p)].

(** Numbers of their widths, and a fee below the deposit once that is set:
    what makes a request able to pay its fee. *)
Definition wf (p : ProgramConfig) : Prop :=
  fields_fit (fields p) /\
  (request_deposit_lamports p = 0 /\ request_fee_lamports p = 0 \/
   request_fee_lamports p < request_deposit_lamports p).
End PassportConfig.
Export (hints) PassportConfig.

(** ** Access requests: [state/access_request.rs] *)
Module PassportRequest.

Definition REQUEST_ACCESS_MAX_DATA_SIZE : Z := 4096.

Record AccessRequest : Type := MkAccessRequest {
  service_key : Pubkey;
  rent_beneficiary_key : Pubkey;
  request_fee_lamports : Z;
  encoded_access_mode : list Z
}.
#[export] Instance eta_access_request : Eta AccessRequest := fun r =>
  MkAccessRequest (service_key r) (rent_beneficiary_key r) (request_fee_lamports r)
    (encoded_access_mode r).

Definition zeroed : AccessRequest :=
  MkAccessRequest 0 0 0 (replicate (Z.to_nat REQUEST_ACCESS_MAX_DATA_SIZE) 0).

Definition SIZE_AccessRequest : Z := 4168.

Definition SEED_PREFIX : list Z := bytes_of_string "access_request".

Definition find_address `{Pda} (service_key : Pubkey) : Pubkey * Z :=
  find_program_address [SEED_PREFIX; key_seed service_key] PassportConfig.ID.

(** [BorshDeserialize::deserialize] reads a prefix of the buffer. *)
Definition checked_access_mode (r : AccessRequest) : option PassportIx.AccessMode :=
  fst <$> dec PassportIx.access_mode (encoded_access_mode r).

Definition wf (r : AccessRequest) : Prop :=
  fits 256 (service_key r) /\ fits 256 (rent_beneficiary_key r) /\
  fits 64 (request_fee_lamports r) /\ bytes_ok (encoded_access_mode r) /\
  lenZ (encoded_access_mode r) = REQUEST_ACCESS_MAX_DATA_SIZE.
End PassportRequest.
Export (hints) PassportRequest.
Abbreviation AccessRequest := PassportRequest.AccessRequest.

(** ** Account contents

    Zero-filled, one of the two typed accounts with the bytes after its struct,
    or the data of an account of another program. *)
Inductive PpData : Type :=
  | PpZeroed (len : Z)
  | PpConfig (p : PassportConfig.ProgramConfig) (rest : list Z)
  | PpRequest (r : AccessRequest) (rest : list Z)
  | PpForeign (bytes : list Z).

Definition pp_data_len (d : PpData) : Z :=
  match d with
  | PpZeroed len => len
  | PpConfig _ rest => DISCRIMINATOR_LEN + PassportConfig.SIZE_ProgramConfig + lenZ rest
  | PpRequest _ rest => DISCRIMINATOR_LEN + PassportRequest.SIZE_AccessRequest + lenZ rest
  | PpForeign bytes => lenZ bytes
  end.

#[export] Instance PpData_account : AccountData PpData := {
  data_len := pp_data_len;
  empty_data := PpZeroed 0;
  has_zero_discriminator d :=
    match d with
    | PpZeroed _ => true
    | PpForeign bytes => forallb (Z.eqb 0) (take 8 bytes)
    | _ => false
    end
}.

#[export] Instance zc_passport_config : ZeroCopy PpData PassportConfig.ProgramConfig.
Proof.
  refine (Build_ZeroCopy _ _ _ PassportConfig.SIZE_ProgramConfig
    (fun d => match d with PpConfig p rest => Some (p, rest) | _ => None end)
    PpConfig PassportConfig.zeroed (fun _ _ => eq_refl)).
Defined.

#[export] Instance zc_access_request : ZeroCopy PpData AccessRequest.
Proof.
  refine (Build_ZeroCopy _ _ _ PassportRequest.SIZE_AccessRequest
    (fun d => match d with PpRequest r rest => Some (r, rest) | _ => None end)
    PpRequest PassportRequest.zeroed (fun _ _ => eq_refl)).
Defined.

Lemma zc_passport_config_inv d p rest :
  zc_read PassportConfig.ProgramConfig d = Some (p, rest) <-> d = PpConfig p rest.
Proof. destruct d; cbn; naive_solver. Qed.
Lemma zc_access_request_inv d r rest : zc_read AccessRequest d = Some (r, rest) <-> d = PpRequest r rest.
Proof. destruct d; cbn; naive_solver. Qed.

(** Contents with a discriminator of the program. *)
Definition pp_typed (d : PpData) : bool :=
  match d with PpConfig _ _ | PpRequest _ _ => true | _ => false end.
