(* ===== verification/PassportMessage.v ===== *)
(** * The message of an access request

    [AccessRequest::access_request_message]: the text a validator signs off
    chain to request access, with the terms it commits to.  How a key is written
    ([impl Display for Pubkey]) is code of another crate and a parameter. *)

From Stdlib Require Import ZArith Lia String.
From S2P Require Import Prelude Runtime PassportInstruction PassportState.

(** The text of a key, in bytes. *)
Class PubkeyText : Type := pubkey_text : Pubkey -> list Z.

Definition COMMA : Z := 44.

(** It is not empty, has no comma and belongs to one key. *)
Class PubkeyTextLaws `{PubkeyText} : Prop := {
  text_injective k k' : fits 256 k -> fits 256 k' -> pubkey_text k = pubkey_text k' -> k = k';
  text_nonempty k : pubkey_text k <> [];
  text_no_comma k : COMMA ∉ pubkey_text k
}.

Section Message.
Context `{PubkeyText}.

(** [keys.iter().join(",")] *)
Fixpoint join_keys (keys : list Pubkey) : list Z :=
  match keys with
  | [] => []
  | [k] => pubkey_text k
  | k :: keys => pubkey_text k ++ COMMA :: join_keys keys
  end.

Definition access_request_message (access_mode : PassportIx.AccessMode) : list Z :=
  match access_mode with
  | PassportIx.SolanaValidator attestation =>
      bytes_of_string "service_key=" ++ pubkey_text (PassportIx.service_key attestation)
  | PassportIx.SolanaValidatorWithBackupIds attestation backup_ids =>
      bytes_of_string "service_key=" ++ pubkey_text (PassportIx.service_key attestation)
      ++ bytes_of_string ",backup_ids=" ++ join_keys backup_ids
  end.

(** ** What the message commits to *)
Definition backup_ids_of (m : PassportIx.AccessMode) : option (list Pubkey) :=
  match m with
  | PassportIx.SolanaValidator _ => None
  | PassportIx.SolanaValidatorWithBackupIds _ backup_ids => Some backup_ids
  end.

Context `{!PubkeyTextLaws}.

(** A text up to the first comma, or to the end. *)
Definition comma_tail (t : list Z) : Prop := t = [] \/ head t = Some COMMA.

Lemma text_cut (s s' t t' : list Z) :
  COMMA ∉ s -> COMMA ∉ s' -> comma_tail t -> comma_tail t' -> s ++ t = s' ++ t' -> s = s' /\ t = t'.
Proof.
  revert s'. induction s as [|x s IH]; intros [|x' s'] Hs Hs' Ht Ht' E; cbn in E.
  - done.
  - subst t. exfalso. destruct Ht as [|[= ->]]; [done|]. apply Hs'. by left.
  - subst t'. exfalso. destruct Ht' as [|[= ->]]; [done|]. apply Hs. by left.
  - injection E as -> E. apply not_elem_of_cons in Hs as [_ Hs], Hs' as [_ Hs'].
    by destruct (IH s' Hs Hs' Ht Ht' E) as [-> ->].
Qed.

Lemma join_keys_cons k keys :
  exists t, join_keys (k :: keys) = pubkey_text k ++ t /\
    t = match keys with [] => [] | _ => COMMA :: join_keys keys end.
Proof. destruct keys as [|k2 keys]; eexists; split; [by rewrite app_nil_r|done|done|done]. Qed.

Lemma join_keys_injective keys keys' :
  Forall (fits 256) keys -> Forall (fits 256) keys' -> join_keys keys = join_keys keys' -> keys = keys'.
Proof.
  assert (forall k ks, join_keys (k :: ks) <> []) as Hne.
  { intros k ks E. destruct (join_keys_cons k ks) as (t & Et & _). rewrite Et in E.
    apply app_eq_nil in E as [E _]. by apply (text_nonempty k). }
  intros Hk. revert keys'. induction Hk as [|k keys Hk _ IH]; intros [|k' keys'] Hk' E.
  - done.
  - by destruct (Hne k' keys').
  - by destruct (Hne k keys).
  - apply Forall_cons in Hk' as [Hk1 Hk'].
    destruct (join_keys_cons k keys) as (t & Et & Dt), (join_keys_cons k' keys') as (t' & Et' & Dt').
    rewrite Et, Et' in E.
    apply text_cut in E as [Ek Ekeys]; [|apply text_no_comma..| |].
    + apply text_injective in Ek as ->; [|done..]. rewrite Dt, Dt' in Ekeys. f_equal. apply IH; [done|].
      destruct keys, keys'; try done. by injection Ekeys.
    + rewrite Dt. destruct keys; [by left|by right].
    + rewrite Dt'. destruct keys'; [by left|by right].
Qed.

Definition backup_ids_text (ids : option (list Pubkey)) : list Z :=
  match ids with None => [] | Some ids => bytes_of_string ",backup_ids=" ++ join_keys ids end.

Lemma message_parts m :
  access_request_message m
  = bytes_of_string "service_key=" ++ pubkey_text (PassportIx.mode_service_key m)
    ++ backup_ids_text (backup_ids_of m).
Proof. destruct m; [cbn [backup_ids_of backup_ids_text]; by rewrite app_nil_r|done]. Qed.

Lemma mode_keys_fit m :
  PassportIx.access_mode_valid m ->
  fits 256 (PassportIx.mode_service_key m) /\ Forall (fits 256) (default [] (backup_ids_of m)).
Proof.
  destruct m as [a|a ids]; cbn.
  - intros [[_ Hk] _]. done.
  - intros [[[_ Hk] _] [_ Hids]]. done.
Qed.

(** A signed message commits to its terms: two access modes with the same
    message are for the same service key and list the same backup ids, or
    neither lists any. *)
Theorem access_request_message_commits m m' :
  PassportIx.access_mode_valid m -> PassportIx.access_mode_valid m' ->
  access_request_message m = access_request_message m' ->
  PassportIx.mode_service_key m = PassportIx.mode_service_key m' /\
  backup_ids_of m = backup_ids_of m'.
Proof.
  intros [Hk Hids]%mode_keys_fit [Hk' Hids']%mode_keys_fit. rewrite !message_parts.
  intros E%app_inv_head.
  apply text_cut in E as [Ek Eids]; [|apply text_no_comma..| |].
  - split; [by apply text_injective|].
    destruct (backup_ids_of m) as [ids|], (backup_ids_of m') as [ids'|]; try done.
    apply app_inv_head in Eids. f_equal. by apply join_keys_injective.
  - destruct (backup_ids_of m); [by right|by left].
  - destruct (backup_ids_of m'); [by right|by left].
Qed.
End Message.
