(* ===== verification/PassportClient.v ===== *)
(** * Account lists of the passport client

    [programs/passport/src/instruction/account.rs], as [RdClient] does for the
    other program. *)

From Stdlib Require Import ZArith Lia String.
From S2P Require Import Prelude Types Runtime ProgramTools State PassportInstruction PassportState.

(** A module of its own, and one in it for each struct. *)
Module PassportClient.

Module InitializeProgramAccounts.
Record t : Type := Mk {
  payer_key : Pubkey;
  new_program_config_key : Pubkey
}.

Definition new `{Pda} (payer_key : Pubkey) : t :=
  let new_program_config_key := PassportConfig.find_address.1 in
  {| payer_key := payer_key;
     new_program_config_key := new_program_config_key |}.

Definition metas `{KnownPrograms} (accounts : t) : list AccountInfo :=
  [meta_new (payer_key accounts) true;
   meta_new (new_program_config_key accounts) false;
   meta_new_readonly system_program_id false].
End InitializeProgramAccounts.

Module SetAdminAccounts.
Record t : Type := Mk {
  program_data_key : Pubkey;
  owner_key : Pubkey;
  program_config_key : Pubkey
}.

Definition new `{Pda} `{KnownPrograms} (program_id owner_key : Pubkey) : t :=
  {| program_data_key := (get_program_data_address BPF_LOADER_UPGRADEABLE program_id).1;
     owner_key := owner_key;
     program_config_key := PassportConfig.find_address.1 |}.

Definition metas (accounts : t) : list AccountInfo :=
  [meta_new_readonly (program_data_key accounts) false;
   meta_new_readonly (owner_key accounts) true;
   meta_new (program_config_key accounts) false].
End SetAdminAccounts.

Module ConfigureProgramAccounts.
Record t : Type := Mk {
  program_config_key : Pubkey;
  admin_key : Pubkey
}.

Definition new `{Pda} (admin_key : Pubkey) : t :=
  {| program_config_key := PassportConfig.find_address.1;
     admin_key := admin_key |}.

Definition metas (accounts : t) : list AccountInfo :=
  [meta_new (program_config_key accounts) false;
   meta_new_readonly (admin_key accounts) true].
End ConfigureProgramAccounts.

Module RequestAccessAccounts.
Record t : Type := Mk {
  program_config_key : Pubkey;
  payer_key : Pubkey;
  new_access_request_key : Pubkey
}.

Definition new `{Pda} (payer_key service_key : Pubkey) : t :=
  {| program_config_key := PassportConfig.find_address.1;
     payer_key := payer_key;
     new_access_request_key := (PassportRequest.find_address service_key).1 |}.

Definition metas `{KnownPrograms} (accounts : t) : list AccountInfo :=
  [meta_new_readonly (program_config_key accounts) false;
   meta_new (payer_key accounts) true;
   meta_new (new_access_request_key accounts) false;
   meta_new_readonly system_program_id false].
End RequestAccessAccounts.

Module GrantAccessAccounts.
Record t : Type := Mk {
  program_config_key : Pubkey;
  dz_ledger_sentinel_key : Pubkey;
  access_request_key : Pubkey;
  rent_beneficiary_key : Pubkey
}.

Definition new `{Pda} (dz_ledger_sentinel_key access_request_key rent_beneficiary_key : Pubkey)
    : t :=
  {| program_config_key := PassportConfig.find_address.1;
     dz_ledger_sentinel_key := dz_ledger_sentinel_key;
     access_request_key := access_request_key;
     rent_beneficiary_key := rent_beneficiary_key |}.

Definition metas (accounts : t) : list AccountInfo :=
  [meta_new_readonly (program_config_key accounts) false;
   meta_new (dz_ledger_sentinel_key accounts) true;
   meta_new (access_request_key accounts) false;
   meta_new (rent_beneficiary_key accounts) false].
End GrantAccessAccounts.

Module DenyAccessAccounts.
Record t : Type := Mk {
  program_config_key : Pubkey;
  dz_ledger_sentinel_key : Pubkey;
  access_request_key : Pubkey
}.

Definition new `{Pda} (dz_ledger_sentinel_key access_request_key : Pubkey) : t :=
  {| program_config_key := PassportConfig.find_address.1;
     dz_ledger_sentinel_key := dz_ledger_sentinel_key;
     access_request_key := access_request_key |}.

Definition metas (accounts : t) : list AccountInfo :=
  [meta_new_readonly (program_config_key accounts) false;
   meta_new (dz_ledger_sentinel_key accounts) true;
   meta_new (access_request_key accounts) false].
End DenyAccessAccounts.
End PassportClient.
