(* ===== verification/PassportProcessor.v ===== *)
(** * The passport program

    [programs/passport/src/processor.rs]: the account helpers at its end, the
    six handlers and the entrypoint. *)

From Stdlib Require Import ZArith Lia String.
From S2P Require Import Prelude Types Runtime ProgramTools Borsh State.
From S2P Require Import PassportInstruction PassportState.

(** A module of its own: the two programs name their handlers alike. *)
Module Passport.
Import PassportConfig.

Section Processor.
Context `{R : Runtime PpData}.

Abbreviation Mx := (M PpData).

(** ** Account helpers *)
Inductive Authority : Type := Admin | Sentinel.

Definition authority_key (a : Authority) (p : ProgramConfig) : Pubkey :=
  match a with
  | Admin => admin_key p
  | Sentinel => sentinel_key p
  end.

Definition try_next_as_authorized_account (a : Authority) (program_config : ProgramConfig)
    : Mx (nat * AccountInfo) :=
  '(index, authority_info) ←
    try_next_enumerated_account (default_options <| must_be_signer := true |>);
  ensure (key authority_info =? authority_key a program_config) InvalidAccountData;;
  mret (index, authority_info).

(** [VerifiedProgramAuthority]: the key of the config's view and the authority. *)
Definition verified_program_authority (a : Authority) : Mx (Pubkey * AccountInfo) :=
  program_config ← zc_try_next_accounts ProgramConfig (Some ID);
  p ← deref ProgramConfig program_config;
  '(_, authority_info) ← try_next_as_authorized_account a p;
  mret (program_config, authority_info).

(** [VerifiedProgramAuthorityMut]. *)
Definition verified_program_authority_mut (a : Authority) : Mx (Pubkey * AccountInfo) :=
  program_config ← zc_mut_try_next_accounts ProgramConfig (Some ID);
  p ← deref ProgramConfig program_config;
  '(_, authority_info) ← try_next_as_authorized_account a p;
  mret (program_config, authority_info).

Definition try_require_unpaused (p : ProgramConfig) : Res unit :=
  require (negb (is_paused p)) InvalidAccountData.

(** [**info.lamports.borrow_mut() += n] while the lamports of account [held]
    are borrowed: the two are one cell when the accounts are the same. *)
Definition add_lamports_beside (held k : Pubkey) (n : Z) : Mx unit :=
  if k =? held then panic else add_lamports k n.

Definition set_lamports_to (k : Pubkey) (n : Z) : Mx unit :=
  L ← get_ledger; put_ledger (set_lamports L k n).

(** ** Handlers *)
Definition try_initialize_program (accounts : list AccountInfo) : Mx unit :=
  start_iter accounts;;
  '(_, payer_info) ← try_next_enumerated_account default_options;
  '(_, new_program_config_info) ← try_next_enumerated_account default_options;
  let '(expected_program_config_key, program_config_bump) := find_address in
  ensure (key new_program_config_info =? expected_program_config_key) InvalidSeeds;;
  config_lamports ← get_lamports (key new_program_config_info);
  try_create_account ID (Signer (key payer_info))
    (PdaSigner expected_program_config_key [SEED_PREFIX; [program_config_bump]])
    config_lamports (data_end (D := PpData) ProgramConfig) ID accounts None;;
  try_initialize ProgramConfig new_program_config_info;;
  mret tt.

Definition try_set_admin (accounts : list AccountInfo) (new_admin_key : Pubkey) : Mx unit :=
  start_iter accounts;;
  upgrade_authority_try_next_accounts BPF_LOADER_UPGRADEABLE ID;;
  program_config ← zc_mut_try_next_accounts ProgramConfig (Some ID);
  modify ProgramConfig program_config (fun p => p <| admin_key := new_admin_key |>).

(** The [match setting] of [try_configure_program] on the config it mutates. *)
Definition apply_setting (p : ProgramConfig) (setting : PassportIx.ProgramConfiguration)
    : Res ProgramConfig :=
  match setting with
  | PassportIx.Flag (PassportIx.IsPaused should_pause) => mret (set_is_paused p should_pause)
  | PassportIx.Flag (PassportIx.IsRequestAccessPaused should_pause) =>
      mret (set_is_request_access_paused p should_pause)
  | PassportIx.DoubleZeroLedgerSentinel k => mret (p <| sentinel_key := k |>)
  | PassportIx.AccessRequestDeposit deposit_lamports fee_lamports =>
      if deposit_lamports =? 0 then Err InvalidInstructionData
      else if deposit_lamports <=? fee_lamports then Err InvalidInstructionData
      else mret (p <| request_deposit_lamports := deposit_lamports |>
                   <| request_fee_lamports := fee_lamports |>)
  | PassportIx.SolanaValidatorBackupIdsLimit limit =>
      if limit =? 0 then Err InvalidInstructionData
      else mret (p <| solana_validator_backup_ids_limit := limit |>)
  end.

Definition try_configure_program (accounts : list AccountInfo)
    (setting : PassportIx.ProgramConfiguration) : Mx unit :=
  start_iter accounts;;
  '(program_config, _) ← verified_program_authority_mut Admin;
  p ← deref ProgramConfig program_config;
  p ← lift (apply_setting p setting);
  modify ProgramConfig program_config (fun _ => p).

(** [TRANSACTION_LEVEL_STACK_HEIGHT]. *)
Definition TRANSACTION_LEVEL_STACK_HEIGHT : Z := 1.

(** The [match &access_mode]: the backup ids are neither none nor too many. *)
Definition check_access_mode (p : ProgramConfig) (access_mode : PassportIx.AccessMode)
    : Res Pubkey :=
  match access_mode with
  | PassportIx.SolanaValidator attestation => mret (PassportIx.service_key attestation)
  | PassportIx.SolanaValidatorWithBackupIds attestation backup_ids =>
      require (negb (lenZ backup_ids =? 0)) InvalidInstructionData;;
      require (lenZ backup_ids <=? solana_validator_backup_ids_limit p) InvalidInstructionData;;
      mret (PassportIx.service_key attestation)
  end.

(** [borsh::to_writer] into a slice: fails when the bytes do not fit, and
    leaves the rest of the slice alone. *)
Definition to_writer (buffer bytes : list Z) : option (list Z) :=
  if (length bytes <=? length buffer)%nat then Some (bytes ++ drop (length bytes) buffer) else None.

Definition try_request_access (accounts : list AccountInfo) (access_mode : PassportIx.AccessMode)
    : Mx unit :=
  ensure (get_stack_height =? TRANSACTION_LEVEL_STACK_HEIGHT) InvalidInstructionData;;
  start_iter accounts;;
  program_config ← zc_try_next_accounts ProgramConfig (Some ID);
  p ← deref ProgramConfig program_config;
  lift (try_require_unpaused p);;
  ensure (negb (is_request_access_paused p)) InvalidAccountData;;
  service_key ← lift (check_access_mode p access_mode);
  ensure (negb (service_key =? pubkey_default)) InvalidInstructionData;;
  additional_lamports ← lift (ok_or (checked_request_deposit_lamports p) InvalidAccountData);
  '(_, payer_info) ← try_next_enumerated_account default_options;
  '(_, new_access_request_info) ← try_next_enumerated_account default_options;
  let '(expected_access_request_key, access_request_bump) :=
    PassportRequest.find_address service_key in
  ensure (key new_access_request_info =? expected_access_request_key) InvalidSeeds;;
  request_lamports ← get_lamports (key new_access_request_info);
  try_create_account ID (Signer (key payer_info))
    (PdaSigner expected_access_request_key
       [PassportRequest.SEED_PREFIX; key_seed service_key; [access_request_bump]])
    request_lamports (data_end (D := PpData) AccessRequest) ID accounts (Some additional_lamports);;
  access_request ← try_initialize AccessRequest new_access_request_info;
  p ← deref ProgramConfig program_config;
  modify AccessRequest access_request (fun r =>
    r <| PassportRequest.service_key := service_key |>
      <| PassportRequest.rent_beneficiary_key := key payer_info |>
      <| PassportRequest.request_fee_lamports := request_fee_lamports p |>);;
  r ← deref AccessRequest access_request;
  encoded ← lift (ok_or (to_writer (PassportRequest.encoded_access_mode r)
                           (PassportIx.access_mode_enc access_mode)) InvalidAccountData);
  modify AccessRequest access_request (fun r =>
    r <| PassportRequest.encoded_access_mode := encoded |>).

Definition try_grant_access (accounts : list AccountInfo) : Mx unit :=
  start_iter accounts;;
  '(program_config, sentinel_info) ← verified_program_authority Sentinel;
  p ← deref ProgramConfig program_config;
  lift (try_require_unpaused p);;
  access_request ← zc_try_next_accounts AccessRequest (Some ID);
  r ← deref AccessRequest access_request;
  let request_fee := PassportRequest.request_fee_lamports r in
  access_request_lamports ← get_lamports access_request;
  let request_refund := saturating_sub access_request_lamports request_fee in
  add_lamports_beside access_request (key sentinel_info) request_fee;;
  '(_, rent_beneficiary_info) ← try_next_enumerated_account default_options;
  ensure (key rent_beneficiary_info =? PassportRequest.rent_beneficiary_key r) InvalidAccountData;;
  add_lamports_beside access_request (key rent_beneficiary_info) request_refund;;
  set_lamports_to access_request 0.

Definition try_deny_access (accounts : list AccountInfo) : Mx unit :=
  start_iter accounts;;
  '(program_config, sentinel_info) ← verified_program_authority Sentinel;
  p ← deref ProgramConfig program_config;
  lift (try_require_unpaused p);;
  access_request ← zc_try_next_accounts AccessRequest (Some ID);
  forfeit_deposit ← get_lamports access_request;
  add_lamports_beside access_request (key sentinel_info) forfeit_deposit;;
  set_lamports_to access_request 0.

(** ** The entrypoint *)
Definition process (ix : PassportIx.PassportInstructionData) (accounts : list AccountInfo)
    : Mx unit :=
  match ix with
  | PassportIx.InitializeProgram => try_initialize_program accounts
  | PassportIx.SetAdmin admin_key => try_set_admin accounts admin_key
  | PassportIx.ConfigureProgram setting => try_configure_program accounts setting
  | PassportIx.RequestAccess access_mode => try_request_access accounts access_mode
  | PassportIx.GrantAccess => try_grant_access accounts
  | PassportIx.DenyAccess => try_deny_access accounts
  end.

Definition try_process_instruction (program_id : Pubkey) (accounts : list AccountInfo)
    (ix_bytes : list Z) : Mx unit :=
  ensure (program_id =? ID) IncorrectProgramId;;
  ix ← lift (ok_or (try_from_slice PassportIx.instruction_data ix_bytes) InvalidInstructionData);
  process ix accounts.
End Processor.
End Passport.
