(* ===== verification/PassportRules.v ===== *)
(** * Rules for the passport program

    What the theorems about the passport program assume of the runtime, the
    rules of its account helpers, and the tactics that execute its handlers. *)

From Stdlib Require Import ZArith Lia.
From S2P Require Import Prelude Types Runtime Lamports ProgramTools Rules Total Borsh State.
From S2P Require Import PassportInstruction PassportState PassportProcessor.
Import PassportConfig Passport.

(** ** Other programs *)

(** Balances are non-negative, the supply is a 64-bit number, and only accounts
    of the program are typed. *)
Record pp_ledger_ok `{KnownPrograms} (L : Ledger PpData) : Prop := {
  po_solvent : solvent L;
  po_supply : total_lamports L < 2 ^ 64;
  po_typed : forall k, pp_typed (data (acct L k)) = true -> owner (acct L k) = ID
}.

(** What other programs can do to a ledger: the program's accounts keep their
    data and owner and are not debited, and the accounts the program comes to
    own are not typed. *)
Definition pp_foreign `{KnownPrograms} (L L' : Ledger PpData) : Prop :=
  cpi_preserves ID L L' /\
  (forall k, owner (acct L k) = ID -> lamports (acct L k) <= lamports (acct L' k)) /\
  (pp_ledger_ok L ->
   pp_ledger_ok L' /\
   forall k, pp_typed (data (acct L' k)) = true -> owner (acct L k) = ID).

Class PpLaws (R : Runtime PpData) : Prop := {
  pp_laws :: RuntimeLaws PpData R;
  pp_id_not_system : ID <> system_program_id;
  pp_cpi_typed : forall ix accounts seeds (L L' : Ledger PpData) ret,
    invoke_cpi ID ix accounts seeds L = Ok (L', ret) -> self_invocation ID ix = false ->
    pp_ledger_ok L ->
    pp_ledger_ok L' /\ forall k, pp_typed (data (acct L' k)) = true -> owner (acct L k) = ID
}.

Lemma pp_foreign_trans `{KnownPrograms} (L1 L2 L3 : Ledger PpData) :
  pp_foreign L1 L2 -> pp_foreign L2 L3 -> pp_foreign L1 L3.
Proof.
  intros (P1 & B1 & T1) (P2 & B2 & T2). split_and!; [by eapply cpi_preserves_trans| |].
  - intros k Hk. specialize (B1 k Hk). specialize (B2 k (proj2 (P1 k Hk))). lia.
  - intros HL. destruct (T1 HL) as [H2 K1]. destruct (T2 H2) as [H3 K2]. split; [done|].
    intros k Hk. apply K1. pose proof (K2 k Hk) as Ho. destruct (P2 k Ho) as [<- _]. done.
Qed.

Lemma cpi_closed_pp_foreign `{R : Runtime PpData, !PpLaws R} : cpi_closed ID pp_foreign.
Proof.
  split; [|apply pp_foreign_trans]. intros ix accounts seeds L L' ret Hs Hi. split_and!.
  - exact (invoke_cpi_preserves R _ _ _ _ _ _ _ pp_id_not_system Hs Hi).
  - intros k Hk. by destruct (cpi_frame _ _ _ _ _ _ _ k Hi pp_id_not_system Hs Hk) as (_ & _ & ?).
  - by eapply pp_cpi_typed.
Qed.

(** ** Tactics *)
Ltac pp_norm :=
  repeat match goal with
  | H : zc_read ProgramConfig _ = Some (_, _) |- _ => apply zc_passport_config_inv in H
  | H : zc_read AccessRequest _ = Some (_, _) |- _ => apply zc_access_request_inv in H
  end.

Ltac pp_cbn := cbn [zc_write zc_zeroed zc_passport_config zc_access_request]; rewrite ?set_data_set_data.

Ltac no_note H := idtac.

Ltac pstep :=
  lazymatch goal with
  | |- wlp (set_lamports_to _ _) _ _ => unfold set_lamports_to
  | |- wlp get_ledger _ _ => apply wlp_get_ledger
  | |- wlp (put_ledger _) _ _ => apply wlp_put_ledger
  | _ => step_with pp_norm view_read pp_cbn no_note
  end; cbn beta iota zeta.

Ltac psteps := repeat pstep.

(** ** Account helpers *)
Section AccountRules.
Context `{R : Runtime PpData}.

(** What a passed authority check says of the accounts. *)
Definition pp_authorized (L : Ledger PpData) (a : Authority) (m0 m1 : AccountInfo)
    (p : ProgramConfig) (prest : list Z) : Prop :=
  data (acct L (key m0)) = PpConfig p prest /\ owner (acct L (key m0)) = ID /\
  is_signer m1 = true /\ key m1 = authority_key a p.

Lemma wlp_pp_authority a accounts (Q : Pubkey * AccountInfo -> St PpData -> Prop) L i b r t :
  (forall m0 m1 rest p prest, accounts = m0 :: m1 :: rest -> pp_authorized L a m0 m1 p prest ->
     Q (key m0, m1) (MkSt L (S (S i)) rest ((key m0, false) :: b) r t)) ->
  wlp (verified_program_authority a) Q (MkSt L i accounts b r t).
Proof.
  intros HQ. unfold verified_program_authority, try_next_as_authorized_account.
  destruct accounts as [|m0 [|m1 rest]]; psteps. by eapply HQ.
Qed.

Lemma wlp_pp_authority_mut a accounts (Q : Pubkey * AccountInfo -> St PpData -> Prop) L i b r t :
  (forall m0 m1 rest p prest, accounts = m0 :: m1 :: rest -> pp_authorized L a m0 m1 p prest ->
     is_writable m0 = true ->
     Q (key m0, m1) (MkSt L (S (S i)) rest ((key m0, true) :: b) r t)) ->
  wlp (verified_program_authority_mut a) Q (MkSt L i accounts b r t).
Proof.
  intros HQ. unfold verified_program_authority_mut, try_next_as_authorized_account.
  destruct accounts as [|m0 [|m1 rest]]; psteps. by eapply HQ.
Qed.

Lemma wlp_add_lamports_beside held k n (Q : unit -> St PpData -> Prop) L i infos b r t :
  (forall l, k <> held -> arith_add 64 (lamports (acct L k)) n = Ok l ->
     Q tt (MkSt (set_lamports L k l) i infos b r t)) ->
  wlp (add_lamports_beside held k n) Q (MkSt L i infos b r t).
Proof.
  intros HQ. unfold add_lamports_beside. destruct (Z.eqb_spec k held); [by apply wlp_panic|].
  apply wlp_add_lamports. eauto.
Qed.

Lemma twp_add_lamports_beside held k n l (Q : unit -> St PpData -> Prop) L i infos b r t :
  k <> held -> arith_add 64 (lamports (acct L k)) n = Ok l ->
  Q tt (MkSt (set_lamports L k l) i infos b r t) ->
  twp (add_lamports_beside held k n) Q (MkSt L i infos b r t).
Proof.
  intros Hk E HQ. unfold add_lamports_beside. rewrite (proj2 (Z.eqb_neq _ _) Hk).
  by eapply twp_add_lamports.
Qed.

Lemma twp_set_lamports_to k n (Q : unit -> St PpData -> Prop) L i infos b r t :
  Q tt (MkSt (set_lamports L k n) i infos b r t) ->
  twp (set_lamports_to k n) Q (MkSt L i infos b r t).
Proof. intros HQ. by eexists _, _. Qed.
End AccountRules.

#[export] Instance layout_passport_config : FitsLayout (D := PpData) ProgramConfig.
Proof.
  intros d p rest ->%zc_passport_config_inv. unfold data_end. cbn. unfold lenZ. lia.
Qed.
#[export] Instance layout_access_request : FitsLayout (D := PpData) AccessRequest.
Proof.
  intros d p rest ->%zc_access_request_inv. unfold data_end. cbn. unfold lenZ. lia.
Qed.

Ltac pauth :=
  lazymatch goal with
  | |- wlp (verified_program_authority _) _ _ =>
      apply wlp_pp_authority;
      let H := fresh "Hauth" in let E := fresh "Eaccounts" in intros m0 m1 rest p prest E H
  | |- wlp (verified_program_authority_mut _) _ _ =>
      apply wlp_pp_authority_mut;
      let H := fresh "Hauth" in let E := fresh "Eaccounts" in
      let Hw := fresh "Hwritable" in intros m0 m1 rest p prest E H Hw
  | |- wlp (add_lamports_beside _ _ _) _ _ =>
      apply wlp_add_lamports_beside;
      let Hne := fresh "Hbeside" in let Ha := fresh "Hsum" in intros ? Hne Ha
  end; cbn beta iota.

(** One forward step of a handler. *)
Ltac ptstep :=
  lazymatch goal with
  | |- twp (add_lamports_beside _ _ _) _ _ => eapply twp_add_lamports_beside; [congruence| |]
  | |- twp (set_lamports_to _ _) _ _ => apply twp_set_lamports_to
  | |- twp (verified_program_authority _) _ _ =>
      unfold verified_program_authority, try_next_as_authorized_account
  | _ => tstep_with pp_cbn
  end; cbn beta iota zeta.
