(* ===== verification/PassportAccess.v ===== *)
(** * Access requests

    What requesting, granting and denying access do to a ledger, handler by
    handler: the guards, the record written, and where the lamports go. *)

From Stdlib Require Import ZArith Lia.
From S2P Require Import Prelude Types Runtime Lamports ProgramTools Rules Total Borsh State.
From S2P Require Import PassportInstruction PassportState PassportProcessor PassportRules.
Import PassportConfig Passport.

(** ** What the handlers check and change

    In terms of addresses and ledgers, for any runtime. *)
Section Relations.
Context `{Pda} `{KnownPrograms}.

(** The record of a request for [mode], paid by [payer] under config [p]. *)
Definition new_request (p : ProgramConfig) (payer : Pubkey) (mode : PassportIx.AccessMode)
    : AccessRequest :=
  let encoding := PassportIx.access_mode_enc mode in
  PassportRequest.MkAccessRequest (PassportIx.mode_service_key mode) payer (request_fee_lamports p)
    (encoding ++ replicate (Z.to_nat PassportRequest.REQUEST_ACCESS_MAX_DATA_SIZE - length encoding) 0).

(** The guards of the request, over its accounts. *)
Record may_request (L : Ledger PpData) (m0 m2 : AccountInfo) (p : ProgramConfig)
    (mode : PassportIx.AccessMode) : Prop := {
  mr_config : exists rest, data (acct L (key m0)) = PpConfig p rest;
  mr_owner : owner (acct L (key m0)) = ID;
  mr_unpaused : is_paused p = false /\ is_request_access_paused p = false;
  mr_mode : check_access_mode p mode = Ok (PassportIx.mode_service_key mode);
  mr_service : PassportIx.mode_service_key mode <> pubkey_default;
  mr_deposit : request_deposit_lamports p <> 0;
  mr_address : key m2 = (PassportRequest.find_address (PassportIx.mode_service_key mode)).1;
  mr_size : lenZ (PassportIx.access_mode_enc mode) <= PassportRequest.REQUEST_ACCESS_MAX_DATA_SIZE
}.

(** The guards of a decision: the sentinel signs, on a request of the program
    while it is not paused. *)
Record may_decide (L : Ledger PpData) (m0 m1 m2 : AccountInfo) (p : ProgramConfig)
    (r : AccessRequest) : Prop := {
  md_config : exists rest, data (acct L (key m0)) = PpConfig p rest;
  md_config_owner : owner (acct L (key m0)) = ID;
  md_sentinel : is_signer m1 = true /\ key m1 = sentinel_key p;
  md_unpaused : is_paused p = false;
  md_request : exists rest, data (acct L (key m2)) = PpRequest r rest;
  md_owner : owner (acct L (key m2)) = ID
}.

(** The same accounts but for their balances. *)
Definition same_contents (L L' : Ledger PpData) : Prop :=
  forall k, data (acct L' k) = data (acct L k) /\ owner (acct L' k) = owner (acct L k).

Lemma same_contents_set (L : Ledger PpData) k n : same_contents L (set_lamports L k n).
Proof. intros k'. by rewrite data_set_lamports, owner_set_lamports. Qed.

Lemma same_contents_trans (L1 L2 L3 : Ledger PpData) :
  same_contents L1 L2 -> same_contents L2 L3 -> same_contents L1 L3.
Proof. intros H1 H2 k. destruct (H1 k), (H2 k). split; congruence. Qed.

End Relations.

Section Access.
Context `{R : Runtime PpData} `{!PpLaws R}.

(** What a new request account is created with. *)
Definition request_funding (p : ProgramConfig) : Z :=
  wanted_lamports (data_end (D := PpData) AccessRequest) (Some (request_deposit_lamports p)).

(** ** Requesting access *)

(** What a request does to the ledger: the account is created by the System
    program and filled in. *)
Record requested (L L' : Ledger PpData) (m1 m2 : AccountInfo) (r : AccessRequest)
    (p : ProgramConfig) : Prop := {
  rq_new : pp_typed (data (acct L (key m2))) = false;
  rq_write : exists L1 rest, pp_foreign L L1 /\ owner (acct L1 (key m2)) = ID /\
    pp_typed (data (acct L1 (key m2))) = false /\
    L' = set_data L1 (key m2) (PpRequest r rest);
  rq_lamports :
    lamports (acct L' (key m2)) = Z.max (request_funding p) (lamports (acct L (key m2)))
}.

Lemma check_access_mode_ok p mode k :
  check_access_mode p mode = Ok k -> k = PassportIx.mode_service_key mode.
Proof. destruct mode; cbn; intros H; res_inv; done. Qed.

Lemma to_writer_zeros n bytes buffer :
  to_writer (replicate n 0) bytes = Some buffer ->
  (length bytes <= n)%nat /\ buffer = bytes ++ replicate (n - length bytes) 0.
Proof.
  unfold to_writer. rewrite length_replicate. destruct (Nat.leb_spec (length bytes) n); [|done].
  intros [= <-]. by rewrite drop_replicate.
Qed.

Lemma checked_deposit_ok p n :
  checked_request_deposit_lamports p = Some n -> n = request_deposit_lamports p /\ n <> 0.
Proof. unfold checked_request_deposit_lamports. case_match; bool_to_prop; naive_solver. Qed.

Lemma request_access_wlp (L : Ledger PpData) accounts mode i b t ret (Q : unit -> St PpData -> Prop) :
  pp_ledger_ok L ->
  (forall k p rest, data (acct L k) = PpConfig p rest -> fits 64 (request_deposit_lamports p)) ->
  (forall m0 m1 m2 rest p L' s, accounts = m0 :: m1 :: m2 :: rest ->
     get_stack_height = TRANSACTION_LEVEL_STACK_HEIGHT ->
     may_request L m0 m2 p mode -> requested L L' m1 m2 (new_request p (key m1) mode) p ->
     st_ledger s = L' -> Q tt s) ->
  wlp (try_request_access accounts mode) Q (MkSt L i [] b ret t).
Proof.
  intros HL Hfit HQ. unfold try_request_access. destruct accounts as [|m0 [|m1 [|m2 rest]]]; psteps.
  pose proof (check_access_mode_ok _ _ _ H2) as ->. apply checked_deposit_ok in H4 as [-> Hdep].
  destruct (PassportRequest.find_address _) as [k bump] eqn:Ek. psteps.
  apply wlp_try_create_account_funded; [apply pp_id_not_system| | | | |].
  1: cbn; congruence. 1: apply (po_solvent _ HL). 1: apply pp_id_not_system. 1: intros n [= <-]; apply (Hfit _ _ _ Hdata).
  cbn [invoker_key]. intros L1 r1 Hcpi Hown Hlam. specialize (Hown eq_refl).
  pose proof (Hcpi _ cpi_closed_pp_foreign) as Hf. pose proof (proj1 Hf) as Hpres.
  psteps.
  subst k. assert (key m0 <> key m2) as Hne.
  { intros E. rewrite E in Hborrow0. unfold borrowed in Hborrow0. cbn in Hborrow0.
    by rewrite Z.eqb_refl in Hborrow0. }
  psteps. apply to_writer_zeros in H4 as [Hsize ->].
  eapply (HQ m0 m1 m2 rest x); [done|done| | |reflexivity].
  - split; try done; [by eexists|split; [|done]|by rewrite Ek|].
    + by apply require_ok, negb_true_iff in H0.
    + unfold lenZ. unfold PassportRequest.REQUEST_ACCESS_MAX_DATA_SIZE in *. lia.
  - assert (pp_typed (data (acct L1 (key m2))) = false) as Hnew1
      by (destruct (data (acct L1 (key m2))); done).
    split.
    + destruct (pp_typed (data (acct L (key m2)))) eqn:E; [|done].
      pose proof (po_typed _ HL _ E) as Ho. destruct (Hpres _ Ho) as [E' _]. congruence.
    + exists L1, rest1. split_and!; [done|done|done|]. done.
    + cbn [st_ledger]. ledger. exact Hlam.
Qed.

(** C29: requesting access.  A request succeeds only as a top-level instruction,
    on a config of the program that is not paused, for an access mode with a
    service key and an admissible number of backup ids, once the deposit is
    configured, at the address derived from the service key, which holds no
    account of the program.  It leaves there an account of the program with the
    service key, the payer as beneficiary, the current fee and a buffer from
    which the access mode reads back; the account holds its rent and the whole
    deposit, and no other account of the program changes. *)
Theorem request_access_spec (L L' : Ledger PpData) accounts mode trace :
  pp_ledger_ok L ->
  (forall k p rest, data (acct L k) = PpConfig p rest -> fits 64 (request_deposit_lamports p)) ->
  PassportIx.access_mode_valid mode ->
  run (try_request_access accounts mode) L = Ok (L', trace) ->
  exists m0 m1 m2 rest p r rrest,
    accounts = m0 :: m1 :: m2 :: rest /\
    get_stack_height = TRANSACTION_LEVEL_STACK_HEIGHT /\ may_request L m0 m2 p mode /\
    pp_typed (data (acct L (key m2))) = false /\
    data (acct L' (key m2)) = PpRequest r rrest /\ owner (acct L' (key m2)) = ID /\
    PassportRequest.service_key r = PassportIx.mode_service_key mode /\
    PassportRequest.rent_beneficiary_key r = key m1 /\
    PassportRequest.request_fee_lamports r = request_fee_lamports p /\
    PassportRequest.checked_access_mode r = Some mode /\
    lamports (acct L' (key m2)) = Z.max (request_funding p) (lamports (acct L (key m2))) /\
    (forall k, owner (acct L k) = ID -> k <> key m2 ->
     data (acct L' k) = data (acct L k) /\ owner (acct L' k) = ID /\
     lamports (acct L k) <= lamports (acct L' k)).
Proof.
  intros HL Hfit Hm. start_run. apply request_access_wlp; [done|done|].
  intros m0 m1 m2 rest p L2 s -> Htop Hmay [Hnew (L1 & tail & Hf & Ho & _ & ->) Hlam] ->.
  exists m0, m1, m2, rest, p, (new_request p (key m1) mode), tail. ledger.
  split_and!; [done|done|done|done|done|done|done|done|done| |by lamports_norm|].
  - unfold PassportRequest.checked_access_mode. cbn [new_request PassportRequest.encoded_access_mode].
    by rewrite (dec_enc PassportIx.access_mode).
  - intros k Hk Hne. destruct Hf as (Hp & Hb & _). rewrite data_set_data_ne, owner_set_data, lamports_set_data by done.
    destruct (Hp k Hk). auto.
Qed.

(** ** Deciding a request *)

Definition credited (L L' : Ledger PpData) (k : Pubkey) (n : Z) : Prop :=
  exists l, arith_add 64 (lamports (acct L k)) n = Ok l /\ L' = set_lamports L k l.

Lemma grant_access_wlp (L : Ledger PpData) accounts i b t ret (Q : unit -> St PpData -> Prop) :
  (forall m0 m1 m2 m3 rest p r L1 L2 s, accounts = m0 :: m1 :: m2 :: m3 :: rest ->
     may_decide L m0 m1 m2 p r ->
     key m1 <> key m2 -> key m3 <> key m2 -> key m3 = PassportRequest.rent_beneficiary_key r ->
     credited L L1 (key m1) (PassportRequest.request_fee_lamports r) ->
     credited L1 L2 (key m3)
       (saturating_sub (lamports (acct L (key m2))) (PassportRequest.request_fee_lamports r)) ->
     st_ledger s = set_lamports L2 (key m2) 0 -> st_trace s = t -> Q tt s) ->
  wlp (try_grant_access accounts) Q (MkSt L i [] b ret t).
Proof.
  intros HQ. unfold try_grant_access. psteps. pauth. destruct Hauth as (Hd & Ho & Hs & Hk).
  subst accounts. destruct rest as [|m2 [|m3 rest]]; psteps; pauth; psteps. pauth. psteps.
  eapply (HQ m0 m1 m2 m3); try done; [|by eexists..].
  split; try done; [by eexists|by apply require_ok, negb_true_iff in H|by eexists].
Qed.

Lemma deny_access_wlp (L : Ledger PpData) accounts i b t ret (Q : unit -> St PpData -> Prop) :
  (forall m0 m1 m2 rest p r L1 s, accounts = m0 :: m1 :: m2 :: rest ->
     may_decide L m0 m1 m2 p r -> key m1 <> key m2 ->
     credited L L1 (key m1) (lamports (acct L (key m2))) ->
     st_ledger s = set_lamports L1 (key m2) 0 -> st_trace s = t -> Q tt s) ->
  wlp (try_deny_access accounts) Q (MkSt L i [] b ret t).
Proof.
  intros HQ. unfold try_deny_access. psteps. pauth. destruct Hauth as (Hd & Ho & Hs & Hk).
  subst accounts. destruct rest as [|m2 rest]; psteps. pauth. psteps.
  eapply (HQ m0 m1 m2); try done; [|by eexists..].
  split; try done; [by eexists|by apply require_ok, negb_true_iff in H|by eexists].
Qed.

Lemma credited_exact (L L' : Ledger PpData) k n :
  credited L L' k n -> lamports (acct L k) + n < 2 ^ 64 ->
  L' = set_lamports L k (lamports (acct L k) + n).
Proof. intros (l & Hl & ->) Hb. rewrite arith_add_exact in Hl by done. by injection Hl as <-. Qed.

Lemma lamports_set_lamports (L : Ledger PpData) k n k' :
  lamports (acct (set_lamports L k n) k') = if k' =? k then n else lamports (acct L k').
Proof.
  destruct (Z.eqb_spec k' k) as [->|]; [apply lamports_set_lamports_eq|].
  by rewrite lamports_set_lamports_ne.
Qed.

(** What [k] gains when [s] is credited with [n]. *)
Definition gain (k s n : Z) : Z := if k =? s then n else 0.

(** C27: granting access.  It succeeds only for the sentinel of an unpaused
    config, on a request of the program, with the request's beneficiary as
    account 3, and only changes balances: the sentinel gains the fee stored in
    the request, the beneficiary what is left of the request's balance, the
    request is emptied, also when sentinel and beneficiary are one account.
    The lamports of the ledger are conserved exactly when the request holds its
    fee: otherwise the shortfall would be created, which the runtime refuses. *)
Theorem grant_access_spec (L L' : Ledger PpData) accounts trace :
  pp_ledger_ok L -> (forall k r rest, data (acct L k) = PpRequest r rest ->
    0 <= PassportRequest.request_fee_lamports r) ->
  run (try_grant_access accounts) L = Ok (L', trace) ->
  exists m0 m1 m2 m3 rest p r,
    accounts = m0 :: m1 :: m2 :: m3 :: rest /\ may_decide L m0 m1 m2 p r /\
    key m3 = PassportRequest.rent_beneficiary_key r /\ trace = [] /\ same_contents L L' /\
    let held := lamports (acct L (key m2)) in
    let fee := PassportRequest.request_fee_lamports r in
    let shortfall := saturating_sub fee held in
    total_lamports L + shortfall < 2 ^ 64 ->
    total_lamports L' = total_lamports L + shortfall /\
    forall k, lamports (acct L' k) =
      if k =? key m2 then 0
      else lamports (acct L k) + gain k (key m1) fee
           + gain k (key m3) (saturating_sub held fee).
Proof.
  intros [Hpos _ _] Hfee. start_run. apply grant_access_wlp.
  intros m0 m1 m2 m3 rest p r L1 L2 s -> Hmay H1 H3 Hb C1 C2 -> ->.
  destruct (md_request _ _ _ _ _ _ Hmay) as [tail Er]. pose proof (Hfee _ _ _ Er) as Hf.
  exists m0, m1, m2, m3, rest, p, r. split_and!; [done|done|done|done| |].
  { destruct C1 as (l1 & _ & ->), C2 as (l2 & _ & ->).
    eapply same_contents_trans; [|apply same_contents_set].
    eapply same_contents_trans; apply same_contents_set. }
  cbv zeta. unfold saturating_sub in *. intros Hsum.
  pose proof (Hpos (key m2)). pose proof (Hpos (key m1)). pose proof (Hpos (key m3)).
  pose proof (lamports_pair_le_total L (key m1) (key m2) Hpos H1).
  apply credited_exact in C1 as ->; [|lia].
  assert (lamports (acct (set_lamports L (key m1) (lamports (acct L (key m1))
            + PassportRequest.request_fee_lamports r)) (key m3))
          + Z.max (lamports (acct L (key m2)) - PassportRequest.request_fee_lamports r) 0 < 2 ^ 64).
  { rewrite lamports_set_lamports. destruct (Z.eqb_spec (key m3) (key m1)); [lia|].
    pose proof (lamports_pair_le_total L (key m3) (key m2) Hpos H3). lia. }
  apply credited_exact in C2 as ->; [|done]. split.
  - rewrite !total_set_lamports, !lamports_set_lamports.
    rewrite !(proj2 (Z.eqb_neq (key m2) _)) by congruence. lia.
  - intros k. rewrite !lamports_set_lamports. unfold gain.
    destruct (Z.eqb_spec k (key m2)); [done|].
    destruct (Z.eqb_spec k (key m3)) as [->|];
      [destruct (Z.eqb_spec (key m3) (key m1)) as [E|]; [rewrite E|]; lia|].
    destruct (Z.eqb_spec k (key m1)) as [->|]; lia.
Qed.

(** C28: denying access.  It succeeds only for the sentinel of an unpaused
    config, on a request of the program, and only changes balances: the whole
    balance of the request, deposit and rent, goes to the sentinel. *)
Theorem deny_access_spec (L L' : Ledger PpData) accounts trace :
  pp_ledger_ok L ->
  run (try_deny_access accounts) L = Ok (L', trace) ->
  exists m0 m1 m2 rest p r,
    accounts = m0 :: m1 :: m2 :: rest /\ may_decide L m0 m1 m2 p r /\ trace = [] /\
    same_contents L L' /\ total_lamports L' = total_lamports L /\
    forall k, lamports (acct L' k) =
      if k =? key m2 then 0
      else lamports (acct L k) + gain k (key m1) (lamports (acct L (key m2))).
Proof.
  intros [Hpos Hsum _]. start_run. apply deny_access_wlp.
  intros m0 m1 m2 rest p r L1 s -> Hmay H1 C1 -> ->. exists m0, m1, m2, rest, p, r.
  pose proof (lamports_pair_le_total L (key m1) (key m2) Hpos H1).
  apply credited_exact in C1 as ->; [|lia]. split_and!; [done|done|done| | |].
  - eapply same_contents_trans; apply same_contents_set.
  - rewrite !total_set_lamports, !lamports_set_lamports.
    rewrite !(proj2 (Z.eqb_neq (key m2) _)) by congruence. lia.
  - intros k. rewrite !lamports_set_lamports. unfold gain.
    destruct (Z.eqb_spec k (key m2)); [done|]. destruct (Z.eqb_spec k (key m1)) as [->|]; lia.
Qed.

(** ** Progress *)

(** C30: a pending request can be decided.  With the accounts in order, the
    program not paused and the balances below 2^64, the sentinel can both
    grant and deny a request: nothing the user chose stands in the way. *)
Theorem pending_request_can_be_decided (L : Ledger PpData) m0 m1 m2 m3 rest p prest r rrest :
  pp_ledger_ok L ->
  data (acct L (key m0)) = PpConfig p prest -> is_paused p = false ->
  is_signer m1 = true -> key m1 = sentinel_key p -> key m1 <> key m2 ->
  data (acct L (key m2)) = PpRequest r rrest ->
  0 <= PassportRequest.request_fee_lamports r <= lamports (acct L (key m2)) ->
  key m3 = PassportRequest.rent_beneficiary_key r -> key m3 <> key m2 ->
  (exists L', run (try_grant_access (m0 :: m1 :: m2 :: m3 :: rest)) L = Ok (L', []) /\
     lamports (acct L' (key m2)) = 0) /\
  (exists L', run (try_deny_access (m0 :: m1 :: m2 :: rest)) L = Ok (L', []) /\
     lamports (acct L' (key m2)) = 0).
Proof.
  intros [Hpos Hsum Htyped] H0 Hp Hs Hk H12 H2 Hfee H3 H32.
  pose proof (Htyped (key m0) ltac:(by rewrite H0)) as O0.
  pose proof (Htyped (key m2) ltac:(by rewrite H2)) as O2.
  assert (key m0 <> key m2) by congruence.
  pose proof (lamports_pair_le_total L (key m1) (key m2) Hpos H12).
  pose proof (lamports_pair_le_total L (key m3) (key m2) Hpos H32).
  split.
  - assert (exists L' trace, run (try_grant_access (m0 :: m1 :: m2 :: m3 :: rest)) L = Ok (L', trace) /\
      trace = [] /\ lamports (acct L' (key m2)) = 0) as (L' & ? & ? & -> & ?); [|by exists L'].
    apply twp_run_exists. unfold try_grant_access. repeat ptstep.
    1: by apply Z.eqb_eq.
    1: unfold try_require_unpaused; by rewrite Hp.
    1: apply arith_add_exact; lia.
    1: by apply Z.eqb_eq.
    1: apply arith_add_exact; rewrite lamports_set_lamports; unfold saturating_sub;
         destruct (Z.eqb_spec (key m3) (key m1)); lia.
    cbn [st_trace st_ledger]. split; [done|]. ledger. done.
  - assert (exists L' trace, run (try_deny_access (m0 :: m1 :: m2 :: rest)) L = Ok (L', trace) /\
      trace = [] /\ lamports (acct L' (key m2)) = 0) as (L' & ? & ? & -> & ?); [|by exists L'].
    apply twp_run_exists. unfold try_deny_access. repeat ptstep.
    1: by apply Z.eqb_eq.
    1: unfold try_require_unpaused; by rewrite Hp.
    1: apply arith_add_exact; lia.
    cbn [st_trace st_ledger]. split; [done|]. ledger. done.
Qed.
End Access.
