(* ===== verification/PassportExecutions.v ===== *)
(** * Executions of the passport program

    The invariant of its accounts, that every instruction keeps it, and the
    life of an access request over whole histories. *)

From Stdlib Require Import ZArith Lia.
From S2P Require Import Prelude Types Runtime Lamports ProgramTools Rules Total Borsh State.
From S2P Require Import PassportInstruction PassportState PassportProcessor PassportRules.
From S2P Require Import PassportAccess.
Import PassportConfig Passport.

(** ** The invariant *)

(** A request as [try_request_access] writes it: its buffer reads back as an
    access mode for its service key. *)
Definition request_ok (r : AccessRequest) : Prop :=
  PassportRequest.wf r /\ PassportRequest.service_key r <> pubkey_default /\
  exists mode, PassportRequest.checked_access_mode r = Some mode /\
    PassportIx.access_mode_valid mode /\
    PassportIx.mode_service_key mode = PassportRequest.service_key r /\
    match mode with
    | PassportIx.SolanaValidator _ => True
    | PassportIx.SolanaValidatorWithBackupIds _ backup_ids => backup_ids <> []
    end.

Record pp_inv `{Pda} `{KnownPrograms} (L : Ledger PpData) : Prop := {
  pi_ok : pp_ledger_ok L;
  pi_config : forall k p rest, data (acct L k) = PpConfig p rest ->
    k = find_address.1 /\ PassportConfig.wf p;
  pi_request : forall k r rest, data (acct L k) = PpRequest r rest ->
    k = (PassportRequest.find_address (PassportRequest.service_key r)).1 /\ request_ok r
}.

(** What instructions and other programs leave alone: a config stays one, a
    request stays as it was written. *)
Definition pp_evolves `{KnownPrograms} (L L' : Ledger PpData) : Prop :=
  forall k,
    match data (acct L k) with
    | PpConfig _ _ => exists p rest, data (acct L' k) = PpConfig p rest
    | PpRequest r rest => data (acct L' k) = PpRequest r rest
    | _ => True
    end.

Section Relations.
Context `{Pda} `{KnownPrograms}.

(** Contents that satisfy the invariant at an address. *)
Definition data_ok (k : Pubkey) (d : PpData) : Prop :=
  match d with
  | PpConfig p _ => k = find_address.1 /\ PassportConfig.wf p
  | PpRequest r _ =>
      k = (PassportRequest.find_address (PassportRequest.service_key r)).1 /\ request_ok r
  | _ => True
  end.

(** The ledger moves forward, no account of the program is debited, and the
    requests that were not there are described by [new]. *)
Definition kept (new : Pubkey -> AccessRequest -> Prop) (L L' : Ledger PpData) : Prop :=
  pp_inv L' /\ pp_evolves L L' /\
  (forall k, owner (acct L k) = ID -> lamports (acct L k) <= lamports (acct L' k)) /\
  (forall k r rest, data (acct L' k) = PpRequest r rest ->
     data (acct L k) = PpRequest r rest \/ new k r).

Definition no_request (_ : Pubkey) (_ : AccessRequest) : Prop := False.

(** A request that was just submitted. *)
Definition submitted (L : Ledger PpData) (accounts : list AccountInfo) (mode : PassportIx.AccessMode)
    (L' : Ledger PpData) (k : Pubkey) (r : AccessRequest) : Prop :=
  exists m0 m1 m2 rest p, accounts = m0 :: m1 :: m2 :: rest /\ k = key m2 /\
    may_request L m0 m2 p mode /\ r = new_request p (key m1) mode /\
    PassportRequest.checked_access_mode r = Some mode /\
    PassportRequest.request_fee_lamports r < lamports (acct L' k).

(** The sentinel of an unpaused config empties a request and does nothing
    else to the accounts of the program. *)
Definition decided (L : Ledger PpData) (accounts : list AccountInfo) (k : Pubkey) (L' : Ledger PpData) : Prop :=
  exists m0 m1 m2 rest p r, accounts = m0 :: m1 :: m2 :: rest /\ may_decide L m0 m1 m2 p r /\
    k = key m2 /\ lamports (acct L' k) = 0.

(** The account of a decision loses its balance, every other one gains. *)
Definition settled_from (L : Ledger PpData) (k : Pubkey) (L' : Ledger PpData) : Prop :=
  pp_inv L' /\ same_contents L L' /\ lamports (acct L' k) = 0 /\
  forall k', k' <> k -> lamports (acct L k') <= lamports (acct L' k').

End Relations.

(** ** How the invariant is kept *)
Section Ledgers.
Context `{Pda} `{KnownPrograms}.

Lemma pp_inv_data (L : Ledger PpData) :
  pp_ledger_ok L -> (forall k, data_ok k (data (acct L k))) -> pp_inv L.
Proof.
  intros HL Hd. split; [done| |]; intros k x rest E; specialize (Hd k); by rewrite E in Hd.
Qed.

Lemma pp_inv_data_ok (L : Ledger PpData) k : pp_inv L -> data_ok k (data (acct L k)).
Proof.
  intros HL. destruct (data (acct L k)) eqn:E; cbn; try done.
  - by eapply pi_config.
  - by eapply pi_request.
Qed.

(** The steps of other programs. *)
Lemma pp_foreign_keeps (L L' : Ledger PpData) : pp_inv L -> pp_foreign L L' -> pp_inv L' /\ pp_evolves L L'.
Proof.
  intros HL (Hp & Hb & Ht). destruct (Ht (pi_ok _ HL)) as [HL' Hold]. split.
  - apply pp_inv_data; [done|]. intros k. destruct (pp_typed (data (acct L' k))) eqn:E.
    + pose proof (Hold k E) as Ho. destruct (Hp k Ho) as [-> _]. by apply pp_inv_data_ok.
    + by destruct (data (acct L' k)).
  - intros k. destruct (pp_typed (data (acct L k))) eqn:E; [|by destruct (data (acct L k))].
    destruct (Hp k (po_typed _ (pi_ok _ HL) k E)) as [-> _]. destruct (data (acct L k)); eauto.
Qed.

(** Filling in or updating an account of the program. *)
Lemma pp_write_keeps (L : Ledger PpData) k d :
  pp_inv L -> owner (acct L k) = ID -> data_ok k d ->
  match data (acct L k) with
  | PpConfig _ _ => exists p rest, d = PpConfig p rest
  | PpRequest _ _ => False
  | _ => True
  end ->
  pp_inv (set_data L k d) /\ pp_evolves L (set_data L k d).
Proof.
  intros HL Ho Hd Hold. split.
  - apply pp_inv_data.
    + destruct (pi_ok _ HL) as [Hs Ht Hty]. split.
      * intros k'. rewrite lamports_set_data. apply Hs.
      * by rewrite total_set_data.
      * intros k' Hk'. rewrite owner_set_data. destruct (decide (k = k')) as [<-|Hne]; [done|].
        rewrite data_set_data_ne in Hk' by done. by apply Hty.
    + intros k'. destruct (decide (k = k')) as [<-|Hne]; [by rewrite data_set_data_eq|].
      rewrite data_set_data_ne by done. by apply pp_inv_data_ok.
  - intros k'. destruct (decide (k = k')) as [<-|Hne]; [rewrite data_set_data_eq|rewrite data_set_data_ne by done].
    + destruct (data (acct L k)); naive_solver.
    + destruct (data (acct L k')); eauto.
Qed.

Lemma pp_evolves_trans (L1 L2 L3 : Ledger PpData) :
  pp_evolves L1 L2 -> pp_evolves L2 L3 -> pp_evolves L1 L3.
Proof.
  intros H1 H2 k. specialize (H1 k). specialize (H2 k).
  destruct (data (acct L1 k)); [done| |by rewrite H1 in H2|done].
  destruct H1 as (p' & rest' & E). by rewrite E in H2.
Qed.

(** Changes of balances only. *)
Lemma same_contents_keeps (L L' : Ledger PpData) :
  pp_inv L -> same_contents L L' -> solvent L' -> total_lamports L' < 2 ^ 64 ->
  pp_inv L' /\ pp_evolves L L'.
Proof.
  intros HL Hsame Hs Ht. split.
  - apply pp_inv_data.
    + split; [done|done|]. intros k. destruct (Hsame k) as [-> ->]. apply (pi_ok _ HL).
    + intros k. destruct (Hsame k) as [-> _]. by apply pp_inv_data_ok.
  - intros k. destruct (Hsame k) as [-> _]. destruct (data (acct L k)); eauto.
Qed.
(** ** Instructions that decide nothing *)

Lemma foreign_kept (L L' : Ledger PpData) : pp_inv L -> pp_foreign L L' -> kept no_request L L'.
Proof.
  intros HL Hf. destruct (pp_foreign_keeps _ _ HL Hf) as [H1 H2]. destruct Hf as (Hp & Hb & Ht).
  split_and!; [done|done|done|]. intros k r rest E. left.
  destruct (Ht (pi_ok _ HL)) as [_ Hold]. destruct (Hp k) as [<- _]; [|done].
  apply Hold. by rewrite E.
Qed.

(** Account creation and the write of the new account. *)
Lemma kept_create new (L L1 : Ledger PpData) k d :
  (forall r rest, d = PpRequest r rest -> new k r) ->
  pp_inv L -> pp_foreign L L1 -> owner (acct L1 k) = ID ->
  pp_typed (data (acct L1 k)) = false -> data_ok k d -> kept new L (set_data L1 k d).
Proof.
  intros Hnew HL Hf Ho Ht Hd. destruct (foreign_kept _ _ HL Hf) as (H1 & E1 & B1 & N1).
  destruct (pp_write_keeps L1 k d) as [H2 E2]; [done..|by destruct (data (acct L1 k))|].
  split_and!; [done|by eapply pp_evolves_trans| |].
  - intros k' Hk'. rewrite lamports_set_data. by apply B1.
  - intros k' r rest E. destruct (decide (k = k')) as [<-|Hne].
    + rewrite data_set_data_eq in E. right. by eapply Hnew.
    + rewrite data_set_data_ne in E by done. left. by destruct (N1 _ _ _ E).
Qed.

Lemma kept_config (L : Ledger PpData) k p prest p' :
  pp_inv L -> data (acct L k) = PpConfig p prest -> owner (acct L k) = ID ->
  PassportConfig.wf p' -> kept no_request L (set_data L k (PpConfig p' prest)).
Proof.
  intros HL E Ho Hw. destruct (pi_config _ HL _ _ _ E) as [Hk _].
  destruct (pp_write_keeps L k (PpConfig p' prest)) as [H2 E2]; [done..|by rewrite E; eauto|].
  split_and!; [done|done|intros k' _; by rewrite lamports_set_data|].
  intros k' r rest Er. left. destruct (decide (k = k')) as [<-|Hne].
  - by rewrite data_set_data_eq in Er.
  - by rewrite data_set_data_ne in Er.
Qed.

Lemma untyped_zero d : has_zero_discriminator d = true -> pp_typed d = false.
Proof. by destruct d. Qed.

End Ledgers.

(** ** The handlers *)
Section Preservation.
Context `{R : Runtime PpData} `{!PpLaws R}.
Context (L : Ledger PpData) (HL : pp_inv L).
Abbreviation start := (MkSt L 0 [] [] None []).
Abbreviation keeps h := (wlp h (fun _ s => kept no_request L (st_ledger s)) start).

Lemma pp_initialize_keeps accounts : keeps (try_initialize_program accounts).
Proof.
  unfold try_initialize_program. destruct accounts as [|m0 [|m1 rest]]; psteps.
  destruct find_address as [k bump] eqn:Ek. psteps.
  apply wlp_try_create_account; [apply pp_id_not_system|]. intros L1 r1 Hcpi Hown.
  specialize (Hown eq_refl). pose proof (Hcpi _ cpi_closed_pp_foreign) as Hf. psteps.
  cbn [st_ledger invoker_key] in *. subst k. apply kept_create; try done.
  - by apply untyped_zero.
  - cbn. rewrite Ek. split; [done|]. split; [|by left]. repeat constructor; done.
Qed.

Lemma config_fields_fit p :
  fields_fit (fields p) <->
  fits 64 (flags p) /\ fits 256 (admin_key p) /\ fits 256 (sentinel_key p) /\
  fits 64 (request_deposit_lamports p) /\ fits 64 (request_fee_lamports p) /\
  fits 16 (solana_validator_backup_ids_limit p).
Proof.
  unfold fields_fit, fields. rewrite !Forall_cons. cbn [fst snd].
  pose proof (Forall_nil_2 (fun q : Z * Z => fits q.1 q.2)). tauto.
Qed.

Lemma pp_set_admin_keeps accounts new_admin :
  fits 256 new_admin -> keeps (try_set_admin accounts new_admin).
Proof.
  intros Ha. unfold try_set_admin, upgrade_authority_try_next_accounts.
  destruct accounts as [|m0 [|m1 [|m2 rest]]]; psteps;
    destruct (deserialize_loader_state _) as [[[authority|]|]|]; psteps.
  cbn [st_ledger]. destruct (pi_config _ HL _ _ _ Hdata) as [_ Hw].
  apply (kept_config L (key m2) x); try done.
  destruct Hw as [Hf Hd]. split; [|done]. apply config_fields_fit in Hf. apply config_fields_fit.
  cbn. tauto.
Qed.

Lemma flags_fit p i v : 0 <= i -> fits 64 (flags p) -> fits 64 (Flags.set_bit (flags p) i v).
Proof. intros. unfold Flags.set_bit. by apply uint_set_bit_fits. Qed.

#[local] Arguments Flags.set_bit : simpl never.
#[local] Arguments fits : simpl never.

Lemma passport_setting_wf p setting p' :
  PassportConfig.wf p -> PassportIx.setting_valid setting -> apply_setting p setting = Ok p' ->
  PassportConfig.wf p'.
Proof.
  intros [(F1 & F2 & F3 & F4 & F5 & F6)%config_fields_fit Hd] Hv Hs.
  destruct setting as [[b|b]|k|d f|n]; cbn in Hs, Hv; unfold mret, Res_ret in Hs;
    repeat (case_match; try done); simplify_eq; bool_to_prop;
    (split; [apply config_fields_fit; cbn; split_and!; first [done|by apply flags_fit|apply Hv]|cbn]);
    done || lia.
Qed.

Lemma pp_configure_keeps accounts setting :
  PassportIx.setting_valid setting -> keeps (try_configure_program accounts setting).
Proof.
  intros Hv. unfold try_configure_program. psteps. pauth. destruct Hauth as (Hd & Ho & _).
  psteps. cbn [st_ledger]. destruct (pi_config _ HL _ _ _ Hd) as [_ Hw].
  apply (kept_config L (key m0) p); try done. by eapply passport_setting_wf.
Qed.

Lemma new_request_ok L0 m0 m2 p payer mode :
  may_request L0 m0 m2 p mode -> PassportConfig.wf p -> PassportIx.access_mode_valid mode ->
  fits 256 payer -> request_ok (new_request p payer mode).
Proof.
  intros Hmay [Hf _] Hm Hpayer. apply config_fields_fit in Hf.
  assert (fits 256 (PassportIx.mode_service_key mode)) as Hservice
    by (destruct mode; [apply Hm|destruct Hm as [Hm _]; apply Hm]).
  pose proof (mr_size _ _ _ _ _ Hmay) as Hsize. unfold lenZ in Hsize.
  unfold new_request. split; [|split; [apply (mr_service _ _ _ _ _ Hmay)|]].
  - unfold PassportRequest.wf, lenZ. cbn [PassportRequest.service_key PassportRequest.rent_beneficiary_key
      PassportRequest.request_fee_lamports PassportRequest.encoded_access_mode].
    refine (conj Hservice (conj Hpayer (conj _ (conj _ _)))); [tauto| |].
    + apply Forall_app. split; [by apply PassportIx.access_mode_bytes|].
      apply Forall_replicate. unfold is_byte. lia.
    + rewrite length_app, length_replicate. lia.
  - exists mode. split_and!; [|done|done|].
    + unfold PassportRequest.checked_access_mode. cbn [PassportRequest.encoded_access_mode].
      by rewrite (dec_enc PassportIx.access_mode).
    + pose proof (mr_mode _ _ _ _ _ Hmay) as Hc. destruct mode as [|a ids]; [done|].
      cbn in Hc. res_inv. bool_to_prop. by intros ->.
Qed.

Lemma config_deposit_fits k p rest :
  data (acct L k) = PpConfig p rest -> fits 64 (request_deposit_lamports p).
Proof. intros E. destruct (pi_config _ HL _ _ _ E) as [_ [Hf _]]. apply config_fields_fit in Hf. tauto. Qed.

(** The deposit alone is more than the fee. *)
Lemma funding_covers_fee p : PassportConfig.wf p -> request_deposit_lamports p <> 0 ->
  request_fee_lamports p < request_funding p.
Proof.
  intros [Hf Hd] Hne. apply config_fields_fit in Hf as (_ & _ & _ & [_ F4] & _).
  unfold request_funding, wanted_lamports, saturating_add, umax. cbn [default].
  pose proof (minimum_balance_u64 (data_end (D := PpData) AccessRequest)) as [? _].
  unfold default, id. lia.
Qed.

Lemma pp_request_keeps accounts mode :
  PassportIx.access_mode_valid mode -> Forall (fun info => fits 256 (key info)) accounts ->
  wlp (try_request_access accounts mode)
    (fun _ s => kept (submitted L accounts mode (st_ledger s)) L (st_ledger s)) start.
Proof.
  intros Hm Hkeys. apply request_access_wlp; [apply HL|apply config_deposit_fits|].
  intros m0 m1 m2 rest p L' s -> _ Hmay [_ (L1 & tail & Hf & Ho & Ht & ->) Hlam] ->.
  destruct (mr_config _ _ _ _ _ Hmay) as [prest E]. destruct (pi_config _ HL _ _ _ E) as [_ Hw].
  apply kept_create; try done.
  { intros r' rest' [= <- <-]. exists m0, m1, m2, rest, p. split_and!; try done.
    - unfold PassportRequest.checked_access_mode. cbn [new_request PassportRequest.encoded_access_mode].
      by rewrite (dec_enc PassportIx.access_mode).
    - rewrite Hlam. cbn [new_request PassportRequest.request_fee_lamports].
      pose proof (funding_covers_fee p Hw (mr_deposit _ _ _ _ _ Hmay)). lia. }
  split; [apply (mr_address _ _ _ _ _ Hmay)|].
  apply Forall_cons in Hkeys as [_ [Hkey _]%Forall_cons]. by eapply new_request_ok.
Qed.

(** ** Decisions *)

Lemma credited_wrap (L1 L2 : Ledger PpData) k n :
  credited L1 L2 k n -> solvent L1 -> 0 <= n < 2 ^ 64 -> lamports (acct L1 k) < 2 ^ 64 ->
  exists c, 0 <= c <= 1 /\ 0 <= lamports (acct L1 k) + n - c * 2 ^ 64 < 2 ^ 64 /\
    L2 = set_lamports L1 k (lamports (acct L1 k) + n - c * 2 ^ 64).
Proof.
  intros (l & Hl & ->) Hs Hn Hk. specialize (Hs k).
  assert (fits 64 l) as Hfit by (eapply arith_add_fits; [..|exact Hl]; lia).
  apply arith_add_cases in Hl as [->|[_ ->]]; [| |lia|unfold fits; lia|done]; unfold fits in Hfit.
  - exists 0. split_and!; [lia..|]. f_equal. lia.
  - exists 1. split_and!; [lia..|]. done.
Qed.

(** Crediting accounts while the supply is unchanged cannot wrap around: the
    changes of the ledger's total are the credits, the debit and multiples of
    2^64. *)
Lemma supply_64 k : 0 <= lamports (acct L k) < 2 ^ 64.
Proof.
  destruct (pi_ok _ HL) as [Hs Ht _]. pose proof (lamports_le_total L k Hs). specialize (Hs k). lia.
Qed.

Lemma settled_from_same k L1 :
  same_contents L L1 -> solvent L1 ->
  total_lamports (set_lamports L1 k 0) = total_lamports L ->
  (forall k', k' <> k -> lamports (acct L k') <= lamports (acct L1 k')) ->
  settled_from L k (set_lamports L1 k 0).
Proof.
  intros Hsame Hs Ht Hle.
  destruct (same_contents_keeps L (set_lamports L1 k 0) HL) as [H1 H2].
  - by eapply same_contents_trans, same_contents_set.
  - by apply solvent_set.
  - rewrite Ht. apply (po_supply _ (pi_ok _ HL)).
  - split_and!; [done|by eapply same_contents_trans, same_contents_set|apply lamports_set_lamports_eq|].
    intros k' Hk'. rewrite lamports_set_lamports_ne by done. by apply Hle.
Qed.

Lemma request_fee_fits k r rest :
  data (acct L k) = PpRequest r rest -> 0 <= PassportRequest.request_fee_lamports r < 2 ^ 64.
Proof. intros E. by destruct (pi_request _ HL _ _ _ E) as [_ [(_ & _ & ? & _) _]]. Qed.

Abbreviation balanced s := (total_lamports (st_ledger s) = total_lamports L).
Abbreviation decides h accounts :=
  (wlp h (fun _ s => balanced s ->
     exists k, decided L accounts k (st_ledger s) /\ settled_from L k (st_ledger s)) start).

Lemma grant_settles accounts : decides (try_grant_access accounts) accounts.
Proof.
  apply grant_access_wlp. intros m0 m1 m2 m3 rest p r L1 L2 s -> Hmay H1 H3 Hb C1 C2 -> _ Htotal.
  exists (key m2). split.
  { exists m0, m1, m2, (m3 :: rest), p, r. split_and!; [done|done|done|apply lamports_set_lamports_eq]. }
  destruct (md_request _ _ _ _ _ _ Hmay) as [tail Er]. pose proof (request_fee_fits _ _ _ Er).
  set (fee := PassportRequest.request_fee_lamports r) in *.
  set (held := lamports (acct L (key m2))) in *.
  pose proof (po_solvent _ (pi_ok _ HL)) as Hpos.
  pose proof (supply_64 (key m1)). pose proof (supply_64 (key m2)). pose proof (supply_64 (key m3)).
  destruct (credited_wrap _ _ _ _ C1 Hpos) as (c1 & Hc1 & Hn1 & ->); [done|lia|].
  assert (0 <= saturating_sub held fee < 2 ^ 64) by (unfold saturating_sub; lia).
  apply credited_wrap in C2 as (c2 & Hc2 & Hn2 & ->);
    [|apply solvent_set; [done|lia]|done|rewrite lamports_set_lamports; case_match; lia].
  rewrite !total_set_lamports, !lamports_set_lamports in Htotal.
  rewrite !(proj2 (Z.eqb_neq (key m2) _)) in Htotal by congruence. fold held in Htotal.
  assert (c1 = 0 /\ c2 = 0) as [-> ->] by (unfold saturating_sub in *; lia).
  apply settled_from_same.
  - eapply same_contents_trans; apply same_contents_set.
  - apply solvent_set; [apply solvent_set; [done|lia]|lia].
  - rewrite !total_set_lamports, !lamports_set_lamports.
    rewrite !(proj2 (Z.eqb_neq (key m2) _)) by congruence. fold held. lia.
  - intros k Hk. rewrite !lamports_set_lamports. 
    destruct (Z.eqb_spec k (key m3)) as [->|].
    + destruct (Z.eqb_spec (key m3) (key m1)) as [E|]; [rewrite E|]; lia.
    + destruct (Z.eqb_spec k (key m1)) as [->|]; lia.
Qed.

Lemma deny_settles accounts : decides (try_deny_access accounts) accounts.
Proof.
  apply deny_access_wlp. intros m0 m1 m2 rest p r L1 s -> Hmay H1 C1 -> _ Htotal.
  exists (key m2). split.
  { exists m0, m1, m2, rest, p, r. split_and!; [done|done|done|apply lamports_set_lamports_eq]. }
  pose proof (po_solvent _ (pi_ok _ HL)) as Hpos.
  pose proof (supply_64 (key m1)). pose proof (supply_64 (key m2)).
  destruct (credited_wrap _ _ _ _ C1 Hpos) as (c1 & Hc1 & Hn1 & ->); [done|lia|].
  rewrite !total_set_lamports, !lamports_set_lamports in Htotal.
  rewrite !(proj2 (Z.eqb_neq (key m2) _)) in Htotal by congruence.
  assert (c1 = 0) as -> by lia. apply settled_from_same.
  - apply same_contents_set.
  - apply solvent_set; [done|lia].
  - rewrite !total_set_lamports, !lamports_set_lamports.
    rewrite !(proj2 (Z.eqb_neq (key m2) _)) by congruence. lia.
  - intros k Hk. rewrite !lamports_set_lamports. destruct (Z.eqb_spec k (key m1)) as [->|]; lia.
Qed.
End Preservation.

(** ** Histories

    An instruction that succeeds and leaves the supply unchanged, as the
    runtime requires of it; the steps of other programs; and the removal of an
    account without lamports at the end of a transaction.  Addresses, the known
    programs and the build profile are fixed, everything else about the runtime
    may differ from one instruction to the next. *)
Inductive event : Type :=
  | Executed (ix : PassportIx.PassportInstructionData) (accounts : list AccountInfo)
  | Outside
  | Purged (k : Pubkey).

Section Executions.
Context `{HP : Pda} `{HK : KnownPrograms} `{HB : BuildProfile}.

Inductive pp_step (e : event) (L L' : Ledger PpData) : Prop :=
  | pp_executed (R : Runtime PpData) (HR : PpLaws R) ix bytes accounts trace :
      e = Executed ix accounts -> rt_pda = HP -> rt_programs = HK -> rt_profile = HB ->
      bytes_ok bytes -> try_from_slice PassportIx.instruction_data bytes = Some ix ->
      Forall (fun info => fits 256 (key info)) accounts ->
      run (try_process_instruction ID accounts bytes) L = Ok (L', trace) ->
      total_lamports L' = total_lamports L ->
      pp_step e L L'
  | pp_outside : e = Outside -> pp_foreign L L' -> pp_step e L L'
  | pp_purged k : e = Purged k -> lamports (acct L k) = 0 -> L' = delete k L -> pp_step e L L'.

(** ** What one step does *)
Inductive outcome (L L' : Ledger PpData) : event -> Prop :=
  | outcome_kept e : kept no_request L L' -> outcome L L' e
  | outcome_submitted accounts mode :
      kept (submitted L accounts mode L') L L' ->
      outcome L L' (Executed (PassportIx.RequestAccess mode) accounts)
  | outcome_settled ix accounts k : ix = PassportIx.GrantAccess \/ ix = PassportIx.DenyAccess ->
      decided L accounts k L' -> settled_from L k L' -> outcome L L' (Executed ix accounts)
  | outcome_purged k : pp_inv L' -> lamports (acct L k) = 0 -> L' = delete k L ->
      outcome L L' (Purged k).
End Executions.

Section Outcome.
Context `{R : Runtime PpData} `{!PpLaws R}.

Lemma passport_entrypoint (L : Ledger PpData) accounts bytes ix :
  try_from_slice PassportIx.instruction_data bytes = Some ix ->
  run (try_process_instruction ID accounts bytes) L = run (process ix accounts) L.
Proof.
  intros E. unfold run, try_process_instruction. rewrite Z.eqb_refl.
  cbv [mbind M_bind ensure require lift mret Res_ret]. cbn. by rewrite E.
Qed.

Lemma process_outcome (L L' : Ledger PpData) ix accounts trace :
  pp_inv L -> PassportIx.instruction_valid ix ->
  Forall (fun info => fits 256 (key info)) accounts ->
  run (process ix accounts) L = Ok (L', trace) -> total_lamports L' = total_lamports L ->
  outcome L L' (Executed ix accounts).
Proof.
  intros HL Hv Hkeys Hrun Htotal. destruct ix as [|k|setting|mode| |]; cbn [process] in Hrun.
  - apply outcome_kept. exact (run_post _ _ _ _ (kept no_request L) Hrun (pp_initialize_keeps L HL _)).
  - apply outcome_kept. exact (run_post _ _ _ _ (kept no_request L) Hrun (pp_set_admin_keeps L HL _ _ Hv)).
  - apply outcome_kept. exact (run_post _ _ _ _ (kept no_request L) Hrun (pp_configure_keeps L HL _ _ Hv)).
  - apply outcome_submitted.
    exact (run_post _ _ _ _ (fun L' => kept (submitted L accounts mode L') L L') Hrun
             (pp_request_keeps L HL _ _ Hv Hkeys)).
  - destruct (run_post _ _ _ _ (fun L' => total_lamports L' = total_lamports L ->
      exists k, decided L accounts k L' /\ settled_from L k L') Hrun (grant_settles L HL _) Htotal)
      as (k & ? & ?). by apply (outcome_settled _ _ _ _ k); [left|..].
  - destruct (run_post _ _ _ _ (fun L' => total_lamports L' = total_lamports L ->
      exists k, decided L accounts k L' /\ settled_from L k L') Hrun (deny_settles L HL _) Htotal)
      as (k & ? & ?). by apply (outcome_settled _ _ _ _ k); [right|..].
Qed.
End Outcome.

Section Steps.
Context `{HP : Pda} `{HK : KnownPrograms} `{HB : BuildProfile}.

Lemma total_delete (L : Ledger PpData) k :
  total_lamports (delete k L) = total_lamports L - lamports (acct L k).
Proof.
  pose proof (account_sum_delete lamports eq_refl L k). unfold total_lamports. lia.
Qed.

Lemma purge_inv (L : Ledger PpData) k :
  pp_inv L -> lamports (acct L k) = 0 -> pp_inv (delete k L).
Proof.
  intros HL Hz. pose proof (pi_ok _ HL) as [Hs Ht Hty]. split; [split| |].
  - intros k'. rewrite acct_delete. case_decide; [done|apply Hs].
  - rewrite total_delete. lia.
  - intros k'. rewrite acct_delete. case_decide; [done|apply Hty].
  - intros k' p rest. rewrite acct_delete. case_decide; [done|apply (pi_config _ HL)].
  - intros k' r rest. rewrite acct_delete. case_decide; [done|apply (pi_request _ HL)].
Qed.

Lemma step_outcome e (L L' : Ledger PpData) : pp_inv L -> pp_step e L L' -> outcome L L' e.
Proof.
  intros HL [R HR ix bytes accounts trace -> HP' HK' HB' Hb Hix Hkeys Hrun Htotal| -> Hf|k -> Hz ->].
  - subst HP HK HB. rewrite (passport_entrypoint _ _ _ _ Hix) in Hrun.
    apply (try_from_slice_canonical PassportIx.instruction_data) in Hix as [Hv _]; [|done].
    by eapply process_outcome.
  - apply outcome_kept. by apply foreign_kept.
  - apply outcome_purged; [by apply purge_inv|done|done].
Qed.

Lemma outcome_inv e (L L' : Ledger PpData) : outcome L L' e -> pp_inv L'.
Proof. intros [e' [? _]|accounts mode [? _]|ix accounts k _ _ [? _]|k ? _ _]; done. Qed.
End Steps.

(** ** The life of a request

    Seen from outside, an address is vacant, or holds a request and a balance:
    pending when it can pay its fee and more, settled, until its removal, when it
    cannot. *)
Inductive RequestStatus : Type :=
  | Vacant
  | Pending (r : AccessRequest) (balance : Z)
  | Settled (r : AccessRequest) (balance : Z).

Definition request_status `{KnownPrograms} (L : Ledger PpData) (k : Pubkey) : RequestStatus :=
  match data (acct L k) with
  | PpRequest r _ =>
      let balance := lamports (acct L k) in
      if PassportRequest.request_fee_lamports r <? balance then Pending r balance
      else Settled r balance
  | _ => Vacant
  end.

(** The transitions of one address: submission by [RequestAccess], decision by
    the sentinel, which takes the whole balance, and removal of an account
    without balance.  In every other step a request keeps its contents and at
    least its balance; a settled one that is sent lamports is pending again. *)
Inductive request_transition `{Pda} `{KnownPrograms} (L : Ledger PpData) (k : Pubkey)
    : event -> RequestStatus -> RequestStatus -> Prop :=
  | request_none e : request_transition L k e Vacant Vacant
  | request_submitted mode m0 m1 m2 rest p balance :
      k = key m2 -> may_request L m0 m2 p mode ->
      PassportRequest.checked_access_mode (new_request p (key m1) mode) = Some mode ->
      request_transition L k
        (Executed (PassportIx.RequestAccess mode) (m0 :: m1 :: m2 :: rest))
        Vacant (Pending (new_request p (key m1) mode) balance)
  | request_waits e r balance balance' :
      balance <= balance' ->
      request_transition L k e (Pending r balance) (Pending r balance')
  | request_decided ix m0 m1 m2 rest p r balance :
      ix = PassportIx.GrantAccess \/ ix = PassportIx.DenyAccess ->
      k = key m2 -> may_decide L m0 m1 m2 p r ->
      request_transition L k (Executed ix (m0 :: m1 :: m2 :: rest)) (Pending r balance) (Settled r 0)
  | request_rests e r balance balance' :
      balance <= balance' ->
      request_transition L k e (Settled r balance) (Settled r balance')
  | request_emptied ix m0 m1 m2 rest p r balance :
      ix = PassportIx.GrantAccess \/ ix = PassportIx.DenyAccess ->
      k = key m2 -> may_decide L m0 m1 m2 p r ->
      request_transition L k (Executed ix (m0 :: m1 :: m2 :: rest)) (Settled r balance) (Settled r 0)
  | request_funded e r balance balance' :
      balance <= balance' ->
      request_transition L k e (Settled r balance) (Pending r balance')
  | request_removed r : request_transition L k (Purged k) (Settled r 0) Vacant.

Section Theorems.
Context `{HP : Pda} `{HK : KnownPrograms} `{HB : BuildProfile}.

Definition any_step (L L' : Ledger PpData) : Prop := exists e, pp_step e L L'.

(** A ledger on which the program has no accounts yet. *)
Definition pp_genesis (L : Ledger PpData) : Prop :=
  pp_ledger_ok L /\ forall k, pp_typed (data (acct L k)) = false.

Lemma pp_execution_inv (L0 L : Ledger PpData) : pp_genesis L0 -> rtc any_step L0 L -> pp_inv L.
Proof.
  intros [H0 Ht] Hsteps. assert (pp_inv L0) as Hinv.
  { split; [done| |]; intros k x rest E; specialize (Ht k); by rewrite E in Ht. }
  clear H0 Ht. induction Hsteps as [|L1 L2 L3 [e He] _ IH]; [done|].
  apply IH. eapply outcome_inv. by eapply step_outcome.
Qed.

(** C11: the invariant of the passport program.  Whatever instructions are sent
    to it, with any accounts and signers, and whatever other programs do in
    between, a ledger reached from one without accounts of the program has its
    config at its address with a fee below the deposit, and every request at the
    address of its service key, with a buffer that reads back as a valid access
    mode for that key. *)
Theorem passport_ledgers_consistent (L0 L : Ledger PpData) :
  pp_genesis L0 -> rtc any_step L0 L -> pp_inv L.
Proof. apply pp_execution_inv. Qed.

(** Statuses of a typed account that stays as it is. *)
Lemma status_same (L L' : Ledger PpData) k e r rest :
  data (acct L k) = PpRequest r rest -> data (acct L' k) = PpRequest r rest ->
  lamports (acct L k) <= lamports (acct L' k) ->
  request_transition L k e (request_status L k) (request_status L' k).
Proof.
  intros E E' Hb. unfold request_status. rewrite E, E'.
  destruct (Z.ltb_spec (PassportRequest.request_fee_lamports r) (lamports (acct L k)));
    destruct (Z.ltb_spec (PassportRequest.request_fee_lamports r) (lamports (acct L' k)));
    try lia; by constructor.
Qed.

Lemma status_vacant (L : Ledger PpData) k :
  (forall r rest, data (acct L k) <> PpRequest r rest) -> request_status L k = Vacant.
Proof. unfold request_status. destruct (data (acct L k)); try done. intros Hn. by destruct (Hn _ _ eq_refl). Qed.

Lemma transition_kept new e (L L' : Ledger PpData) k :
  pp_inv L -> kept new L L' ->
  (forall r rest, data (acct L' k) = PpRequest r rest -> new k r ->
     request_transition L k e Vacant (request_status L' k)) ->
  request_transition L k e (request_status L k) (request_status L' k).
Proof.
  intros HL (_ & He & Hb & Hn) Hnew. specialize (He k).
  destruct (data (acct L k)) as [|p prest|r rest|] eqn:E.
  3:{ eapply status_same; [done|done|]. apply Hb, (po_typed _ (pi_ok _ HL)). by rewrite E. }
  all: rewrite (status_vacant L k) by (intros; congruence).
  all: destruct (data (acct L' k)) as [| |r' rest'|] eqn:E';
    try (rewrite (status_vacant L' k) by (intros; congruence); constructor).
  all: destruct (Hn _ _ _ E') as [|Hr]; [congruence|]; by eapply Hnew.
Qed.

Lemma status_refl (L : Ledger PpData) k e :
  request_transition L k e (request_status L k) (request_status L k).
Proof.
  destruct (data (acct L k)) as [| |r rest|] eqn:E; [..|by eapply status_same|].
  all: rewrite status_vacant by (intros; congruence); constructor.
Qed.

(** C10: access requests refine their state machine.  Every step of a history
    moves every address along [request_transition]: a request appears only by a
    permitted [RequestAccess] for it and as pending; in every step that is not a
    decision, by whatever user, admin or other program, a pending request stays
    pending with the same contents and at least the same balance, so nobody takes
    its lamports; only the sentinel of an unpaused config settles it, by granting
    or denying, which takes the whole balance; only an account without balance
    is removed. *)
Theorem access_requests_refine e (L L' : Ledger PpData) k :
  pp_inv L -> pp_step e L L' ->
  request_transition L k e (request_status L k) (request_status L' k).
Proof.
  intros HL Hstep. destruct (step_outcome e L L' HL Hstep) as
    [e' Hk|accounts mode Hk|ix accounts k0 Hix Hd Hs|k0 _ Hz ->].
  - by eapply transition_kept.
  - eapply transition_kept; [done|done|].
    intros r rest E (m0 & m1 & m2 & rest' & p & -> & Ek & Hmay & -> & Hmode & Hfee).
    unfold request_status. rewrite E, (proj2 (Z.ltb_lt _ _) Hfee). by constructor.
  - destruct Hs as (_ & Hsame & Hz & Hle).
    destruct Hd as (m0 & m1 & m2 & rest & p & r & -> & Hmay & -> & _).
    destruct (decide (k = key m2)) as [->|Hne].
    + destruct (md_request _ _ _ _ _ _ Hmay) as [tail E].
      destruct (pi_request _ HL _ _ _ E) as [_ [(_ & _ & [Hfee _] & _) _]].
      unfold request_status. destruct (Hsame (key m2)) as [-> _]. rewrite E, Hz.
      rewrite (proj2 (Z.ltb_ge _ 0) Hfee). case_match;
        [by eapply request_decided|by eapply request_emptied].
    + destruct (Hsame k) as [E _]. destruct (data (acct L k)) as [|p0 prest|r0 rest0|] eqn:E0.
      3:{ eapply status_same; [done|done|by apply Hle]. }
      all: rewrite !status_vacant by (intros; congruence); constructor.
  - unfold request_status. rewrite acct_delete. destruct (decide (k0 = k)) as [->|]; [|apply status_refl].
    cbn [data empty_account empty_data PpData_account].
    destruct (data (acct L k)) as [| |r rest|] eqn:E; try constructor.
    destruct (pi_request _ HL _ _ _ E) as [_ [(_ & _ & [Hfee _] & _) _]].
    rewrite Hz, (proj2 (Z.ltb_ge _ 0) Hfee). constructor.
Qed.
End Theorems.
