(* ===== verification/Simulator.v ===== *)
(** * A simulated runtime: addresses, hashes and the System program

    Concrete instances of the interfaces that do not depend on a program: a
    polynomial hash for addresses and Merkle roots, the rent, the loader state
    and the System program's instructions on lamports, owners and data lengths,
    for any account contents with zero-filled data and raw bytes. *)

From Stdlib Require Import ZArith Lia.
From S2P Require Import Prelude Borsh Runtime Lamports.

(** ** Interfaces *)
Definition toy_hash (seed : Z) (bytes : list Z) : Z :=
  foldl (fun h b => (h * 131 + b + 1) mod 2147483647) seed bytes.

Lemma sim_create_found seeds (program k bump : Z) :
  (toy_hash program (concat seeds ++ [255]), 255) = (k, bump) ->
  Some (toy_hash program (concat (seeds ++ [[bump]]))) = Some k.
Proof. intros [= <- <-]. by rewrite concat_app. Qed.

Definition sim_pda : Pda := {|
  find_program_address seeds program := (toy_hash program (concat seeds ++ [255]), 255);
  bump_u8 seeds program := conj (Zle_bool_imp_le 0 255 eq_refl) eq_refl;
  create_program_address seeds program := Some (toy_hash program (concat seeds));
  create_found := sim_create_found;
  get_associated_token_address wallet mint := toy_hash wallet (to_le_bytes 32 mint)
|}.

Definition sim_programs : KnownPrograms := {| system_program_id := 0; spl_token_id := 6 |}.

#[export] Existing Instance sim_programs.

(** A proof: the leaf's index, if it has one, and the sibling hashes. *)
Definition sim_leaf_index (proof : option Z * list Z) : option Z :=
  match proof.1 with
  | Some l => if decide (fits 32 l) then Some l else None
  | None => None
  end.

Lemma sim_leaf_index_u32 proof l : sim_leaf_index proof = Some l -> fits 32 l.
Proof.
  unfold sim_leaf_index. destruct (proof.1) as [l'|]; [|done]. destruct (decide (fits 32 l')); [|done].
  by injection 1 as <-.
Qed.

Definition sim_hash : SvmHash := {|
  MerkleProof := option Z * list Z;
  leaf_index := sim_leaf_index;
  leaf_index_u32 := sim_leaf_index_u32;
  root_from_leaf proof leaf prefix := toy_hash (toy_hash 7 (prefix ++ leaf)) proof.2
|}.

(** [TransferChecked] is instruction 12 of the token program. *)
Definition sim_unpack_token_instruction (bytes : list Z) : option TokenInstruction :=
  match bytes with
  | 12 :: rest => Some (TransferChecked (wrap 64 (from_le_bytes (take 8 rest))) (default 0 (rest !! 8%nat)))
  | [] => None
  | _ => Some OtherTokenInstruction
  end.

Lemma sim_unpack_token_instruction_u64 bytes amount decimals :
  sim_unpack_token_instruction bytes = Some (TransferChecked amount decimals) -> fits 64 amount.
Proof.
  unfold sim_unpack_token_instruction. repeat case_match; try done. injection 1 as <- _.
  apply Z.mod_pos_bound. lia.
Qed.

(** The SPL layout of a token account: mint, owner and amount. *)
Definition unpack_token_bytes (bytes : list Z) : Res TokenAccount :=
  if (length bytes =? 165)%nat then
    Ok (MkTokenAccount (from_le_bytes (take 32 (drop 32 bytes)))
          (wrap 64 (from_le_bytes (take 8 (drop 64 bytes)))))
  else Err InvalidAccountData.

Lemma unpack_token_bytes_u64 bytes a :
  unpack_token_bytes bytes = Ok a -> fits 64 (token_amount a).
Proof.
  unfold unpack_token_bytes. destruct (_ =? _)%nat; [|done]. injection 1 as <-.
  cbn [token_amount]. apply Z.mod_pos_bound. lia.
Qed.

Definition token_bytes (mint wallet amount : Z) : list Z :=
  to_le_bytes 32 mint ++ to_le_bytes 32 wallet ++ to_le_bytes 8 amount ++ replicate 93 0.

Definition program_data_bytes (authority : Pubkey) : list Z :=
  [3; 0; 0; 0] ++ replicate 8 0 ++ [1] ++ to_le_bytes 32 authority.

(** [UpgradeableLoaderState::ProgramData] is variant 3: slot, then authority. *)
Definition loader_state_of_bytes (bytes : list Z) : LoaderState :=
  if bool_decide (take 4 bytes = [3; 0; 0; 0]) then
    if default 0 (bytes !! 12%nat) =? 1
    then ProgramData (Some (from_le_bytes (take 32 (drop 13 bytes))))
    else ProgramData None
  else OtherLoaderState.

Definition sim_rent (len : Z) : Z := Z.max 0 (Z.min ((len + 128) * 6960) (umax 64)).

Lemma sim_rent_u64 len : fits 64 (sim_rent len).
Proof. unfold sim_rent, fits, umax. lia. Qed.

(** ** The System program *)
Section System.
Context {D : Type} `{AccountData D} (zeroed : Z -> D).

Definition sim_move (L : Ledger D) (from to : Pubkey) (n : Z) : Ledger D :=
  let L := set_lamports L from (lamports (acct L from) - n) in
  set_lamports L to (lamports (acct L to) + n).

Definition is_wallet (L : Ledger D) (k : Pubkey) : bool := owner (acct L k) =? 0.
Definition space_ok (space : Z) : bool := (0 <=? space) && (space <=? MAX_PERMITTED_DATA_LENGTH).

(** The ledger an instruction of the System program leaves; [None] when it
    fails or is not one. *)
Definition sim_system (ix : Instruction) (L : Ledger D) : option (Ledger D) :=
  match ix with
  | SystemCreateAccount from to n space new_owner =>
      if is_wallet L from && is_wallet L to && negb (from =? to) && (0 <=? n)
         && (n <=? lamports (acct L from)) && (lamports (acct L to) =? 0)
         && space_ok space
      then
        let L := set_lamports L from (lamports (acct L from) - n) in
        Some (set_acct L to (MkAccount n new_owner false (zeroed space)))
      else None
  | SystemAllocate account space =>
      if is_wallet L account && space_ok space then Some (set_data L account (zeroed space)) else None
  | SystemAssign account new_owner =>
      if is_wallet L account
      then Some (set_acct L account ((acct L account) <| owner := new_owner |>)) else None
  | SystemTransfer from to n =>
      if is_wallet L from && (0 <=? n) && (n <=? lamports (acct L from))
         && (lamports (acct L to) + n <? 2 ^ 64)
      then Some (sim_move L from to n) else None
  | _ => None
  end.
End System.

Ltac sim_inv :=
  repeat match goal with
  | H : (if ?c then _ else _) = Some _ |- _ => destruct c eqn:?; [|discriminate H]
  | H : Some _ = Some _ |- _ => injection H as ?; subst
  end; unfold is_wallet, space_ok in *; bool_to_prop.

(** ** Its laws *)
Section Laws.
Context {D : Type} `{AccountData D} (zeroed : Z -> D).
Abbreviation sim_system := (sim_system zeroed).

Lemma sim_move_frame L from to n k :
  from <> k -> 0 <= n ->
  data (acct (sim_move L from to n) k) = data (acct L k) /\
  owner (acct (sim_move L from to n) k) = owner (acct L k) /\
  lamports (acct L k) <= lamports (acct (sim_move L from to n) k).
Proof.
  intros Hf Hn. unfold sim_move. rewrite !data_set_lamports, !owner_set_lamports.
  split_and!; [done|done|]. destruct (decide (to = k)) as [->|Ht].
  - rewrite lamports_set_lamports_eq, lamports_set_lamports_ne by done. lia.
  - rewrite !lamports_set_lamports_ne by done. lia.
Qed.

(** A wallet is not an account of the caller. *)
Lemma is_wallet_ne (L : Ledger D) caller k k' :
  caller <> 0 -> owner (acct L k) = caller -> owner (acct L k') = 0 -> k' <> k.
Proof. congruence. Qed.

Lemma sim_system_frame caller ix (L L' : Ledger D) k :
  sim_system ix L = Some L' -> caller <> 0 -> owner (acct L k) = caller ->
  data (acct L' k) = data (acct L k) /\ owner (acct L' k) = caller /\
  lamports (acct L k) <= lamports (acct L' k).
Proof.
  intros Hi Hc Ho. pose proof (is_wallet_ne L caller k) as Hne.
  destruct ix; cbn [sim_system] in Hi; try discriminate Hi; sim_inv.
  - rewrite acct_set_ne, acct_set_lamports_ne by (apply Hne; done). split_and!; done || lia.
  - rewrite acct_set_data_ne by (apply Hne; done). split_and!; done || lia.
  - rewrite acct_set_ne by (apply Hne; done). split_and!; done || lia.
  - apply sim_move_frame; [by apply Hne|done].
Qed.

Lemma sim_system_create from to n space new_owner (L L' : Ledger D) :
  sim_system (SystemCreateAccount from to n space new_owner) L = Some L' ->
  owner (acct L' to) = new_owner /\ lamports (acct L' to) = n.
Proof. cbn [sim_system]. intros Hi. sim_inv. by rewrite acct_set_eq. Qed.

Lemma sim_system_allocate account space (L L' : Ledger D) :
  sim_system (SystemAllocate account space) L = Some L' ->
  lamports (acct L' account) = lamports (acct L account).
Proof. cbn [sim_system]. intros Hi. sim_inv. apply lamports_set_data. Qed.

Lemma sim_system_assign account new_owner (L L' : Ledger D) :
  sim_system (SystemAssign account new_owner) L = Some L' ->
  owner (acct L' account) = new_owner /\ lamports (acct L' account) = lamports (acct L account).
Proof. cbn [sim_system]. intros Hi. sim_inv. by rewrite acct_set_eq. Qed.

Lemma sim_system_transfer from to n (L L' : Ledger D) :
  sim_system (SystemTransfer from to n) L = Some L' ->
  n <= lamports (acct L from) /\ (0 < n -> owner (acct L from) = 0) /\
  (from <> to -> lamports (acct L' from) = lamports (acct L from) - n /\
                 lamports (acct L' to) = lamports (acct L to) + n).
Proof.
  cbn [sim_system]. intros Hi. sim_inv. split_and!; [done|done|]. intros Hne. unfold sim_move.
  rewrite lamports_set_lamports_eq. split.
  - by rewrite lamports_set_lamports_ne, lamports_set_lamports_eq by done.
  - by rewrite lamports_set_lamports_ne by done.
Qed.

(** No lamports are created or destroyed. *)
Lemma sim_move_total L from to n : total_lamports (sim_move L from to n) = total_lamports L.
Proof. unfold sim_move. rewrite !total_set_lamports. lia. Qed.

Lemma sim_system_total ix (L L' : Ledger D) :
  sim_system ix L = Some L' -> total_lamports L' = total_lamports L.
Proof.
  intros Hi. destruct ix as [from to n space o|a space|a o|from to n| | | | |];
    cbn [sim_system] in Hi; try discriminate Hi; sim_inv.
  - rewrite total_set_acct, total_set_lamports, lamports_set_lamports_ne by done. cbn [lamports]. lia.
  - apply total_set_data.
  - rewrite total_set_acct. cbn. lia.
  - apply sim_move_total.
Qed.

Lemma sim_system_solvent ix (L L' : Ledger D) :
  sim_system ix L = Some L' -> solvent L -> solvent L'.
Proof.
  intros Hi HL. destruct ix as [from to n space o|a space|a o|from to n| | | | |];
    cbn [sim_system] in Hi; try discriminate Hi; sim_inv; intros k.
  - pose proof (HL k). destruct (decide (to = k)) as [->|]; [by rewrite acct_set_eq|].
    rewrite acct_set_ne by done. apply solvent_set; [done|lia].
  - rewrite lamports_set_data. apply HL.
  - pose proof (HL k). destruct (decide (a = k)) as [->|]; [by rewrite acct_set_eq|].
    by rewrite acct_set_ne.
  - unfold sim_move. pose proof (HL to).
    assert (0 <= lamports (acct (set_lamports L from (lamports (acct L from) - n)) to)).
    { apply solvent_set; [done|lia]. }
    apply solvent_set; [apply solvent_set; [done|lia]|lia].
Qed.

(** Contents a program recognises stay where they are: the System program
    only writes zeros, and only to its own accounts. *)
Lemma sim_system_typed (typed : D -> bool) caller ix (L L' : Ledger D) :
  (forall n, typed (zeroed n) = false) -> caller <> 0 ->
  (forall k, typed (data (acct L k)) = true -> owner (acct L k) = caller) ->
  sim_system ix L = Some L' ->
  forall k, typed (data (acct L' k)) = true ->
    owner (acct L k) = caller /\ owner (acct L' k) = caller.
Proof.
  intros Hz Hc HL Hi k Hk.
  enough (owner (acct L k) = caller) as Ho
    by (split; [done|by destruct (sim_system_frame _ _ _ _ _ Hi Hc Ho) as (_ & ? & _)]).
  destruct ix as [from to n space o|a space|a o|from to n| | | | |];
    cbn [sim_system] in Hi; try discriminate Hi; sim_inv; apply HL.
  - destruct (decide (to = k)) as [->|]; [rewrite acct_set_eq in Hk; cbn in Hk; by rewrite Hz in Hk|].
    by rewrite acct_set_ne, data_set_lamports in Hk by done.
  - destruct (decide (a = k)) as [->|]; [by rewrite data_set_data_eq, Hz in Hk|].
    by rewrite data_set_data_ne in Hk by done.
  - destruct (decide (a = k)) as [->|]; [by rewrite acct_set_eq in Hk|]. by rewrite acct_set_ne in Hk by done.
  - unfold sim_move in Hk. by rewrite !data_set_lamports in Hk.
Qed.

Definition is_system (ix : Instruction) : bool :=
  match ix with
  | SystemCreateAccount _ _ _ _ _ | SystemAllocate _ _ | SystemAssign _ _ | SystemTransfer _ _ _ => true
  | _ => false
  end.

(** The laws of a runtime whose System program is this one, if other programs
    respect the caller's accounts. *)
Lemma system_laws (R : Runtime D) :
  (forall caller ix accounts seeds (L L' : Ledger D) ret,
     invoke_cpi caller ix accounts seeds L = Ok (L', ret) ->
     if is_system ix then sim_system ix L = Some L'
     else forall k, owner (acct L k) = caller ->
       data (acct L' k) = data (acct L k) /\ owner (acct L' k) = caller /\
       lamports (acct L k) <= lamports (acct L' k)) ->
  rt_programs = sim_programs -> RuntimeLaws D R.
Proof.
  intros Hcpi Hprogs. split; rewrite ?Hprogs.
  - intros caller ix accounts seeds L L' ret k Hi Hc _ Ho.
    apply Hcpi in Hi. revert Hi. destruct (is_system ix); intros Hi; [|by apply Hi].
    by apply (sim_system_frame caller ix).
  - intros caller from to n space new_owner accounts seeds L L' ret Hi.
    apply Hcpi in Hi. cbn [is_system] in Hi. by eapply sim_system_create.
  - intros caller account space accounts seeds L L' ret Hi.
    apply Hcpi in Hi. cbn [is_system] in Hi. by eapply sim_system_allocate.
  - intros caller account new_owner accounts seeds L L' ret Hi.
    apply Hcpi in Hi. cbn [is_system] in Hi. by eapply sim_system_assign.
  - intros caller from to n accounts seeds L L' ret Hi.
    apply Hcpi in Hi. cbn [is_system] in Hi. by eapply sim_system_transfer.
Qed.
End Laws.
