(* ===== verification/Scenario.v ===== *)
(** * A concrete runtime for the revenue-distribution program

    The simulator with token accounts in the SPL layout, an integration program
    that pays 1000 into the destination, and a swap program that answers a
    dequeue with two units of 2Z per lamport.  Token transfers and burns leave
    the ledger alone.  It satisfies the laws the theorems assume, so that every
    theorem can be applied to a concrete ledger. *)

From Stdlib Require Import ZArith Lia.
From S2P Require Import Prelude Types Borsh Runtime Lamports ProgramTools State RdAccounts RdSwap RdIntegration Simulator.

(** ** Accounts of other programs *)

Definition sim_unpack_token (d : RdData) : Res TokenAccount :=
  match d with Foreign bytes => unpack_token_bytes bytes | _ => Err InvalidAccountData end.

Lemma sim_unpack_token_u64 d a : sim_unpack_token d = Ok a -> fits 64 (token_amount a).
Proof. destruct d; try done. apply unpack_token_bytes_u64. Qed.

Definition sim_loader_state (d : RdData) : option LoaderState :=
  match d with Foreign bytes => Some (loader_state_of_bytes bytes) | _ => None end.

Definition sim_resize (d : RdData) (n : Z) : Res RdData :=
  if (rd_data_len d + 10240 <? n) || (MAX_PERMITTED_DATA_LENGTH <? n) then Err (OtherError 1)
  else
    match d with
    | DistributionData x rest =>
        if rd_data_len d <=? n
        then Ok (DistributionData x (rest ++ replicate (Z.to_nat (n - rd_data_len d)) 0))
        else Err (OtherError 1)
    | _ => Err (OtherError 1)
    end.

(** ** Cross-program invocations *)
Abbreviation SimLedger := (Ledger RdData).

Definition sim_pay_integration (L : SimLedger) (caller destination : Pubkey) : SimLedger :=
  match data (acct L destination) with
  | Foreign bytes =>
      if owner (acct L destination) =? caller then L
      else set_data L destination
             (Foreign (take 64 bytes
                       ++ to_le_bytes 8 (from_le_bytes (take 8 (drop 64 bytes)) + 1000)
                       ++ drop 72 bytes))
  | _ => L
  end.

Definition sim_program (caller program : Pubkey) (metas : list AccountInfo) (ix_data : list Z)
    (L : SimLedger) : Res (SimLedger * option (Pubkey * list Z)) :=
  if program =? caller then Err InvalidInstructionData
  else if bool_decide (ix_data = WITHDRAW_INTEGRATION_REWARDS) then
    match metas !! 2%nat with
    | Some destination => Ok (sim_pay_integration L caller (key destination), None)
    | None => Err NotEnoughAccountKeys
    end
  else
    let sol := drop 8 ix_data in
    Ok (L, Some (program, to_le_bytes 8 (from_le_bytes sol) ++ to_le_bytes 8 (2 * from_le_bytes sol) ++ to_le_bytes 8 1)).

Definition sim_cpi (caller : Pubkey) (ix : Instruction) (accounts : list AccountInfo)
    (seeds : SignerSeeds) (L : SimLedger) : Res (SimLedger * option (Pubkey * list Z)) :=
  match ix with
  | ProgramInstruction program metas ix_data => sim_program caller program metas ix_data L
  | TokenInitializeAccount3 _ _ _ | TokenTransfer _ _ _ _ | TokenTransferChecked _ _ _ _ _ _
  | TokenBurn _ _ _ _ => Ok (L, None)
  | _ =>
      match sim_system Zeroed ix L with
      | Some L' => Ok (L', None)
      | None => Err (OtherError 1)
      end
  end.

Lemma sim_cpi_bytes caller ix accounts seeds L L' ret :
  sim_cpi caller ix accounts seeds L = Ok (L', ret) ->
  match ret with Some (_, bytes) => Forall (fits 8) bytes | None => True end.
Proof.
  destruct ret as [[p bytes]|]; [|done]. destruct ix; cbn [sim_cpi]; unfold sim_program;
    repeat case_match; try done; intros [= _ _ <-].
  repeat constructor; by apply Z.mod_pos_bound.
Qed.

(** ** The runtime, and its laws *)
Definition sim_with (timestamp : Z) (sibling : option SiblingInstruction) : Runtime RdData := {|
  rt_profile := release_profile;
  rt_pda := sim_pda;
  rt_programs := sim_programs;
  rt_hash := sim_hash;
  minimum_balance := sim_rent;
  minimum_balance_u64 := sim_rent_u64;
  unix_timestamp := timestamp;
  get_stack_height := 1;
  invoke_cpi := sim_cpi;
  invoke_cpi_bytes := sim_cpi_bytes;
  unpack_token_account := sim_unpack_token;
  unpack_token_account_u64 := sim_unpack_token_u64;
  unpack_token_instruction := sim_unpack_token_instruction;
  unpack_token_instruction_u64 := sim_unpack_token_instruction_u64;
  sibling_instruction := sibling;
  deserialize_loader_state := sim_loader_state;
  resize_data := sim_resize
|}.

Lemma ID_not_system : ID <> 0.
Proof. discriminate. Qed.

Section Laws.
Context (timestamp : Z) (sibling : option SiblingInstruction).
#[local] Instance sim : Runtime RdData := sim_with timestamp sibling.

Lemma sim_integration_frame L caller destination k :
  owner (acct L k) = caller ->
  data (acct (sim_pay_integration L caller destination) k) = data (acct L k) /\
  owner (acct (sim_pay_integration L caller destination) k) = caller /\
  lamports (acct L k) <= lamports (acct (sim_pay_integration L caller destination) k).
Proof.
  intros Ho. unfold sim_pay_integration. destruct (data (acct L destination)); try (split_and!; done || lia).
  destruct (Z.eqb_spec (owner (acct L destination)) caller); [split_and!; done || lia|].
  rewrite owner_set_data, lamports_set_data. split_and!; [|done|lia].
  apply (f_equal data). apply acct_set_data_ne. congruence.
Qed.

(** A CPI is one of the System program's, a call of another program, or
    leaves the ledger alone. *)
Lemma sim_cpi_inv caller ix accounts seeds L L' ret :
  sim_cpi caller ix accounts seeds L = Ok (L', ret) ->
  sim_system Zeroed ix L = Some L' \/ L' = L \/
  exists destination, L' = sim_pay_integration L caller destination.
Proof.
  destruct ix; cbn [sim_cpi]; intros Hi;
    try (destruct (sim_system Zeroed _ L) eqn:E; [|done]; injection Hi as <- _; by left);
    try (injection Hi as <- _; by right; left).
  unfold sim_program in Hi. destruct (_ =? caller); [done|].
  destruct (bool_decide _); [destruct (metas !! 2%nat); [|done]|]; injection Hi as <- _; eauto.
Qed.

Lemma sim_runtime_laws : RuntimeLaws RdData sim.
Proof.
  eapply (system_laws Zeroed); [|done]. intros caller ix accounts seeds L L' ret Hi.
  destruct (is_system ix) eqn:Es.
  - cbn [invoke_cpi sim sim_with] in Hi. unfold sim_cpi in Hi.
    destruct ix; try discriminate Es; (destruct (sim_system _ _ _); [by injection Hi as <- _|done]).
  - intros k Ho. apply sim_cpi_inv in Hi as [Hi|[->|[destination ->]]].
    + by destruct ix.
    + split_and!; done || lia.
    + by apply sim_integration_frame.
Qed.

Lemma sim_resize_laws : ResizeLaws sim.
Proof.
  split; [intros d rest n d' Hr Hn|intros d n d' Hr]; cbn [resize_data sim sim_with] in Hr;
    unfold sim_resize in Hr; destruct (_ || _) eqn:E; try done.
  - rewrite (proj2 (Z.leb_le _ _) Hn) in Hr. by injection Hr as <-.
  - apply orb_false_iff in E as [_ E]. by apply Z.ltb_ge in E.
Qed.

Lemma sim_self_refused ix accounts seeds (L L' : SimLedger) ret :
  sim_cpi ID ix accounts seeds L = Ok (L', ret) -> self_invocation ID ix = true ->
  not_an_instruction ix = false.
Proof.
  destruct ix; try done. cbn [self_invocation sim_cpi]. unfold sim_program. intros Hi E.
  by rewrite E in Hi.
Qed.

(** Replacing an untyped account by a well-formed untyped one. *)
Lemma sim_typed_set (L : SimLedger) k a :
  ledger_typed L -> wf_account a -> typed (data a) = false ->
  ledger_typed (set_acct L k a) /\
  forall k', typed (data (acct (set_acct L k a) k')) = true -> owner (acct L k') = ID.
Proof.
  intros HL Ha Hd. split; [by apply ledger_typed_set; [..|rewrite Hd]|]. intros k'.
  destruct (decide (k = k')) as [->|Hne]; [by rewrite acct_set_eq, Hd|].
  rewrite acct_set_ne by done. apply HL.
Qed.

(** Changing the lamports of an account. *)
Lemma sim_typed_lamports (L : SimLedger) k n :
  ledger_typed L -> fits 64 n ->
  ledger_typed (set_lamports L k n) /\
  forall k', owner (acct (set_lamports L k n) k') = owner (acct L k').
Proof.
  intros HL Hn. split; [|intros k'; apply owner_set_lamports].
  destruct (ledger_wf_acct L k (proj1 HL)) as (? & ? & _). apply ledger_typed_set; [done|done|].
  apply HL.
Qed.

Lemma sim_wallet_untyped (L : SimLedger) k :
  ledger_typed L -> owner (acct L k) = 0 -> typed (data (acct L k)) = false.
Proof.
  intros HL Ho. destruct (typed _) eqn:E; [|done]. apply HL in E. rewrite Ho in E. discriminate.
Qed.

Lemma sim_integration_typed (L : SimLedger) destination :
  ledger_typed L ->
  ledger_typed (sim_pay_integration L ID destination) /\
  forall k, typed (data (acct (sim_pay_integration L ID destination) k)) = true ->
            owner (acct L k) = ID.
Proof.
  intros HL. unfold sim_pay_integration. destruct (data (acct L destination)) eqn:E;
    try (split; [exact HL|apply HL]).
  destruct (_ =? ID); [split; [exact HL|apply HL]|].
  destruct (ledger_wf_acct L destination (proj1 HL)) as (Hw & Hl & Hn). rewrite E in Hw, Hl.
  cbn [wf_data rd_data_len] in Hw, Hl. apply sim_typed_set; [done| |done].
  split_and!; [| |exact Hn].
  - cbn [data update wf_data]. rewrite !Forall_app.
    split_and!; [by apply Forall_take|apply to_le_bytes_ok|by apply Forall_drop].
  - cbn [data update rd_data_len]. unfold lenZ in *. rewrite !length_app, length_take, length_drop, length_to_le_bytes.
    unfold MAX_PERMITTED_DATA_LENGTH in *. lia.
Qed.

Lemma sim_cpi_typed ix accounts seeds (L L' : SimLedger) ret :
  sim_cpi ID ix accounts seeds L = Ok (L', ret) -> ledger_typed L ->
  ledger_typed L' /\ forall k, typed (data (acct L' k)) = true -> owner (acct L k) = ID.
Proof.
  intros Hi HL. pose proof (fun k => ledger_wf_lamports L k (proj1 HL)) as Hfit.
  apply sim_cpi_inv in Hi as [Hi|[->|[destination ->]]];
    [|split; [exact HL|apply HL]|by apply sim_integration_typed].
  destruct ix as [from to n space new_owner|account space|account new_owner|from to n| | | | |];
    cbn [sim_system] in Hi; try discriminate Hi; sim_inv.
  - destruct (sim_typed_lamports L from (lamports (acct L from) - n)) as [T1 T2];
      [done|specialize (Hfit from); unfold fits in *; lia|].
    edestruct (sim_typed_set _ to (MkAccount n new_owner false (Zeroed space)) T1) as [T3 T4];
      [|done|split; [exact T3|]; intros k Hk; apply T4 in Hk; by rewrite T2 in Hk].
    specialize (Hfit from). unfold wf_account, fits in *. cbn. lia.
  - by apply sim_typed_set; [done|split_and!; try done; apply Hfit|done].
  - apply sim_typed_set; [done| |]; cbn [data]; [|by apply sim_wallet_untyped].
    apply (ledger_wf_acct L account), HL.
  - destruct (sim_typed_lamports L from (lamports (acct L from) - n)) as [T1 T2];
      [done|specialize (Hfit from); unfold fits in *; lia|].
    unfold sim_move.
    edestruct (sim_typed_lamports _ to
      (lamports (acct (set_lamports L from (lamports (acct L from) - n)) to) + n) T1)
      as [T3 T4].
    { pose proof (Hfit to). pose proof (Hfit from). destruct (decide (from = to)) as [->|Hne].
      - rewrite lamports_set_lamports_eq. unfold fits in *. lia.
      - rewrite lamports_set_lamports_ne by done. unfold fits in *. lia. }
    split; [exact T3|]. intros k Hk. apply T3 in Hk. by rewrite T4, T2 in Hk.
Qed.

Lemma sim_laws : RdLaws sim.
Proof.
  split; [apply sim_runtime_laws|apply sim_resize_laws|exact ID_not_system|..].
  - intros ix accounts seeds L L' ret. apply sim_self_refused.
  - intros ix accounts seeds L L' ret Hi _. by eapply sim_cpi_typed.
  - intros ix accounts seeds L L' ret [Hi|[->|[destination ->]]]%sim_cpi_inv; [|done|].
    + by eapply sim_system_total.
    + unfold sim_pay_integration. repeat case_match; first [done | apply total_set_data].
Qed.
End Laws.
