(* ===== verification/ExamplesData.v ===== *)
(** * Concrete instances: data and arithmetic

    The theorems about reward shares, the burn rate, splits, recipients, the
    leaf bitmap, the integrations bitmap, settings and account creation,
    applied to concrete values at which all their hypotheses hold. *)

From Stdlib Require Import ZArith Lia.
From S2P Require Import Prelude Types BurnRate Runtime ProgramTools Borsh State RdAccounts.
From S2P Require Import RdConfig RdRewards RdIntegration Instruction Simulator Scenario.

Definition sim_now : Runtime RdData := sim_with 1700000000 None.

(** ** Reward shares and leaves *)
Definition share_5 : RewardShare := MkRewardShare 5 250000000 [0; 101; 205; 29].

Lemma reward_share_new_roundtrip_witness :
  exists r, Reward.new 5 250000000 true 100000000 = Some r /\ Reward.is_blocked r = true /\
    Reward.checked_economic_burn_rate r = Some 100000000.
Proof.
  destruct (reward_share_new_roundtrip 5 250000000 100000000 true) as [H _]; [lia|lia|].
  destruct H as (r & E & _ & _ & Hb & Hr & _); [unfold valid32, UnitShare32.MAX; lia|].
  exists r. auto.
Defined.

Lemma reward_share_setters_witness :
  Reward.is_blocked (Reward.set_is_blocked share_5 true) = true /\
  Reward.economic_burn_rate (Reward.set_is_blocked share_5 true) = 500000000.
Proof.
  destruct (reward_share_setters share_5 true 7) as (H1 & H2 & _).
  - split; [reflexivity|]. vm_compute. split; [discriminate|reflexivity].
  - unfold valid32, UnitShare32.MAX. lia.
  - split; [exact H1|]. rewrite H2. vm_compute. reflexivity.
Defined.

Lemma leaf_bytes_injective_witness :
  debt_leaf_bytes (MkSolanaValidatorDebt 3 10) <> debt_leaf_bytes (MkSolanaValidatorDebt 3 11).
Proof.
  intros E. apply (leaf_bytes_injective (MkSolanaValidatorDebt 3 10) (MkSolanaValidatorDebt 3 11)
                     share_5 share_5) in E; [discriminate E|..]; cbn; unfold fits; lia.
Defined.

(** ** The community burn rate: from 10% to 50%, static for 3 epochs, at the
    limit after 10 *)
Definition cbr_10 : CommunityBurnRateParameters :=
  MkCbr 500000000 3 10 400000000 8 100000000.

Lemma community_burn_rate_schedule_witness :
  exists p', @Cbr.compute_n release_profile 4 cbr_10 =
    Ok ([Some 100000000; Some 100000000; Some 100000000; Some 150000000], p') /\
    Cbr.next_burn_rate p' = Some 200000000.
Proof.
  destruct (community_burn_rate_schedule (H := release_profile)
              (cbr_default <| cached_next_burn_rate := 100000000 |>)
              500000000 3 10 (400000000, 8) cbr_10 4) as (p' & E & H);
    [reflexivity|unfold UnitShare32.MAX; lia|lia|lia|reflexivity|].
  exists p'. split; [rewrite E; reflexivity|rewrite H; reflexivity].
Defined.

Lemma cbr_inv_10 : cbr_inv cbr_10.
Proof. constructor; vm_compute; try split; first [reflexivity|discriminate]. Qed.

Lemma community_burn_rate_invariant_witness :
  cbr_inv cbr_10 /\ 100000000 <= cached_next_burn_rate cbr_10 <= UnitShare32.MAX.
Proof.
  destruct (community_burn_rate_invariant (H := release_profile) 100000000 500000000 3 10 cbr_10 cbr_10)
    as (H1 & H2 & _);
    [unfold valid32, UnitShare32.MAX; lia|unfold valid32, UnitShare32.MAX; lia
    |unfold fits; lia|unfold fits; lia|reflexivity|apply rtc_refl|].
  split; [exact H1|exact H2].
Defined.

Lemma community_burn_rate_converges_witness :
  exists rs p', @Cbr.compute_n debug_profile 10 cbr_10 = Ok (rs, p') /\
    cached_next_burn_rate p' = 500000000 /\ Cbr.mode p' = Limit.
Proof.
  destruct (community_burn_rate_converges (H := debug_profile) cbr_10 10) as (rs & p' & E & H1 & H2 & _);
    [apply cbr_inv_10|lia|cbn; lia|].
  exists rs, p'. split; [exact E|]. split; [exact H1|exact H2].
Defined.

(** ** Splits and recipients *)
Definition d_split : Distribution :=
  Dist.zeroed <| Dist.community_burn_rate := 100000000 |>
              <| Dist.collected_prepaid_2z_payments := 700 |>
              <| Dist.collected_2z_converted_from_sol := 300 |>.

Lemma d_split_wf : Dist.wf d_split.
Proof. apply (bool_decide_unpack _). vm_compute. exact I. Qed.

Lemma d_split_rates : rates_ok d_split.
Proof. split; vm_compute; split; discriminate. Qed.

(** A quarter of 1000 at the contributor's rate of 50%. *)
Lemma split_2z_amount_spec_witness :
  @Dist.split_2z_amount release_profile d_split share_5 = Ok (Some (125, 125)) /\
  125 + 125 = 250000000 * 1000 / UnitShare32.MAX.
Proof.
  pose proof (split_2z_amount_spec (H := release_profile) d_split share_5 1000 d_split_wf d_split_rates)
    as H.
  specialize (H ltac:(vm_compute; discriminate) ltac:(reflexivity)).
  destruct H as (E & _). split; [|reflexivity]. etransitivity; [exact E|vm_compute; reflexivity].
Defined.

Lemma split_2z_within_total_witness :
  exists splits,
    mapM (@Dist.split_2z_amount release_profile d_split) [share_5; share_5; share_5]
      = Ok (Some <$> splits) /\
    sumZ (fun s => s.1 + s.2) splits <= 1000.
Proof.
  apply (split_2z_within_total (H := release_profile) d_split [share_5; share_5; share_5] 1000
           d_split_wf d_split_rates); [reflexivity| |vm_compute; discriminate].
  repeat constructor; vm_compute; discriminate.
Defined.

Lemma recipient_shares_new_spec_witness :
  exists shares, Recipients.new [(21, 6000); (22, 4000)] = Some shares /\
    Recipients.active shares = [MkRecipientShare 21 6000; MkRecipientShare 22 4000].
Proof.
  eexists. split; [vm_compute; reflexivity|].
  apply (proj1 (recipient_shares_new_spec [(21, 6000); (22, 4000)] _
                  ltac:(repeat constructor; vm_compute; discriminate)) eq_refl).
Defined.

(** ** Bitmaps *)
Lemma leaf_bitmap_spec_witness :
  match try_process_remaining_data_leaf_index [0; 4] 11 with
  | Ok data' => leaf_bit data' 11 = true /\ leaf_bit data' 10 = true
  | _ => False
  end.
Proof.
  pose proof (leaf_bitmap_spec [0; 4] 11 ltac:(lia)) as H.
  specialize (H ltac:(repeat constructor; vm_compute; discriminate)).
  destruct (try_process_remaining_data_leaf_index [0; 4] 11) as [data'| |] eqn:E;
    [|vm_compute in E; discriminate E|vm_compute in E; discriminate E].
  destruct H as (_ & _ & _ & _ & H). rewrite !H by lia. split; reflexivity.
Defined.

Definition d_integrations : Distribution :=
  Dist.zeroed <| Dist.integrations_count_snapshot := 2 |>
              <| Dist.integrations_collected_count := 2 |>
              <| Dist.collected_integrations_bitmap := 3 |>.

(** ** Settings *)
Lemma apply_setting_sound_witness :
  config_ok (Config.zeroed <| Config.debt_accountant_key := 12 |>).
Proof.
  apply (apply_setting_sound (R := sim_now) Config.zeroed _ (Setting.DebtAccountant 12)).
  - unfold config_ok, cbr_ok, valid16. cbn. unfold UnitShare16.MAX. repeat split; try lia; left; reflexivity.
  - cbn. unfold fits. lia.
  - reflexivity.
Defined.

Lemma integration_gate_sound_witness :
  Dist.checked_is_integration_collected d_integrations 1 = Some true.
Proof.
  destruct (integration_gate_sound d_integrations) as [_ H].
  apply H; [|reflexivity|cbn; lia]. split; [reflexivity|].
  intros i Hi. unfold is_collected, uint_bit in Hi. apply andb_true_iff in Hi as [_ Hi].
  change (Z.testbit 3 (Z.of_nat i) = true) in Hi. change (Z.of_nat i < 2).
  apply Z.nle_gt. intros Hle. rewrite (testbit_above 3 2) in Hi by (unfold fits; lia).
  discriminate Hi.
Defined.

(** ** The wire format *)
#[local] Existing Instance sim_hash.
#[local] Instance sim_proof_codec : @ProofCodec sim_hash := pair (optional u32) (vec pubkey).

Definition pay_10 : @RevenueDistributionInstructionData sim_hash :=
  @PaySolanaValidatorDebt sim_hash 10 (Some 3, [77]).

Lemma instruction_data_roundtrip_witness :
  try_from_slice instruction_data (instruction_enc pay_10) = Some pay_10 /\
  try_from_slice instruction_data (instruction_enc pay_10 ++ [0]) = None.
Proof.
  destruct (instruction_data_roundtrip pay_10 [0]) as (H1 & _ & H2).
  - split; [apply (bool_decide_unpack (fits 64 10)); vm_compute; exact I|].
    split; [apply (bool_decide_unpack (fits 32 3)); vm_compute; exact I|].
    split; [split; [discriminate|reflexivity]|].
    repeat constructor. discriminate.
  - repeat constructor. discriminate.
  - split; [exact H1|apply H2; discriminate].
Defined.

(** ** Creating an account: address 31 already has 50 lamports *)
Definition L_create : Ledger RdData :=
  {[ 30 := MkAccount 10000000 0 false (Zeroed 0); 31 := MkAccount 50 0 false (Zeroed 0) ]}.

Lemma create_account_funding_witness :
  exists u s', @try_create_account RdData sim_now ID (Signer 30) (PdaSigner 31 []) 50 96 ID [] None
                 (MkSt L_create 0 [] [] None []) = Ok (u, s') /\
    lamports (@acct _ _ sim_programs (st_ledger s') 31) = (96 + 128) * 6960.
Proof.
  destruct (@try_create_account RdData sim_now ID (Signer 30) (PdaSigner 31 []) 50 96 ID [] None
              (MkSt L_create 0 [] [] None [])) as [[u s']| |] eqn:E;
    [|vm_compute in E; discriminate E|vm_compute in E; discriminate E].
  exists u, s'. split; [reflexivity|].
  destruct (create_account_funding (R := sim_now) (RuntimeLaws0 := sim_runtime_laws _ _)
              ID (Signer 30) (PdaSigner 31 []) 50 96 ID [] None) with
    (s := MkSt L_create 0 [] [] None []) (s' := s') (u := u) as [H _].
  - discriminate.
  - discriminate.
  - reflexivity.
  - discriminate.
  - discriminate.
  - exact E.
  - etransitivity; [exact H|vm_compute; reflexivity].
Defined.
