(* ===== verification/ExamplesHandlers.v ===== *)
(** * Concrete instances: handlers

    One small ledger, and every theorem about a handler applied to a run of
    that handler that succeeds on it (or on a variation of it), with all the
    hypotheses of the theorem discharged by computation. *)

From Stdlib Require Import ZArith Lia.
From S2P Require Import Prelude Types BurnRate Runtime ProgramTools Borsh State RdAccounts.
From S2P Require Import RdConfig RdDistribution RdRewards RdDebt RdSwap RdIntegration Instruction.
From S2P Require Import Program Simulator Scenario.

(** ** The ledger *)
Definition params0 : DistributionParameters :=
  MkDistributionParameters 60 60 1 (MkCbr 500000000 3 10 400000000 8 100000000)
    (MkFees 500 0 0 0 0).

Definition config0 : ProgramConfig :=
  Config.zeroed <| Config.next_completed_dz_epoch := 200 |>
    <| Config.bump_seed := 255 |> <| Config.swap_authority_bump_seed := 255 |>
    <| Config.swap_destination_2z_bump_seed := 255 |>
    <| Config.withdraw_sol_authority_bump_seed := 255 |>
    <| Config.admin_key := 11 |> <| Config.debt_accountant_key := 12 |>
    <| Config.rewards_accountant_key := 13 |> <| Config.contributor_manager_key := 14 |>
    <| Config.sol_2z_swap_program_id := 15 |>
    <| Config.distribution_parameters := params0 |>
    <| Config.relay_parameters := MkRelay 0 10000 |>
    <| Config.debt_write_off_feature_activation_epoch := 150 |>.

(** The transfer a withdrawal of SOL goes with. *)
Definition swap_destination : Pubkey := Eval vm_compute in
  default 0 (@Config.checked_swap_destination_2z_address sim_pda config0).
Definition sibling0 : SiblingInstruction :=
  MkSibling 6 [60; mainnet_DOUBLEZERO_MINT_KEY; swap_destination; 61]
    (12 :: to_le_bytes 8 500 ++ [8]).

#[local] Instance sim0 : Runtime RdData := sim_with 1700000000 (Some sibling0).
#[local] Instance sim0_laws : RdLaws sim0 := sim_laws _ _.

(** The debt of node 50, and its proof. *)
Definition proof3 : MerkleProof := (Some 3, [77]).
Definition debt50 : SolanaValidatorDebt := MkSolanaValidatorDebt 50 60.
Definition debt_root50 : Hash := Eval vm_compute in debt_root proof3 debt50.

Definition dist0 : Distribution :=
  Dist.zeroed <| Dist.dz_epoch := 190 |> <| Dist.bump_seed := 255 |>
    <| Dist.token_2z_pda_bump_seed := 255 |> <| Dist.community_burn_rate := 100000000 |>
    <| Dist.fee_parameters := MkFees 500 0 0 0 0 |>
    <| Dist.solana_validator_debt_merkle_root := debt_root50 |>
    <| Dist.total_solana_validators := 8 |> <| Dist.total_solana_validator_debt := 1000 |>
    <| Dist.total_contributors := 4 |>
    <| Dist.distribute_rewards_relay_lamports := 10000 |>
    <| Dist.calculation_allowed_timestamp := 1600000000 |>.

(** Debt finalized, write-offs enabled: one byte of bitmap for each. *)
Definition dist_debt : Distribution :=
  dist0 <| Dist.flags := 2 + 16 |>
    <| Dist.processed_solana_validator_debt_end_index := 1 |>
    <| Dist.processed_solana_validator_debt_write_off_start_index := 1 |>
    <| Dist.processed_solana_validator_debt_write_off_end_index := 2 |>.

Definition journal0 : Journal :=
  Jrnl.zeroed <| Jrnl.bump_seed := 255 |> <| Jrnl.token_2z_pda_bump_seed := 255 |>
    <| Jrnl.total_sol_balance := 5000 |> <| Jrnl.swapped_sol_amount := 2000 |>
    <| Jrnl.swap_2z_destination_balance := 9000 |>
    <| Jrnl.next_dz_epoch_to_sweep_tokens := 190 |> <| Jrnl.integrations_count := 2 |>.

Definition deposit50 : SolanaValidatorDeposit := Depo.zeroed <| Depo.node_id := 50 |>.

(** An account of the program, and a wallet. *)
Definition rd (lamports : Z) (d : RdData) : Account RdData := MkAccount lamports ID false d.
Definition wallet (lamports : Z) : Account RdData := MkAccount lamports 0 false (Zeroed 0).

(** Config 1, distribution 2, journal 3, deposit 4 and a payer 40. *)
Definition ledger_of (d : Distribution) (bits : list Z) (deposit_lamports : Z) : Ledger RdData :=
  {[ 1 := rd 5000000 (ConfigData config0 []);
     2 := rd 4000000 (DistributionData d bits);
     3 := rd 3000000 (JournalData journal0 []);
     4 := rd deposit_lamports (DepositData deposit50 []);
     40 := wallet 1000000000 ]}.

Definition readonly (k : Pubkey) : AccountInfo := MkInfo k false false.
Definition writable (k : Pubkey) : AccountInfo := MkInfo k false true.
Definition signer (k : Pubkey) : AccountInfo := MkInfo k true false.

(** ** Tactics *)

Lemma ok_run {A} (r : Res A) : is_ok r = true -> exists a, r = Ok a.
Proof. destruct r as [a| |]; [by exists a|done|done]. Qed.

(** Evaluates the run of the goal, which must succeed. *)
Ltac concrete_run E :=
  lazymatch goal with
  | |- exists L' trace, ?r = Ok (L', trace) /\ _ =>
      let L' := fresh "L'" in let trace := fresh "trace" in
      destruct (ok_run r) as [[L' trace] E];
      [vm_compute; reflexivity|exists L', trace; split; [exact E|]]
  end.
Ltac wf_ledger := apply (bool_decide_unpack _); vm_compute; exact I.
(** One of the facts of a theorem's conclusion. *)
Ltac take_fact E :=
  cbv zeta in E; decompose [ex and] E;
  first [match goal with H : ?P |- ?Q => constr_eq P Q; exact H end | assumption].
Ltac small := apply (bool_decide_unpack _); vm_compute; exact I.

(** ** Debt *)
Definition L_pay : Ledger RdData := ledger_of dist_debt [0; 0] (deposit_rent + 100).

Lemma pay_debt_spec_witness :
  exists L' trace,
    run (try_pay_solana_validator_debt [readonly 1; writable 2; writable 4; writable 3] 60 proof3)
      L_pay = Ok (L', trace) /\
    lamports (acct L' 4) = lamports (acct L_pay 4) - 60.
Proof.
  concrete_run E. apply pay_debt_spec in E; [|wf_ledger|small].
  take_fact E.
Defined.

(** The deposit cannot cover the debt, which is written off in its own distribution. *)
Definition L_write_off : Ledger RdData := ledger_of dist_debt [0; 0] (deposit_rent + 5).

Lemma write_off_spec_witness :
  exists L' trace,
    run (try_write_off_solana_validator_debt
           [readonly 1; signer 12; writable 2; writable 4; writable 2] 60 proof3) L_write_off
      = Ok (L', trace) /\
    (forall k, lamports (acct L' k) = lamports (acct L_write_off k)).
Proof.
  concrete_run E. apply write_off_spec in E; [|wf_ledger|small].
  take_fact E.
Defined.

(** Leaf 3 is bit 3 of the first byte. *)
Definition L_paid : Ledger RdData := ledger_of dist_debt [8; 0] (deposit_rent + 100).

Lemma processed_debt_closed_witness :
  run (try_pay_solana_validator_debt [readonly 1; writable 2; writable 4; writable 3] 60 proof3)
    L_paid <> Ok (L_paid, []).
Proof.
  destruct (processed_debt_closed (R := sim0) L_paid 2 dist_debt [8; 0] 3 proof3 60
              [readonly 1; writable 2; writable 4; writable 3] (L_paid, [])) as [H _];
    [wf_ledger|reflexivity|reflexivity|reflexivity|].
  apply H. reflexivity.
Defined.

Lemma withdraw_deposit_spec_witness :
  exists L' trace,
    run (try_withdraw_solana_validator_deposit [readonly 1; writable 4; signer 50; writable 70]) L_pay
      = Ok (L', trace) /\
    (forall k, data (acct L' k) = data (acct L_pay k)).
Proof.
  concrete_run E. apply withdraw_deposit_spec in E; [|wf_ledger].
  take_fact E.
Defined.

Definition L_enable : Ledger RdData := ledger_of (dist0 <| Dist.flags := 2 |>) [0] 0.

Lemma enable_write_off_spec_witness :
  exists L' trace,
    run (try_enable_solana_validator_debt_write_off [readonly 1; writable 2; signer 40]) L_enable
      = Ok (L', trace) /\
    trace = [SystemTransfer 40 2 (grown_shortfall L_enable 2 [0] 8)].
Proof.
  concrete_run E. apply enable_write_off_spec in E; [|wf_ledger].
  destruct E as (p & prest & d & bits & _ & _ & _ & Hd & _ & _ & _ & _ & _ & Ht).
  vm_compute in Hd. injection Hd as <- <-. exact Ht.
Defined.

Definition deposit_key : Pubkey := Eval vm_compute in (Depo.find_address 50).1.

Lemma initialize_deposit_spec_witness :
  exists L' trace,
    run (try_initialize_solana_validator_deposit [writable deposit_key; signer 40] 50) L_pay
      = Ok (L', trace) /\
    owner (acct L' (key (writable deposit_key))) = ID.
Proof.
  concrete_run E. apply initialize_deposit_spec in E.
  take_fact E.
Defined.

(** ** Distributions *)
Definition L_dist : Ledger RdData := ledger_of dist0 [] 0.

Lemma finalize_debt_spec_witness :
  exists L' trace,
    run (try_finalize_distribution_debt [readonly 1; signer 12; writable 2; signer 40]) L_dist
      = Ok (L', trace) /\
    trace = [SystemTransfer 40 2 (grown_shortfall L_dist 2 [] 8)].
Proof.
  concrete_run E. apply finalize_debt_spec in E; [|wf_ledger].
  destruct E as (p & prest & d & bits & _ & _ & _ & _ & Hd & _ & _ & _ & H).
  vm_compute in Hd. injection Hd as <- <-. destruct H as (_ & _ & Ht). exact Ht.
Defined.

Lemma configure_debt_spec_witness :
  exists L' trace,
    run (try_configure_distribution_debt [readonly 1; signer 12; writable 2] 8 1000 99) L_dist
      = Ok (L', trace) /\ trace = [].
Proof.
  concrete_run E. apply configure_debt_spec in E. take_fact E.
Defined.

Lemma configure_rewards_spec_witness :
  exists L' trace,
    run (try_configure_distribution_rewards [readonly 1; signer 13; writable 2] 4 99) L_dist
      = Ok (L', trace) /\ trace = [].
Proof.
  concrete_run E. apply configure_rewards_spec in E. take_fact E.
Defined.

Definition L_rewards : Ledger RdData :=
  ledger_of (dist_debt <| Dist.rewards_merkle_root := 99 |>) [0; 0] 0.

Lemma finalize_rewards_spec_witness :
  exists L' trace,
    run (try_finalize_distribution_rewards [readonly 1; writable 2; signer 40]) L_rewards
      = Ok (L', trace) /\
    trace = [SystemTransfer 40 2 (40000 + grown_shortfall L_rewards 2 [0; 0] 4)].
Proof.
  concrete_run E. apply finalize_rewards_spec in E; [|wf_ledger].
  destruct E as (p & prest & d & bits & me & _ & _ & Hd & _ & _ & _ & _ & _ & _ & _ & _ & Ht).
  vm_compute in Hd. injection Hd as <- <-. etransitivity; [exact Ht|vm_compute; reflexivity].
Defined.

Lemma set_economic_burn_rate_spec_witness :
  exists L' trace,
    run (try_set_distribution_economic_burn_rate [readonly 1; signer 13; writable 2] 250000000) L_dist
      = Ok (L', trace) /\ trace = [].
Proof.
  concrete_run E. apply set_economic_burn_rate_spec in E. take_fact E.
Defined.

(** The distribution of epoch 200, its token account and the journal's ATA. *)
Definition new_dist_key : Pubkey := Eval vm_compute in (Dist.find_address 200).1.
Definition new_dist_token_key : Pubkey := Eval vm_compute in (find_2z_token_pda_address new_dist_key).1.
Definition journal_token_key : Pubkey := Eval vm_compute in default 0 (checked_2z_token_pda_address 3 255).
Definition journal_ata_key : Pubkey := Eval vm_compute in get_associated_token_address 3 DOUBLEZERO_MINT_KEY.

Definition L_new : Ledger RdData :=
  <[journal_ata_key := MkAccount 0 6 false (Foreign (token_bytes DOUBLEZERO_MINT_KEY 3 700))]> L_dist.

Lemma initialize_distribution_spec_witness :
  exists L' trace,
    run (try_initialize_distribution
           [writable 1; signer 12; signer 40; writable new_dist_key; writable new_dist_token_key;
            readonly DOUBLEZERO_MINT_KEY; readonly 6; writable 3; writable journal_token_key;
            writable journal_ata_key]) L_new = Ok (L', trace) /\
    exists rate cbr tail prepaid,
      data (acct L' new_dist_key) =
        DistributionData (new_distribution config0 journal0 rate 255 255 3600 prepaid) tail /\
      data (acct L' 1) = ConfigData (config_after_distribution config0 cbr) [].
Proof.
  concrete_run E.
  apply (initialize_distribution_spec _ _ _ _ _ _ _ _ _ _ _ _ _ _ journal0 []) in E;
    [|reflexivity|reflexivity].
  destruct E as (p & prest & ig & g & rate & cbr & b & tb & L1 & r1 & L2 & r2 & tail & Hp & _ & _
    & _ & _ & _ & Hg & _ & _ & Hb & Htb & _ & _ & _ & _ & _ & Hc & Hd).
  change (ConfigData config0 [] = ConfigData p prest) in Hp. injection Hp as <- <-.
  vm_compute in Hg. injection Hg as <-.
  assert (b = 255) as -> by (symmetry; exact (f_equal snd Hb)).
  assert (tb = 255) as -> by (symmetry; exact (f_equal snd Htb)).
  exists rate, cbr, tail.
  destruct (unpack_token_account _) as [ata|e|]; [|destruct Hd as [-> _]|contradiction].
  - cbv zeta in Hd. destruct (_ =? 0).
    + destruct Hd as [-> _]. exists 0. split; [apply data_set_data_eq|exact Hc].
    + destruct Hd as (L4 & r4 & _ & -> & _). exists (token_amount ata).
      split; [apply data_set_data_eq|exact Hc].
  - exists 0. split; [apply data_set_data_eq|exact Hc].
Defined.

(** The balance of the journal's ATA, 700, is what that run transfers and records. *)
Example initialize_distribution_prepaid :
  match run (try_initialize_distribution
           [writable 1; signer 12; signer 40; writable new_dist_key; writable new_dist_token_key;
            readonly DOUBLEZERO_MINT_KEY; readonly 6; writable 3; writable journal_token_key;
            writable journal_ata_key]) L_new with
  | Ok (L', trace) =>
      last trace = Some (TokenTransfer journal_ata_key new_dist_token_key 3 700) /\
      match data (acct L' new_dist_key) with
      | DistributionData d _ => Dist.collected_prepaid_2z_payments d = 700
      | _ => False
      end
  | _ => False
  end.
Proof. vm_compute. done. Qed.

(** ** Rewards *)

(** Service key 80, managed by 81, pays 60% and 40% to wallets 21 and 22. *)
Definition contributor80 : ContributorRewards :=
  Contrib.zeroed <| Contrib.service_key := 80 |> <| Contrib.rewards_manager_key := 81 |>
    <| Contrib.recipient_shares := packed [(21, 6000); (22, 4000)] |>.

(** A quarter, burned at 50%. *)
Definition reward80 : RewardShare :=
  Eval vm_compute in default (MkRewardShare 0 0 []) (Reward.new 80 250000000 false 500000000).
Definition proof1 : MerkleProof := (Some 1, [78]).
Definition reward_root80 : Hash := Eval vm_compute in reward_root proof1 reward80.

Definition dist_token_key : Pubkey :=
  Eval vm_compute in default 0 (checked_2z_token_pda_address 2 255).
Definition ata21 : Pubkey := Eval vm_compute in get_associated_token_address 21 DOUBLEZERO_MINT_KEY.
Definition ata22 : Pubkey := Eval vm_compute in get_associated_token_address 22 DOUBLEZERO_MINT_KEY.

Definition dist_swept : Distribution :=
  dist_debt <| Dist.flags := 2 + 4 + 8 |> <| Dist.rewards_merkle_root := reward_root80 |>
    <| Dist.processed_rewards_start_index := 2 |> <| Dist.processed_rewards_end_index := 3 |>
    <| Dist.collected_prepaid_2z_payments := 1000 |>.

Definition L_distribute : Ledger RdData :=
  <[5 := rd 1000000 (ContributorData contributor80 [])]>
    (<[42 := wallet 500]> (ledger_of dist_swept [0; 0; 0] 0)).

(** What the theorem assumes of the distributions and contributors holds of all
    accounts of the ledger. *)
Definition data_sound (d : RdData) : bool :=
  match d with
  | DistributionData x _ =>
      bool_decide (0 <= Dist.economic_burn_rate x <= 1000000000) &&
      bool_decide (0 <= Dist.community_burn_rate x <= 1000000000)
  | ContributorData c _ =>
      forallb (fun s => (0 <=? share s) && (share s <=? 10000))
        (Recipients.active (Contrib.recipient_shares c)) &&
      (sumZ share (Recipients.active (Contrib.recipient_shares c)) <=? 10000)
  | _ => true
  end.

Lemma ledger_sound (L : Ledger RdData) k :
  forallb (fun p => data_sound (data p.2)) (map_to_list L) = true -> data_sound (data (acct L k)) = true.
Proof.
  intros Hall. unfold acct. destruct (L !! k) as [a|] eqn:E; [|reflexivity].
  rewrite forallb_forall in Hall. apply (Hall (k, a)).
  by apply list_elem_of_In, elem_of_map_to_list.
Qed.

Lemma sound_rates L k d bits :
  forallb (fun p => data_sound (data p.2)) (map_to_list L) = true ->
  data (acct L k) = DistributionData d bits -> rates_ok d.
Proof. intros Hall%(ledger_sound L k) E. rewrite E in Hall. cbn in Hall. by bool_to_prop. Qed.

Lemma sound_shares L k c rest :
  forallb (fun p => data_sound (data p.2)) (map_to_list L) = true ->
  data (acct L k) = ContributorData c rest -> shares_ok (Contrib.recipient_shares c).
Proof.
  intros Hall%(ledger_sound L k) E. rewrite E in Hall. cbn [data_sound] in Hall.
  apply andb_true_iff in Hall as [Hs Hsum%Z.leb_le]. split; [|done].
  apply Forall_forall. intros s Hin%list_elem_of_In. rewrite forallb_forall in Hs.
  specialize (Hs s Hin). bool_to_prop. by split.
Qed.

Lemma distribute_rewards_spec_witness :
  exists L' trace,
    run (try_distribute_rewards
           [readonly 1; writable 2; readonly 5; writable dist_token_key;
            readonly DOUBLEZERO_MINT_KEY; writable 42; readonly 6; writable ata21; writable ata22]
           250000000 500000000 proof1) L_distribute = Ok (L', trace) /\
    trace = [TokenTransfer dist_token_key ata21 2 75; TokenTransfer dist_token_key ata22 2 50;
             TokenBurn dist_token_key DOUBLEZERO_MINT_KEY 2 125].
Proof.
  concrete_run E.
  apply distribute_rewards_spec in E;
    [|wf_ledger|small
     |intros k d bits; apply sound_rates; vm_compute; reflexivity
     |intros k c crest; apply sound_shares; vm_compute; reflexivity].
  destruct E as (p & prest & d & bits & c & crest & leaf & bits' & r & total & burned & paid & L1
    & r1 & L2 & r2 & gained & left & _ & _ & Hd & _ & _ & _ & Hc & _ & Hr & _ & _ & _ & _ & Hs & _ & _
    & _ & _ & Ht & _).
  vm_compute in Hd, Hc. injection Hd as <- <-. injection Hc as <- <-.
  vm_compute in Hr. injection Hr as <-. vm_compute in Hs. injection Hs as <- <-.
  etransitivity; [exact Ht|vm_compute; reflexivity].
Defined.

Lemma set_rewards_manager_spec_witness :
  exists L' trace,
    run (try_set_rewards_manager [readonly 1; signer 14; writable 5] 82) L_distribute = Ok (L', trace) /\
    trace = [].
Proof. concrete_run E. apply set_rewards_manager_spec in E. take_fact E. Defined.

Lemma configure_contributor_rewards_spec_witness :
  exists L' trace,
    run (try_configure_contributor_rewards [readonly 1; writable 5; signer 81]
           (Recipients [(23, 10000)])) L_distribute = Ok (L', trace) /\
    trace = [].
Proof.
  concrete_run E. apply configure_contributor_rewards_spec in E.
  - take_fact E.
  - intros recipients [= <-]. repeat constructor. discriminate.
Defined.

Lemma verify_root_spec_witness :
  is_ok (run (try_verify_distribution_merkle_root [readonly 2] (KindRewardShare reward80) proof1)
           L_distribute) = true.
Proof.
  destruct (verify_root_spec L_distribute (readonly 2) [] (KindRewardShare reward80) proof1
              dist_swept [0; 0; 0]) as [H _]; [reflexivity|reflexivity|].
  etransitivity; [exact H|vm_compute; reflexivity].
Defined.

(** ** The swap *)
Definition swap_authority : Pubkey :=
  Eval vm_compute in default 0 (Config.checked_swap_authority_address config0).
Definition swap_token_key : Pubkey :=
  Eval vm_compute in (find_2z_token_pda_address swap_authority).1.
Definition withdraw_authority : Pubkey :=
  Eval vm_compute in default 0 (Config.checked_withdraw_sol_authority_address config0).

Definition L_sweep : Ledger RdData := ledger_of (dist_debt <| Dist.flags := 2 + 4 |>) [0; 0] 0.

Lemma sweep_spec_witness :
  exists L' trace,
    run (try_sweep_distribution_tokens
           [readonly 1; writable 2; writable 3; readonly 51; readonly 52; writable 53; readonly 15;
            writable dist_token_key; readonly swap_authority; writable swap_token_key]) L_sweep
      = Ok (L', trace) /\
    (length trace = 2)%nat.
Proof.
  concrete_run E. apply sweep_spec in E; [|wf_ledger].
  destruct E as (p & prest & d & bits & j & jrest & debt & _ & _ & Hd & _ & _ & _ & _ & Hdebt & H).
  vm_compute in Hd. injection Hd as <- <-. vm_compute in Hdebt. injection Hdebt as <-.
  destruct H as (L1 & L2 & ret & r2 & token & n & authority & balance & _ & _ & _ & _ & _ & _ & _ & _
    & _ & _ & _ & _ & _ & ->).
  reflexivity.
Defined.

Lemma withdraw_sol_spec_witness :
  exists L' trace,
    run (try_withdraw_sol [readonly 1; signer withdraw_authority; writable 3; writable 90] 1000) L_sweep
      = Ok (L', trace) /\
    trace = [].
Proof.
  concrete_run E. apply withdraw_sol_spec in E; [|wf_ledger|small]. take_fact E.
Defined.

(** ** Integrations *)
Definition integration70 : RewardsIntegration :=
  Integ.zeroed <| Integ.program_id := 70 |> <| Integ.registration_index := 1 |>.

Definition L_collect : Ledger RdData :=
  <[7 := rd 1000000 (IntegrationData integration70 [])]>
    (<[dist_token_key := MkAccount 0 6 false (Foreign (token_bytes DOUBLEZERO_MINT_KEY 2 100))]>
      (<[71 := MkAccount 1 2 true (Foreign [])]>
        (ledger_of (dist_debt <| Dist.integrations_count_snapshot := 2 |>) [0; 0] 0))).


Definition integration_key : Pubkey := Eval vm_compute in (Integ.find_address 71).1.

Lemma initialize_integration_spec_witness :
  exists L' trace,
    run (try_initialize_rewards_integration
           [readonly 1; signer 11; readonly 71; signer 40; writable integration_key; writable 3])
      L_collect = Ok (L', trace) /\
    data (acct L' (key (writable 3))) = JournalData (journal0 <| Jrnl.integrations_count := 3 |>) [].
Proof.
  concrete_run E.
  apply (initialize_integration_spec _ _ _ _ _ _ _ _ _ _ journal0 []) in E; [|reflexivity|reflexivity].
  destruct E as (p & prest & bump & tail & _ & _ & _ & _ & _ & _ & _ & Hj & _). exact Hj.
Defined.

(** ** Configuration *)
Lemma configure_program_spec_witness :
  exists L' trace,
    run (try_configure_program [writable 1; signer 11] (Setting.Flag (IsPaused true))) L_dist
      = Ok (L', trace) /\
    trace = [].
Proof. concrete_run E. apply configure_program_spec in E. take_fact E. Defined.

(** The program data account of the program names upgrade authority 99. *)
Definition program_data_key : Pubkey :=
  Eval vm_compute in (get_program_data_address BPF_LOADER_UPGRADEABLE ID).1.
Definition L_upgrade : Ledger RdData :=
  <[program_data_key := MkAccount 1 2 false (Foreign (program_data_bytes 99))]> L_dist.

Lemma set_admin_spec_witness :
  exists L' trace,
    run (try_set_admin [readonly program_data_key; signer 99; writable 1] 16) L_upgrade
      = Ok (L', trace) /\
    trace = [].
Proof. concrete_run E. apply set_admin_spec in E. take_fact E. Defined.

Lemma migrate_program_accounts_total_witness :
  run (try_migrate_program_accounts
         [readonly program_data_key; signer 99; readonly 3; writable 2; writable 2]) L_upgrade
    = Ok (migrate_account 2 (migrate_account 2 L_upgrade 2) 2, []).
Proof.
  destruct (migrate_program_accounts_total L_upgrade (readonly program_data_key) (signer 99) (readonly 3)
              [writable 2; writable 2] journal0 []) as [H _];
    [reflexivity|reflexivity|vm_compute; reflexivity|reflexivity|reflexivity| |exact H].
  assert (migratable L_upgrade (writable 2)) as Hm.
  { split; [reflexivity|]. split; [reflexivity|].
    exists dist0, []. split; [reflexivity|]. vm_compute. discriminate. }
  apply Forall_cons; split; [exact Hm|]. apply Forall_cons; split; [exact Hm|apply Forall_nil; exact I].
Defined.

Definition config_key : Pubkey := Eval vm_compute in Config.find_address.1.
Definition reserve_key : Pubkey := Eval vm_compute in (find_2z_token_pda_address config_key).1.

Lemma initialize_accounts_spec_witness :
  exists L' trace,
    run (try_initialize_program
           [signer 40; writable config_key; writable reserve_key; readonly DOUBLEZERO_MINT_KEY;
            readonly 6]) L_dist = Ok (L', trace) /\
    owner (acct L' (key (writable config_key))) = ID.
Proof.
  concrete_run E.
  pose proof (proj1 (initialize_accounts_spec _ _ _ _ _ _ _ _ _) E) as H. take_fact H.
Defined.

(** ** The program *)
#[local] Instance proof_codec0 : ProofCodec := pair (optional u32) (vec pubkey).

Lemma privileged_instructions_guarded_witness :
  authorized L_dist DebtAccountant [readonly 1; signer 12; writable 2].
Proof.
  destruct (ok_run (run (process (ConfigureDistributionDebt 8 1000 99)
                           [readonly 1; signer 12; writable 2]) L_dist)) as [s E];
    [vm_compute; reflexivity|].
  exact (privileged_instructions_guarded L_dist (ConfigureDistributionDebt 8 1000 99) DebtAccountant _ s eq_refl E).
Defined.

Definition L_paused : Ledger RdData :=
  <[1 := rd 5000000 (ConfigData (Config.set_is_paused config0 true) [])]> L_sweep.

Lemma paused_program_stops_witness :
  run (process SweepDistributionTokens
         [readonly 1; writable 2; writable 3; readonly 51; readonly 52; writable 53; readonly 15;
          writable dist_token_key; readonly swap_authority; writable swap_token_key]) L_paused
    <> Ok (L_paused, []).
Proof.
  apply (paused_program_stops L_paused SweepDistributionTokens); [|reflexivity].
  intros k p prest Hp. unfold acct, L_paused, L_sweep, ledger_of in Hp.
  destruct (decide (k = 1)) as [->|H1].
  { rewrite lookup_insert_eq in Hp. injection Hp as <- <-. reflexivity. }
  rewrite lookup_insert_ne in Hp by congruence.
  destruct (_ !! k) as [a|] eqn:E; [|discriminate Hp].
  apply elem_of_map_to_list, list_elem_of_In in E. vm_compute in E.
  repeat (destruct E as [E|E]; [injection E as <- <-; first [discriminate Hp|by destruct H1]|]).
  destruct E.
Defined.

Lemma entrypoint_dispatch_witness :
  run (try_process_instruction ID [readonly 1; signer 12; writable 2]
         (instruction_enc (ConfigureDistributionDebt 8 1000 99))) L_dist
  = run (process (ConfigureDistributionDebt 8 1000 99) [readonly 1; signer 12; writable 2]) L_dist.
Proof.
  destruct (entrypoint_dispatch L_dist [readonly 1; signer 12; writable 2]) as (_ & _ & H & _).
  apply H. repeat split; vm_compute; discriminate || reflexivity.
Defined.
