(* ===== verification/History.v ===== *)
(** * A history of the program

    From a ledger with three wallets to a distribution whose debt is paid, whose
    tokens are swept and whose reward is distributed: twenty-odd instructions as
    clients send them, evaluated one after the other, with what the theorems
    about executions say of the ledgers it goes through. *)

From Stdlib Require Import ZArith Lia.
From S2P Require Import Prelude Types BurnRate Runtime Lamports ProgramTools Borsh State RdAccounts.
From S2P Require Import RdConfig RdDistribution RdRewards RdDebt RdSwap RdIntegration Instruction.
From S2P Require Import Lifecycle Invariants Books Program Progress Executions Canonical Solvency.
From S2P Require Import Accounting Sequences.
From S2P Require Import Simulator Scenario.

#[local] Existing Instance sim_pda.
#[local] Existing Instance sim_programs.
#[local] Existing Instance sim_hash.
#[local] Existing Instance release_profile.
#[local] Instance history_laws t s : RdLaws (sim_with t s) := sim_laws t s.
#[local] Instance history_codec : ProofCodec := pair (optional u32) (vec pubkey).

(** An instruction, when it is executed and what precedes it in its
    transaction. *)
Record Tx := MkTx {
  tx_time : Z;
  tx_sibling : option SiblingInstruction;
  tx_accounts : list AccountInfo;
  tx_instruction : RevenueDistributionInstructionData
}.

Definition run_tx (tx : Tx) (L : SimLedger) : Res SimLedger :=
  '(L', _) ← run (try_process_instruction (R := sim_with (tx_time tx) (tx_sibling tx)) ID
                      (tx_accounts tx) (instruction_enc (tx_instruction tx))) L;
  mret L'.

Fixpoint run_txs (txs : list Tx) (L : SimLedger) : Res SimLedger :=
  match txs with
  | [] => mret L
  | tx :: txs => L' ← run_tx tx L; run_txs txs L'
  end.

(** ** Addresses *)
Definition writable (k : Pubkey) : AccountInfo := MkInfo k false true.
Definition readonly (k : Pubkey) : AccountInfo := MkInfo k false false.
Definition signer (k : Pubkey) : AccountInfo := MkInfo k true false.
Definition token_pda (k : Pubkey) : Pubkey := (find_2z_token_pda_address k).1.

Definition program_data_key : Pubkey :=
  Eval vm_compute in
    (get_program_data_address BPF_LOADER_UPGRADEABLE ID).1.
Definition config_key : Pubkey := Eval vm_compute in Config.find_address.1.
Definition reserve_key : Pubkey := Eval vm_compute in token_pda config_key.
Definition journal_key : Pubkey := Eval vm_compute in Jrnl.find_address.1.
Definition journal_token : Pubkey := Eval vm_compute in token_pda journal_key.
Definition journal_ata : Pubkey :=
  Eval vm_compute in get_associated_token_address journal_key DOUBLEZERO_MINT_KEY.
Definition dist_key0 : Pubkey := Eval vm_compute in (Dist.find_address 0).1.
Definition dist_token0 : Pubkey := Eval vm_compute in token_pda dist_key0.
Definition dist_key1 : Pubkey := Eval vm_compute in (Dist.find_address 1).1.
Definition dist_token1 : Pubkey := Eval vm_compute in token_pda dist_key1.
Definition deposit_key50 : Pubkey := Eval vm_compute in (Depo.find_address 50).1.
Definition contributor_key80 : Pubkey := Eval vm_compute in (Contrib.find_address 80).1.
Definition recipient_ata (k : Pubkey) : Pubkey := get_associated_token_address k DOUBLEZERO_MINT_KEY.

Definition mint : AccountInfo := readonly DOUBLEZERO_MINT_KEY.
Definition token_program : AccountInfo := readonly 6.
Definition payer : AccountInfo := MkInfo 40 true true.

(** The wallets: a payer, the prefunded deposit of node 50 and a relayer. *)
Definition genesis0 : SimLedger :=
  {[ 40 := MkAccount 100000000000 0 false (Zeroed 0);
     42 := MkAccount 0 0 false (Zeroed 0);
     deposit_key50 := MkAccount 5000000 0 false (Zeroed 0);
     program_data_key := MkAccount 1 BPF_LOADER_UPGRADEABLE false (Foreign (program_data_bytes 41)) ]}.

(** ** Instructions *)
Definition at_time (t : Z) (accounts : list AccountInfo) (ix : RevenueDistributionInstructionData) : Tx :=
  MkTx t None accounts ix.
Definition T0 : Z := 1700000000.

Definition configure (s : ProgramConfiguration) : Tx :=
  at_time T0 [writable config_key; signer 11] (ConfigureProgram s).

Definition setup : list Tx := [
  at_time T0 [payer; writable config_key; writable reserve_key; mint; token_program] InitializeProgram;
  at_time T0 [readonly program_data_key; signer 41; writable config_key] (SetAdmin 11);
  configure (Setting.Flag (IsPaused false));
  configure (Setting.DebtAccountant 12);
  configure (Setting.RewardsAccountant 13);
  configure (Setting.ContributorManager 14);
  configure (Setting.Sol2zSwapProgram 15);
  configure (Setting.SolanaValidatorFeeParameters 500 0 0 0 0 (replicate 28 0));
  configure (Setting.CalculationGracePeriodMinutes 60);
  configure (Setting.CommunityBurnRateParameters 500000000 3 10 (Some 100000000));
  configure (Setting.DistributeRewardsRelayLamports 10000);
  configure (Setting.MinimumEpochDurationToFinalizeRewards 1);
  configure (Setting.DistributionInitializationGracePeriodMinutes 60);
  configure (Setting.FeatureActivation SolanaValidatorDebtWriteOff 1);
  at_time T0 [payer; writable journal_key; writable journal_token; mint; token_program] InitializeJournal
].

(** The debt of node 50 at leaf 3, the reward of service key 80 at leaf 1. *)
Definition debt_proof : MerkleProof := (Some 3, [77]).
Definition debt_root3 : Hash := Eval vm_compute in debt_root (R := sim_with 0 None) debt_proof (MkSolanaValidatorDebt 50 60).
Definition reward_proof : MerkleProof := (Some 1, [78]).
Definition reward_root1 : Hash :=
  Eval vm_compute in
    match Reward.new 80 250000000 false 500000000 with
    | Some r => reward_root (R := sim_with 0 None) reward_proof r
    | None => 0
    end.

Definition new_distribution_tx (t : Z) (dist dist_token : Pubkey) : Tx :=
  at_time t [writable config_key; signer 12; payer; writable dist; writable dist_token; mint;
             token_program; writable journal_key; writable journal_token; writable journal_ata]
    InitializeDistribution.

Definition settle : list Tx := [
  new_distribution_tx (T0 + 3600) dist_key0 dist_token0;
  new_distribution_tx (T0 + 7200) dist_key1 dist_token1;
  at_time (T0 + 7200) [writable deposit_key50; payer] (InitializeSolanaValidatorDeposit 50);
  at_time (T0 + 7200) [readonly config_key; signer 12; writable dist_key0]
    (ConfigureDistributionDebt 8 60 debt_root3);
  at_time (T0 + 7200) [readonly config_key; signer 12; writable dist_key0; payer] FinalizeDistributionDebt;
  at_time (T0 + 7300) [readonly config_key; writable dist_key0; writable deposit_key50; writable journal_key]
    (PaySolanaValidatorDebt 60 debt_proof)
].

(** The SOL collected is swapped for 2Z: a withdrawal of 60 next to a transfer
    of 500 units, then the sweep. *)
Definition swap_authority_key : Pubkey := Eval vm_compute in find_swap_authority_address.1.
Definition swap_destination_key : Pubkey := Eval vm_compute in token_pda swap_authority_key.
Definition withdraw_authority_key : Pubkey :=
  Eval vm_compute in (find_withdraw_sol_authority_address 15).1.
Definition swap_transfer : SiblingInstruction :=
  MkSibling 6 [60; DOUBLEZERO_MINT_KEY; swap_destination_key; 61] (12 :: to_le_bytes 8 500 ++ [8]).

Definition sweep : list Tx := [
  at_time T0 [writable config_key; payer; readonly swap_authority_key; writable swap_destination_key;
              mint; token_program] InitializeSwapDestination;
  MkTx T0 (Some swap_transfer)
    [readonly config_key; signer withdraw_authority_key; writable journal_key; writable 90] (WithdrawSol 60);
  at_time (T0 + 7200) [readonly config_key; signer 13; writable dist_key0]
    (ConfigureDistributionRewards 4 reward_root1);
  at_time (T0 + 7200) [readonly config_key; signer 13; writable dist_key0]
    (SetDistributionEconomicBurnRate 250000000);
  at_time (T0 + 7400) [readonly config_key; writable dist_key0; payer] FinalizeDistributionRewards;
  at_time (T0 + 7400)
    [readonly config_key; writable dist_key0; writable journal_key; readonly 51; readonly 52; writable 53;
     readonly 15; writable dist_token0; readonly swap_authority_key; writable swap_destination_key]
    SweepDistributionTokens
].

(** Service key 80, managed by 81, pays 60% and 40% to wallets 21 and 22. *)
Definition distribute : list Tx := [
  at_time T0 [payer; writable contributor_key80] (InitializeContributorRewards 80);
  at_time T0 [readonly config_key; signer 14; writable contributor_key80] (SetRewardsManager 81);
  at_time T0 [readonly config_key; writable contributor_key80; signer 81]
    (ConfigureContributorRewards (Recipients [(21, 6000); (22, 4000)]));
  at_time (T0 + 7500)
    [readonly config_key; writable dist_key0; readonly contributor_key80; writable dist_token0; mint;
     writable 42; token_program; writable (recipient_ata 21); writable (recipient_ata 22)]
    (DistributeRewards 250000000 500000000 reward_proof)
].

Definition history : list Tx := setup ++ settle ++ sweep ++ distribute.

(** ** Histories are executions *)
Definition tx_ok (tx : Tx) : Prop :=
  bytes_ok (instruction_enc (tx_instruction tx)) /\
  Forall (fun info => fits 256 (key info)) (tx_accounts tx).

#[local] Instance tx_ok_dec tx : Decision (tx_ok tx).
Proof. unfold tx_ok. apply _. Defined.

Lemma run_tx_step tx L L' : tx_ok tx -> run_tx tx L = Ok L' -> instruction_step L L'.
Proof.
  intros [Hb Hk] E. unfold run_tx in E.
  destruct (run _ L) as [[L2 trace]| |] eqn:Er; [|discriminate E..]. injection E as ->.
  exact (step_run L L' (sim_with (tx_time tx) (tx_sibling tx)) (sim_laws _ _) history_codec
           _ _ _ eq_refl eq_refl eq_refl Hb Hk Er).
Qed.

Lemma run_txs_execution txs L L' : Forall tx_ok txs -> run_txs txs L = Ok L' -> rtc ledger_step L L'.
Proof.
  intros Hok. revert L. induction Hok as [|tx txs Htx _ IH]; intros L; cbn [run_txs].
  - intros [= ->]. done.
  - intros H. destruct (run_tx tx L) as [L1| |] eqn:E; [|discriminate H..].
    eapply rtc_l; [|exact (IH _ H)]. apply step_instruction. by apply (run_tx_step tx).
Qed.

(** The transactions run and none changes the total of the ledger. *)
Fixpoint balanced (txs : list Tx) (L : SimLedger) : bool :=
  match txs with
  | [] => true
  | tx :: txs =>
      match run_tx tx L with
      | Ok L' => (total_lamports L' =? total_lamports L) && balanced txs L'
      | _ => false
      end
  end.

Lemma run_txs_balanced txs L L' :
  Forall tx_ok txs -> balanced txs L = true -> run_txs txs L = Ok L' -> rtc balanced_step L L'.
Proof.
  intros Hok. revert L. induction Hok as [|tx txs Htx Hok IH]; intros L; cbn [run_txs balanced].
  - intros _ [= ->]. done.
  - intros Hb H. destruct (run_tx tx L) as [L1| |] eqn:E; [|discriminate H..].
    apply andb_prop in Hb as [Ht Hb]. apply Z.eqb_eq in Ht.
    eapply rtc_l; [|exact (IH _ Hb H)]. apply balanced_instruction; [|exact Ht].
    by apply (run_tx_step tx).
Qed.

Lemma run_txs_app a b L : run_txs (a ++ b) L = (L' ← run_txs a L; run_txs b L').
Proof.
  revert L. induction a as [|tx a IH]; intros L; [done|]. cbn [app run_txs].
  destruct (run_tx tx L) as [L1| |]; [apply IH|done|done].
Qed.

Lemma history_ok : Forall tx_ok history.
Proof. apply (bool_decide_unpack _). vm_compute. exact I. Qed.

Lemma genesis0_ok : genesis genesis0.
Proof.
  split; [apply (bool_decide_unpack _); vm_compute; exact I|].
  assert (map_Forall (fun _ a => typed (data a) = false) genesis0) as Ht
    by (apply (bool_decide_unpack _); vm_compute; exact I).
  intros k. unfold acct. destruct (genesis0 !! k) as [a|] eqn:E; [|done].
  by apply (map_Forall_lookup_1 _ _ _ _ Ht E).
Qed.

Lemma ok_res {A} (r : Res A) : is_ok r = true -> exists a, r = Ok a.
Proof. destruct r as [a| |]; [by exists a|done|done]. Qed.

(** The ledger a part of the history leaves, checked by computation. *)
Lemma history_ledger n (P : SimLedger -> bool) :
  match run_txs (take n history) genesis0 with Ok L => P L | _ => false end = true ->
  exists L, run_txs (take n history) genesis0 = Ok L /\ rtc ledger_step genesis0 L /\ P L = true.
Proof.
  destruct (run_txs (take n history) genesis0) as [L| |] eqn:E; [|done..]. intros HP. exists L.
  split; [done|]. split; [|done]. eapply run_txs_execution; [|exact E]. apply Forall_take, history_ok.
Qed.

(** What a computed part of the history leaves in the distribution of epoch 0. *)
Lemma history_distribution n (P : Distribution -> list Z -> bool) :
  match run_txs (take n history) genesis0 with
  | Ok L => match data (acct L dist_key0) with DistributionData d bits => P d bits | _ => false end
  | _ => false
  end = true ->
  exists L d bits, run_txs (take n history) genesis0 = Ok L /\ rtc ledger_step genesis0 L /\
    data (acct L dist_key0) = DistributionData d bits /\ P d bits = true.
Proof.
  intros (L & Hrun & Hreach & HP)%(history_ledger n (fun L =>
    match data (acct L dist_key0) with DistributionData d bits => P d bits | _ => false end)).
  destruct (data (acct L dist_key0)) as [n0|p rest|d bits|j rest|c rest|x rest|r rest|bytes] eqn:Ed; try done.
  by exists L, d, bits.
Qed.

(** The rest of the history, from there. *)
Lemma history_rest n L :
  run_txs (take n history) genesis0 = Ok L -> exists L', rtc ledger_step L L' /\ run_txs history genesis0 = Ok L'.
Proof.
  intros E.
  assert (exists L', run_txs history genesis0 = Ok L') as [L' E'].
  { assert (match run_txs history genesis0 with Ok _ => true | _ => false end = true) as H
      by (vm_compute; reflexivity).
    destruct (run_txs history genesis0) as [L'| |]; [by exists L'|done|done]. }
  exists L'. split; [|exact E']. pose proof E' as Er. rewrite <- (take_drop n history), run_txs_app, E in Er.
  eapply run_txs_execution; [|exact Er]. apply Forall_drop, history_ok.
Qed.

(** ** The whole history *)

(** The history runs to its end and leaves the distribution of epoch 0 with
    one debt paid, one reward distributed and everything finalized. *)
Example history_runs :
  match run_txs history genesis0 with
  | Ok L =>
      match data (acct L dist_key0) with
      | DistributionData d bits =>
          Dist.has_swept_2z_tokens d && (Dist.solana_validator_payments_count d =? 1)
          && (Dist.distributed_2z_amount d =? 15) && (Dist.burned_2z_amount d =? 15)
          && bool_decide (bits = [8; 2])
      | _ => false
      end
  | _ => false
  end = true.
Proof. vm_compute. reflexivity. Qed.

Definition is_paid (d : Distribution) (bits : list Z) : bool :=
  match debt_status d bits 3 with Paid => true | _ => false end.

Lemma is_paid_true d bits : is_paid d bits = true -> debt_status d bits 3 = Paid.
Proof. unfold is_paid. by destruct (debt_status d bits 3). Qed.

(** After the payment, instruction 21 of the history. *)
Ltac after_payment L d bits Hrun Hreach Hd Hp :=
  destruct (history_distribution 21 is_paid) as (L & d & bits & Hrun & Hreach & Hd & Hp);
  [vm_compute; reflexivity|apply is_paid_true in Hp].
Ltac reach_inv := exact (proj1 (execution_good _ _ (genesis_inv _ genesis0_ok) ltac:(eassumption))).

Lemma reachable_ledgers_consistent_witness :
  exists L d bits, run_txs (take 21 history) genesis0 = Ok L /\
    data (acct L dist_key0) = DistributionData d bits /\ ledger_inv L.
Proof.
  after_payment L d bits Hrun Hreach Hd Hp. exists L, d, bits. split; [exact Hrun|]. split; [exact Hd|].
  exact (reachable_ledgers_consistent genesis0 L genesis0_ok Hreach).
Defined.

(** When the debt has been paid and before the SOL is withdrawn, the journal
    records 60 lamports. *)
Lemma recorded_funds_are_backed_witness :
  exists L j rest, run_txs (take 21 history) genesis0 = Ok L /\
    data (acct L journal_key) = JournalData j rest /\ Jrnl.total_sol_balance j = 60 /\
    Jrnl.total_sol_balance j <= lamports (acct L journal_key).
Proof.
  destruct (history_ledger 21 (fun L => match data (acct L journal_key) with
    JournalData j _ => Jrnl.total_sol_balance j =? 60 | _ => false end)) as (L & Hrun & _ & Hj);
    [vm_compute; reflexivity|].
  assert (rtc balanced_step genesis0 L) as Hsteps.
  { eapply run_txs_balanced; [apply Forall_take, history_ok| |exact Hrun]. vm_compute. reflexivity. }
  pose proof (recorded_funds_are_backed genesis0 L journal_key genesis0_ok eq_refl Hsteps) as Hb.
  destruct (data (acct L journal_key)) as [| | |j rest| | | |] eqn:E; try discriminate Hj.
  exists L, j, rest. split; [exact Hrun|]. split; [exact E|]. split; [by apply Z.eqb_eq|exact Hb].
Defined.

(** After the withdrawal, instruction 23, the 60 lamports collected are swapped
    and the 500 units of 2Z paid for them are in the swap destination; at the
    end the distribution of epoch 0 is swept. *)
Lemma books_balance_witness :
  exists L, run_txs (take 23 history) genesis0 = Ok L /\
    distribution_sum Dist.collected_solana_validator_payments L = 60 /\
    Jrnl.swapped_sol_amount (journal_of L) = 60 /\
    congruent (2 ^ 64) (Jrnl.lifetime_swapped_2z_amount (journal_of L)) 500 /\
  exists L', run_txs history genesis0 = Ok L' /\
    congruent (2 ^ 64) 60
      (Jrnl.total_sol_balance (journal_of L') + Jrnl.swapped_sol_amount (journal_of L') + 60).
Proof.
  destruct (history_ledger 23 (fun L =>
    (distribution_sum Dist.collected_solana_validator_payments L =? 60)
    && (Jrnl.swapped_sol_amount (journal_of L) =? 60)
    && (Jrnl.swap_2z_destination_balance (journal_of L) =? 500)
    && (distribution_sum Dist.collected_2z_converted_from_sol L =? 0))) as (L & Hrun & Hreach & HP);
    [vm_compute; reflexivity|].
  destruct (history_ledger (length history) (fun L =>
    (distribution_sum Dist.collected_solana_validator_payments L =? 60)
    && (distribution_sum swept_debt L =? 60))) as (L' & Hrun' & Hreach' & HP'); [vm_compute; reflexivity|].
  bool_to_prop. rewrite firstn_all in Hrun'.
  destruct (books_balance genesis0 L genesis0_ok Hreach) as [_ Hswap].
  destruct (books_balance genesis0 L' genesis0_ok Hreach') as [Hsol _].
  exists L. split; [exact Hrun|]. split; [assumption|]. split; [assumption|]. split.
  - replace 500 with (500 + 0) by reflexivity. congruence.
  - exists L'. split; [exact Hrun'|]. congruence.
Defined.

(** At the end two epochs are completed and the next epoch to sweep is 1: the
    distribution of epoch 0 is swept, that of epoch 1 is not. *)
Lemma epochs_have_no_gap_witness :
  exists L, run_txs history genesis0 = Ok L /\
    Jrnl.next_dz_epoch_to_sweep_tokens (journal_of L) = 1 /\
    (exists d bits, data (acct L (Dist.find_address 0).1) = DistributionData d bits /\
       Dist.has_swept_2z_tokens d = true) /\
    (exists d bits, data (acct L (Dist.find_address 1).1) = DistributionData d bits /\
       Dist.has_swept_2z_tokens d = false).
Proof.
  destruct (history_ledger (length history) (fun L =>
    (Jrnl.next_dz_epoch_to_sweep_tokens (journal_of L) =? 1)
    && match data (acct L Config.find_address.1) with
       | ConfigData p _ => Config.next_completed_dz_epoch p =? 2 | _ => false end)) as (L & Hrun & Hreach & HP);
    [vm_compute; reflexivity|].
  rewrite firstn_all in Hrun. apply andb_prop in HP as [Hn%Z.eqb_eq Hp].
  destruct (epochs_have_no_gap genesis0 L genesis0_ok Hreach) as (Hall & Hexists & _ & _).
  destruct (data (acct L Config.find_address.1)) as [|p prest| | | | | |] eqn:Ep; try discriminate Hp.
  apply Z.eqb_eq in Hp. rewrite Hp in Hexists.
  exists L. split; [exact Hrun|]. split; [exact Hn|]. split.
  - destruct (Hexists 0) as (d & bits & E & He); [lia|]. exists d, bits. split; [exact E|].
    apply (Hall _ _ _ E); unfold umax; lia.
  - destruct (Hexists 1) as (d & bits & E & He); [lia|]. exists d, bits. split; [exact E|].
    apply Bool.not_true_is_false. intros Hs. apply (Hall _ _ _ E) in Hs; unfold umax in *; lia.
Defined.

Lemma finalized_is_final_witness :
  exists L L' d bits d' bits', run_txs (take 21 history) genesis0 = Ok L /\
    run_txs history genesis0 = Ok L' /\
    data (acct L dist_key0) = DistributionData d bits /\
    data (acct L' dist_key0) = DistributionData d' bits' /\ dist_le d bits d' bits'.
Proof.
  after_payment L d bits Hrun Hreach Hd Hp. destruct (history_rest 21 L Hrun) as (L' & Hrest & Hrun').
  destruct (finalized_is_final L L' dist_key0 d bits) as (d' & bits' & E & Hle);
    [reach_inv|exact Hrest|exact Hd|].
  exists L, L', d, bits, d', bits'. tauto.
Defined.

Lemma executions_refine_tables_witness :
  exists L L' d bits d' bits', run_txs (take 21 history) genesis0 = Ok L /\
    run_txs history genesis0 = Ok L' /\
    rtc settle_step (debt_status d bits) (debt_status d' bits') /\
    rtc distribute_once (distributed d bits) (distributed d' bits').
Proof.
  after_payment L d bits Hrun Hreach Hd Hp. destruct (history_rest 21 L Hrun) as (L' & Hrest & Hrun').
  destruct (executions_refine_tables L L' dist_key0 d bits) as (d' & bits' & E & Hs & Hr);
    [reach_inv|exact Hrest|exact Hd|].
  exists L, L', d, bits, d', bits'. tauto.
Defined.

Lemma accounts_unique_witness :
  exists L d bits, data (acct L dist_key0) = DistributionData d bits /\
    (forall k, data (acct L k) = DistributionData d bits -> k = dist_key0).
Proof.
  after_payment L d bits Hrun Hreach Hd Hp. exists L, d, bits. split; [exact Hd|]. intros k Hk.
  apply (accounts_unique genesis0 L); [exact genesis0_ok|exact Hreach|]. by rewrite Hd, Hk.
Defined.

Lemma counters_exact_witness :
  exists L d bits, run_txs (take 21 history) genesis0 = Ok L /\
    data (acct L dist_key0) = DistributionData d bits /\
    Dist.solana_validator_payments_count d + Dist.solana_validator_write_off_count d =
      Z.of_nat (length (marks bits (Dist.processed_solana_validator_debt_bitmap_range d))).
Proof.
  after_payment L d bits Hrun Hreach Hd Hp. exists L, d, bits. split; [exact Hrun|]. split; [exact Hd|].
  apply (counters_exact genesis0 L dist_key0 d bits genesis0_ok Hreach Hd).
Defined.

(** Paying the same debt again, at the end of the history. *)
Lemma settled_debt_is_final_witness :
  exists L', run_txs history genesis0 = Ok L' /\
    run (try_pay_solana_validator_debt (R := sim_with T0 None)
           [readonly config_key; writable dist_key0; writable deposit_key50; writable journal_key] 60
           debt_proof) L' <> Ok (L', []).
Proof.
  after_payment L d bits Hrun Hreach Hd Hp. destruct (history_rest 21 L Hrun) as (L' & Hrest & Hrun').
  exists L'. split; [exact Hrun'|].
  apply (settled_debt_is_final (R := sim_with T0 None) L L' dist_key0 d bits 3);
    [reach_inv|exact Hrest|exact Hd|reflexivity|by rewrite Hp|reflexivity].
Defined.

(** ** Before the payment, after instruction 20 *)
Definition payable (d : Distribution) (bits : list Z) : bool :=
  is_ok (mark_leaf bits (Dist.processed_solana_validator_debt_bitmap_range d) 3)
  && (Dist.solana_validator_payments_count d =? 0).

Lemma debt_refines_witness :
  exists d bits d' bits', dist_ok d bits /\ settle_step (debt_status d bits) (debt_status d' bits') /\
    Dist.solana_validator_payments_count d' = 1.
Proof.
  destruct (history_distribution 20 payable) as (L & d & bits & Hrun & Hreach & Hd & Hp);
    [vm_compute; reflexivity|].
  apply andb_prop in Hp as [[bits' Hm]%ok_res Hc%Z.eqb_eq].
  assert (dist_ok d bits) as Hok.
  { eapply inv_distribution; [|exact Hd]. reach_inv. }
  exists d, bits, (d <| Dist.collected_solana_validator_payments := 60 |>
                     <| Dist.solana_validator_payments_count := 1 |>), bits'.
  split; [exact Hok|]. split; [|reflexivity]. apply debt_refines; [exact Hok|].
  apply (op_pay _ _ 3); [lia|exact Hm|by rewrite Hc].
Defined.

(** What the payment needs of the four accounts. *)
Definition payable_accounts (L : SimLedger) : bool :=
  match data (acct L config_key), data (acct L dist_key0), data (acct L deposit_key50),
        data (acct L journal_key) with
  | ConfigData p _, DistributionData d bits, DepositData x _, JournalData j _ =>
      negb (Config.is_paused p) && Dist.is_debt_calculation_finalized d
      && (3 <? 8 * range_size (Dist.processed_solana_validator_debt_bitmap_range d))
      && match debt_status d bits 3 with Unpaid => true | _ => false end
      && (debt_root (R := sim_with T0 None) debt_proof (MkSolanaValidatorDebt (Depo.node_id x) 60)
          =? Dist.solana_validator_debt_merkle_root d)
      && (deposit_rent (R := sim_with T0 None) + 60 <=? lamports (acct L deposit_key50))
      && (Dist.collected_solana_validator_payments d + 60 <? 2 ^ 64)
      && (lamports (acct L journal_key) + 60 <? 2 ^ 64) && (Jrnl.total_sol_balance j + 60 <? 2 ^ 64)
  | _, _, _, _ => false
  end.

Lemma unpaid_debt_can_be_paid_witness :
  exists L L' d' bits', run_txs (take 20 history) genesis0 = Ok L /\
    run (try_pay_solana_validator_debt (R := sim_with T0 None)
           [readonly config_key; writable dist_key0; writable deposit_key50; writable journal_key] 60
           debt_proof) L = Ok (L', []) /\
    data (acct L' dist_key0) = DistributionData d' bits' /\ debt_status d' bits' 3 = Paid.
Proof.
  destruct (history_ledger 20 payable_accounts) as (L & Hrun & Hreach & Hp); [vm_compute; reflexivity|].
  unfold payable_accounts in Hp.
  destruct (data (acct L config_key)) as [|p prest| | | | | |] eqn:E0; try discriminate Hp.
  destruct (data (acct L dist_key0)) as [| |d bits| | | | |] eqn:E1; try discriminate Hp.
  destruct (data (acct L deposit_key50)) as [| | | | |x xrest| |] eqn:E2; try discriminate Hp.
  destruct (data (acct L journal_key)) as [| | |j jrest| | | |] eqn:E3; try discriminate Hp.
  rewrite !andb_true_iff, !Z.ltb_lt, Z.leb_le, Z.eqb_eq, negb_true_iff in Hp.
  destruct Hp as ((((((((? & ?) & ?) & Hs) & ?) & ?) & ?) & ?) & ?).
  destruct (unpaid_debt_can_be_paid (R := sim_with T0 None) L (readonly config_key) (writable dist_key0)
    (writable deposit_key50) (writable journal_key) [] 60 debt_proof 3 p prest d bits x xrest j jrest)
    as (L' & d' & bits' & Hr & Hd & Hpaid); try assumption; try reflexivity; [reach_inv| |lia|].
  - by destruct (debt_status d bits 3).
  - exists L, L', d', bits'. tauto.
Defined.

(** ** The distribution of the reward, instruction 31 *)
Definition distribute_accounts : list AccountInfo :=
  [readonly config_key; writable dist_key0; readonly contributor_key80; writable dist_token0; mint;
   writable 42; token_program; writable (recipient_ata 21); writable (recipient_ata 22)].

Definition distributable (L : SimLedger) : bool :=
  is_ok (run (try_distribute_rewards (R := sim_with T0 None) distribute_accounts 250000000 500000000
                reward_proof) L).

Lemma rewards_distributed_once_witness :
  exists L L1 trace, run_txs (take 30 history) genesis0 = Ok L /\
    run (try_distribute_rewards (R := sim_with T0 None) distribute_accounts 250000000 500000000
           reward_proof) L = Ok (L1, trace) /\
    run (try_distribute_rewards (R := sim_with T0 None) distribute_accounts 250000000 500000000
           reward_proof) L1 <> Ok (L1, []).
Proof.
  destruct (history_ledger 30 distributable) as (L & Hrun & Hreach & Hp); [vm_compute; reflexivity|].
  apply ok_res in Hp as [[L1 trace] Hp]. exists L, L1, trace. split; [exact Hrun|]. split; [exact Hp|].
  refine (proj2 (rewards_distributed_once (R := sim_with T0 None) L L1 L1 distribute_accounts
    distribute_accounts 250000000 250000000 500000000 500000000 reward_proof reward_proof trace
    (L1, []) _ _ _ Hp _ _ _)); [reach_inv|by split|by split|done|done|done].
Defined.

Definition rewardable (d : Distribution) (bits : list Z) : bool :=
  is_ok (mark_leaf bits (Dist.processed_rewards_bitmap_range d) 1) && (Dist.distributed_rewards_count d =? 0).

Lemma rewards_refine_witness :
  exists d bits d' bits', dist_ok d bits /\
    distribute_once (distributed d bits) (distributed d' bits') /\ Dist.distributed_rewards_count d' = 1.
Proof.
  destruct (history_distribution 30 rewardable) as (L & d & bits & Hrun & Hreach & Hd & Hp);
    [vm_compute; reflexivity|].
  apply andb_prop in Hp as [[bits' Hm]%ok_res Hc%Z.eqb_eq].
  assert (dist_ok d bits) as Hok.
  { eapply inv_distribution; [|exact Hd]. reach_inv. }
  exists d, bits, (d <| Dist.distributed_2z_amount := 15 |> <| Dist.burned_2z_amount := 15 |>
                     <| Dist.distributed_rewards_count := 1 |>), bits'.
  split; [exact Hok|]. split; [|reflexivity]. apply rewards_refine; [exact Hok|].
  apply (op_distribute _ _ 1); [lia|exact Hm|by rewrite Hc].
Defined.

(** The nine accounts of the distribution are all read. *)
Definition distribute_ix : RevenueDistributionInstructionData :=
  DistributeRewards 250000000 500000000 reward_proof.
Definition distribute_state (L : SimLedger) : Res (unit * St RdData) :=
  try_process_instruction (R := sim_with (T0 + 7500) None) ID distribute_accounts
    (instruction_enc distribute_ix) (initial_state L).

Lemma accounts_are_canonical_witness :
  exists L s, run_txs (take 30 history) genesis0 = Ok L /\ distribute_state L = Ok (tt, s) /\
    st_index s = 9%nat /\ canonical L distribute_ix distribute_accounts 9.
Proof.
  destruct (history_ledger 30 (fun L =>
    match distribute_state L with Ok (tt, s) => Nat.eqb (st_index s) 9 | _ => false end))
    as (L & Hrun & Hreach & Hp); [vm_compute; reflexivity|].
  destruct (distribute_state L) as [[[] s]| |] eqn:Es; try discriminate Hp. apply Nat.eqb_eq in Hp.
  exists L, s. split; [exact Hrun|]. split; [exact Es|]. split; [exact Hp|].
  destruct (accounts_are_canonical (R := sim_with (T0 + 7500) None) genesis0 L distribute_accounts
    (instruction_enc distribute_ix) s genesis0_ok Hreach Es) as (ix & Hix & Hc).
  change (instruction_enc distribute_ix) with (enc instruction_data distribute_ix) in Hix.
  rewrite (try_from_slice_enc instruction_data distribute_ix) in Hix.
  - injection Hix as <-. rewrite Hp in Hc. exact Hc.
  - repeat split; repeat constructor; done.
Defined.
