(* ===== verification/PassportHistory.v ===== *)
(** * A history of the passport program

    A concrete runtime for the passport program, and a history evaluated
    instruction by instruction: the program is set up, two users request access,
    one request is granted and the other denied; with what the theorems say of
    the ledgers it goes through. *)

From Stdlib Require Import ZArith Lia.
From S2P Require Import Prelude Types Runtime Lamports ProgramTools Rules Total Borsh State.
From S2P Require Import PassportInstruction PassportState PassportMessage PassportProcessor.
From S2P Require Import PassportRules.
From S2P Require Import PassportAccess PassportExecutions Simulator.
Import PassportConfig Passport.

(** ** The runtime *)
Definition pp_cpi (caller : Pubkey) (ix : Instruction) (accounts : list AccountInfo)
    (seeds : SignerSeeds) (L : Ledger PpData) : Res (Ledger PpData * option (Pubkey * list Z)) :=
  match sim_system PpZeroed ix L with
  | Some L' => Ok (L', None)
  | None => Err (OtherError 1)
  end.

Lemma pp_cpi_ok caller ix accounts seeds L L' ret :
  pp_cpi caller ix accounts seeds L = Ok (L', ret) -> sim_system PpZeroed ix L = Some L' /\ ret = None.
Proof. unfold pp_cpi. destruct (sim_system _ _ _); [|done]. by intros [= <- <-]. Qed.

Lemma pp_cpi_bytes caller ix accounts seeds L L' ret :
  pp_cpi caller ix accounts seeds L = Ok (L', ret) ->
  match ret with Some (_, bytes) => Forall (fits 8) bytes | None => True end.
Proof. by intros [_ ->]%pp_cpi_ok. Qed.

Definition pp_loader_state (d : PpData) : option LoaderState :=
  match d with PpForeign bytes => Some (loader_state_of_bytes bytes) | _ => None end.

#[local] Instance pp_sim : Runtime PpData := {|
  rt_profile := release_profile;
  rt_pda := sim_pda;
  rt_programs := sim_programs;
  rt_hash := sim_hash;
  minimum_balance := sim_rent;
  minimum_balance_u64 := sim_rent_u64;
  unix_timestamp := 1700000000;
  get_stack_height := 1;
  invoke_cpi := pp_cpi;
  invoke_cpi_bytes := pp_cpi_bytes;
  unpack_token_account _ := Err InvalidAccountData;
  unpack_token_account_u64 d a := fun H => match H in _ = r return match r with Ok a => fits 64 (token_amount a) | _ => True end with eq_refl => I end;
  unpack_token_instruction := sim_unpack_token_instruction;
  unpack_token_instruction_u64 := sim_unpack_token_instruction_u64;
  sibling_instruction := None;
  deserialize_loader_state := pp_loader_state;
  resize_data d n := Err (OtherError 1)
|}.

Lemma pp_sim_ok (ix : Instruction) (L L' : Ledger PpData) :
  sim_system PpZeroed ix L = Some L' -> pp_ledger_ok L ->
  pp_ledger_ok L' /\ forall k, pp_typed (data (acct L' k)) = true -> owner (acct L k) = ID.
Proof.
  intros Hi [Hs Ht Hty].
  pose proof (sim_system_typed PpZeroed pp_typed ID ix L L' (fun _ => eq_refl) ltac:(done) Hty Hi) as Hk.
  split; [split|].
  - by eapply sim_system_solvent.
  - by rewrite (sim_system_total _ _ _ _ Hi).
  - intros k Hk'. by apply Hk.
  - intros k Hk'. by apply Hk.
Qed.

#[local] Instance pp_sim_laws : PpLaws pp_sim.
Proof.
  split; [|done|].
  - eapply (system_laws PpZeroed); [|done]. intros caller ix accounts seeds L L' ret [Hi _]%pp_cpi_ok.
    by destruct ix.
  - intros ix accounts seeds L L' ret [Hi _]%pp_cpi_ok _. by eapply pp_sim_ok.
Qed.

(** ** Running a history *)
Definition pp_tx : Type := PassportIx.PassportInstructionData * list AccountInfo.

(** The instruction data, decoded and executed; the runtime refuses a change of
    the supply. *)
Definition pp_run_tx (tx : pp_tx) (L : Ledger PpData) : Res (Ledger PpData) :=
  '(L', _) ← run (try_process_instruction ID tx.2 (PassportIx.instruction_enc tx.1)) L;
  if total_lamports L' =? total_lamports L then mret L' else Err (OtherError 2).

Fixpoint pp_run_txs (txs : list pp_tx) (L : Ledger PpData) : Res (Ledger PpData) :=
  match txs with
  | [] => mret L
  | tx :: txs => L' ← pp_run_tx tx L; pp_run_txs txs L'
  end.

Definition pp_tx_ok (tx : pp_tx) : Prop :=
  bytes_ok (PassportIx.instruction_enc tx.1) /\ Forall (fun info => fits 256 (key info)) tx.2.

#[local] Instance pp_tx_ok_dec tx : Decision (pp_tx_ok tx).
Proof. unfold pp_tx_ok. apply _. Defined.

Lemma pp_run_tx_step tx L L' :
  pp_tx_ok tx -> pp_run_tx tx L = Ok L' ->
  exists ix, try_from_slice PassportIx.instruction_data (PassportIx.instruction_enc tx.1) = Some ix /\
    pp_step (Executed ix tx.2) L L'.
Proof.
  intros [Hb Hk] H. unfold pp_run_tx in H. destruct (run _ L) as [[L2 trace]| |] eqn:Er; [|done..].
  cbn in H. destruct (Z.eqb_spec (total_lamports L2) (total_lamports L)) as [Et|]; [|done].
  injection H as ->.
  destruct (try_from_slice PassportIx.instruction_data (PassportIx.instruction_enc tx.1)) as [ix|] eqn:E.
  - exists ix. split; [done|].
    exact (pp_executed _ L L' pp_sim pp_sim_laws ix _ _ trace eq_refl eq_refl eq_refl eq_refl Hb E Hk Er Et).
  - exfalso. unfold run, try_process_instruction in Er. rewrite Z.eqb_refl in Er.
    cbv [mbind M_bind ensure require lift mret Res_ret] in Er. cbn in Er. by rewrite E in Er.
Qed.

Lemma pp_run_txs_steps txs L L' : Forall pp_tx_ok txs -> pp_run_txs txs L = Ok L' -> rtc any_step L L'.
Proof.
  intros Hok. revert L. induction Hok as [|tx txs Htx _ IH]; intros L; cbn [pp_run_txs].
  - intros [= ->]. done.
  - intros H. destruct (pp_run_tx tx L) as [L1| |] eqn:E; [|discriminate H..].
    eapply rtc_l; [|exact (IH _ H)]. destruct (pp_run_tx_step _ _ _ Htx E) as (ix & _ & Hs). by eexists.
Qed.

(** ** The history *)
Definition pp_program_data_key : Pubkey :=
  Eval vm_compute in (get_program_data_address BPF_LOADER_UPGRADEABLE ID).1.
Definition pp_config_key : Pubkey := Eval vm_compute in find_address.1.
Definition request_key (service : Pubkey) : Pubkey := (PassportRequest.find_address service).1.

(** The wallets: a payer, the sentinel, a second user. *)
Definition pp_genesis0 : Ledger PpData :=
  {[ 40 := MkAccount 100000000000 0 false (PpZeroed 0);
     43 := MkAccount 60000000000 0 false (PpZeroed 0);
     50 := MkAccount 5000000 0 false (PpZeroed 0);
     pp_program_data_key := MkAccount 1 BPF_LOADER_UPGRADEABLE false (PpForeign (program_data_bytes 41)) ]}.

Definition rw (k : Pubkey) : AccountInfo := MkInfo k false true.
Definition ro (k : Pubkey) : AccountInfo := MkInfo k false false.
Definition sign (k : Pubkey) : AccountInfo := MkInfo k true true.

Definition signature64 : list Z := replicate 64 7.
Definition mode80 : PassportIx.AccessMode :=
  PassportIx.SolanaValidator (PassportIx.MkAttestation 81 80 signature64).
Definition mode90 : PassportIx.AccessMode :=
  PassportIx.SolanaValidatorWithBackupIds (PassportIx.MkAttestation 91 90 signature64) [92; 93].

Definition pp_history : list pp_tx := [
  (PassportIx.InitializeProgram, [sign 40; rw pp_config_key; ro 0]);
  (PassportIx.SetAdmin 11, [ro pp_program_data_key; sign 41; rw pp_config_key]);
  (PassportIx.ConfigureProgram (PassportIx.DoubleZeroLedgerSentinel 50), [rw pp_config_key; sign 11]);
  (PassportIx.ConfigureProgram (PassportIx.AccessRequestDeposit 1000000000 200000000),
     [rw pp_config_key; sign 11]);
  (PassportIx.ConfigureProgram (PassportIx.SolanaValidatorBackupIdsLimit 4), [rw pp_config_key; sign 11]);
  (PassportIx.RequestAccess mode80, [ro pp_config_key; sign 40; rw (request_key 80); ro 0]);
  (PassportIx.RequestAccess mode90, [ro pp_config_key; sign 43; rw (request_key 90); ro 0]);
  (PassportIx.GrantAccess, [ro pp_config_key; sign 50; rw (request_key 80); rw 40]);
  (PassportIx.DenyAccess, [ro pp_config_key; sign 50; rw (request_key 90)])
].

Lemma pp_history_ok : Forall pp_tx_ok pp_history.
Proof. apply (bool_decide_unpack _). vm_compute. exact I. Qed.

Lemma pp_genesis0_ok : pp_genesis pp_genesis0.
Proof.
  assert (map_Forall (fun _ a => 0 <= lamports a /\ pp_typed (data a) = false) pp_genesis0) as Hm
    by (apply (bool_decide_unpack _); vm_compute; exact I).
  assert (forall k, 0 <= lamports (acct pp_genesis0 k) /\
                    pp_typed (data (acct pp_genesis0 k)) = false) as Hk.
  { intros k. unfold acct. destruct (pp_genesis0 !! k) as [a|] eqn:E; [|done].
    by apply (map_Forall_lookup_1 _ _ _ _ Hm E). }
  split; [split|]; try (intros k; apply Hk).
  - vm_compute. reflexivity.
  - intros k E. destruct (Hk k) as [_ E']. congruence.
Qed.

(** What a computed part of the history leaves, and that it is reachable. *)
Lemma pp_history_ledger n (P : Ledger PpData -> bool) :
  match pp_run_txs (take n pp_history) pp_genesis0 with Ok L => P L | _ => false end = true ->
  exists L, pp_run_txs (take n pp_history) pp_genesis0 = Ok L /\ rtc any_step pp_genesis0 L /\ P L = true.
Proof.
  destruct (pp_run_txs (take n pp_history) pp_genesis0) as [L| |] eqn:E; [|done..]. intros HP. exists L.
  split; [done|]. split; [|done]. eapply pp_run_txs_steps; [|exact E]. apply Forall_take, pp_history_ok.
Qed.

(** After the history the payer has paid the fee and nothing else, and the
    sentinel has both the fee and the second request's deposit and rent. *)
Example pp_history_runs :
  match pp_run_txs pp_history pp_genesis0 with
  | Ok L =>
      bool_decide (lamports (acct L 40) + lamports (acct L pp_config_key) = 100000000000 - 200000000)
      && bool_decide (lamports (acct L 50) = 5000000 + 200000000 + 1000000000 + sim_rent 4176)
      && bool_decide (lamports (acct L (request_key 80)) = 0)
  | _ => false
  end = true.
Proof. vm_compute. reflexivity. Qed.

(** ** The theorems on the history *)
Ltac pp_reach := exact (pp_execution_inv _ _ pp_genesis0_ok ltac:(eassumption)).

Lemma ok_pair {A B} (m : Res (A * B)) : is_ok m = true -> exists a b, m = Ok (a, b).
Proof. destruct m as [[a b]| |]; [by exists a, b|done|done]. Qed.

Definition holds_request (L : Ledger PpData) (k : Pubkey) : bool :=
  match request_status L k with Pending _ _ => true | _ => false end.

Lemma holds_request_ok L k : holds_request L k = true ->
  exists r rest, data (acct L k) = PpRequest r rest /\
    request_status L k = Pending r (lamports (acct L k)) /\
    PassportRequest.request_fee_lamports r < lamports (acct L k).
Proof.
  unfold holds_request, request_status. destruct (data (acct L k)) as [| |r rest|]; try done.
  destruct (Z.ltb_spec (PassportRequest.request_fee_lamports r) (lamports (acct L k))); [|done].
  intros _. by exists r, rest.
Qed.

Lemma passport_ledgers_consistent_witness :
  exists L r, pp_run_txs (take 7 pp_history) pp_genesis0 = Ok L /\
    request_status L (request_key 80) = Pending r (lamports (acct L (request_key 80))) /\ pp_inv L.
Proof.
  destruct (pp_history_ledger 7 (fun L => holds_request L (request_key 80))) as (L & Hrun & Hreach & Hp);
    [vm_compute; reflexivity|].
  apply holds_request_ok in Hp as (r & rest & _ & Hr & _). exists L, r. split; [exact Hrun|].
  split; [exact Hr|]. exact (passport_ledgers_consistent _ _ pp_genesis0_ok Hreach).
Defined.

Definition grant_tx : pp_tx :=
  (PassportIx.GrantAccess, [ro pp_config_key; sign 50; rw (request_key 80); rw 40]).

Lemma grant_tx_ok : pp_tx_ok grant_tx.
Proof. apply (bool_decide_unpack _). vm_compute. exact I. Qed.

Definition grants (L : Ledger PpData) : bool :=
  holds_request L (request_key 80) &&
  match pp_run_tx grant_tx L with
  | Ok L' => lamports (acct L' (request_key 80)) =? 0
  | _ => false
  end.

Lemma access_requests_refine_witness :
  exists L L' e r balance, pp_step e L L' /\
    request_status L (request_key 80) = Pending r balance /\
    lamports (acct L' (request_key 80)) = 0 /\
    request_transition L (request_key 80) e (Pending r balance) (request_status L' (request_key 80)).
Proof.
  destruct (pp_history_ledger 7 grants) as (L & _ & Hreach & Hp); [vm_compute; reflexivity|].
  apply andb_prop in Hp as [(r & rest & _ & Hr & _)%holds_request_ok Hg].
  destruct (pp_run_tx grant_tx L) as [L'| |] eqn:E; [|discriminate Hg..]. apply Z.eqb_eq in Hg.
  destruct (pp_run_tx_step _ _ _ grant_tx_ok E) as (ix & _ & Hs).
  exists L, L', (Executed ix grant_tx.2), r, (lamports (acct L (request_key 80))). split; [exact Hs|]. split; [exact Hr|]. split; [exact Hg|].
  rewrite <- Hr. apply access_requests_refine; [pp_reach|exact Hs].
Defined.

Definition request_accounts : list AccountInfo := [ro pp_config_key; sign 40; rw (request_key 80); ro 0].

Lemma mode80_valid : PassportIx.access_mode_valid mode80.
Proof. split; [split; [done|done]|]. apply (bool_decide_unpack _). vm_compute. exact I. Qed.

Lemma request_access_spec_witness :
  exists L L' trace r rrest, run (try_request_access request_accounts mode80) L = Ok (L', trace) /\
    data (acct L' (request_key 80)) = PpRequest r rrest /\
    PassportRequest.checked_access_mode r = Some mode80.
Proof.
  destruct (pp_history_ledger 5 (fun L => is_ok (run (try_request_access request_accounts mode80) L)))
    as (L & _ & Hreach & Hp); [vm_compute; reflexivity|].
  apply ok_pair in Hp as (L' & trace & Hrun). assert (pp_inv L) as Hinv by pp_reach.
  destruct (request_access_spec (R := pp_sim) L L' request_accounts mode80 trace (pi_ok _ Hinv)
    (config_deposit_fits (R := pp_sim) L Hinv) mode80_valid Hrun)
    as (m0 & m1 & m2 & rest & p & r & rrest & [= <- <- <- <-] & _ & _ & _ & Hd & _ & _ & _ & _ & Hm & _).
  by exists L, L', trace, r, rrest.
Defined.

Lemma grant_access_spec_witness :
  exists L L' trace, run (try_grant_access grant_tx.2) L = Ok (L', trace) /\
    lamports (acct L' (request_key 80)) = 0 /\
    lamports (acct L' 50) = lamports (acct L 50) + 200000000.
Proof.
  destruct (pp_history_ledger 7 (fun L => is_ok (run (try_grant_access grant_tx.2) L) &&
    match data (acct L (request_key 80)) with
    | PpRequest r _ => (PassportRequest.request_fee_lamports r =? 200000000)
                       && (200000000 <? lamports (acct L (request_key 80)))
    | _ => false
    end)) as (L & _ & Hreach & Hp); [vm_compute; reflexivity|].
  apply andb_prop in Hp as [(L' & trace & Hrun)%ok_pair Hp]. assert (pp_inv L) as Hinv by pp_reach.
  exists L, L', trace. split; [exact Hrun|].
  destruct (grant_access_spec (R := pp_sim) L L' grant_tx.2 trace (pi_ok _ Hinv)
    (fun k r rest E => proj1 (request_fee_fits (R := pp_sim) L Hinv k r rest E)) Hrun)
    as (m0 & m1 & m2 & m3 & rest & p & r & Ha & Hmay & Hb & _ & _ & Hl).
  unfold grant_tx in Ha. cbn [snd] in Ha. injection Ha as <- <- <- <- <-.
  destruct (md_request _ _ _ _ _ _ Hmay) as [tail E].
  change (data (acct L (request_key 80)) = PpRequest r tail) in E. rewrite E in Hp.
  apply andb_prop in Hp as [Hfee%Z.eqb_eq Hheld%Z.ltb_lt].
  cbv zeta in Hl. cbn [key rw ro sign] in Hl. rewrite Hfee in Hl.
  destruct Hl as [_ Hl].
  - unfold saturating_sub. pose proof (po_supply _ (pi_ok _ Hinv)).
    change (@rt_programs PpData pp_sim) with sim_programs in *. lia.
  - rewrite !Hl. split; [by rewrite Z.eqb_refl|].
    replace (50 =? request_key 80) with false by (vm_compute; reflexivity). unfold gain.
    change (50 =? 50) with true. change (50 =? 40) with false.
    change (@rt_programs PpData pp_sim) with sim_programs in *. cbv iota. lia.
Defined.

Definition deny_accounts : list AccountInfo := [ro pp_config_key; sign 50; rw (request_key 90)].

Lemma deny_access_spec_witness :
  exists L L' trace, run (try_deny_access deny_accounts) L = Ok (L', trace) /\
    total_lamports L' = total_lamports L /\ lamports (acct L' (request_key 90)) = 0.
Proof.
  destruct (pp_history_ledger 8 (fun L => is_ok (run (try_deny_access deny_accounts) L)))
    as (L & _ & Hreach & Hp); [vm_compute; reflexivity|].
  apply ok_pair in Hp as (L' & trace & Hrun). assert (pp_inv L) as Hinv by pp_reach.
  exists L, L', trace. split; [exact Hrun|].
  destruct (deny_access_spec (R := pp_sim) L L' deny_accounts trace (pi_ok _ Hinv) Hrun)
    as (m0 & m1 & m2 & rest & p & r & [= <- <- <- <-] & _ & _ & _ & Ht & Hl).
  split; [exact Ht|]. rewrite Hl. by rewrite Z.eqb_refl.
Defined.

Definition decidable_request (L : Ledger PpData) : bool :=
  holds_request L (request_key 80) &&
  match data (acct L (request_key 80)), data (acct L pp_config_key) with
  | PpRequest r _, PpConfig p _ =>
      (PassportRequest.rent_beneficiary_key r =? 40) && negb (is_paused p) && (sentinel_key p =? 50)
  | _, _ => false
  end.

Lemma pending_request_can_be_decided_witness :
  exists L L', pp_inv L /\ run (try_grant_access grant_tx.2) L = Ok (L', []) /\
    lamports (acct L' (request_key 80)) = 0.
Proof.
  destruct (pp_history_ledger 7 decidable_request) as (L & _ & Hreach & Hp); [vm_compute; reflexivity|].
  assert (pp_inv L) as Hinv by pp_reach. unfold decidable_request in Hp.
  apply andb_prop in Hp as [(r & rrest & Er & _ & Hfee)%holds_request_ok Hp]. rewrite Er in Hp.
  destruct (data (acct L pp_config_key)) as [|p prest| |] eqn:Ep; try discriminate Hp.
  rewrite !andb_true_iff, !Z.eqb_eq, negb_true_iff in Hp. destruct Hp as [[Hb Hpause] Hs].
  pose proof (request_fee_fits (R := pp_sim) L Hinv _ _ _ Er) as [Hfee0 _].
  destruct (pending_request_can_be_decided (R := pp_sim) L (ro pp_config_key) (sign 50)
    (rw (request_key 80)) (rw 40) [] p prest r rrest (pi_ok _ Hinv) Ep Hpause eq_refl (eq_sym Hs)
    ltac:(by vm_compute) Er (conj Hfee0 (Z.lt_le_incl _ _ Hfee)) (eq_sym Hb) ltac:(by vm_compute))
    as [(L' & Hrun & Hz) _].
  by exists L, L'.
Defined.

Lemma passport_instruction_roundtrip_witness :
  try_from_slice PassportIx.instruction_data (PassportIx.instruction_enc (PassportIx.RequestAccess mode80))
    = Some (PassportIx.RequestAccess mode80).
Proof.
  apply (PassportIx.passport_instruction_roundtrip (PassportIx.RequestAccess mode80) []).
  - exact mode80_valid.
  - by constructor.
Defined.

(** ** A text for keys: their bits, one character each *)
Definition bits_text (k : Pubkey) : list Z :=
  (fun i => 49 + Z.b2z (Z.testbit k (Z.of_nat i))) <$> seq 0 256.

#[local] Instance bits_pubkey_text : PubkeyText := bits_text.

#[local] Instance bits_text_laws : PubkeyTextLaws.
Proof.
  split; unfold pubkey_text, bits_pubkey_text, bits_text.
  - intros k k' Hk Hk' E. apply Z.bits_inj'. intros i Hi.
    destruct (Z.lt_ge_cases i 256) as [Hlt|Hge].
    + apply (f_equal (fun l => l !! Z.to_nat i)) in E.
      rewrite !list_lookup_fmap, !lookup_seq_lt in E by lia. cbn in E. injection E as E.
      rewrite Z2Nat.id in E by done. by destruct (Z.testbit k i), (Z.testbit k' i).
    + by rewrite <- (Z.mod_small k (2 ^ 256)), <- (Z.mod_small k' (2 ^ 256)), !Z.mod_pow2_bits_high.
  - done.
  - intros k (i & E & _)%list_elem_of_fmap. unfold COMMA in E. destruct (Z.testbit k _); cbn in E; lia.
Qed.

Lemma access_request_message_commits_witness :
  access_request_message mode80 <> access_request_message mode90.
Proof.
  intros E. destruct (access_request_message_commits mode80 mode90) as [[=] _]; [..|exact E].
  - exact mode80_valid.
  - apply (bool_decide_unpack _). vm_compute. exact I.
Defined.
