(* ===== verification/MockHistory.v ===== *)
(** * The mock programs, run

    A concrete runtime for the mocks.  A history of the swap program: the
    registry is created and initialised, SOL is bought twice, and a sweep of the
    revenue-distribution program is served.  A ledger on which the integration
    serves a collection. *)

From Stdlib Require Import ZArith Lia.
From S2P Require Import Prelude Types Runtime ProgramTools Borsh State RdAccounts RdClient.
From S2P Require Import RdSwap RdIntegration Invariants Instruction MockSwap MockIntegration.
From S2P Require Import Simulator Scenario.
Import SwapSol2z.
Import (hints) MockRewards.

(** ** The runtime

    For any account contents: the System program, and other programs that leave
    the ledger alone. *)
Section Runtime.
Context {D : Type} `{AccountData D} (zero_filled : Z -> D) (unpack : D -> Res TokenAccount).
Context (unpack_u64 : forall d a, unpack d = Ok a -> fits 64 (token_amount a)).

Definition mock_cpi (caller : Pubkey) (ix : Instruction) (accounts : list AccountInfo)
    (seeds : SignerSeeds) (L : Ledger D) : Res (Ledger D * option (Pubkey * list Z)) :=
  if is_system ix then
    match sim_system zero_filled ix L with
    | Some L' => Ok (L', None)
    | None => Err (OtherError 1)
    end
  else Ok (L, None).

Lemma mock_cpi_bytes caller ix accounts seeds L L' ret :
  mock_cpi caller ix accounts seeds L = Ok (L', ret) ->
  match ret with Some (_, bytes) => Forall (fits 8) bytes | None => True end.
Proof. unfold mock_cpi. repeat case_match; try done; by intros [= _ <-]. Qed.

Definition mock_runtime : Runtime D := {|
  rt_profile := release_profile;
  rt_pda := sim_pda;
  rt_programs := sim_programs;
  rt_hash := sim_hash;
  minimum_balance := sim_rent;
  minimum_balance_u64 := sim_rent_u64;
  unix_timestamp := 1700000000;
  get_stack_height := 1;
  invoke_cpi := mock_cpi;
  invoke_cpi_bytes := mock_cpi_bytes;
  unpack_token_account := unpack;
  unpack_token_account_u64 := unpack_u64;
  unpack_token_instruction := sim_unpack_token_instruction;
  unpack_token_instruction_u64 := sim_unpack_token_instruction_u64;
  sibling_instruction := None;
  deserialize_loader_state _ := None;
  resize_data d n := Err (OtherError 1)
|}.

Lemma mock_runtime_laws : RuntimeLaws D mock_runtime.
Proof.
  eapply (system_laws zero_filled); [|done]. intros caller ix accounts seeds L L' ret Hi.
  cbn [invoke_cpi mock_runtime] in Hi. unfold mock_cpi in Hi. destruct (is_system ix).
  - destruct (sim_system _ _ _); [by injection Hi as <- _|done].
  - injection Hi as <- _. intros k Ho. split_and!; done || lia.
Qed.
End Runtime.

Definition ms_unpack (d : MsData) : Res TokenAccount :=
  match d with MsForeign bytes => unpack_token_bytes bytes | _ => Err InvalidAccountData end.

Lemma ms_unpack_u64 d a : ms_unpack d = Ok a -> fits 64 (token_amount a).
Proof. destruct d; try done. apply unpack_token_bytes_u64. Qed.

#[local] Instance ms_sim : Runtime MsData := mock_runtime MsZeroed ms_unpack ms_unpack_u64.
#[local] Instance ms_sim_laws : RuntimeLaws MsData ms_sim.
Proof. apply mock_runtime_laws. Qed.

#[local] Existing Instance sim_hash.
#[local] Instance ms_codec : ProofCodec := pair (optional u32) (vec pubkey).

(** ** The history *)
Definition registry_key : Pubkey := 53.
Definition registry_accounts (ix : Instruction) : list AccountInfo :=
  match ix with ProgramInstruction _ metas _ => metas | _ => [] end.
Definition registry_data (ix : Instruction) : list Z :=
  match ix with ProgramInstruction _ _ bytes => bytes | _ => [] end.

(** An instruction of the client, executed. *)
Definition ms_run (ix : Instruction) (L : Ledger MsData) : Res (Ledger MsData) :=
  '(L', _) ← run (try_process_instruction ID (registry_accounts ix) (registry_data ix)) L;
  mret L'.

Definition ms_genesis : Ledger MsData :=
  {[ registry_key := MkAccount 5000000 ID false
       (MsZeroed (data_end (D := MsData) FillsRegistry)) ]}.

Definition fill_a : Fill := MkFill 1000 2000.
Definition fill_b : Fill := MkFill 700 1400.

(** Initialised, then SOL bought twice. *)
Definition ms_bought : Ledger MsData :=
  Eval vm_compute in
    match
      L ← ms_run (create_and_initialize_fills_tracker (fun _ => 0) 40 registry_key).2 ms_genesis;
      L ← ms_run (buy_sol registry_key 31 32 90 2000 1000) L;
      ms_run (buy_sol registry_key 31 32 90 1400 700) L
    with Ok L => L | _ => ∅ end.

Example ms_bought_pending :
  match data (acct ms_bought registry_key) with
  | MsRegistry r [] => pending r = [fill_a; fill_b]
  | _ => False
  end.
Proof. by vm_compute. Qed.

Definition registry_bought : FillsRegistry :=
  Eval vm_compute in
    match data (acct ms_bought registry_key) with MsRegistry r _ => r | _ => zeroed end.

Lemma registry_bought_ok : registry_ok registry_bought.
Proof. by repeat split. Qed.

(** ** What the theorems say *)
Lemma fills_registry_queue_witness :
  exists r', record_fill registry_bought 9 4 = Ok r' /\
    pending r' = [fill_a; fill_b; MkFill 4 9] /\
    exists r'', drop_fill registry_bought = Ok r'' /\ pending r'' = [fill_b].
Proof.
  destruct (fills_registry_queue registry_bought 9 4 registry_bought_ok) as [Hr Hd].
  specialize (Hr eq_refl). destruct (record_fill registry_bought 9 4) as [r'| |] eqn:E;
    [|vm_compute in E; discriminate E..].
  exists r'. split; [done|]. destruct Hr as (_ & _ & ->). split; [by vm_compute|].
  destruct (pending registry_bought) eqn:Ep; vm_compute in Ep; [discriminate Ep|].
  injection Ep as <- <-. destruct Hd as (_ & r'' & Hd & _ & Hp).
  by exists r''.
Defined.

(** The sweep's side: the runtime whose swap program answers with two units of
    2Z per lamport, which is what the fill holds. *)
#[local] Instance rd_sim : Runtime RdData := sim_with 1700000000 None.

Definition keys := Client.DequeueFillsCpiAccounts.new ID registry_key.

Lemma dequeue_serves_sweep_witness :
  exists s L',
    try_process_instruction ID (Client.DequeueFillsCpiAccounts.metas keys)
      (DEQUEUE_FILLS_SELECTOR ++ to_le_bytes 8 1000) (initial_state ms_bought) = Ok (tt, s) /\
    match data (acct (st_ledger s) registry_key) with
    | MsRegistry r _ => pending r = [fill_b]
    | _ => False
    end /\
    dequeue_fills [] ID (Client.DequeueFillsCpiAccounts.journal_key keys) 255 1000
      (MkSt ∅ 0
         [meta_new_readonly (Client.DequeueFillsCpiAccounts.configuration_registry_key keys) false;
          meta_new_readonly (Client.DequeueFillsCpiAccounts.program_state_key keys) false;
          meta_new registry_key false; meta_new_readonly ID false] [] None [])
    = Ok (2000, L').
Proof.
  destruct (dequeue_serves_sweep (Rr := rd_sim) (Rm := ms_sim) ms_bought registry_key
    registry_bought [] fill_a [fill_b]) as (s & Hrun & (r & Hr & _ & Hp) & Hsweep).
  1-2: by vm_compute. 1: exact registry_bought_ok. 1-3: by vm_compute.
  exists s. eexists. split; [exact Hrun|].
  change (@rt_programs MsData ms_sim) with sim_programs in Hr.
  split; [by rewrite Hr|]. apply (Hsweep ∅ ∅); try reflexivity.
  apply (f_equal (fun r => match r with Ok (_, s) => st_return s | _ => None end)) in Hrun.
  rewrite <- Hrun. by vm_compute.
Defined.

Definition seeds_config : Config.ProgramConfig :=
  Config.zeroed <| Config.swap_authority_bump_seed := 255 |>
                <| Config.swap_destination_2z_bump_seed := 255 |>.

Lemma seeds_config_ok : config_seeds seeds_config.
Proof. split; [right|left]; by vm_compute. Qed.

(** The transfer of 2000 2Z, as the runtime presents it to the withdrawal. *)
Definition transfer_data : list Z := 12 :: to_le_bytes 8 2000 ++ [8].
Definition transfer_sibling : SiblingInstruction :=
  MkSibling spl_token_id
    [31; DOUBLEZERO_MINT_KEY; (find_2z_token_pda_address find_swap_authority_address.1).1; 32]
    transfer_data.

Lemma buy_feeds_withdraw_witness :
  exists L L' transfer bytes,
    run (try_buy_sol (buy_sol_metas registry_key 31 32 90) 2000 1000) L
      = Ok (L', [transfer; ProgramInstruction State.ID
          (Client.WithdrawSolAccounts.metas (Client.WithdrawSolAccounts.new ID 90)) bytes]) /\
    try_from_slice Instruction.instruction_data bytes = Some (WithdrawSol 1000) /\
    sibling_transfer_amount (R := sim_with 0 (Some transfer_sibling)) seeds_config = Ok 2000.
Proof.
  destruct (run (try_buy_sol (buy_sol_metas registry_key 31 32 90) 2000 1000) ms_bought)
    as [[L' trace]| |] eqn:E; [|vm_compute in E; discriminate E..].
  pose proof (buy_feeds_withdraw (Rm := ms_sim) ltac:(discriminate) ms_bought L' trace registry_key
    31 32 90 2000 1000 ltac:(unfold fits; lia) E)
    as (r & rrest & r' & bytes & ret & _ & _ & -> & _ & _ & Hdec & Hsib).
  do 4 eexists. split; [exact E|]. split; [exact Hdec|].
  apply (Hsib (sim_with 0 (Some transfer_sibling)) seeds_config transfer_sibling);
    [reflexivity|reflexivity|exact seeds_config_ok|discriminate
    |split_and!; vm_compute; reflexivity|reflexivity].
Defined.

(** ** The integration *)
Definition mi_unpack (d : MockRewards.MiData) : Res TokenAccount :=
  match d with
  | MockRewards.MiForeign bytes => unpack_token_bytes bytes
  | _ => Err InvalidAccountData
  end.

Lemma mi_unpack_u64 d a : mi_unpack d = Ok a -> fits 64 (token_amount a).
Proof. destruct d; try done. apply unpack_token_bytes_u64. Qed.

#[local] Instance mi_sim : Runtime MockRewards.MiData :=
  mock_runtime MockRewards.MiZeroed mi_unpack mi_unpack_u64.

(** Epoch 5: the mock's distribution, its bucket, the destination and the parent. *)
Definition mi_ledger : Ledger MockRewards.MiData :=
  {[ 60 := MkAccount 1 MockRewards.ID false
             (MockRewards.MiDistribution (MockRewards.MkIntegrationDistribution 5 255) []);
     61 := MkAccount 1 6 false
             (MockRewards.MiForeign (token_bytes DOUBLEZERO_MINT_KEY 60 1000));
     62 := MkAccount 1 6 false
             (MockRewards.MiForeign (token_bytes DOUBLEZERO_MINT_KEY 63 0));
     63 := MkAccount 1 State.ID false
             (MockRewards.MiParent (Dist.zeroed <| Dist.dz_epoch := 5 |>) []) ]}.

Lemma collection_served_witness :
  exists L' trace,
    run (MockRewards.collection 60 61 62 63) mi_ledger = Ok (L', trace) /\
    trace = [TokenTransfer 61 62 60 1000].
Proof.
  do 2 eexists. split; [|reflexivity].
  apply (MockRewards.collection_served (R := mi_sim)).
  do 7 eexists. cbv zeta. split_and!; vm_compute; reflexivity.
Defined.
